(** * BitBadges builder: address derivation, address conversion, token
    registry and transaction validation

    A shallow embedding of the TypeScript sources

    - [src/tools/utilities/validateTransaction.ts] (the rule validator),
    - [src/sdk/addressGenerator.ts] (module-address derivation),
    - [src/sdk/addressUtils.ts] (0x / bb1 conversion),
    - [src/sdk/coinRegistry.ts] (the coin registry),
    - [src/tools/utilities/convertAddress.ts], [validateAddress.ts] and
      [lookupTokenInfo.ts] (the address and registry tools),
    - [src/tools/components/generateBackingAddress.ts],
    - [src/tools/builders/buildFungibleToken.ts], [buildNFTCollection.ts]
      and [buildSmartToken.ts] (the transaction builders),

    together with the parts of the JavaScript host they call: [String]
    methods, [JSON.parse], [Buffer] hex coding, SHA-256 and the [bech32]
    package.

    Conventions.  A JavaScript string is represented by the bytes of its
    UTF-8 encoding (a Rocq [string]); every string operation the sources
    use ([startsWith], [includes], [split], [slice], [===]) is applied to
    ASCII patterns only, for which the byte view and the UTF-16 view
    agree.  Case conversion and hex decoding are modelled on ASCII text
    ([ascii_text]).  A value that may be [undefined] is an [option].
    The call stack of the host is not modelled. *)

From Stdlib Require Import ZArith NArith List String Ascii Bool Arith Lia Btauto.
From Stdlib Require Import DecimalString.
Import ListNotations.

Local Open Scope string_scope.
Local Open Scope list_scope.

(* ================================================================== *)
(** * JavaScript strings *)
(* ================================================================== *)

(** The double-quote character, for messages that contain one. *)
Definition dquote : string := String (ascii_of_nat 34) EmptyString.

(** [s.startsWith(p)] *)
Fixpoint String_startsWith (s p : string) {struct p} : bool :=
  match p, s with
  | EmptyString, _ => true
  | String _ _, EmptyString => false
  | String a p', String b s' => Ascii.eqb a b && String_startsWith s' p'
  end.

(** [s.includes(sub)] *)
Fixpoint String_includes (s sub : string) : bool :=
  String_startsWith s sub ||
  match s with
  | EmptyString => false
  | String _ rest => String_includes rest sub
  end.

(** [s.slice(start)] for a non-negative [start]. *)
Fixpoint String_slice (start : nat) (s : string) : string :=
  match start, s with
  | O, _ => s
  | S _, EmptyString => EmptyString
  | S n, String _ rest => String_slice n rest
  end.

(** [s.split(sep)] for a one-character separator: [cur] is the segment
    read so far. *)
Fixpoint String_split_from (sep : ascii) (s cur : string) : list string :=
  match s with
  | EmptyString => [cur]
  | String c rest =>
      if Ascii.eqb c sep
      then cur :: String_split_from sep rest EmptyString
      else String_split_from sep rest (cur ++ String c EmptyString)
  end.

Definition String_split (s : string) (sep : ascii) : list string :=
  String_split_from sep s EmptyString.

(** [arr.includes(x)] on an array of strings. *)
Definition Array_includes (arr : list string) (x : string) : bool :=
  existsb (String.eqb x) arr.

(** Decimal rendering of an array index, as a template literal does. *)
Definition string_of_nat (n : nat) : string :=
  NilEmpty.string_of_uint (Nat.to_uint n).

(** [arr.forEach((item, index) => ...)] where the callback only pushes
    onto one shared array: the pushes of all calls, in order. *)
Section ForEach.
Context {A B : Type}.
Variable f : A -> nat -> list B.

Fixpoint forEach_from (l : list A) (index : nat) : list B :=
  match l with
  | [] => []
  | item :: rest => f item index ++ forEach_from rest (S index)
  end.

Definition forEach (l : list A) : list B := forEach_from l 0.
End ForEach.

(* ================================================================== *)
(** * JSON values *)
(* ================================================================== *)

(** The value [JSON.parse] returns.  A number keeps the text of its
    literal; an object is the list of its own properties in enumeration
    order. *)
#[warnings="-register-all"]
Inductive json : Type :=
| JNull
| JBool (b : bool)
| JNumber (literal : string)
| JString (s : string)
| JArray (items : list json)
| JObject (entries : list (string * json)).

(** What the host decides and this development does not look into:
    IEEE-754 doubles and the wording of the engine's syntax errors. *)
Class Engine : Type := {
  (** the double a JSON number literal denotes is [+0] or [-0] *)
  Number_isZero : string -> bool;
  (** [String(x)] for the double a JSON number literal denotes *)
  Number_toString : string -> string;
  (** [error.message] of the [SyntaxError] that [JSON.parse] throws *)
  SyntaxError_message : string -> string
}.

(** Property read [v.key], for the validator's field names (none of
    which is an array index, [length] or a prototype member): only a
    plain object has it. *)
Fixpoint assoc (key : string) (entries : list (string * json)) : option json :=
  match entries with
  | [] => None
  | (k, v) :: rest => if String.eqb k key then Some v else assoc key rest
  end.

Definition get (v : json) (key : string) : option json :=
  match v with
  | JObject entries => assoc key entries
  | _ => None
  end.

(** [key in v] *)
Definition has (v : json) (key : string) : bool :=
  match get v key with Some _ => true | None => false end.

(** [typeof v] *)
Definition typeof (v : json) : string :=
  match v with
  | JNull => "object"
  | JBool _ => "boolean"
  | JNumber _ => "number"
  | JString _ => "string"
  | JArray _ => "object"
  | JObject _ => "object"
  end.

(** [typeof v === 'object'] *)
Definition typeof_object (v : json) : bool :=
  match v with
  | JNull | JArray _ | JObject _ => true
  | _ => false
  end.

(** [v === true] *)
Definition is_true (v : option json) : bool :=
  match v with Some (JBool true) => true | _ => false end.

(** [v === s] for a string constant [s] *)
Definition is_string (v : option json) (s : string) : bool :=
  match v with Some (JString x) => String.eqb x s | _ => false end.

(** [Array.isArray(v) && v.length > 0] and [... && v.length === 0] *)
Definition nonempty_array (v : option json) : bool :=
  match v with Some (JArray (_ :: _)) => true | _ => false end.

Definition empty_array (v : option json) : bool :=
  match v with Some (JArray []) => true | _ => false end.

(** [Object.entries(v)] for a value whose [typeof] is ['object']. *)
Definition Object_entries (v : json) : list (string * json) :=
  match v with
  | JObject entries => entries
  | JArray items => forEach (fun item index => [(string_of_nat index, item)]) items
  | _ => []
  end.


(* ================================================================== *)
(** * JSON.parse *)
(* ================================================================== *)

(** The JSON grammar of ECMA-404, read in two passes that are both
    structural, so parsing is total: a character automaton that cuts the
    text into tokens, and a stack automaton that builds the value. *)

Inductive token : Type :=
| TLBrace | TRBrace | TLBracket | TRBracket | TColon | TComma
| TTrue | TFalse | TNull
| TString (s : string)
| TNumber (literal : string).

Definition char_code (c : ascii) : N := N_of_ascii c.

Definition char_between (lo hi : N) (c : ascii) : bool :=
  (lo <=? char_code c)%N && (char_code c <=? hi)%N.

Definition is_digit (c : ascii) : bool := char_between 48 57 c.

(** Insignificant whitespace: space, tab, line feed, carriage return. *)
Definition is_json_ws (c : ascii) : bool :=
  let n := char_code c in
  (n =? 32)%N || (n =? 9)%N || (n =? 10)%N || (n =? 13)%N.

Definition snoc (s : string) (c : ascii) : string := s ++ String c EmptyString.

(** ** Number literals: an optional minus sign; an integer part that is
    0 or starts with a digit from 1 to 9; an optional fraction (a dot and
    one or more digits); an optional exponent (e or E, an optional sign,
    one or more digits). *)

Fixpoint all_digits (s : string) : bool :=
  match s with
  | EmptyString => true
  | String c rest => is_digit c && all_digits rest
  end.

(** one or more digits and nothing else *)
Definition digits1 (s : string) : bool :=
  match s with
  | EmptyString => false
  | _ => all_digits s
  end.

Definition valid_exponent (s : string) : bool :=
  match s with
  | String "+" rest | String "-" rest => digits1 rest
  | _ => digits1 s
  end.

(** after the integer part: an optional fraction, an optional exponent *)
Fixpoint valid_fraction_digits (s : string) (seen : bool) : bool :=
  match s with
  | EmptyString => seen
  | String c rest =>
      if is_digit c then valid_fraction_digits rest true
      else if Ascii.eqb c "e" || Ascii.eqb c "E" then seen && valid_exponent rest
      else false
  end.

Definition valid_after_int (s : string) : bool :=
  match s with
  | EmptyString => true
  | String "." rest => valid_fraction_digits rest false
  | String "e" rest | String "E" rest => valid_exponent rest
  | _ => false
  end.

Fixpoint valid_int_digits (s : string) : bool :=
  match s with
  | EmptyString => true
  | String c rest => if is_digit c then valid_int_digits rest else valid_after_int s
  end.

Definition valid_unsigned (s : string) : bool :=
  match s with
  | String "0" rest => valid_after_int rest
  | String c rest => is_digit c && valid_int_digits rest
  | EmptyString => false
  end.

Definition valid_number (s : string) : bool :=
  match s with
  | String "-" rest => valid_unsigned rest
  | _ => valid_unsigned s
  end.

Definition is_number_char (c : ascii) : bool :=
  is_digit c || Ascii.eqb c "-" || Ascii.eqb c "+" || Ascii.eqb c "."
  || Ascii.eqb c "e" || Ascii.eqb c "E".

(** ** String escapes *)

Definition hex_digit_value (c : ascii) : option N :=
  let n := char_code c in
  if char_between 48 57 c then Some (n - 48)%N
  else if char_between 97 102 c then Some (n - 87)%N
  else if char_between 65 70 c then Some (n - 55)%N
  else None.

Definition byte_char (n : N) : string := String (ascii_of_N n) EmptyString.
Arguments byte_char n%_N.

(** UTF-8 bytes of a code point (a lone surrogate is written like any
    other three-byte code point). *)
Definition utf8_encode (cp : N) : string :=
  if (cp <? 128)%N then byte_char cp
  else if (cp <? 2048)%N then
    byte_char (192 + cp / 64) ++ byte_char (128 + cp mod 64)
  else if (cp <? 65536)%N then
    byte_char (224 + cp / 4096) ++ byte_char (128 + (cp / 64) mod 64)
      ++ byte_char (128 + cp mod 64)
  else
    byte_char (240 + cp / 262144) ++ byte_char (128 + (cp / 4096) mod 64)
      ++ byte_char (128 + (cp / 64) mod 64) ++ byte_char (128 + cp mod 64).

Definition is_high_surrogate (u : N) : bool := (55296 <=? u)%N && (u <=? 56319)%N.
Definition is_low_surrogate (u : N) : bool := (56320 <=? u)%N && (u <=? 57343)%N.

Definition flush_surrogate (hi : option N) : string :=
  match hi with
  | Some h => utf8_encode h
  | None => EmptyString
  end.

(** A [\uXXXX] escape with value [u] read while [hi] (a high surrogate
    from the escape just before) is pending. *)
Definition add_code_unit (acc : string) (hi : option N) (u : N) : string * option N :=
  match hi with
  | Some h =>
      if is_low_surrogate u
      then ((acc ++ utf8_encode (65536 + (h - 55296) * 1024 + (u - 56320))%N)%string, None)
      else if is_high_surrogate u then ((acc ++ utf8_encode h)%string, Some u)
      else ((acc ++ utf8_encode h ++ utf8_encode u)%string, None)
  | None =>
      if is_high_surrogate u then (acc, Some u) else ((acc ++ utf8_encode u)%string, None)
  end.

Definition simple_escape (c : ascii) : option ascii :=
  let n := char_code c in
  if (n =? 34)%N then Some c            (* quote *)
  else if (n =? 92)%N then Some c       (* backslash *)
  else if (n =? 47)%N then Some c       (* solidus *)
  else if (n =? 98)%N then Some (ascii_of_N 8)
  else if (n =? 102)%N then Some (ascii_of_N 12)
  else if (n =? 110)%N then Some (ascii_of_N 10)
  else if (n =? 114)%N then Some (ascii_of_N 13)
  else if (n =? 116)%N then Some (ascii_of_N 9)
  else None.

(** ** The character automaton *)

Inductive lex_state : Type :=
| LIdle
| LString (acc : string) (hi : option N)
| LEscape (acc : string) (hi : option N)
| LUnicode (acc : string) (hi : option N) (digits : list N)
| LNumber (acc : string)
| LLiteral (acc : string).

Definition literal_token (s : string) : option token :=
  if String.eqb s "true" then Some TTrue
  else if String.eqb s "false" then Some TFalse
  else if String.eqb s "null" then Some TNull
  else None.

(** A character read between tokens. *)
Definition lex_idle (c : ascii) : option (list token * lex_state) :=
  let n := char_code c in
  if is_json_ws c then Some ([], LIdle)
  else if (n =? 123)%N then Some ([TLBrace], LIdle)
  else if (n =? 125)%N then Some ([TRBrace], LIdle)
  else if (n =? 91)%N then Some ([TLBracket], LIdle)
  else if (n =? 93)%N then Some ([TRBracket], LIdle)
  else if (n =? 58)%N then Some ([TColon], LIdle)
  else if (n =? 44)%N then Some ([TComma], LIdle)
  else if (n =? 34)%N then Some ([], LString EmptyString None)
  else if is_digit c || (n =? 45)%N then Some ([], LNumber (String c EmptyString))
  else if char_between 97 122 c then Some ([], LLiteral (String c EmptyString))
  else None.

Definition lex_step (st : lex_state) (c : ascii) : option (list token * lex_state) :=
  let n := char_code c in
  match st with
  | LIdle => lex_idle c
  | LString acc hi =>
      if (n =? 34)%N then Some ([TString (acc ++ flush_surrogate hi)%string], LIdle)
      else if (n =? 92)%N then Some ([], LEscape acc hi)
      else if (n <? 32)%N then None
      else Some ([], LString (snoc (acc ++ flush_surrogate hi) c) None)
  | LEscape acc hi =>
      if (n =? 117)%N then Some ([], LUnicode acc hi [])
      else match simple_escape c with
           | Some d => Some ([], LString (snoc (acc ++ flush_surrogate hi) d) None)
           | None => None
           end
  | LUnicode acc hi digits =>
      match hex_digit_value c with
      | None => None
      | Some d =>
          match digits with
          | [d1; d2; d3] =>
              let '(acc', hi') := add_code_unit acc hi (((d1 * 16 + d2) * 16 + d3) * 16 + d)%N in
              Some ([], LString acc' hi')
          | _ => Some ([], LUnicode acc hi (digits ++ [d]))
          end
      end
  | LNumber acc =>
      if is_number_char c then Some ([], LNumber (snoc acc c))
      else if valid_number acc then
        match lex_idle c with
        | Some (toks, st') => Some (TNumber acc :: toks, st')
        | None => None
        end
      else None
  | LLiteral acc =>
      if char_between 97 122 c then Some ([], LLiteral (snoc acc c))
      else match literal_token acc, lex_idle c with
           | Some t, Some (toks, st') => Some (t :: toks, st')
           | _, _ => None
           end
  end.

(** At the end of the text. *)
Definition lex_end (st : lex_state) : option (list token) :=
  match st with
  | LIdle => Some []
  | LNumber acc => if valid_number acc then Some [TNumber acc] else None
  | LLiteral acc =>
      match literal_token acc with
      | Some t => Some [t]
      | None => None
      end
  | _ => None
  end.

Fixpoint lex (s : string) (st : lex_state) : option (list token) :=
  match s with
  | EmptyString => lex_end st
  | String c rest =>
      match lex_step st c with
      | None => None
      | Some (toks, st') =>
          match lex rest st' with
          | Some more => Some (toks ++ more)
          | None => None
          end
      end
  end.

(** ** Objects: own properties and their enumeration order *)

(** [CreateDataProperty]: a repeated key keeps its place and takes the
    later value. *)
Fixpoint set_property (entries : list (string * json)) (key : string) (v : json)
  : list (string * json) :=
  match entries with
  | [] => [(key, v)]
  | (k, old) :: rest =>
      if String.eqb k key then (k, v) :: rest
      else (k, old) :: set_property rest key v
  end.

Fixpoint decimal_value (s : string) (acc : N) : N :=
  match s with
  | EmptyString => acc
  | String c rest => decimal_value rest (acc * 10 + (char_code c - 48))%N
  end.

(** An array index: the canonical decimal form of an integer below
    [2^32 - 1]. *)
Definition array_index (key : string) : option N :=
  match key with
  | EmptyString => None
  | String "0" EmptyString => Some 0%N
  | String "0" _ => None
  | _ =>
      if all_digits key && (String.length key <=? 10)%nat
         && (decimal_value key 0 <? 4294967295)%N
      then Some (decimal_value key 0)
      else None
  end.

Fixpoint insert_index (i : N) (entry : string * json) (sorted : list (N * (string * json)))
  : list (N * (string * json)) :=
  match sorted with
  | [] => [(i, entry)]
  | (j, e) :: rest =>
      if (i <? j)%N then (i, entry) :: sorted else (j, e) :: insert_index i entry rest
  end.

(** Own property keys are enumerated with the array indices first, in
    ascending order, then the other keys in creation order. *)
Fixpoint split_indices (entries : list (string * json))
  : list (N * (string * json)) * list (string * json) :=
  match entries with
  | [] => ([], [])
  | (k, v) :: rest =>
      let '(indexed, named) := split_indices rest in
      match array_index k with
      | Some i => (insert_index i (k, v) indexed, named)
      | None => (indexed, (k, v) :: named)
      end
  end.

Definition own_property_order (entries : list (string * json)) : list (string * json) :=
  let '(indexed, named) := split_indices entries in
  map snd indexed ++ named.

(** The object a member list, in source order, denotes. *)
Definition make_object (members : list (string * json)) : json :=
  JObject (own_property_order
             (fold_left (fun entries kv => set_property entries (fst kv) (snd kv))
                        members [])).

(** ** The stack automaton *)

Inductive frame : Type :=
| FArray (items_rev : list json)
| FObject (members_rev : list (string * json)) (key : option string).

Inductive parse_state : Type :=
| SValue          (* a value is expected *)
| SArrayStart     (* after an opening bracket: a value or the closing bracket *)
| SArrayNext      (* after an element: a comma or the closing bracket *)
| SObjectStart    (* after an opening brace: a key or the closing brace *)
| SObjectKey      (* after a comma in an object: a key *)
| SColon          (* after a key *)
| SObjectNext     (* after a member: a comma or the closing brace *)
| SDone (v : json).

(** A complete value goes into the container on top of the stack. *)
Definition push_value (v : json) (stack : list frame) : option (parse_state * list frame) :=
  match stack with
  | [] => Some (SDone v, [])
  | FArray items :: below => Some (SArrayNext, FArray (v :: items) :: below)
  | FObject members (Some key) :: below =>
      Some (SObjectNext, FObject ((key, v) :: members) None :: below)
  | FObject _ None :: _ => None
  end.

Definition start_value (t : token) (stack : list frame) : option (parse_state * list frame) :=
  match t with
  | TLBracket => Some (SArrayStart, FArray [] :: stack)
  | TLBrace => Some (SObjectStart, FObject [] None :: stack)
  | TString s => push_value (JString s) stack
  | TNumber literal => push_value (JNumber literal) stack
  | TTrue => push_value (JBool true) stack
  | TFalse => push_value (JBool false) stack
  | TNull => push_value JNull stack
  | _ => None
  end.

Definition close_array (stack : list frame) : option (parse_state * list frame) :=
  match stack with
  | FArray items :: below => push_value (JArray (rev items)) below
  | _ => None
  end.

Definition close_object (stack : list frame) : option (parse_state * list frame) :=
  match stack with
  | FObject members None :: below => push_value (make_object (rev members)) below
  | _ => None
  end.

Definition set_key (k : string) (stack : list frame) : option (parse_state * list frame) :=
  match stack with
  | FObject members None :: below => Some (SColon, FObject members (Some k) :: below)
  | _ => None
  end.

Definition parse_step (st : parse_state) (stack : list frame) (t : token)
  : option (parse_state * list frame) :=
  match st, t with
  | SValue, _ => start_value t stack
  | SArrayStart, TRBracket => close_array stack
  | SArrayStart, _ => start_value t stack
  | SArrayNext, TComma => Some (SValue, stack)
  | SArrayNext, TRBracket => close_array stack
  | SObjectStart, TRBrace => close_object stack
  | SObjectStart, TString k => set_key k stack
  | SObjectKey, TString k => set_key k stack
  | SColon, TColon => Some (SValue, stack)
  | SObjectNext, TComma => Some (SObjectKey, stack)
  | SObjectNext, TRBrace => close_object stack
  | _, _ => None
  end.

Fixpoint parse_tokens (ts : list token) (st : parse_state) (stack : list frame)
  : option json :=
  match ts with
  | [] => match st with SDone v => Some v | _ => None end
  | t :: rest =>
      match parse_step st stack t with
      | Some (st', stack') => parse_tokens rest st' stack'
      | None => None
      end
  end.

(** [JSON.parse(text)]; [None] when it throws a [SyntaxError]. *)
Definition JSON_parse (text : string) : option json :=
  match lex text LIdle with
  | Some ts => parse_tokens ts SValue []
  | None => None
  end.

(** Writes a JSON text with apostrophes where the text has double
    quotes. *)
Fixpoint quoted (s : string) : string :=
  match s with
  | EmptyString => EmptyString
  | String c rest =>
      String (if Ascii.eqb c "'" then ascii_of_nat 34 else c) (quoted rest)
  end.
Section Validator.
Context {E : Engine}.

(** Truthiness: [!v] is [negb (truthy v)]. *)
Definition truthy (v : json) : bool :=
  match v with
  | JNull => false
  | JBool b => b
  | JNumber literal => negb (Number_isZero literal)
  | JString s => negb (String.eqb s EmptyString)
  | JArray _ => true
  | JObject _ => true
  end.

Definition truthy_opt (v : option json) : bool :=
  match v with Some x => truthy x | None => false end.

(** [v && typeof v === 'object'], the negation of the guard
    [!v || typeof v !== 'object']. *)
Definition is_object (v : json) : bool := truthy v && typeof_object v.

(* ================================================================== *)
(** * validateTransaction.ts *)
(* ================================================================== *)

Inductive Severity : Type := SevError | SevWarning.

Record ValidationIssue : Type := mkIssue {
  severity : Severity;
  message : string;
  path : option string
}.

Record ValidateTransactionResult : Type := mkResult {
  valid : bool;
  issues : list ValidationIssue
}.

Definition RESERVED_LIST_IDS : list string := ["All"; "Mint"; "Total"; "!Mint"].

Definition isValidListId (id : string) : bool :=
  if Array_includes RESERVED_LIST_IDS id then true
  else if String_startsWith id "!" && Array_includes RESERVED_LIST_IDS (String_slice 1 id) then true
  else if String_startsWith id "bb1" then true
  else if String_startsWith id "!bb1" then true
  else if String_includes id ":" && negb (String_startsWith id "!") then
    forallb (fun part => String_startsWith part "bb1") (String_split id ":")
  else if String_startsWith id "!" && String_includes id ":" then
    forallb (fun part => String_startsWith part "bb1") (String_split (String_slice 1 id) ":")
  else if String_startsWith id "!Mint:bb1" then true
  else false.

(** Every function below that receives the shared [issues] array only
    pushes onto it; it is modelled by the list of issues it pushes, in
    push order. *)
Fixpoint checkNumbersAreStrings (obj : json) (path : string) : list ValidationIssue :=
  match obj with
  | JNull => []
  | JNumber literal =>
      [mkIssue SevError
         ("Number value found where string expected. Use " ++ dquote
            ++ Number_toString literal ++ dquote ++ " instead of "
            ++ Number_toString literal)
         (Some path)]
  | JArray items =>
      forEach (fun item index =>
                 checkNumbersAreStrings item (path ++ "[" ++ string_of_nat index ++ "]"))
              items
  | JObject entries =>
      (fix each (l : list (string * json)) : list ValidationIssue :=
         match l with
         | [] => []
         | (key, value) :: rest =>
             checkNumbersAreStrings value (path ++ "." ++ key) ++ each rest
         end) entries
  | JBool _ | JString _ => []
  end.

Definition checkUintRangeFormat (obj : json) (path : string) : list ValidationIssue :=
  if negb (is_object obj) then []
  else if has obj "start" || has obj "end" then
    (match get obj "start" with
     | None => [mkIssue SevError ("UintRange missing " ++ dquote ++ "start" ++ dquote ++ " field") (Some path)]
     | Some (JString _) => []
     | Some v =>
         [mkIssue SevError
            ("UintRange " ++ dquote ++ "start" ++ dquote ++ " must be a string, got " ++ typeof v)
            (Some (path ++ ".start")%string)]
     end)
    ++
    (match get obj "end" with
     | None => [mkIssue SevError ("UintRange missing " ++ dquote ++ "end" ++ dquote ++ " field") (Some path)]
     | Some (JString _) => []
     | Some v =>
         [mkIssue SevError
            ("UintRange " ++ dquote ++ "end" ++ dquote ++ " must be a string, got " ++ typeof v)
            (Some (path ++ ".end")%string)]
     end)
  else [].

Fixpoint findAndValidateUintRanges (obj : json) (path : string) : list ValidationIssue :=
  match obj with
  | JArray items =>
      forEach (fun item index =>
                 findAndValidateUintRanges item (path ++ "[" ++ string_of_nat index ++ "]"))
              items
  | JObject entries =>
      checkUintRangeFormat obj path ++
      (fix each (l : list (string * json)) : list ValidationIssue :=
         match l with
         | [] => []
         | (key, value) :: rest =>
             findAndValidateUintRanges value (path ++ "." ++ key) ++ each rest
         end) entries
  | _ => []
  end.

Definition orderCalculationMethods : list string :=
  [ "useOverallNumTransfers";
    "usePerToAddressNumTransfers";
    "usePerFromAddressNumTransfers";
    "usePerInitiatedByAddressNumTransfers";
    "useMerkleChallengeLeafIndex" ].

(** [methods.filter(m => orderCalc[m] === true).length] *)
Definition trueCount (orderCalc : json) : nat :=
  List.length (filter (fun m => is_true (get orderCalc m)) orderCalculationMethods).

Definition validateOrderCalculationMethod (orderCalc : json) (path : string)
  : list ValidationIssue :=
  if (1 <? trueCount orderCalc)%nat then
    [mkIssue SevError
       ("orderCalculationMethod MUST have exactly ONE method set to true, found "
          ++ string_of_nat (trueCount orderCalc))
       (Some path)]
  else if (trueCount orderCalc =? 0)%nat then
    [mkIssue SevWarning
       "orderCalculationMethod should have exactly ONE method set to true (default: useOverallNumTransfers)"
       (Some path)]
  else [].

Definition validateSubscriptionApproval (approval : json) (path : string)
  : list ValidationIssue :=
  match get approval "approvalCriteria" with
  | None => []
  | Some criteria =>
      if negb (truthy criteria) then []
      else
        (* coinTransfers override flags *)
        (match get criteria "coinTransfers" with
         | Some (JArray coinTransfers) =>
             forEach
               (fun ct ctIndex =>
                  if negb (is_object ct) then []
                  else
                    (if is_true (get ct "overrideFromWithApproverAddress") then
                       [mkIssue SevWarning
                          "Subscription coinTransfers should have overrideFromWithApproverAddress: false"
                          (Some (path ++ ".approvalCriteria.coinTransfers["
                                   ++ string_of_nat ctIndex
                                   ++ "].overrideFromWithApproverAddress")%string)]
                     else [])
                    ++
                    (if is_true (get ct "overrideToWithInitiator") then
                       [mkIssue SevWarning
                          "Subscription coinTransfers should have overrideToWithInitiator: false"
                          (Some (path ++ ".approvalCriteria.coinTransfers["
                                   ++ string_of_nat ctIndex
                                   ++ "].overrideToWithInitiator")%string)]
                     else []))
               coinTransfers
         | _ => []
         end)
        ++
        (* predeterminedBalances.incrementedBalances and orderCalculationMethod *)
        (match get criteria "predeterminedBalances" with
         | None => []
         | Some predeterminedBalances =>
             if negb (truthy predeterminedBalances) then []
             else
               (match get predeterminedBalances "incrementedBalances" with
                | None => []
                | Some incrementedBalances =>
                    if negb (truthy incrementedBalances) then []
                    else
                      (if is_string (get incrementedBalances "durationFromTimestamp") "0"
                          || match get incrementedBalances "durationFromTimestamp" with
                             | Some (JNumber literal) => Number_isZero literal
                             | _ => false
                             end
                       then
                         [mkIssue SevWarning
                            "Subscription durationFromTimestamp should be non-zero (subscription duration in ms)"
                            (Some (path ++ ".approvalCriteria.predeterminedBalances.incrementedBalances.durationFromTimestamp")%string)]
                       else [])
                      ++
                      (if negb (is_true (get incrementedBalances "allowOverrideTimestamp")) then
                         [mkIssue SevWarning
                            "Subscription allowOverrideTimestamp should be true"
                            (Some (path ++ ".approvalCriteria.predeterminedBalances.incrementedBalances.allowOverrideTimestamp")%string)]
                       else [])
                end)
               ++
               (match get predeterminedBalances "orderCalculationMethod" with
                | None => []
                | Some orderCalc =>
                    if truthy orderCalc then
                      validateOrderCalculationMethod orderCalc
                        (path ++ ".approvalCriteria.predeterminedBalances.orderCalculationMethod")
                    else []
                end)
         end)
  end.

(** [Array.isArray(standards) && standards.includes('Subscriptions')] *)
Definition includes_Subscriptions (standards : option (list json)) : bool :=
  match standards with
  | Some l => existsb (fun x => is_string (Some x) "Subscriptions") l
  | None => false
  end.

(** The list-identifier check of one field of an approval. *)
Definition checkListIdField (a : json) (approvalPath field : string) : list ValidationIssue :=
  match get a field with
  | Some (JString id) =>
      if negb (isValidListId id) then
        [mkIssue SevError
           ("Invalid list ID: " ++ dquote ++ id ++ dquote
              ++ ". Use only reserved IDs (All, Mint, !Mint, Total) or bb1... addresses")
           (Some (approvalPath ++ "." ++ field)%string)]
      else []
  | _ => []
  end.

(** The body of the [forEach] callback of [validateApprovals]. *)
Definition validateApproval (isSubscription : bool) (path : string)
           (approval : json) (index : nat) : list ValidationIssue :=
  if negb (is_object approval) then []
  else
    let a := approval in
    let approvalPath := (path ++ "[" ++ string_of_nat index ++ "]")%string in
    (* list IDs *)
    flat_map (checkListIdField a approvalPath) ["fromListId"; "toListId"; "initiatedByListId"]
    ++
    (* Mint approval override *)
    (if is_string (get a "fromListId") "Mint" then
       (match get a "approvalCriteria" with
        | Some criteria =>
            if truthy criteria
               && negb (is_true (get criteria "overridesFromOutgoingApprovals"))
            then
              [mkIssue SevError
                 "Mint approvals MUST have overridesFromOutgoingApprovals: true"
                 (Some (approvalPath ++ ".approvalCriteria.overridesFromOutgoingApprovals")%string)]
            else []
        | None => []
        end)
       ++
       (if isSubscription then validateSubscriptionApproval a approvalPath else [])
     else [])
    ++
    (* backing address approvals *)
    (match get a "fromListId" with
     | Some (JString fromListId) =>
         if String_startsWith fromListId "bb1" && negb (String_includes fromListId "Mint") then
           match get a "approvalCriteria" with
           | Some criteria =>
               if truthy criteria
                  && is_true (get criteria "overridesFromOutgoingApprovals")
                  && is_true (get criteria "allowBackedMinting")
               then
                 [mkIssue SevWarning
                    "Backing address approvals should NOT have overridesFromOutgoingApprovals: true"
                    (Some (approvalPath ++ ".approvalCriteria.overridesFromOutgoingApprovals")%string)]
               else []
           | None => []
           end
         else []
     | _ => []
     end)
    ++
    (* approvalId *)
    (match get a "approvalId" with
     | Some (JString id) =>
         if String.eqb id EmptyString then
           [mkIssue SevError
              ("Approval missing required " ++ dquote ++ "approvalId" ++ dquote ++ " field")
              (Some approvalPath)]
         else []
     | _ =>
         [mkIssue SevError
            ("Approval missing required " ++ dquote ++ "approvalId" ++ dquote ++ " field")
            (Some approvalPath)]
     end).

Definition validateApprovals (approvals : list json) (path : string)
           (standards : option (list json)) : list ValidationIssue :=
  let isSubscription := includes_Subscriptions standards in
  forEach (validateApproval isSubscription path) approvals.

Definition validateTokenMetadata (metadata : list json) (path : string)
  : list ValidationIssue :=
  forEach
    (fun entry index =>
       if negb (is_object entry) then []
       else
         let entryPath := (path ++ "[" ++ string_of_nat index ++ "]")%string in
         if negb (has entry "tokenIds") || negb (nonempty_array (get entry "tokenIds")) then
           [mkIssue SevError
              "tokenMetadata entry MUST include tokenIds field with UintRange array"
              (Some entryPath)]
         else [])
    metadata.

Definition validatePermissions (permissions : json) (path : string)
  : list ValidationIssue :=
  if negb (is_object permissions) then []
  else
    let p := permissions in
    (* TokenIdsActionPermission entries must carry tokenIds *)
    flat_map
      (fun field =>
         match get p field with
         | Some (JArray perms) =>
             forEach
               (fun perm index =>
                  if negb (is_object perm) then []
                  else
                    let hasTimes :=
                      nonempty_array (get perm "permanentlyPermittedTimes")
                      || nonempty_array (get perm "permanentlyForbiddenTimes") in
                    if hasTimes && negb (has perm "tokenIds") then
                      [mkIssue SevError
                         (field ++ " permission MUST include tokenIds field")
                         (Some (path ++ "." ++ field ++ "[" ++ string_of_nat index ++ "]")%string)]
                    else [])
               perms
         | _ => []
         end)
      ["canUpdateValidTokenIds"; "canUpdateTokenMetadata"]
    ++
    (* a singleton permission with both time arrays empty *)
    flat_map
      (fun entry : string * json =>
         let '(field, value) := entry in
         match value with
         | JArray [perm] =>
             if truthy perm
                && empty_array (get perm "permanentlyPermittedTimes")
                && empty_array (get perm "permanentlyForbiddenTimes")
             then
               [mkIssue SevWarning
                  ("Permission " ++ dquote ++ field ++ dquote
                     ++ " has both time arrays empty - should be [] instead of full object")
                  (Some (path ++ "." ++ field)%string)]
             else []
         | _ => []
         end)
      (Object_entries p).

Definition MsgUniversalUpdateCollection : string := "/tokenization.MsgUniversalUpdateCollection".
Definition MsgTransferTokens : string := "/tokenization.MsgTransferTokens".

(** The checks of a [MsgUniversalUpdateCollection] value. *)
Definition validateUniversalUpdateCollection (value : json) (msgPath : string)
  : list ValidationIssue :=
  (* creator *)
  (match get value "creator" with
   | Some (JString creator) =>
       if String.eqb creator EmptyString then
         [mkIssue SevError
            ("MsgUniversalUpdateCollection missing " ++ dquote ++ "creator" ++ dquote ++ " field")
            (Some (msgPath ++ ".value.creator")%string)]
       else if negb (String_startsWith creator "bb1") then
         [mkIssue SevWarning
            ("Creator address should start with " ++ dquote ++ "bb1" ++ dquote)
            (Some (msgPath ++ ".value.creator")%string)]
       else []
   | _ =>
       [mkIssue SevError
          ("MsgUniversalUpdateCollection missing " ++ dquote ++ "creator" ++ dquote ++ " field")
          (Some (msgPath ++ ".value.creator")%string)]
   end)
  ++
  (* collectionId *)
  (if negb (has value "collectionId") then
     [mkIssue SevError
        ("MsgUniversalUpdateCollection missing " ++ dquote ++ "collectionId" ++ dquote ++ " field")
        (Some (msgPath ++ ".value.collectionId")%string)]
   else [])
  ++
  (* collectionApprovals *)
  (match get value "collectionApprovals" with
   | Some (JArray collectionApprovals) =>
       let standards :=
         match get value "standards" with
         | Some (JArray l) => Some l
         | _ => None
         end in
       validateApprovals collectionApprovals (msgPath ++ ".value.collectionApprovals") standards
   | _ => []
   end)
  ++
  (* subscriptions: validTokenIds must be exactly one token *)
  (match get value "standards" with
   | Some (JArray standards) =>
       if includes_Subscriptions (Some standards) then
         match get value "validTokenIds" with
         | Some (JArray tokenIds) =>
             match tokenIds with
             | [range] =>
                 if truthy range
                    && (negb (is_string (get range "start") "1")
                        || negb (is_string (get range "end") "1"))
                 then
                   [mkIssue SevWarning
                      ("Subscription collections should have validTokenIds: [{ "
                         ++ dquote ++ "start" ++ dquote ++ ": " ++ dquote ++ "1" ++ dquote ++ ", "
                         ++ dquote ++ "end" ++ dquote ++ ": " ++ dquote ++ "1" ++ dquote ++ " }]")
                      (Some (msgPath ++ ".value.validTokenIds")%string)]
                 else []
             | _ =>
                 [mkIssue SevWarning
                    "Subscription collections should have exactly 1 validTokenIds range"
                    (Some (msgPath ++ ".value.validTokenIds")%string)]
             end
         | _ => []
         end
       else []
   | _ => []
   end)
  ++
  (* tokenMetadata *)
  (match get value "tokenMetadata" with
   | Some (JArray tokenMetadata) =>
       validateTokenMetadata tokenMetadata (msgPath ++ ".value.tokenMetadata")
   | _ => []
   end)
  ++
  (* collectionPermissions *)
  (match get value "collectionPermissions" with
   | Some collectionPermissions =>
       if truthy collectionPermissions then
         validatePermissions collectionPermissions (msgPath ++ ".value.collectionPermissions")
       else []
   | None => []
   end).

(** The checks of a [MsgTransferTokens] value. *)
Definition validateTransferTokens (value : json) (msgPath : string)
  : list ValidationIssue :=
  (* creator *)
  (match get value "creator" with
   | Some (JString creator) =>
       if String.eqb creator EmptyString then
         [mkIssue SevError
            ("MsgTransferTokens missing " ++ dquote ++ "creator" ++ dquote ++ " field")
            (Some (msgPath ++ ".value.creator")%string)]
       else []
   | _ =>
       [mkIssue SevError
          ("MsgTransferTokens missing " ++ dquote ++ "creator" ++ dquote ++ " field")
          (Some (msgPath ++ ".value.creator")%string)]
   end)
  ++
  (* transfers *)
  (match get value "transfers" with
   | Some (JArray transfers) =>
       forEach
         (fun transfer tIndex =>
            if negb (is_object transfer) then []
            else
              let transferPath :=
                (msgPath ++ ".value.transfers[" ++ string_of_nat tIndex ++ "]")%string in
              if negb (has transfer "prioritizedApprovals") then
                [mkIssue SevWarning
                   "prioritizedApprovals should always be explicitly specified (use [] if none needed)"
                   (Some (transferPath ++ ".prioritizedApprovals")%string)]
              else [])
         transfers
   | _ =>
       [mkIssue SevError
          ("MsgTransferTokens missing " ++ dquote ++ "transfers" ++ dquote ++ " array")
          (Some (msgPath ++ ".value.transfers")%string)]
   end).

(** The body of the [forEach] callback over [transaction.messages]. *)
Definition validateMessage (msg : json) (msgIndex : nat) : list ValidationIssue :=
  if negb (is_object msg) then []
  else
    let message := msg in
    let msgPath := ("messages[" ++ string_of_nat msgIndex ++ "]")%string in
    (* typeUrl *)
    (match get message "typeUrl" with
     | Some (JString typeUrl) =>
         if String.eqb typeUrl EmptyString then
           [mkIssue SevError
              ("Message missing " ++ dquote ++ "typeUrl" ++ dquote ++ " field")
              (Some msgPath)]
         else []
     | _ =>
         [mkIssue SevError
            ("Message missing " ++ dquote ++ "typeUrl" ++ dquote ++ " field")
            (Some msgPath)]
     end)
    ++
    (* value *)
    (match get message "value" with
     | Some value =>
         if negb (is_object value) then
           [mkIssue SevError
              ("Message missing " ++ dquote ++ "value" ++ dquote ++ " object")
              (Some msgPath)]
         else
           (if is_string (get message "typeUrl") MsgUniversalUpdateCollection
            then validateUniversalUpdateCollection value msgPath else [])
           ++
           (if is_string (get message "typeUrl") MsgTransferTokens
            then validateTransferTokens value msgPath else [])
     | None =>
         [mkIssue SevError
            ("Message missing " ++ dquote ++ "value" ++ dquote ++ " object")
            (Some msgPath)]
     end).

Definition is_error (i : ValidationIssue) : bool :=
  match severity i with SevError => true | SevWarning => false end.

(** The rules applied to a parsed transaction whose [messages] is an
    array. *)
Definition validateParsed (tx : json) (messages : list json) : list ValidationIssue :=
  checkNumbersAreStrings tx EmptyString
  ++ findAndValidateUintRanges tx EmptyString
  ++ forEach validateMessage messages.

(** The result of a call in which the walks over the parsed value run
    to their end.  The call stack of the host is not part of the
    embedding: the source catches the error of [JSON.parse] only, and
    its recursive walks are called after the [try] block, so that a
    [RangeError] raised in them on a deeply nested value leaves the
    function as an exception, which this definition does not show (see
    [checkNumbersAreStrings_depth]). *)
Definition handleValidateTransaction (transactionJson : string) : ValidateTransactionResult :=
  match JSON_parse transactionJson with
  | None =>
      mkResult false
        [mkIssue SevError ("Invalid JSON: " ++ SyntaxError_message transactionJson) None]
  | Some tx =>
      if negb (is_object tx) then
        mkResult false [mkIssue SevError "Transaction must be a JSON object" None]
      else
        match get tx "messages" with
        | Some (JArray messages) =>
            let issues := validateParsed tx messages in
            mkResult (List.length (filter is_error issues) =? 0)%nat issues
        | _ =>
            mkResult false
              [mkIssue SevError
                 ("Transaction must have a " ++ dquote ++ "messages" ++ dquote ++ " array")
                 (Some "messages")]
        end
  end.

End Validator.

(** An engine for closed examples: a literal is zero when every digit
    of its mantissa is [0], numbers print as their literal, and the
    syntax-error text is a fixed one.  This agrees with JavaScript on
    the literals of the examples, short decimal integers, and not on
    every literal ([1.0] prints as [1], and [1e-400] is zero).  The
    theorems below hold for every engine; this one only closes the
    examples. *)
Fixpoint mantissa_is_zero (literal : string) : bool :=
  match literal with
  | EmptyString => true
  | String c rest =>
      if Ascii.eqb c "e" || Ascii.eqb c "E" then true
      else if char_between 49 57 c then false
      else mantissa_is_zero rest
  end.

#[export] Instance exampleEngine : Engine := {
  Number_isZero := mantissa_is_zero;
  Number_toString := fun literal => literal;
  SyntaxError_message := fun _ => "Unexpected token"
}.

(* ================================================================== *)
(** * Buffers and hex coding *)
(* ================================================================== *)

(** A [Buffer] is its bytes. *)
Definition Buffer : Type := list Byte.byte.

Definition byte_of_N (n : N) : Byte.byte :=
  match Byte.of_N (n mod 256) with
  | Some b => b
  | None => Byte.x00
  end.

Definition ascii_of_byte (b : Byte.byte) : ascii := ascii_of_N (Byte.to_N b).
Definition byte_of_ascii (c : ascii) : Byte.byte := byte_of_N (N_of_ascii c).

(** [Buffer.from(s, 'utf8')]: the bytes of the string. *)
Fixpoint Buffer_from_utf8 (s : string) : Buffer :=
  match s with
  | EmptyString => []
  | String c rest => byte_of_ascii c :: Buffer_from_utf8 rest
  end.

Definition hex_char (n : N) : ascii :=
  if (n <? 10)%N then ascii_of_N (48 + n) else ascii_of_N (87 + n).

(** [buf.toString('hex')]: two lower-case digits per byte. *)
Fixpoint Buffer_toString_hex (buf : Buffer) : string :=
  match buf with
  | [] => EmptyString
  | b :: rest =>
      String (hex_char (Byte.to_N b / 16))
        (String (hex_char (Byte.to_N b mod 16)) (Buffer_toString_hex rest))
  end.

(** [Buffer.from(s, 'hex')] on an ASCII text: one byte per pair of hex
    digits, up to the first pair that is not one.  (Node reads UTF-16
    code units and keeps the low eight bits of each, so that a code unit
    above 255 can pass for a hex digit; a text with such a code unit is
    outside this definition, and a statement that is made of ASCII text
    only says so with [ascii_text].) *)
Fixpoint Buffer_from_hex (s : string) : Buffer :=
  match s with
  | String a (String b rest) =>
      match hex_digit_value a, hex_digit_value b with
      | Some x, Some y => byte_of_N (16 * x + y) :: Buffer_from_hex rest
      | _, _ => []
      end
  | _ => []
  end.

(* ================================================================== *)
(** * SHA-256 (FIPS 180-4), as [crypto.createHash('sha256')] computes it *)
(* ================================================================== *)

Local Open Scope N_scope.

Definition w32 (x : N) : N := x mod 4294967296.

Definition rotr (n x : N) : N :=
  N.lor (N.shiftr x n) (w32 (N.shiftl x (32 - n))).

Definition Ch (x y z : N) : N :=
  N.lxor (N.land x y) (N.land (N.lxor x 4294967295) z).

Definition Maj (x y z : N) : N :=
  N.lxor (N.lxor (N.land x y) (N.land x z)) (N.land y z).

Definition Sigma0 (x : N) : N := N.lxor (N.lxor (rotr 2 x) (rotr 13 x)) (rotr 22 x).
Definition Sigma1 (x : N) : N := N.lxor (N.lxor (rotr 6 x) (rotr 11 x)) (rotr 25 x).
Definition sigma0 (x : N) : N := N.lxor (N.lxor (rotr 7 x) (rotr 18 x)) (N.shiftr x 3).
Definition sigma1 (x : N) : N := N.lxor (N.lxor (rotr 17 x) (rotr 19 x)) (N.shiftr x 10).

(** The constants of FIPS 180-4, from their definition: the first 32
    bits of the fractional parts of the cube roots (for [K256]) and of
    the square roots (for the initial hash value) of the first primes. *)
Definition is_prime (p : N) : bool :=
  (2 <=? p) && forallb (fun d => negb (p mod d =? 0)) (map N.of_nat (seq 2 (N.to_nat p - 2))).

Definition first_primes (n : nat) : list N :=
  firstn n (filter is_prime (map N.of_nat (seq 2 310))).

(** The integer cube root, bit by bit from bit [k - 1] down. *)
Fixpoint cube_root_bits (k : nat) (n r : N) : N :=
  match k with
  | O => r
  | S k' =>
      let r' := N.lor r (N.shiftl 1 (N.of_nat k')) in
      if r' * r' * r' <=? n then cube_root_bits k' n r' else cube_root_bits k' n r
  end.

Definition cube_root_fraction (p : N) : N := w32 (cube_root_bits 36 (N.shiftl p 96) 0).
Definition square_root_fraction (p : N) : N := w32 (N.sqrt (N.shiftl p 64)).

Definition K256 : list N := Eval vm_compute in map cube_root_fraction (first_primes 64).

Definition H256 : list N := Eval vm_compute in map square_root_fraction (first_primes 8).

(** The eight working variables, and the hash value between blocks. *)
Record sha_state : Type := mkSha {
  sha_a : N; sha_b : N; sha_c : N; sha_d : N;
  sha_e : N; sha_f : N; sha_g : N; sha_h : N
}.

Definition sha_init : sha_state :=
  mkSha (nth 0 H256 0) (nth 1 H256 0) (nth 2 H256 0) (nth 3 H256 0)
        (nth 4 H256 0) (nth 5 H256 0) (nth 6 H256 0) (nth 7 H256 0).

Definition sha_round (st : sha_state) (k w : N) : sha_state :=
  let t1 := sha_h st + Sigma1 (sha_e st) + Ch (sha_e st) (sha_f st) (sha_g st) + k + w in
  let t2 := Sigma0 (sha_a st) + Maj (sha_a st) (sha_b st) (sha_c st) in
  mkSha (w32 (t1 + t2)) (sha_a st) (sha_b st) (sha_c st)
        (w32 (sha_d st + t1)) (sha_e st) (sha_f st) (sha_g st).

Fixpoint sha_rounds (ks ws : list N) (st : sha_state) : sha_state :=
  match ks, ws with
  | k :: ks', w :: ws' => sha_rounds ks' ws' (sha_round st k w)
  | _, _ => st
  end.

(** The message schedule, most recent word first. *)
Fixpoint sha_extend (n : nat) (rev_w : list N) : list N :=
  match n with
  | O => rev_w
  | S n' =>
      sha_extend n'
        (w32 (sigma1 (nth 1 rev_w 0) + nth 6 rev_w 0
              + sigma0 (nth 14 rev_w 0) + nth 15 rev_w 0) :: rev_w)
  end.

Definition sha_schedule (block : list N) : list N := rev (sha_extend 48 (rev block)).

Definition sha_compress (h : sha_state) (block : list N) : sha_state :=
  let st := sha_rounds K256 (sha_schedule block) h in
  mkSha (w32 (sha_a h + sha_a st)) (w32 (sha_b h + sha_b st))
        (w32 (sha_c h + sha_c st)) (w32 (sha_d h + sha_d st))
        (w32 (sha_e h + sha_e st)) (w32 (sha_f h + sha_f st))
        (w32 (sha_g h + sha_g st)) (w32 (sha_h h + sha_h st)).

(** Big-endian bytes of a number, [n] of them. *)
Fixpoint be_bytes (n : nat) (x : N) : list Byte.byte :=
  match n with
  | O => []
  | S n' => be_bytes n' (x / 256) ++ [byte_of_N x]
  end.

(** The padded message: a [0x80] byte, zero bytes up to 56 modulo 64,
    and the bit length on eight bytes. *)
Definition sha_pad (msg : list Byte.byte) : list Byte.byte :=
  let len := N.of_nat (List.length msg) in
  let zeros := (64 - (len + 9) mod 64) mod 64 in
  msg ++ [Byte.x80] ++ repeat Byte.x00 (N.to_nat zeros) ++ be_bytes 8 (8 * len).

(** Big-endian 32-bit words of a byte sequence. *)
Fixpoint sha_words (l : list Byte.byte) : list N :=
  match l with
  | b3 :: b2 :: b1 :: b0 :: rest =>
      (((Byte.to_N b3 * 256 + Byte.to_N b2) * 256 + Byte.to_N b1) * 256 + Byte.to_N b0)
        :: sha_words rest
  | _ => []
  end.

(** Blocks of sixteen words. *)
Fixpoint sha_blocks (ws : list N) (cur : list N) (n : nat) : list (list N) :=
  match ws with
  | [] => []
  | w :: rest =>
      if (n =? 15)%nat then rev (w :: cur) :: sha_blocks rest [] 0
      else sha_blocks rest (w :: cur) (S n)
  end.

Definition sha_digest_bytes (st : sha_state) : list Byte.byte :=
  be_bytes 4 (sha_a st) ++ be_bytes 4 (sha_b st) ++ be_bytes 4 (sha_c st)
    ++ be_bytes 4 (sha_d st) ++ be_bytes 4 (sha_e st) ++ be_bytes 4 (sha_f st)
    ++ be_bytes 4 (sha_g st) ++ be_bytes 4 (sha_h st).

Definition SHA256 (msg : list Byte.byte) : list Byte.byte :=
  sha_digest_bytes
    (fold_left sha_compress (sha_blocks (sha_words (sha_pad msg)) [] 0) sha_init).

Local Close Scope N_scope.

(* ================================================================== *)
(** * The [bech32] package (BIP-173) *)
(* ================================================================== *)

(** What a call gives: a value, or a thrown [Error] with its message. *)
Inductive outcome (A : Type) : Type :=
| Return (a : A)
| Throw (message : string).
Arguments Return {A} a.
Arguments Throw {A} message.

Local Open Scope Z_scope.

(** JavaScript's bit operators work on 32-bit signed integers. *)
Definition int32 (x : Z) : Z := (x + 2147483648) mod 4294967296 - 2147483648.

(** [x << n] and [x >> n] *)
Definition shl (x n : Z) : Z := int32 (Z.shiftl x n).
Definition sar (x n : Z) : Z := Z.shiftr x n.

Definition ALPHABET : string := "qpzry9x8gf2tvdw0s3jn54khce6mua7l".

(** [ALPHABET.charAt(x)] *)
Definition ALPHABET_charAt (x : Z) : string :=
  match String.get (Z.to_nat x) ALPHABET with
  | Some c => String c EmptyString
  | None => EmptyString
  end.

(** [ALPHABET_MAP[c]] *)
Fixpoint index_of (c : ascii) (s : string) (i : Z) : option Z :=
  match s with
  | EmptyString => None
  | String d rest => if Ascii.eqb c d then Some i else index_of c rest (i + 1)
  end.

Definition ALPHABET_MAP (c : ascii) : option Z := index_of c ALPHABET 0.

Definition polymodStep (pre : Z) : Z :=
  let b := sar pre 25 in
  Z.lxor (Z.lxor (Z.lxor (Z.lxor (Z.lxor
    (shl (Z.land pre 0x1ffffff) 5)
    (Z.land (- Z.land (sar b 0) 1) 0x3b6a57b2))
    (Z.land (- Z.land (sar b 1) 1) 0x26508e6d))
    (Z.land (- Z.land (sar b 2) 1) 0x1ea119fa))
    (Z.land (- Z.land (sar b 3) 1) 0x3d4233dd))
    (Z.land (- Z.land (sar b 4) 1) 0x2a1462b3).

Definition charCode (c : ascii) : Z := Z.of_N (N_of_ascii c).

(** The two loops of [prefixChk]. *)
Fixpoint prefixChk_high (prefix : string) (chk : Z) : outcome Z :=
  match prefix with
  | EmptyString => Return chk
  | String ch rest =>
      let c := charCode ch in
      if (c <? 33) || (c >? 126) then Throw "Invalid prefix"
      else prefixChk_high rest (Z.lxor (polymodStep chk) (sar c 5))
  end.

Fixpoint prefixChk_low (prefix : string) (chk : Z) : Z :=
  match prefix with
  | EmptyString => chk
  | String ch rest =>
      prefixChk_low rest (Z.lxor (polymodStep chk) (Z.land (charCode ch) 0x1f))
  end.

Definition prefixChk (prefix : string) : outcome Z :=
  match prefixChk_high prefix 1 with
  | Throw m => Throw (m ++ " (" ++ prefix ++ ")")
  | Return chk => Return (prefixChk_low prefix (polymodStep chk))
  end.

(** The inner loop of [convert]:
    [while (bits >= outBits) { bits -= outBits; result.push((value >> bits) & maxV) }];
    it runs at most [bits] times. *)
Fixpoint convert_emit (fuel : nat) (outBits value bits : Z) (result : list Z)
  : Z * list Z :=
  match fuel with
  | O => (bits, result)
  | S fuel' =>
      if bits >=? outBits then
        let bits := bits - outBits in
        convert_emit fuel' outBits value bits
                     (result ++ [Z.land (sar value bits) (shl 1 outBits - 1)])
      else (bits, result)
  end.

(** The outer loop of [convert]. *)
Fixpoint convert_loop (data : list Z) (inBits outBits value bits : Z) (result : list Z)
  : Z * Z * list Z :=
  match data with
  | [] => (value, bits, result)
  | d :: rest =>
      let value := Z.lor (shl value inBits) d in
      let bits := bits + inBits in
      let '(bits, result) := convert_emit (Z.to_nat bits) outBits value bits result in
      convert_loop rest inBits outBits value bits result
  end.

Definition convert (data : list Z) (inBits outBits : Z) (pad : bool) : outcome (list Z) :=
  let maxV := shl 1 outBits - 1 in
  let '(value, bits, result) := convert_loop data inBits outBits 0 0 [] in
  if pad then
    if bits >? 0
    then Return (result ++ [Z.land (shl value (outBits - bits)) maxV])
    else Return result
  else if bits >=? inBits then Throw "Excess padding"
  else if negb (Z.land (shl value (outBits - bits)) maxV =? 0) then Throw "Non-zero padding"
  else Return result.

Definition byte_to_Z (b : Byte.byte) : Z := Z.of_N (Byte.to_N b).

(** [Buffer.from(numbers)]: each number modulo 256. *)
Definition Buffer_from_array (l : list Z) : Buffer :=
  map (fun x => byte_of_N (Z.to_N (x mod 256))) l.

(** [bech32.toWords(bytes)] *)
Definition toWords (bytes : Buffer) : list Z :=
  match convert (map byte_to_Z bytes) 8 5 true with
  | Return words => words
  | Throw _ => []
  end.

(** [bech32.fromWords(words)] *)
Definition fromWords (words : list Z) : outcome (list Z) := convert words 5 8 false.

Definition lower_char (c : ascii) : ascii :=
  if char_between 65 90 c then ascii_of_N (N_of_ascii c + 32) else c.

Definition upper_char (c : ascii) : ascii :=
  if char_between 97 122 c then ascii_of_N (N_of_ascii c - 32) else c.

Fixpoint String_map (f : ascii -> ascii) (s : string) : string :=
  match s with
  | EmptyString => EmptyString
  | String c rest => String (f c) (String_map f rest)
  end.

(** [s.toLowerCase()] and [s.toUpperCase()] on an ASCII text.  (On
    other text JavaScript maps more: U+212A, the Kelvin sign, to [k] and
    U+017F, the long s, to [S]; here the bytes of such characters are
    left as they are; a statement that is made of ASCII text only says
    so with [ascii_text].) *)
Definition String_toLowerCase (s : string) : string := String_map lower_char s.
Definition String_toUpperCase (s : string) : string := String_map upper_char s.

Definition strlen (s : string) : Z := Z.of_nat (String.length s).

(** The word loop of [encode]: the checksum state and the characters. *)
Fixpoint encode_words (words : list Z) (chk : Z) (result : string) : outcome (Z * string) :=
  match words with
  | [] => Return (chk, result)
  | x :: rest =>
      if negb (sar x 5 =? 0) then Throw "Non 5-bit word"
      else encode_words rest (Z.lxor (polymodStep chk) x) (result ++ ALPHABET_charAt x)
  end.

(** The six checksum characters of [encode], [i] running from 0 to 5. *)
Definition encode_checksum (chk : Z) : string :=
  fold_left
    (fun result i => (result ++ ALPHABET_charAt (Z.land (sar chk ((5 - i) * 5)) 0x1f))%string)
    [0; 1; 2; 3; 4; 5] EmptyString.

Definition polymodStep6 (chk : Z) : Z :=
  polymodStep (polymodStep (polymodStep (polymodStep (polymodStep (polymodStep chk))))).

Definition ENCODING_CONST : Z := 1.

(** [bech32.encode(prefix, words)], with the default limit of 90. *)
Definition bech32_encode (prefix : string) (words : list Z) : outcome string :=
  if strlen prefix + 7 + Z.of_nat (List.length words) >? 90 then Throw "Exceeds length limit"
  else
    let prefix := String_toLowerCase prefix in
    match prefixChk prefix with
    | Throw m => Throw m
    | Return chk =>
        match encode_words words chk (prefix ++ "1") with
        | Throw m => Throw m
        | Return (chk, result) =>
            let chk := Z.lxor (polymodStep6 chk) ENCODING_CONST in
            Return (result ++ encode_checksum chk)%string
        end
    end.

(** [s.lastIndexOf(c)], [None] for [-1]. *)
Fixpoint String_lastIndexOf (s : string) (c : ascii) (i : nat) : option nat :=
  match s with
  | EmptyString => None
  | String d rest =>
      match String_lastIndexOf rest c (S i) with
      | Some j => Some j
      | None => if Ascii.eqb d c then Some i else None
      end
  end.

(** The character loop of [decode]: [n] characters are still to come
    after [wordChars]; the last six are checksum only. *)
Fixpoint decode_words (wordChars : string) (chk : Z) (words : list Z)
  : outcome (Z * list Z) :=
  match wordChars with
  | EmptyString => Return (chk, words)
  | String c rest =>
      match ALPHABET_MAP c with
      | None => Throw ("Unknown character " ++ String c EmptyString)
      | Some v =>
          let chk := Z.lxor (polymodStep chk) v in
          if (6 <=? String.length rest)%nat
          then decode_words rest chk (words ++ [v])
          else decode_words rest chk words
      end
  end.

(** [bech32.decode(str)], with the default limit of 90. *)
Definition bech32_decode (str : string) : outcome (string * list Z) :=
  if strlen str <? 8 then Throw (str ++ " too short")
  else if strlen str >? 90 then Throw "Exceeds length limit"
  else
    let lowered := String_toLowerCase str in
    let uppered := String_toUpperCase str in
    if negb (String.eqb str lowered) && negb (String.eqb str uppered)
    then Throw ("Mixed-case string " ++ str)
    else
      let str := lowered in
      match String_lastIndexOf str "1" 0 with
      | None => Throw ("No separator character for " ++ str)
      | Some O => Throw ("Missing prefix for " ++ str)
      | Some split =>
          let prefix := String.substring 0 split str in
          let wordChars := String_slice (S split) str in
          if (String.length wordChars <? 6)%nat then Throw "Data too short"
          else
            match prefixChk prefix with
            | Throw m => Throw m
            | Return chk =>
                match decode_words wordChars chk [] with
                | Throw m => Throw m
                | Return (chk, words) =>
                    if negb (chk =? ENCODING_CONST)
                    then Throw ("Invalid checksum for " ++ str)
                    else Return (prefix, words)
                end
            end
      end.

Local Close Scope Z_scope.

(* ================================================================== *)
(** * addressGenerator.ts *)
(* ================================================================== *)

Definition BackedPathGenerationPrefix : N := 0x12.
Definition DenomGenerationPrefix : N := 0x0c.

(** [Hash(typ, key)]: the hex digest of [SHA-256(SHA-256(typ) || key)].
    [typ] is given as bytes: a string argument is hashed as its UTF-8
    bytes. *)
Definition Hash (typ : Buffer) (key : Buffer) : string :=
  let th := SHA256 typ in
  Buffer_toString_hex (SHA256 (th ++ key)).

Definition Derive (address : string) (key : Buffer) : string :=
  Hash (Buffer_from_hex address) key.

(** [Module(moduleName, ...derivationKeys)] *)
Definition Module_ (moduleName : string) (derivationKeys : list Buffer) : outcome string :=
  let mKey := Buffer_from_utf8 moduleName in
  match derivationKeys with
  | [] => Throw "derivationKeys must not be empty"
  | key0 :: others =>
      let mKey := mKey ++ [Byte.x00] in
      let addr := Hash (Buffer_from_utf8 "module") (mKey ++ key0) in
      Return (fold_left Derive others addr)
  end.

Definition generateAlias (moduleName : string) (derivationKeys : list Buffer) : outcome string :=
  match Module_ moduleName derivationKeys with
  | Throw m => Throw m
  | Return address =>
      let cosmosPrefix := "bb" in
      let words := toWords (Buffer_from_hex address) in
      bech32_encode cosmosPrefix words
  end.

Definition getAliasDerivationKeysForIBCBackedDenom (ibcDenom : string) : list Buffer :=
  [[byte_of_N BackedPathGenerationPrefix]; Buffer_from_utf8 ibcDenom].

Definition generateAliasAddressForIBCBackedDenom (ibcDenom : string) : outcome string :=
  generateAlias "tokenization" (getAliasDerivationKeysForIBCBackedDenom ibcDenom).

Definition getAliasDerivationKeysForDenom (denom : string) : list Buffer :=
  [[byte_of_N DenomGenerationPrefix]; Buffer_from_utf8 denom].

Definition generateAliasAddressForDenom (denom : string) : outcome string :=
  generateAlias "tokenization" (getAliasDerivationKeysForDenom denom).

(* ================================================================== *)
(** * addressUtils.ts *)
(* ================================================================== *)

Definition BITBADGES_PREFIX : string := "bb".

Definition is_hex_char (c : ascii) : bool :=
  match hex_digit_value c with Some _ => true | None => false end.

Fixpoint all_hex (s : string) : bool :=
  match s with
  | EmptyString => true
  | String c rest => is_hex_char c && all_hex rest
  end.

(** The regular expression test of [isHex]: one or more hex digits. *)
Definition isHex (str : string) : bool :=
  match str with
  | EmptyString => false
  | _ => all_hex str
  end.

Definition ethToCosmos (ethAddress : string) : outcome string :=
  if negb (String_startsWith ethAddress "0x") then
    Throw "Invalid ETH address: must start with 0x"
  else
    let hex := String_slice 2 ethAddress in
    if negb (String.length hex =? 40)%nat || negb (isHex hex) then
      Throw "Invalid ETH address: must be 40 hex characters after 0x"
    else
      let bytes := Buffer_from_hex hex in
      let words := toWords bytes in
      bech32_encode BITBADGES_PREFIX words.

Definition cosmosToEth (cosmosAddress : string) : outcome string :=
  if negb (String_startsWith cosmosAddress (BITBADGES_PREFIX ++ "1")) then
    Throw ("Invalid BitBadges address: must start with " ++ BITBADGES_PREFIX ++ "1")
  else
    (* every error caught by the handler is an Error and is thrown again *)
    match bech32_decode cosmosAddress with
    | Throw m => Throw m
    | Return (_, words) =>
        match fromWords words with
        | Throw m => Throw m
        | Return numbers =>
            let bytes := Buffer_from_array numbers in
            if negb (List.length bytes =? 20)%nat then
              Throw "Address is not a standard 20-byte address (may be a module-derived address)"
            else Return ("0x" ++ Buffer_toString_hex bytes)%string
        end
    end.

Definition toBitBadgesAddress (address : string) : outcome string :=
  if String_startsWith address (BITBADGES_PREFIX ++ "1") then Return address
  else if String_startsWith address "0x" then ethToCosmos address
  else Throw "Unknown address format".

Definition toEthAddress (address : string) : outcome string :=
  if String_startsWith address "0x" then Return address
  else if String_startsWith address (BITBADGES_PREFIX ++ "1") then cosmosToEth address
  else Throw "Unknown address format".

(* ================================================================== *)
(** * coinRegistry.ts *)
(* ================================================================== *)

Record CoinDetails : Type := mkCoin {
  coin_symbol : string;
  label : string;
  coin_decimals : string;
  baseDenom : string;
  image : option string
}.

Record TokenInfo : Type := mkToken {
  symbol : string;
  ibcDenom : string;
  decimals : string;
  backingAddress : string;
  displayName : string
}.

(** The entries of [MAINNET_COINS_REGISTRY], in source order. *)
Definition MAINNET_COINS_REGISTRY : list (string * CoinDetails) :=
  [ ("ubadge",
     mkCoin "BADGE" "BADGE" "9" "ubadge"
       (Some "https://github.com/cosmos/chain-registry/blob/master/bitbadges/images/badge_logo.png?raw=true"));
    ("badges:49:chaosnet",
     mkCoin "CHAOS" "CHAOS" "9" "badges:49:chaosnet"
       (Some "https://bitbadges.io/_next/image?url=https%3A%2F%2Fbitbadges-ipfs.infura-ipfs.io%2Fipfs%2FQmdRQUvQBo6p24RQ7AS7RD6srqyUjoHJ5Cjs4p22zie9bQ&w=1920&q=75"));
    ("ibc/F082B65C88E4B6D5EF1DB243CDA1D331D002759E938A0F5CD3FFDC5D53B3E349",
     mkCoin "USDC" "USDC" "6"
       "ibc/F082B65C88E4B6D5EF1DB243CDA1D331D002759E938A0F5CD3FFDC5D53B3E349"
       (Some "https://github.com/cosmos/chain-registry/blob/master/noble/images/USDCoin.png?raw=true"));
    ("ibc/A4DB47A9D3CF9A068D454513891B526702455D3EF08FB9EB558C561F9DC2B701",
     mkCoin "ATOM" "ATOM" "6"
       "ibc/A4DB47A9D3CF9A068D454513891B526702455D3EF08FB9EB558C561F9DC2B701"
       (Some "https://github.com/cosmos/chain-registry/blob/master/cosmoshub/images/atom.png?raw=true"));
    ("ibc/ED07A3391A112B175915CD8FAF43A2DA8E4790EDE12566649D0C2F97716B8518",
     mkCoin "OSMO" "OSMO" "6"
       "ibc/ED07A3391A112B175915CD8FAF43A2DA8E4790EDE12566649D0C2F97716B8518"
       (Some "https://github.com/cosmos/chain-registry/blob/master/osmosis/images/osmo.png?raw=true")) ].

(** A [Map<string, TokenInfo>]: its entries in insertion order. *)
Definition TokenMap : Type := list (string * TokenInfo).

Fixpoint Map_get (m : TokenMap) (key : string) : option TokenInfo :=
  match m with
  | [] => None
  | (k, v) :: rest => if String.eqb k key then Some v else Map_get rest key
  end.

Definition Map_has (m : TokenMap) (key : string) : bool :=
  match Map_get m key with Some _ => true | None => false end.

Fixpoint Map_set (m : TokenMap) (key : string) (v : TokenInfo) : TokenMap :=
  match m with
  | [] => [(key, v)]
  | (k, old) :: rest =>
      if String.eqb k key then (k, v) :: rest else (k, old) :: Map_set rest key v
  end.

Definition Map_values (m : TokenMap) : list TokenInfo := map snd m.

(** The module-level variable [symbolToTokenInfoCache]: [None] is [null]. *)
Definition Cache : Type := option TokenMap.

(** The [forEach] callback of [buildSymbolToTokenInfoMap], on the map
    under construction. *)
Definition addCoin (symbolMap : TokenMap) (entry : string * CoinDetails) : TokenMap :=
  let '(baseDenom, coinDetails) := entry in
  if String_startsWith baseDenom "ibc/" then
    let symbol := String_toUpperCase (coin_symbol coinDetails) in
    if negb (Map_has symbolMap symbol) then
      match generateAliasAddressForIBCBackedDenom baseDenom with
      | Return backingAddress =>
          Map_set symbolMap symbol
            (mkToken symbol baseDenom (coin_decimals coinDetails) backingAddress
                     (label coinDetails))
      | Throw _ => symbolMap   (* console.warn *)
      end
    else symbolMap
  else symbolMap.

(** [buildSymbolToTokenInfoMap()]: the map, and the cache afterwards. *)
Definition buildSymbolToTokenInfoMap (cache : Cache) : TokenMap * Cache :=
  match cache with
  | Some symbolToTokenInfoCache => (symbolToTokenInfoCache, cache)
  | None =>
      let symbolMap := fold_left addCoin MAINNET_COINS_REGISTRY [] in
      (symbolMap, Some symbolMap)
  end.

(** [lookupTokenInfo(query)]: the result ([None] is [null]), and the
    cache afterwards. *)
Definition lookupTokenInfo (query : string) (cache : Cache) : option TokenInfo * Cache :=
  let '(tokenMap, cache) := buildSymbolToTokenInfoMap cache in
  let upperQuery := String_toUpperCase query in
  if Map_has tokenMap upperQuery then (Map_get tokenMap upperQuery, cache)
  else
    let lowerQuery := String_toLowerCase query in
    match find (fun tokenInfo => String.eqb (String_toLowerCase (ibcDenom tokenInfo)) lowerQuery)
               (Map_values tokenMap) with
    | Some tokenInfo => (Some tokenInfo, cache)
    | None =>
        if String_startsWith query "ibc/" then
          match generateAliasAddressForIBCBackedDenom query with
          | Return backingAddress =>
              (Some (mkToken "UNKNOWN" query "6" backingAddress "Unknown IBC Token"), cache)
          | Throw _ => (None, cache)
          end
        else (None, cache)
    end.

(* ================================================================== *)
(** * More of JavaScript strings *)
(* ================================================================== *)

(** The UTF-16 code units one byte of a UTF-8 text accounts for: one
    for an ASCII byte and for the lead byte of a two- or three-byte
    sequence, two for the lead byte of a four-byte sequence (a surrogate
    pair), none for a continuation byte. *)
Definition code_units (c : ascii) : nat :=
  let n := N_of_ascii c in
  if (n <? 128)%N then 1
  else if (n <? 192)%N then 0
  else if (n <? 240)%N then 1
  else 2.

(** [s.length] *)
Fixpoint String_length (s : string) : nat :=
  match s with
  | EmptyString => 0
  | String c rest => code_units c + String_length rest
  end.

(** White space and line terminators of one byte: TAB, LF, VT, FF, CR
    and SP. *)
Definition is_space_char (c : ascii) : bool :=
  char_between 9 13 c || (N_of_ascii c =? 32)%N.

(** The third byte of the white space characters that start with the
    bytes [E2 80]: U+2000 to U+200A, U+2028, U+2029 and U+202F. *)
Definition is_space_E2_80 (c : ascii) : bool :=
  char_between 128 138 c || char_between 168 169 c || (N_of_ascii c =? 175)%N.

(** [s.trimStart()]: white space is the six ASCII characters, U+00A0,
    U+1680, U+2000 to U+200A, U+2028, U+2029, U+202F, U+205F, U+3000
    and U+FEFF. *)
Fixpoint String_trimStart (s : string) : string :=
  match s with
  | EmptyString => EmptyString
  | String c1 rest1 =>
      if is_space_char c1 then String_trimStart rest1
      else
        match rest1 with
        | EmptyString => s
        | String c2 rest2 =>
            if (N_of_ascii c1 =? 194)%N && (N_of_ascii c2 =? 160)%N
            then String_trimStart rest2
            else
              match rest2 with
              | EmptyString => s
              | String c3 rest3 =>
                  let b1 := N_of_ascii c1 in
                  let b2 := N_of_ascii c2 in
                  let b3 := N_of_ascii c3 in
                  if ((b1 =? 225) && (b2 =? 154) && (b3 =? 128))%N
                     || ((b1 =? 226)%N && (b2 =? 128)%N && is_space_E2_80 c3)
                     || ((b1 =? 226) && (b2 =? 129) && (b3 =? 159))%N
                     || ((b1 =? 227) && (b2 =? 128) && (b3 =? 128))%N
                     || ((b1 =? 239) && (b2 =? 187) && (b3 =? 191))%N
                  then String_trimStart rest3
                  else s
              end
        end
  end.

(** [s.trimEnd()]: a string of white space only becomes empty;
    otherwise the first byte stays and the rest is trimmed. *)
Fixpoint String_trimEnd (s : string) : string :=
  match s with
  | EmptyString => EmptyString
  | String c rest =>
      if String.eqb (String_trimStart s) EmptyString then EmptyString
      else String c (String_trimEnd rest)
  end.

(** [s.trim()] *)
Definition String_trim (s : string) : string := String_trimEnd (String_trimStart s).

(** [s.replace(pattern, replacement)] for a string pattern and a
    replacement without [$]: the first occurrence only. *)
Fixpoint String_replace (s pattern replacement : string) : string :=
  if String_startsWith s pattern
  then (replacement ++ String_slice (String.length pattern) s)%string
  else
    match s with
    | EmptyString => EmptyString
    | String c rest => String c (String_replace rest pattern replacement)
    end.

(** [arr.join(sep)] *)
Fixpoint Array_join (arr : list string) (sep : string) : string :=
  match arr with
  | [] => EmptyString
  | [x] => x
  | x :: rest => (x ++ sep ++ Array_join rest sep)%string
  end.

(** A number that is [NaN] ([None]) or an integer. *)
Definition number : Type := option Z.

(** The digits at the start of a string and the integer they denote. *)
Fixpoint leading_digits (s : string) (acc : Z) (seen : bool) : number :=
  match s with
  | String c rest =>
      if is_digit c
      then leading_digits rest (10 * acc + (Z.of_N (N_of_ascii c) - 48))%Z true
      else if seen then Some acc else None
  | EmptyString => if seen then Some acc else None
  end.

(** [parseInt(s, 10)]: leading white space, a sign, then digits; the
    value is the integer the digits denote ([-0] is [0]).  The number
    JavaScript returns is the double nearest to it, which has the same
    sign and is the same integer below [2^53]. *)
Definition parseInt (s : string) : number :=
  match String_trimStart s with
  | String c rest =>
      if Ascii.eqb c "-" then
        match leading_digits rest 0 false with
        | Some z => Some (- z)%Z
        | None => None
        end
      else if Ascii.eqb c "+" then leading_digits rest 0 false
      else leading_digits (String c rest) 0 false
  | EmptyString => None
  end.

(** [String(n)] for [NaN] and for an integer below [10^21]. *)
Definition String_of_number (n : number) : string :=
  match n with
  | None => "NaN"
  | Some Z0 => "0"
  | Some (Zpos p) => NilEmpty.string_of_uint (Pos.to_uint p)
  | Some (Zneg p) => ("-" ++ NilEmpty.string_of_uint (Pos.to_uint p))%string
  end.

(* ================================================================== *)
(** * addressUtils.ts: validateAddress *)
(* ================================================================== *)

Inductive Chain : Type := ChainEth | ChainCosmos | ChainUnknown.

Record AddressValidationResult : Type := mkAddressValidation {
  address_valid : bool;
  chain : Chain;
  normalized : string;
  isModuleDerived : bool;
  address_error : option string
}.

Definition validateAddress (address : string) : AddressValidationResult :=
  if String_startsWith address "0x" then
    let hex := String_slice 2 address in
    if (String_length hex =? 40)%nat && isHex hex then
      mkAddressValidation true ChainEth (String_toLowerCase address) false None
    else
      mkAddressValidation false ChainUnknown address false
        (Some "Invalid ETH address: must be 40 hex characters after 0x")
  else if String_startsWith address (BITBADGES_PREFIX ++ "1") then
    match bech32_decode address with
    | Return (_, words) =>
        match fromWords words with
        | Return numbers =>
            let bytes := Buffer_from_array numbers in
            let isModuleDerived := (List.length bytes =? 32)%nat in
            mkAddressValidation true ChainCosmos (String_toLowerCase address)
              isModuleDerived None
        | Throw _ =>
            mkAddressValidation false ChainUnknown address false
              (Some "Invalid BitBadges address: failed to decode bech32")
        end
    | Throw _ =>
        mkAddressValidation false ChainUnknown address false
          (Some "Invalid BitBadges address: failed to decode bech32")
    end
  else
    mkAddressValidation false ChainUnknown address false
      (Some "Unknown address format: must start with 0x (ETH) or bb1 (BitBadges)").

(* ================================================================== *)
(** * coinRegistry.ts: the other exports *)
(* ================================================================== *)

(** [getAllTokens()]: the tokens, and the cache afterwards. *)
Definition getAllTokens (cache : Cache) : list TokenInfo * Cache :=
  let '(tokenMap, cache) := buildSymbolToTokenInfoMap cache in
  (Map_values tokenMap, cache).

(** The names every object literal inherits from [Object.prototype]. *)
Definition Object_prototype_names : list string :=
  [ "constructor"; "__defineGetter__"; "__defineSetter__"; "hasOwnProperty";
    "__lookupGetter__"; "__lookupSetter__"; "isPrototypeOf"; "propertyIsEnumerable";
    "toString"; "valueOf"; "__proto__"; "toLocaleString" ].

(** What [MAINNET_COINS_REGISTRY[denom]] evaluates to when it is not
    [undefined]: an entry of the registry, or a member inherited from
    [Object.prototype] (a function or, for [__proto__], the prototype
    itself), which is truthy and has no [decimals]. *)
Inductive RegistryMember : Type :=
| OwnCoin (coinDetails : CoinDetails)
| InheritedMember (name : string).

Fixpoint registry_entry (denom : string) (entries : list (string * CoinDetails))
  : option CoinDetails :=
  match entries with
  | [] => None
  | (key, coinDetails) :: rest =>
      if String.eqb key denom then Some coinDetails else registry_entry denom rest
  end.

(** [getCoinDetails(denom)]: [None] is [null]. *)
Definition getCoinDetails (denom : string) : option RegistryMember :=
  match registry_entry denom MAINNET_COINS_REGISTRY with
  | Some coinDetails => Some (OwnCoin coinDetails)
  | None =>
      if Array_includes Object_prototype_names denom
      then Some (InheritedMember denom)
      else None
  end.

(** [resolveIbcDenom(input)]: [None] is [null]. *)
Definition resolveIbcDenom (input : string) (cache : Cache) : option string * Cache :=
  if String_startsWith input "ibc/" then (Some input, cache)
  else
    match lookupTokenInfo input cache with
    | (Some tokenInfo, cache) => (Some (ibcDenom tokenInfo), cache)
    | (None, cache) => (None, cache)
    end.

(** [getDecimals(denom)]; [parseInt] of the missing [decimals] of an
    inherited member is [NaN]. *)
Definition getDecimals (denom : string) (cache : Cache) : number * Cache :=
  match getCoinDetails denom with
  | Some (OwnCoin coinDetails) => (parseInt (coin_decimals coinDetails), cache)
  | Some (InheritedMember _) => (None, cache)
  | None =>
      match lookupTokenInfo denom cache with
      | (Some tokenInfo, cache) => (parseInt (decimals tokenInfo), cache)
      | (None, cache) =>
          if String_startsWith denom "ibc/" then (Some 6%Z, cache)
          else (Some 9%Z, cache)
      end
  end.

(* ================================================================== *)
(** * tools/utilities/convertAddress.ts *)
(* ================================================================== *)

Module ConvertAddress.

Record ConvertAddressResult : Type := mkResult {
  success : bool;
  originalAddress : option string;
  convertedAddress : option string;
  originalFormat : option string;
  targetFormat : option string;
  error : option string
}.

Definition ethToCosmos (ethAddress : string) : outcome string :=
  let cleanAddress := String_replace (String_toLowerCase ethAddress) "0x" EmptyString in
  let addressBytes := Buffer_from_hex cleanAddress in
  let words := toWords addressBytes in
  bech32_encode "bb" words.

Definition cosmosToEth (cosmosAddress : string) : outcome string :=
  match bech32_decode cosmosAddress with
  | Throw m => Throw m
  | Return (_, words) =>
      match fromWords words with
      | Throw m => Throw m
      | Return numbers =>
          let addressBytes := Buffer_from_array numbers in
          Return ("0x" ++ Buffer_toString_hex addressBytes)%string
      end
  end.

(** The three formats, by the strings the source uses for them. *)
Definition detectFormat (address : string) : string :=
  if String_startsWith address "0x" && (String_length address =? 42)%nat then "eth"
  else if String_startsWith address "bb1" then "cosmos"
  else "unknown".

Definition failure (message : string) : ConvertAddressResult :=
  mkResult false None None None None (Some message).

(** [handleConvertAddress({ address, targetFormat })]; an exception of
    the conversion is caught and reported. *)
Definition handleConvertAddress (address targetFormat : string) : ConvertAddressResult :=
  let sourceFormat := detectFormat address in
  if String.eqb sourceFormat "unknown" then
    failure ("Unknown address format: " ++ dquote ++ address ++ dquote
               ++ ". Expected 0x... (ETH) or bb1... (BitBadges)")
  else if (String.eqb sourceFormat "eth" && String.eqb targetFormat "eth")
          || (String.eqb sourceFormat "cosmos" && String.eqb targetFormat "bitbadges")
  then
    mkResult true (Some address) (Some address)
      (Some (if String.eqb sourceFormat "eth" then "eth" else "bitbadges"))
      (Some targetFormat) None
  else
    let converted :=
      if String.eqb sourceFormat "eth" && String.eqb targetFormat "bitbadges"
      then Some (ethToCosmos address)
      else if String.eqb sourceFormat "cosmos" && String.eqb targetFormat "eth"
      then Some (cosmosToEth address)
      else None in
    match converted with
    | None =>
        failure ("Cannot convert from " ++ sourceFormat ++ " to " ++ targetFormat)
    | Some (Throw m) => failure ("Failed to convert address: " ++ m)
    | Some (Return convertedAddress) =>
        mkResult true (Some address) (Some convertedAddress)
          (Some (if String.eqb sourceFormat "eth" then "eth" else "bitbadges"))
          (Some targetFormat) None
    end.

End ConvertAddress.

(* ================================================================== *)
(** * tools/utilities/validateAddress.ts *)
(* ================================================================== *)

Module ValidateAddress.

Record Details : Type := mkDetails {
  prefix : option string;
  length : nat;
  format : string
}.

Record ValidateAddressResult : Type := mkResult {
  success : bool;
  valid : bool;
  chain : option string;
  normalized : option string;
  details : option Details;
  error : option string
}.

Definition isValidEthAddress (address : string) : bool :=
  if negb (String_startsWith address "0x") then false
  else if negb (String_length address =? 42)%nat then false
  else
    let hexPart := String_slice 2 address in
    isHex hexPart.

(** [isValidCosmosAddress(address)]: [valid] and [prefix]. *)
Definition isValidCosmosAddress (address : string) : bool * option string :=
  match bech32_decode address with
  | Return (prefix, _) => (true, Some prefix)
  | Throw _ => (false, None)
  end.

Definition normalizeAddress (address chain : string) : string :=
  if String.eqb chain "eth" then String_toLowerCase address
  else String_toLowerCase address.

Definition handleValidateAddress (address : string) : ValidateAddressResult :=
  if String.eqb address EmptyString || String.eqb (String_trim address) EmptyString then
    mkResult true false (Some "unknown") None None (Some "Address is empty")
  else if String_startsWith address "0x" then
    let isValid := isValidEthAddress address in
    mkResult true isValid (Some "eth")
      (if isValid then Some (normalizeAddress address "eth") else None)
      (Some (mkDetails (Some "0x") (String_length address) "ethereum"))
      None
  else if String_startsWith address "bb1" || String_startsWith address "cosmos1" then
    let cosmosResult := isValidCosmosAddress address in
    mkResult true (fst cosmosResult) (Some "cosmos")
      (if fst cosmosResult then Some (normalizeAddress address "cosmos") else None)
      (Some (mkDetails (snd cosmosResult) (String_length address) "bech32"))
      None
  else
    let cosmosResult := isValidCosmosAddress address in
    if fst cosmosResult then
      mkResult true true (Some "cosmos")
        (Some (normalizeAddress address "cosmos"))
        (Some (mkDetails (snd cosmosResult) (String_length address) "bech32"))
        None
    else
      mkResult true false (Some "unknown") None
        (Some (mkDetails None (String_length address) "unknown"))
        (Some "Address format not recognized. Expected 0x... (ETH) or bb1... (BitBadges)").

End ValidateAddress.

(* ================================================================== *)
(** * tools/utilities/lookupTokenInfo.ts *)
(* ================================================================== *)

Module LookupTokenInfo.

Record LookupTokenInfoResult : Type := mkResult {
  success : bool;
  tokenInfo : option TokenInfo;
  allTokens : option (list TokenInfo);
  error : option string
}.

Definition handleLookupTokenInfo (query : string) (cache : Cache)
  : LookupTokenInfoResult * Cache :=
  if String.eqb query EmptyString || String.eqb (String_toLowerCase query) "all" then
    let '(tokens, cache) := getAllTokens cache in
    (mkResult true None (Some tokens) None, cache)
  else
    match lookupTokenInfo query cache with
    | (None, cache) =>
        let '(tokens, cache) := getAllTokens cache in
        (mkResult false None None
           (Some ("Token not found: " ++ dquote ++ query ++ dquote
                    ++ ". Available symbols: "
                    ++ Array_join (map symbol tokens) ", ")%string),
         cache)
    | (Some tokenInfo, cache) => (mkResult true (Some tokenInfo) None None, cache)
    end.

End LookupTokenInfo.

(* ================================================================== *)
(** * tools/components/generateBackingAddress.ts *)
(* ================================================================== *)

Module GenerateBackingAddress.

Record ApprovalListIds : Type := mkListIds {
  backingFromListId : string;
  backingToListId : string;
  unbackingFromListId : string;
  unbackingToListId : string
}.

Record GenerateBackingAddressResult : Type := mkResult {
  success : bool;
  address : option string;
  ibcDenom : option string;
  symbol : option string;
  decimals : option string;
  approvalListIds : option ApprovalListIds;
  error : option string
}.

Definition failure (message : string) : GenerateBackingAddressResult :=
  mkResult false None None None None None (Some message).

(** The end of the handler, once the denomination, the symbol and the
    decimals are settled. *)
Definition finish (ibcDenom symbol decimals : string) : GenerateBackingAddressResult :=
  match generateAliasAddressForIBCBackedDenom ibcDenom with
  | Throw m => failure ("Failed to generate backing address: " ++ m)
  | Return address =>
      mkResult true (Some address) (Some ibcDenom) (Some symbol) (Some decimals)
        (Some (mkListIds address ("!" ++ address) ("!Mint:" ++ address) address))
        None
  end.

Definition handleGenerateBackingAddress (input_ibcDenom : string) (cache : Cache)
  : GenerateBackingAddressResult * Cache :=
  if negb (String_startsWith input_ibcDenom "ibc/") then
    match lookupTokenInfo input_ibcDenom cache with
    | (Some (mkToken symbol ibcDenom decimals _ _), cache) =>
        (finish ibcDenom symbol decimals, cache)
    | (None, cache) =>
        match resolveIbcDenom input_ibcDenom cache with
        | (None, cache) =>
            (failure ("Could not resolve " ++ dquote ++ input_ibcDenom ++ dquote
                        ++ " to an IBC denom. Use full IBC denom (ibc/...) or known symbol (USDC, ATOM, OSMO)."),
             cache)
        | (Some resolved, cache) => (finish resolved "UNKNOWN" "6", cache)
        end
    end
  else
    match lookupTokenInfo input_ibcDenom cache with
    | (Some (mkToken symbol _ decimals _ _), cache) =>
        (finish input_ibcDenom symbol decimals, cache)
    | (None, cache) => (finish input_ibcDenom "UNKNOWN" "6", cache)
    end.

End GenerateBackingAddress.

(* ================================================================== *)
(** * Optional inputs of the builder tools *)
(* ================================================================== *)

(** An optional input is [undefined] ([None]) or a value.  An optional
    string is truthy when it is defined and not empty; [when_given x f
    otherwise] is [x ? f(x) : otherwise]. *)
Definition when_given {A : Type} (x : option string) (f : string -> A) (otherwise : A) : A :=
  match x with
  | Some s => if String.eqb s EmptyString then otherwise else f s
  | None => otherwise
  end.

(** [x || d]. *)
Definition or_else (x : option string) (d : string) : string :=
  when_given x (fun s => s) d.

(** The truthiness of an optional boolean. *)
Definition flag (x : option bool) : bool :=
  match x with Some b => b | None => false end.

(* ================================================================== *)
(** * tools/builders/buildFungibleToken.ts *)
(* ================================================================== *)

Module BuildFungibleToken.

Definition MAX_UINT64 : string := "18446744073709551615".
Definition FOREVER_TIMES : json :=
  JArray [JObject [("start", JString "1"); ("end", JString MAX_UINT64)]].

Record BuildFungibleTokenInput : Type := mkInput {
  creatorAddress : string;
  name : string;
  symbol : string;
  description : option string;
  totalSupply : option string;
  mintPrice : option string;
  mintPriceDenom : option string;
  maxPerUser : option string;
  transferable : option bool;
  swappable : option bool;
  decimals : option string
}.

Record Summary : Type := mkSummary {
  summary_symbol : string;
  summary_decimals : string;
  features : list string
}.

(** [transaction] is the object [{ messages: [...] }]. *)
Record BuildFungibleTokenResult : Type := mkResult {
  success : bool;
  transaction : option json;
  summary : option Summary;
  error : option string
}.

Definition buildMintApproval (creatorAddress : string)
           (mintPrice mintPriceDenom maxPerUser totalSupply : option string) : json :=
  let criteria : list (string * json) :=
    [("overridesFromOutgoingApprovals", JBool true)]
    ++ when_given mintPrice
         (fun price =>
            when_given mintPriceDenom
              (fun denom =>
                 [("coinTransfers",
                   JArray
                     [JObject
                        [("to", JString creatorAddress);
                         ("coins",
                          JArray [JObject [("denom", JString denom); ("amount", JString price)]]);
                         ("overrideFromWithApproverAddress", JBool false);
                         ("overrideToWithInitiator", JBool false)]])])
              [])
         []
    ++ when_given maxPerUser
         (fun perUser =>
            [("maxNumTransfers",
              JObject
                [("perInitiatedByAddressMaxNumTransfers", JString "0");
                 ("overallMaxNumTransfers", JString "0");
                 ("perToAddressMaxNumTransfers", JString "0");
                 ("perFromAddressMaxNumTransfers", JString "0");
                 ("amountTrackerId", JString "mint-tracker");
                 ("resetTimeIntervals",
                  JObject [("startTime", JString "0"); ("intervalLength", JString "0")])]);
             ("approvalAmounts",
              JObject
                [("perInitiatedByAddressApprovalAmount", JString perUser);
                 ("overallApprovalAmount", JString (or_else totalSupply "0"));
                 ("perToAddressApprovalAmount", JString "0");
                 ("perFromAddressApprovalAmount", JString "0");
                 ("amountTrackerId", JString "mint-tracker");
                 ("resetTimeIntervals",
                  JObject [("startTime", JString "0"); ("intervalLength", JString "0")])])])
         (when_given totalSupply
            (fun supply =>
               if negb (String.eqb supply "0") then
                 [("approvalAmounts",
                   JObject
                     [("overallApprovalAmount", JString supply);
                      ("perInitiatedByAddressApprovalAmount", JString "0");
                      ("perToAddressApprovalAmount", JString "0");
                      ("perFromAddressApprovalAmount", JString "0");
                      ("amountTrackerId", JString "supply-tracker");
                      ("resetTimeIntervals",
                  JObject [("startTime", JString "0"); ("intervalLength", JString "0")])])]
               else [])
            []) in
  JObject
    [("fromListId", JString "Mint");
     ("toListId", JString "All");
     ("initiatedByListId", JString "All");
     ("transferTimes", FOREVER_TIMES);
     ("tokenIds", JArray [JObject [("start", JString "1"); ("end", JString "1")]]);
     ("ownershipTimes", FOREVER_TIMES);
     ("uri", JString EmptyString);
     ("customData", JString EmptyString);
     ("approvalId", JString "public-mint");
     ("approvalCriteria", JObject criteria);
     ("version", JString "0")].

Definition buildTransferApproval : json :=
  JObject
    [("fromListId", JString "!Mint");
     ("toListId", JString "All");
     ("initiatedByListId", JString "All");
     ("transferTimes", FOREVER_TIMES);
     ("tokenIds", JArray [JObject [("start", JString "1"); ("end", JString "1")]]);
     ("ownershipTimes", FOREVER_TIMES);
     ("uri", JString EmptyString);
     ("customData", JString EmptyString);
     ("approvalId", JString "free-transfer");
     ("approvalCriteria", JObject []);
     ("version", JString "0")].

Definition buildPermissions : json :=
  let forbidden :=
    JObject [("permanentlyPermittedTimes", JArray []);
             ("permanentlyForbiddenTimes", FOREVER_TIMES)] in
  let allowed :=
    JObject [("permanentlyPermittedTimes", FOREVER_TIMES);
             ("permanentlyForbiddenTimes", JArray [])] in
  let forbiddenTokenIds :=
    JObject [("tokenIds", FOREVER_TIMES);
             ("permanentlyPermittedTimes", JArray []);
             ("permanentlyForbiddenTimes", FOREVER_TIMES)] in
  let forbiddenApprovals :=
    JObject [("fromListId", JString "All");
             ("toListId", JString "All");
             ("initiatedByListId", JString "All");
             ("transferTimes", FOREVER_TIMES);
             ("tokenIds", FOREVER_TIMES);
             ("ownershipTimes", FOREVER_TIMES);
             ("approvalId", JString "All");
             ("permanentlyPermittedTimes", JArray []);
             ("permanentlyForbiddenTimes", FOREVER_TIMES)] in
  JObject
    [("canDeleteCollection", JArray [forbidden]);
     ("canArchiveCollection", JArray [allowed]);
     ("canUpdateStandards", JArray [forbidden]);
     ("canUpdateCustomData", JArray [allowed]);
     ("canUpdateManager", JArray [forbidden]);
     ("canUpdateCollectionMetadata", JArray [allowed]);
     ("canUpdateValidTokenIds", JArray [forbiddenTokenIds]);
     ("canUpdateTokenMetadata",
      JArray [JObject [("tokenIds", FOREVER_TIMES);
                       ("permanentlyPermittedTimes", FOREVER_TIMES);
                       ("permanentlyForbiddenTimes", JArray [])]]);
     ("canUpdateCollectionApprovals", JArray [forbiddenApprovals]);
     ("canAddMoreAliasPaths", JArray [forbidden]);
     ("canAddMoreCosmosCoinWrapperPaths", JArray [forbidden])].

Definition buildAliasPath (symbol decimals : string) : json :=
  let denom := String_toLowerCase symbol in
  JObject
    [("denom", JString denom);
     ("symbol", JString denom);
     ("conversion",
      JObject
        [("sideA", JObject [("amount", JString "1")]);
         ("sideB",
          JArray
            [JObject
               [("amount", JString "1");
                ("tokenIds", JArray [JObject [("start", JString "1"); ("end", JString "1")]]);
                ("ownershipTimes", FOREVER_TIMES)]])]);
     ("denomUnits",
      JArray
        [JObject
           [("decimals", JString decimals);
            ("symbol", JString symbol);
            ("isDefaultDisplay", JBool true);
            ("metadata",
             JObject [("uri", JString "ipfs://METADATA_ALIAS_PATH"); ("customData", JString EmptyString)])]]);
     ("metadata",
      JObject [("uri", JString "ipfs://METADATA_ALIAS_PATH"); ("customData", JString EmptyString)])].

Definition handleBuildFungibleToken (input : BuildFungibleTokenInput)
  : BuildFungibleTokenResult :=
  if negb (String_startsWith (creatorAddress input) "bb1") then
    mkResult false None None
      (Some ("Creator address must start with " ++ dquote ++ "bb1" ++ dquote)%string)
  else
    let decimals := or_else (decimals input) "9" in
    let transferable :=
      match transferable input with Some false => false | _ => true end in
    let standards :=
      [JString "Fungible Tokens"]
      ++ (if flag (swappable input) then [JString "Liquidity Pools"] else []) in
    let features :=
      when_given (totalSupply input)
        (fun supply =>
           if negb (String.eqb supply "0") then [("Max supply: " ++ supply)%string]
           else ["Unlimited supply"])
        ["Unlimited supply"]
      ++ when_given (mintPrice input)
           (fun price =>
              when_given (mintPriceDenom input)
                (fun denom => [("Mint price: " ++ price ++ " " ++ denom)%string])
                ["Free minting"])
           ["Free minting"]
      ++ when_given (maxPerUser input) (fun perUser => [("Max per user: " ++ perUser)%string]) []
      ++ (if transferable then ["Transferable"] else ["Non-transferable (soulbound)"])
      ++ (if flag (swappable input) then ["Liquidity pools enabled"] else []) in
    let approvals :=
      [buildMintApproval (creatorAddress input) (mintPrice input) (mintPriceDenom input)
         (maxPerUser input) (totalSupply input)]
      ++ (if transferable then [buildTransferApproval] else []) in
    let message :=
      JObject
        [("typeUrl", JString "/tokenization.MsgUniversalUpdateCollection");
         ("value",
          JObject
            [("creator", JString (creatorAddress input));
             ("collectionId", JString "0");
             ("updateValidTokenIds", JBool true);
             ("validTokenIds", JArray [JObject [("start", JString "1"); ("end", JString "1")]]);
             ("updateCollectionPermissions", JBool true);
             ("collectionPermissions", buildPermissions);
             ("updateManager", JBool true);
             ("manager", JString (creatorAddress input));
             ("updateCollectionMetadata", JBool true);
             ("collectionMetadata",
              JObject [("uri", JString "ipfs://METADATA_COLLECTION"); ("customData", JString EmptyString)]);
             ("updateTokenMetadata", JBool true);
             ("tokenMetadata",
              JArray
                [JObject
                   [("uri", JString "ipfs://METADATA_TOKEN");
                    ("customData", JString EmptyString);
                    ("tokenIds",
                     JArray [JObject [("start", JString "1"); ("end", JString "1")]])]]);
             ("updateCustomData", JBool true);
             ("customData", JString EmptyString);
             ("updateCollectionApprovals", JBool true);
             ("collectionApprovals", JArray approvals);
             ("updateStandards", JBool true);
             ("standards", JArray standards);
             ("updateIsArchived", JBool false);
             ("isArchived", JBool false);
             ("mintEscrowCoinsToTransfer", JArray []);
             ("invariants",
              JObject
                [("noCustomOwnershipTimes", JBool true);
                 ("maxSupplyPerId", JString (or_else (totalSupply input) "0"));
                 ("noForcefulPostMintTransfers", JBool true);
                 ("disablePoolCreation", JBool (negb (flag (swappable input))));
                 ("cosmosCoinBackedPath", JNull)]);
             ("aliasPathsToAdd",
              JArray (if flag (swappable input)
                      then [buildAliasPath (symbol input) decimals] else []));
             ("cosmosCoinWrapperPathsToAdd", JArray [])])] in
    mkResult true
      (Some (JObject [("messages", JArray [message])]))
      (Some (mkSummary (symbol input) decimals features))
      None.

End BuildFungibleToken.

(* ================================================================== *)
(** * tools/builders/buildNFTCollection.ts *)
(* ================================================================== *)

Module BuildNFTCollection.

Definition MAX_UINT64 : string := "18446744073709551615".
Definition FOREVER_TIMES : json :=
  JArray [JObject [("start", JString "1"); ("end", JString MAX_UINT64)]].

Record BuildNFTCollectionInput : Type := mkInput {
  creatorAddress : string;
  name : string;
  description : option string;
  totalSupply : string;
  mintPrice : option string;
  mintPriceDenom : option string;
  maxPerUser : option string;
  tradable : option bool;
  tradingCurrency : option string
}.

Record Summary : Type := mkSummary {
  summary_totalSupply : string;
  features : list string
}.

Record BuildNFTCollectionResult : Type := mkResult {
  success : bool;
  transaction : option json;
  summary : option Summary;
  error : option string
}.

Definition buildMintApproval (creatorAddress totalSupply : string)
           (mintPrice mintPriceDenom maxPerUser : option string) : json :=
  let maxTransfers :=
    JObject
      [("overallMaxNumTransfers", JString totalSupply);
       ("perToAddressMaxNumTransfers", JString "0");
       ("perFromAddressMaxNumTransfers", JString "0");
       ("perInitiatedByAddressMaxNumTransfers", JString (or_else maxPerUser "0"));
       ("amountTrackerId", JString "nft-mint-tracker");
       ("resetTimeIntervals",
        JObject [("startTime", JString "0"); ("intervalLength", JString "0")])] in
  let criteria : list (string * json) :=
    [("overridesFromOutgoingApprovals", JBool true)]
    ++ when_given mintPrice
         (fun price =>
            when_given mintPriceDenom
              (fun denom =>
                 [("coinTransfers",
                   JArray
                     [JObject
                        [("to", JString creatorAddress);
                         ("coins",
                          JArray [JObject [("denom", JString denom); ("amount", JString price)]]);
                         ("overrideFromWithApproverAddress", JBool false);
                         ("overrideToWithInitiator", JBool false)]])])
              [])
         []
    ++ [("predeterminedBalances",
         JObject
           [("manualBalances", JArray []);
            ("incrementedBalances",
             JObject
               [("startBalances",
                 JArray
                   [JObject
                      [("amount", JString "1");
                       ("tokenIds",
                        JArray [JObject [("start", JString "1"); ("end", JString "1")]]);
                       ("ownershipTimes", FOREVER_TIMES)]]);
                ("incrementTokenIdsBy", JString "1");
                ("incrementOwnershipTimesBy", JString "0");
                ("durationFromTimestamp", JString "0");
                ("allowOverrideTimestamp", JBool false);
                ("recurringOwnershipTimes",
                 JObject
                   [("startTime", JString "0");
                    ("intervalLength", JString "0");
                    ("chargePeriodLength", JString "0")]);
                ("allowOverrideWithAnyValidToken", JBool false)]);
            ("orderCalculationMethod",
             JObject
               [("useOverallNumTransfers", JBool true);
                ("usePerToAddressNumTransfers", JBool false);
                ("usePerFromAddressNumTransfers", JBool false);
                ("usePerInitiatedByAddressNumTransfers", JBool false);
                ("useMerkleChallengeLeafIndex", JBool false);
                ("challengeTrackerId", JString EmptyString)])]);
        ("maxNumTransfers", maxTransfers)] in
  JObject
    [("fromListId", JString "Mint");
     ("toListId", JString "All");
     ("initiatedByListId", JString "All");
     ("transferTimes", FOREVER_TIMES);
     ("tokenIds", JArray [JObject [("start", JString "1"); ("end", JString totalSupply)]]);
     ("ownershipTimes", FOREVER_TIMES);
     ("uri", JString EmptyString);
     ("customData", JString EmptyString);
     ("approvalId", JString "public-mint");
     ("approvalCriteria", JObject criteria);
     ("version", JString "0")].

Definition buildTransferApproval (totalSupply : string) : json :=
  JObject
    [("fromListId", JString "!Mint");
     ("toListId", JString "All");
     ("initiatedByListId", JString "All");
     ("transferTimes", FOREVER_TIMES);
     ("tokenIds", JArray [JObject [("start", JString "1"); ("end", JString totalSupply)]]);
     ("ownershipTimes", FOREVER_TIMES);
     ("uri", JString EmptyString);
     ("customData", JString EmptyString);
     ("approvalId", JString "free-transfer");
     ("approvalCriteria", JObject []);
     ("version", JString "0")].

Definition buildPermissions (totalSupply : string) : json :=
  let forbidden :=
    JObject [("permanentlyPermittedTimes", JArray []);
             ("permanentlyForbiddenTimes", FOREVER_TIMES)] in
  let allowed :=
    JObject [("permanentlyPermittedTimes", FOREVER_TIMES);
             ("permanentlyForbiddenTimes", JArray [])] in
  let tokenIdRange :=
    JArray [JObject [("start", JString "1"); ("end", JString totalSupply)]] in
  let forbiddenTokenIds :=
    JObject [("tokenIds", tokenIdRange);
             ("permanentlyPermittedTimes", JArray []);
             ("permanentlyForbiddenTimes", FOREVER_TIMES)] in
  let forbiddenApprovals :=
    JObject [("fromListId", JString "All");
             ("toListId", JString "All");
             ("initiatedByListId", JString "All");
             ("transferTimes", FOREVER_TIMES);
             ("tokenIds", tokenIdRange);
             ("ownershipTimes", FOREVER_TIMES);
             ("approvalId", JString "All");
             ("permanentlyPermittedTimes", JArray []);
             ("permanentlyForbiddenTimes", FOREVER_TIMES)] in
  JObject
    [("canDeleteCollection", JArray [forbidden]);
     ("canArchiveCollection", JArray [allowed]);
     ("canUpdateStandards", JArray [forbidden]);
     ("canUpdateCustomData", JArray [allowed]);
     ("canUpdateManager", JArray [forbidden]);
     ("canUpdateCollectionMetadata", JArray [allowed]);
     ("canUpdateValidTokenIds", JArray [forbiddenTokenIds]);
     ("canUpdateTokenMetadata",
      JArray [JObject [("tokenIds", tokenIdRange);
                       ("permanentlyPermittedTimes", FOREVER_TIMES);
                       ("permanentlyForbiddenTimes", JArray [])]]);
     ("canUpdateCollectionApprovals", JArray [forbiddenApprovals]);
     ("canAddMoreAliasPaths", JArray [forbidden]);
     ("canAddMoreCosmosCoinWrapperPaths", JArray [forbidden])].

Definition handleBuildNFTCollection (input : BuildNFTCollectionInput)
  : BuildNFTCollectionResult :=
  if negb (String_startsWith (creatorAddress input) "bb1") then
    mkResult false None None
      (Some ("Creator address must start with " ++ dquote ++ "bb1" ++ dquote)%string)
  else
    let supply := parseInt (totalSupply input) in
    if match supply with None => true | Some n => (n <=? 0)%Z end then
      mkResult false None None (Some "Total supply must be a positive number")
    else
      let standards :=
        [JString "NFTs"]
        ++ (if flag (tradable input)
            then [JString "Tradable";
                  JString ("DefaultDisplayCurrency:" ++ or_else (tradingCurrency input) "ubadge")]
            else []) in
      let features :=
        [("Total supply: " ++ totalSupply input ++ " NFTs")%string]
        ++ when_given (mintPrice input)
             (fun price =>
                when_given (mintPriceDenom input)
                  (fun denom => [("Mint price: " ++ price ++ " " ++ denom)%string])
                  ["Free minting"])
             ["Free minting"]
        ++ when_given (maxPerUser input) (fun perUser => [("Max per user: " ++ perUser)%string]) []
        ++ ["Transferable"]
        ++ (if flag (tradable input)
            then [("Marketplace trading (" ++ or_else (tradingCurrency input) "ubadge" ++ ")")%string]
            else []) in
      let message :=
        JObject
          [("typeUrl", JString "/tokenization.MsgUniversalUpdateCollection");
           ("value",
            JObject
              [("creator", JString (creatorAddress input));
               ("collectionId", JString "0");
               ("updateValidTokenIds", JBool true);
               ("validTokenIds",
                JArray [JObject [("start", JString "1"); ("end", JString (totalSupply input))]]);
               ("updateCollectionPermissions", JBool true);
               ("collectionPermissions", buildPermissions (totalSupply input));
               ("updateManager", JBool true);
               ("manager", JString (creatorAddress input));
               ("updateCollectionMetadata", JBool true);
               ("collectionMetadata",
                JObject [("uri", JString "ipfs://METADATA_COLLECTION");
                         ("customData", JString EmptyString)]);
               ("updateTokenMetadata", JBool true);
               ("tokenMetadata",
                JArray
                  [JObject
                     [("uri", JString "ipfs://METADATA_TOKEN_{id}");
                      ("customData", JString EmptyString);
                      ("tokenIds",
                       JArray [JObject [("start", JString "1");
                                        ("end", JString (totalSupply input))]])]]);
               ("updateCustomData", JBool true);
               ("customData", JString EmptyString);
               ("updateCollectionApprovals", JBool true);
               ("collectionApprovals",
                JArray
                  [buildMintApproval (creatorAddress input) (totalSupply input)
                     (mintPrice input) (mintPriceDenom input) (maxPerUser input);
                   buildTransferApproval (totalSupply input)]);
               ("updateStandards", JBool true);
               ("standards", JArray standards);
               ("updateIsArchived", JBool false);
               ("isArchived", JBool false);
               ("mintEscrowCoinsToTransfer", JArray []);
               ("invariants",
                JObject
                  [("noCustomOwnershipTimes", JBool true);
                   ("maxSupplyPerId", JString "1");
                   ("noForcefulPostMintTransfers", JBool true);
                   ("disablePoolCreation", JBool true);
                   ("cosmosCoinBackedPath", JNull)]);
               ("aliasPathsToAdd", JArray []);
               ("cosmosCoinWrapperPathsToAdd", JArray [])])] in
      mkResult true
        (Some (JObject [("messages", JArray [message])]))
        (Some (mkSummary (totalSupply input) features))
        None.

End BuildNFTCollection.

(* ================================================================== *)
(** * tools/builders/buildSmartToken.ts *)
(* ================================================================== *)

Module BuildSmartToken.

Definition MAX_UINT64 : string := "18446744073709551615".
Definition FOREVER_TIMES : json :=
  JArray [JObject [("start", JString "1"); ("end", JString MAX_UINT64)]].

Record BuildSmartTokenInput : Type := mkInput {
  input_ibcDenom : string;
  creatorAddress : string;
  name : string;
  input_symbol : string;
  description : option string;
  imageUrl : option string;
  dailyWithdrawLimit : option string;
  totalWithdrawLimit : option string;
  requires2FA : option bool;
  twoFACollectionId : option string;
  swappable : option bool;
  immutable : option bool
}.

Record Summary : Type := mkSummary {
  summary_ibcDenom : string;
  summary_backingAddress : string;
  summary_symbol : string;
  summary_decimals : number;
  features : list string
}.

(** [transaction] is the object [{ messages: [...], metadataPlaceholders }]. *)
Record BuildSmartTokenResult : Type := mkResult {
  success : bool;
  transaction : option json;
  summary : option Summary;
  error : option string
}.

Definition buildBackingApproval (backingAddress : string) : json :=
  JObject
    [("fromListId", JString backingAddress);
     ("toListId", JString ("!" ++ backingAddress));
     ("initiatedByListId", JString "All");
     ("transferTimes", FOREVER_TIMES);
     ("tokenIds", JArray [JObject [("start", JString "1"); ("end", JString "1")]]);
     ("ownershipTimes", FOREVER_TIMES);
     ("uri", JString "ipfs://METADATA_APPROVAL_backing");
     ("customData", JString EmptyString);
     ("approvalId", JString "smart-token-backing");
     ("approvalCriteria",
      JObject [("mustPrioritize", JBool true); ("allowBackedMinting", JBool true)]);
     ("version", JString "0")].

Definition buildUnbackingApproval (backingAddress : string)
           (dailyLimit totalLimit : option string) (requires2FA : option bool)
           (twoFACollectionId : option string) : json :=
  let given (x : option string) : bool := when_given x (fun _ => true) false in
  let criteria : list (string * json) :=
    [("mustPrioritize", JBool true); ("allowBackedMinting", JBool true)]
    ++ (if given dailyLimit || given totalLimit then
          [("approvalAmounts",
            JObject
              [("overallApprovalAmount", JString (or_else totalLimit "0"));
               ("perFromAddressApprovalAmount", JString (or_else dailyLimit "0"));
               ("perToAddressApprovalAmount", JString "0");
               ("perInitiatedByAddressApprovalAmount", JString "0");
               ("amountTrackerId",
                JString (if given dailyLimit
                         then "daily-withdraw-limit" else "total-withdraw-limit"));
               ("resetTimeIntervals",
                if given dailyLimit
                then JObject [("startTime", JString "0"); ("intervalLength", JString "86400000")]
                else JObject [("startTime", JString "0"); ("intervalLength", JString "0")])])]
        else [])
    ++ (if flag requires2FA then
          when_given twoFACollectionId
            (fun collectionId =>
               [("mustOwnTokens",
                 JArray
                   [JObject
                      [("collectionId", JString collectionId);
                       ("amountRange",
                        JObject [("start", JString "1"); ("end", JString MAX_UINT64)]);
                       ("ownershipTimes", FOREVER_TIMES);
                       ("tokenIds",
                        JArray [JObject [("start", JString "1"); ("end", JString MAX_UINT64)]]);
                       ("overrideWithCurrentTime", JBool true);
                       ("mustSatisfyForAllAssets", JBool false);
                       ("ownershipCheckParty", JString "initiator")]])])
            []
        else []) in
  JObject
    [("fromListId", JString ("!Mint:" ++ backingAddress));
     ("toListId", JString backingAddress);
     ("initiatedByListId", JString "All");
     ("transferTimes", FOREVER_TIMES);
     ("tokenIds", JArray [JObject [("start", JString "1"); ("end", JString "1")]]);
     ("ownershipTimes", FOREVER_TIMES);
     ("uri", JString "ipfs://METADATA_APPROVAL_unbacking");
     ("customData", JString EmptyString);
     ("approvalId", JString "smart-token-unbacking");
     ("approvalCriteria", JObject criteria);
     ("version", JString "0")].

Definition buildPermissions (immutable : bool) : json :=
  let forbidden :=
    JObject [("permanentlyPermittedTimes", JArray []);
             ("permanentlyForbiddenTimes", FOREVER_TIMES)] in
  let allowed :=
    JObject [("permanentlyPermittedTimes", FOREVER_TIMES);
             ("permanentlyForbiddenTimes", JArray [])] in
  let forbiddenTokenIds :=
    JObject [("tokenIds", JArray [JObject [("start", JString "1"); ("end", JString MAX_UINT64)]]);
             ("permanentlyPermittedTimes", JArray []);
             ("permanentlyForbiddenTimes", FOREVER_TIMES)] in
  let forbiddenApprovals :=
    JObject [("fromListId", JString "All");
             ("toListId", JString "All");
             ("initiatedByListId", JString "All");
             ("transferTimes", FOREVER_TIMES);
             ("tokenIds", JArray [JObject [("start", JString "1"); ("end", JString MAX_UINT64)]]);
             ("ownershipTimes", FOREVER_TIMES);
             ("approvalId", JString "All");
             ("permanentlyPermittedTimes", JArray []);
             ("permanentlyForbiddenTimes", FOREVER_TIMES)] in
  if immutable then
    JObject
      [("canDeleteCollection", JArray [forbidden]);
       ("canArchiveCollection", JArray [forbidden]);
       ("canUpdateStandards", JArray [forbidden]);
       ("canUpdateCustomData", JArray [forbidden]);
       ("canUpdateManager", JArray [forbidden]);
       ("canUpdateCollectionMetadata", JArray [forbidden]);
       ("canUpdateValidTokenIds", JArray [forbiddenTokenIds]);
       ("canUpdateTokenMetadata", JArray [forbiddenTokenIds]);
       ("canUpdateCollectionApprovals", JArray [forbiddenApprovals]);
       ("canAddMoreAliasPaths", JArray [forbidden]);
       ("canAddMoreCosmosCoinWrapperPaths", JArray [forbidden])]
  else
    JObject
      [("canDeleteCollection", JArray [forbidden]);
       ("canArchiveCollection", JArray [allowed]);
       ("canUpdateStandards", JArray [forbidden]);
       ("canUpdateCustomData", JArray [allowed]);
       ("canUpdateManager", JArray [forbidden]);
       ("canUpdateCollectionMetadata", JArray [allowed]);
       ("canUpdateValidTokenIds", JArray [forbiddenTokenIds]);
       ("canUpdateTokenMetadata",
        JArray [JObject [("tokenIds",
                          JArray [JObject [("start", JString "1"); ("end", JString MAX_UINT64)]]);
                         ("permanentlyPermittedTimes", FOREVER_TIMES);
                         ("permanentlyForbiddenTimes", JArray [])]]);
       ("canUpdateCollectionApprovals", JArray [forbiddenApprovals]);
       ("canAddMoreAliasPaths", JArray [forbidden]);
       ("canAddMoreCosmosCoinWrapperPaths", JArray [forbidden])].

Definition buildAliasPath (symbol : string) (decimals : number) : json :=
  let baseDenom := ("u" ++ String_toLowerCase symbol)%string in
  JObject
    [("denom", JString baseDenom);
     ("symbol", JString baseDenom);
     ("conversion",
      JObject
        [("sideA", JObject [("amount", JString "1")]);
         ("sideB",
          JArray
            [JObject
               [("amount", JString "1");
                ("tokenIds", JArray [JObject [("start", JString "1"); ("end", JString "1")]]);
                ("ownershipTimes", FOREVER_TIMES)]])]);
     ("denomUnits",
      JArray
        [JObject
           [("decimals", JString (String_of_number decimals));
            ("symbol", JString symbol);
            ("isDefaultDisplay", JBool true);
            ("metadata",
             JObject [("uri", JString "ipfs://METADATA_ALIAS_PATH"); ("customData", JString EmptyString)])]]);
     ("metadata",
      JObject [("uri", JString "ipfs://METADATA_ALIAS_PATH"); ("customData", JString EmptyString)])].

Definition failure (message : string) : BuildSmartTokenResult :=
  mkResult false None None (Some message).

(** The first step of [handleBuildSmartToken]: the denomination and the
    token symbol after the input is resolved, [None] when the tool
    returns its error. *)
Definition resolve (input : BuildSmartTokenInput) (cache : Cache)
  : option (string * string) * Cache :=
  if negb (String_startsWith (input_ibcDenom input) "ibc/") then
    let '(resolved, cache) := resolveIbcDenom (input_ibcDenom input) cache in
    when_given resolved
      (fun resolved => (Some (resolved, input_ibcDenom input), cache))
      (match lookupTokenInfo (input_ibcDenom input) cache with
       | (Some (mkToken symbol ibcDenom _ _ _), cache) => (Some (ibcDenom, symbol), cache)
       | (None, cache) => (None, cache)
       end)
  else (Some (input_ibcDenom input, input_ibcDenom input), cache).

(** The transaction and the summary, once the inputs are checked. *)
Definition build (input : BuildSmartTokenInput) (ibcDenom tokenSymbol backingAddress : string)
           (decimals : number) : BuildSmartTokenResult :=
  let standards :=
    [JString "Smart Token"; JString "Fungible Tokens"]
    ++ (if flag (swappable input) then [JString "Liquidity Pools"] else []) in
  let features :=
    ["1:1 IBC backing"]
    ++ when_given (dailyWithdrawLimit input)
         (fun limit => [("Daily limit: " ++ limit ++ " base units")%string]) []
    ++ when_given (totalWithdrawLimit input)
         (fun limit => [("Total limit: " ++ limit ++ " base units")%string]) []
    ++ (if flag (requires2FA input) then ["2FA required"] else [])
    ++ (if flag (swappable input) then ["Liquidity pools enabled"] else [])
    ++ (if flag (immutable input) then ["Fully immutable"] else []) in
  let description :=
    or_else (description input)
      (name input ++ " backed 1:1 by " ++ tokenSymbol ++ " via IBC on BitBadges.") in
  let imageUrl :=
    or_else (imageUrl input) "ipfs://QmbC7wwg3s2HkbBRu46AtgqJy7wPBbgkNVB6ssfMQ1WS16" in
  let message :=
    JObject
      [("typeUrl", JString "/tokenization.MsgUniversalUpdateCollection");
       ("value",
        JObject
          [("creator", JString (creatorAddress input));
           ("collectionId", JString "0");
           ("updateValidTokenIds", JBool true);
           ("validTokenIds", JArray [JObject [("start", JString "1"); ("end", JString "1")]]);
           ("updateCollectionPermissions", JBool true);
           ("collectionPermissions", buildPermissions (flag (immutable input)));
           ("updateManager", JBool true);
           ("manager", JString (creatorAddress input));
           ("updateCollectionMetadata", JBool true);
           ("collectionMetadata",
            JObject [("uri", JString "ipfs://METADATA_COLLECTION"); ("customData", JString EmptyString)]);
           ("updateTokenMetadata", JBool true);
           ("tokenMetadata",
            JArray
              [JObject
                 [("uri", JString "ipfs://METADATA_TOKEN");
                  ("customData", JString EmptyString);
                  ("tokenIds",
                   JArray [JObject [("start", JString "1"); ("end", JString "1")]])]]);
           ("updateCustomData", JBool true);
           ("customData", JString EmptyString);
           ("updateCollectionApprovals", JBool true);
           ("collectionApprovals",
            JArray
              [buildBackingApproval backingAddress;
               buildUnbackingApproval backingAddress (dailyWithdrawLimit input)
                 (totalWithdrawLimit input) (requires2FA input) (twoFACollectionId input)]);
           ("updateStandards", JBool true);
           ("standards", JArray standards);
           ("updateIsArchived", JBool false);
           ("isArchived", JBool false);
           ("mintEscrowCoinsToTransfer", JArray []);
           ("invariants",
            JObject
              [("noCustomOwnershipTimes", JBool false);
               ("maxSupplyPerId", JString "0");
               ("noForcefulPostMintTransfers", JBool true);
               ("disablePoolCreation", JBool (negb (flag (swappable input))));
               ("cosmosCoinBackedPath",
                JObject
                  [("conversion",
                    JObject
                      [("sideA", JObject [("amount", JString "1"); ("denom", JString ibcDenom)]);
                       ("sideB",
                        JArray
                          [JObject
                             [("amount", JString "1");
                              ("tokenIds",
                               JArray [JObject [("start", JString "1"); ("end", JString "1")]]);
                              ("ownershipTimes", FOREVER_TIMES)]])])])]);
           ("aliasPathsToAdd", JArray [buildAliasPath (input_symbol input) decimals]);
           ("cosmosCoinWrapperPathsToAdd", JArray [])])] in
  let metadataPlaceholders :=
    JObject
      [("ipfs://METADATA_COLLECTION",
        JObject [("name", JString (name input));
                 ("description", JString description);
                 ("image", JString imageUrl)]);
       ("ipfs://METADATA_TOKEN",
        JObject [("name", JString (name input));
                 ("description", JString description);
                 ("image", JString imageUrl)]);
       ("ipfs://METADATA_APPROVAL_backing",
        JObject [("name", JString "Backing Approval");
                 ("description",
                  JString ("Allows backing of " ++ input_symbol input ++ " tokens with "
                             ++ tokenSymbol ++ " via IBC."));
                 ("image", JString EmptyString)]);
       ("ipfs://METADATA_APPROVAL_unbacking",
        JObject [("name", JString "Unbacking Approval");
                 ("description",
                  JString ("Allows unbacking of " ++ input_symbol input ++ " tokens to receive "
                             ++ tokenSymbol ++ " via IBC."));
                 ("image", JString EmptyString)]);
       ("ipfs://METADATA_ALIAS_PATH",
        JObject [("name", JString (input_symbol input));
                 ("description",
                  JString (input_symbol input ++ " alias for liquidity pools and trading."));
                 ("image", JString imageUrl)])] in
  mkResult true
    (Some (JObject [("messages", JArray [message]);
                    ("metadataPlaceholders", metadataPlaceholders)]))
    (Some (mkSummary ibcDenom backingAddress (input_symbol input) decimals features))
    None.

(** [handleBuildSmartToken(input)]: the result, and the registry cache
    afterwards. *)
Definition handleBuildSmartToken (input : BuildSmartTokenInput) (cache : Cache)
  : BuildSmartTokenResult * Cache :=
  match resolve input cache with
  | (None, cache) =>
      (failure ("Could not resolve " ++ dquote ++ input_ibcDenom input ++ dquote
                  ++ " to IBC denom. Use known symbol (USDC, ATOM, OSMO) or full IBC denom."),
       cache)
  | (Some (ibcDenom, tokenSymbol), cache) =>
      match generateAliasAddressForIBCBackedDenom ibcDenom with
      | Throw message => (failure ("Failed to build Smart Token: " ++ message), cache)
      | Return backingAddress =>
          let '(decimals, cache) := getDecimals ibcDenom cache in
          if negb (String_startsWith (creatorAddress input) "bb1") then
            (failure ("Creator address must start with " ++ dquote ++ "bb1" ++ dquote), cache)
          else if flag (requires2FA input)
                  && negb (when_given (twoFACollectionId input) (fun _ => true) false) then
            (failure "twoFACollectionId is required when requires2FA is true", cache)
          else (build input ibcDenom tokenSymbol backingAddress decimals, cache)
      end
  end.

End BuildSmartToken.

(* ================================================================== *)
(** * Vocabulary of the statements *)
(* ================================================================== *)

(** [value] is the value of the message at index [i] of [tx], a
    [MsgUniversalUpdateCollection], and [approvals] is its
    [collectionApprovals] array. *)
Definition approvals_of_message (tx : json) (i : nat) (value : json) (approvals : list json)
  : Prop :=
  exists messages msg,
    get tx "messages" = Some (JArray messages)
    /\ nth_error messages i = Some msg
    /\ get msg "typeUrl" = Some (JString MsgUniversalUpdateCollection)
    /\ get msg "value" = Some value
    /\ get value "collectionApprovals" = Some (JArray approvals).

(** The path the validator gives the approval at index [j] of the
    message at index [i]. *)
Definition approvalPath (i j : nat) : string :=
  ((("messages[" ++ string_of_nat i ++ "]") ++ ".value.collectionApprovals")
     ++ "[" ++ string_of_nat j ++ "]")%string.

(** The [standards] argument [validateApprovals] receives. *)
Definition standards_of (value : json) : option (list json) :=
  match get value "standards" with
  | Some (JArray l) => Some l
  | _ => None
  end.

Definition mintOverrideIssue (approvalPath : string) : ValidationIssue :=
  mkIssue SevError "Mint approvals MUST have overridesFromOutgoingApprovals: true"
          (Some (approvalPath ++ ".approvalCriteria.overridesFromOutgoingApprovals")%string).

Definition orderCalculationPath (approvalPath : string) : string :=
  (approvalPath ++ ".approvalCriteria.predeterminedBalances.orderCalculationMethod")%string.

(** Big-endian digits of [w] bits: [digits w k v] are the [k] low
    digits of [v], and [number_of w xs acc] reads the digits [xs] after
    the number [acc]. *)
Fixpoint digits (w : Z) (k : nat) (v : Z) : list Z :=
  match k with
  | O => []
  | S k' => digits w k' (v / 2 ^ w) ++ [v mod 2 ^ w]
  end%Z.

Definition number_of (w : Z) (xs : list Z) (acc : Z) : Z :=
  fold_left (fun a x => a * 2 ^ w + x)%Z xs acc.

Definition in_range (w : Z) (x : Z) : Prop := (0 <= x < 2 ^ w)%Z.

(** The checksum state after the symbols [vs], from the state [chk]. *)
Definition polymod (chk : Z) (vs : list Z) : Z :=
  fold_left (fun c v => Z.lxor (polymodStep c) v) vs chk.

(** The characters of a list of symbols. *)
Fixpoint charsOf (vs : list Z) : string :=
  match vs with
  | [] => EmptyString
  | v :: rest => (ALPHABET_charAt v ++ charsOf rest)%string
  end.

(** [n] steps of the checksum state without symbols. *)
Fixpoint polymodSteps (n : nat) (chk : Z) : Z :=
  match n with
  | O => chk
  | S n' => polymodSteps n' (polymodStep chk)
  end.

(** The checksum state after the prefix [bb]. *)
Definition bbChk : Z := Eval vm_compute in
  match prefixChk "bb" with Return chk => chk | Throw _ => 0%Z end.

(** The checksum symbols of the words of a [bb] address. *)
Definition bbChecksum (words : list Z) : list Z :=
  digits 5 6 (Z.lxor (polymodStep6 (polymod bbChk words)) ENCODING_CONST).

(** The seed digest of the IBC alias derivation: module name, a zero
    byte and the first key, the tag byte. *)
Definition ibcSeedDigest : Buffer :=
  SHA256 (SHA256 (Buffer_from_utf8 "module")
            ++ Buffer_from_utf8 "tokenization" ++ [Byte.x00] ++ [Byte.x12]).

(** The digest after the [Derive] step on the second key, the
    denomination. *)
Definition ibcDenomDigest (ibcDenom : string) : Buffer :=
  SHA256 (SHA256 ibcSeedDigest ++ Buffer_from_utf8 ibcDenom).

(** The digest of a derivation with the single key [0x12 || utf8 d],
    to be compared with [ibcDenomDigest]. *)
Definition singleKeyDigest (ibcDenom : string) : Buffer :=
  SHA256 (SHA256 (Buffer_from_utf8 "module")
            ++ Buffer_from_utf8 "tokenization" ++ [Byte.x00] ++ [Byte.x12]
            ++ Buffer_from_utf8 ibcDenom).

(** The table [buildSymbolToTokenInfoMap] builds from the registry. *)
Definition seededTokenMap : TokenMap := fold_left addCoin MAINNET_COINS_REGISTRY [].

(** The states the cache is ever in: [null], or the seeded table. *)
Definition cache_reachable (cache : Cache) : Prop :=
  cache = None \/ cache = Some seededTokenMap.

(** A text of ASCII characters only: its UTF-16 code units are its
    bytes, and case conversion touches the letters A to Z and a to z
    only. *)
Fixpoint ascii_text (s : string) : bool :=
  match s with
  | EmptyString => true
  | String c rest => (char_code c <? 128)%N && ascii_text rest
  end.

(** Addresses used as examples: the upper-case form of the address of
    twenty zero bytes, and the encoding of the same bytes under the
    prefix [bb1]. *)
Definition upperCaseAddress : string := "BB1QQQQQQQQQQQQQQQQQQQQQQQQQQQQQQQQS7GVMV".

Definition longPrefixAddress : string := "bb11qqqqqqqqqqqqqqqqqqqqqqqqqqqqqqqqpm6eeg".

(** A collection update with one Mint approval that has no
    [approvalCriteria]. *)
Definition mintWithoutCriteria : string :=
  quoted "{'messages':[{'typeUrl':'/tokenization.MsgUniversalUpdateCollection','value':{'creator':'bb1x','collectionId':'0','collectionApprovals':[{'fromListId':'Mint','toListId':'All','initiatedByListId':'All','approvalId':'a'}]}}]}".

(** The same with an empty [approvalCriteria] object. *)
Definition mintWithEmptyCriteria : string :=
  quoted "{'messages':[{'typeUrl':'/tokenization.MsgUniversalUpdateCollection','value':{'creator':'bb1x','collectionId':'0','collectionApprovals':[{'fromListId':'Mint','toListId':'All','initiatedByListId':'All','approvalId':'a','approvalCriteria':{}}]}}]}".

(** [n] times the character [c], before [tail]. *)
Fixpoint repeated (c : ascii) (n : nat) (tail : string) : string :=
  match n with
  | O => tail
  | S n' => String c (repeated c n' tail)
  end.

(** [n + 1] arrays, each the only element of the one around it. *)
Fixpoint nestedArray (n : nat) : json :=
  match n with
  | O => JArray []
  | S n' => JArray [nestedArray n']
  end.

(** A transaction without messages that carries [nestedArray n] under
    the key [a]: the text, of [n + 1] opening and [n + 1] closing
    brackets, and the value it denotes. *)
Definition deepTransactionText (n : nat) : string :=
  (quoted "{'messages':[],'a':" ++ repeated "[" (S n) (repeated "]" (S n) "}"))%string.

Definition deepTransaction (n : nat) : json :=
  JObject [("messages", JArray []); ("a", nestedArray n)].

(** The tokens of the text before its nested arrays. *)
Definition deepTransactionHead : list token :=
  [TLBrace; TString "messages"; TColon; TLBracket; TRBracket; TComma; TString "a"; TColon].

(** The calls of [checkNumbersAreStrings] that are active at once
    during a call on [obj]: the call itself and, on an array or an
    object, the deepest of the calls on its elements or its property
    values.  (The source makes each of these calls from a [forEach]
    callback, which is one more active call per level.) *)
Fixpoint checkNumbersAreStrings_depth (obj : json) : nat :=
  match obj with
  | JArray items => S (list_max (map checkNumbersAreStrings_depth items))
  | JObject entries =>
      S (list_max (map (fun entry : string * json =>
                          let '(_, value) := entry in checkNumbersAreStrings_depth value)
                       entries))
  | _ => 1
  end.

(** A subscription collection whose Mint approval sets [n] of the
    order-calculation flags, for [n] = 2, 0 and 1. *)
Definition subscriptionTwoFlags : string :=
  quoted "{'messages':[{'typeUrl':'/tokenization.MsgUniversalUpdateCollection','value':{'creator':'bb1x','collectionId':'0','standards':['Subscriptions'],'collectionApprovals':[{'fromListId':'Mint','toListId':'All','initiatedByListId':'All','approvalId':'a','approvalCriteria':{'overridesFromOutgoingApprovals':true,'predeterminedBalances':{'orderCalculationMethod':{'useOverallNumTransfers':true,'useMerkleChallengeLeafIndex':true}}}}]}}]}".

Definition subscriptionNoFlag : string :=
  quoted "{'messages':[{'typeUrl':'/tokenization.MsgUniversalUpdateCollection','value':{'creator':'bb1x','collectionId':'0','standards':['Subscriptions'],'collectionApprovals':[{'fromListId':'Mint','toListId':'All','initiatedByListId':'All','approvalId':'a','approvalCriteria':{'overridesFromOutgoingApprovals':true,'predeterminedBalances':{'orderCalculationMethod':{'useOverallNumTransfers':false}}}}]}}]}".

Definition subscriptionOneFlag : string :=
  quoted "{'messages':[{'typeUrl':'/tokenization.MsgUniversalUpdateCollection','value':{'creator':'bb1x','collectionId':'0','standards':['Subscriptions'],'collectionApprovals':[{'fromListId':'Mint','toListId':'All','initiatedByListId':'All','approvalId':'a','approvalCriteria':{'overridesFromOutgoingApprovals':true,'predeterminedBalances':{'orderCalculationMethod':{'useOverallNumTransfers':true}}}}]}}]}".

(** The text [encode] gives for the words of a payload under the prefix
    [bb]. *)
Definition payloadAddress (bytes : Buffer) : string :=
  ("bb1" ++ charsOf (toWords bytes) ++ charsOf (bbChecksum (toWords bytes)))%string.

(** What the seeded tokens have in common. *)
Definition token_consistent (tokenInfo : TokenInfo) : Prop :=
  String_startsWith (ibcDenom tokenInfo) "ibc/" = true
  /\ generateAliasAddressForIBCBackedDenom (ibcDenom tokenInfo)
     = Return (backingAddress tokenInfo)
  /\ decimals tokenInfo = "6".

(** The number literals in a value, at any depth. *)
Fixpoint count_numbers (v : json) : nat :=
  match v with
  | JNumber _ => 1
  | JArray items => list_sum (map count_numbers items)
  | JObject entries =>
      list_sum (map (fun entry : string * json =>
                       let '(_, value) := entry in count_numbers value) entries)
  | _ => 0
  end.

(** An object with a [start] or an [end] that does not have both as
    strings. *)
Definition malformed_range (obj : json) : bool :=
  match obj with
  | JObject _ =>
      (has obj "start" || has obj "end")
      && negb (match get obj "start", get obj "end" with
               | Some (JString _), Some (JString _) => true
               | _, _ => false
               end)
  | _ => false
  end.

(** Such an object occurs in a value, at any depth. *)
Fixpoint contains_malformed_range (v : json) : bool :=
  match v with
  | JArray items => existsb contains_malformed_range items
  | JObject entries =>
      malformed_range v
      || existsb (fun entry : string * json =>
                    let '(_, value) := entry in contains_malformed_range value) entries
  | _ => false
  end.

(** The issue the validator reports for the unbacking approval of a
    smart token with the given backing address. *)
Definition unbackingIssue (backingAddress : string) : ValidationIssue :=
  mkIssue SevError
    ("Invalid list ID: " ++ dquote ++ "!Mint:" ++ backingAddress ++ dquote
       ++ ". Use only reserved IDs (All, Mint, !Mint, Total) or bb1... addresses")
    (Some "messages[0].value.collectionApprovals[1].fromListId").

(** Inputs of the builder tools, and the JSON texts of the transactions
    built from them. *)
Definition fungibleTokenInput : BuildFungibleToken.BuildFungibleTokenInput :=
  BuildFungibleToken.mkInput "bb1creator" "My Token" "MTK" None (Some "1000") (Some "5")
    (Some "ubadge") (Some "3") None (Some true) None.

Definition nftCollectionInput : BuildNFTCollection.BuildNFTCollectionInput :=
  BuildNFTCollection.mkInput "bb1creator" "My NFTs" None "100" (Some "5") (Some "ubadge")
    None (Some true) None.

Definition smartTokenInput : BuildSmartToken.BuildSmartTokenInput :=
  BuildSmartToken.mkInput "usdc" "bb1creator" "Wrapped USDC" "wUSDC" None None (Some "100")
    None None None (Some true) None.

Definition fungibleTokenText : string :=
  quoted
  "{'messages':[{'typeUrl':'/tokenization.MsgUniversalUpdateCollection',
   'value':{'creator':'bb1creator','collectionId':'0','updateValidTokenIds':true,
   'validTokenIds':[{'start':'1','end':'1'}],'updateCollectionPermissions':true,
   'collectionPermissions':{'canDeleteCollection':[{'permanentlyPermittedTimes':[],
   'permanentlyForbiddenTimes':[{'start':'1','end':'18446744073709551615'}]}],
   'canArchiveCollection':[{'permanentlyPermittedTimes':[{'start':'1',
   'end':'18446744073709551615'}],'permanentlyForbiddenTimes':[]}],
   'canUpdateStandards':[{'permanentlyPermittedTimes':[],
   'permanentlyForbiddenTimes':[{'start':'1','end':'18446744073709551615'}]}],
   'canUpdateCustomData':[{'permanentlyPermittedTimes':[{'start':'1',
   'end':'18446744073709551615'}],'permanentlyForbiddenTimes':[]}],
   'canUpdateManager':[{'permanentlyPermittedTimes':[],
   'permanentlyForbiddenTimes':[{'start':'1','end':'18446744073709551615'}]}],
   'canUpdateCollectionMetadata':[{'permanentlyPermittedTimes':[{'start':'1',
   'end':'18446744073709551615'}],'permanentlyForbiddenTimes':[]}],
   'canUpdateValidTokenIds':[{'tokenIds':[{'start':'1','end':'18446744073709551615'}],
   'permanentlyPermittedTimes':[],'permanentlyForbiddenTimes':[{'start':'1',
   'end':'18446744073709551615'}]}],'canUpdateTokenMetadata':[{'tokenIds':[{'start':'1',
   'end':'18446744073709551615'}],'permanentlyPermittedTimes':[{'start':'1',
   'end':'18446744073709551615'}],'permanentlyForbiddenTimes':[]}],
   'canUpdateCollectionApprovals':[{'fromListId':'All','toListId':'All',
   'initiatedByListId':'All','transferTimes':[{'start':'1','end':'18446744073709551615'}],
   'tokenIds':[{'start':'1','end':'18446744073709551615'}],'ownershipTimes':[{'start':'1',
   'end':'18446744073709551615'}],'approvalId':'All','permanentlyPermittedTimes':[],
   'permanentlyForbiddenTimes':[{'start':'1','end':'18446744073709551615'}]}],
   'canAddMoreAliasPaths':[{'permanentlyPermittedTimes':[],
   'permanentlyForbiddenTimes':[{'start':'1','end':'18446744073709551615'}]}],
   'canAddMoreCosmosCoinWrapperPaths':[{'permanentlyPermittedTimes':[],
   'permanentlyForbiddenTimes':[{'start':'1','end':'18446744073709551615'}]}]},
   'updateManager':true,'manager':'bb1creator','updateCollectionMetadata':true,
   'collectionMetadata':{'uri':'ipfs://METADATA_COLLECTION','customData':''},
   'updateTokenMetadata':true,'tokenMetadata':[{'uri':'ipfs://METADATA_TOKEN',
   'customData':'','tokenIds':[{'start':'1','end':'1'}]}],'updateCustomData':true,
   'customData':'','updateCollectionApprovals':true,
   'collectionApprovals':[{'fromListId':'Mint','toListId':'All','initiatedByListId':'All',
   'transferTimes':[{'start':'1','end':'18446744073709551615'}],'tokenIds':[{'start':'1',
   'end':'1'}],'ownershipTimes':[{'start':'1','end':'18446744073709551615'}],'uri':'',
   'customData':'','approvalId':'public-mint',
   'approvalCriteria':{'overridesFromOutgoingApprovals':true,
   'coinTransfers':[{'to':'bb1creator','coins':[{'denom':'ubadge','amount':'5'}],
   'overrideFromWithApproverAddress':false,'overrideToWithInitiator':false}],
   'maxNumTransfers':{'perInitiatedByAddressMaxNumTransfers':'0',
   'overallMaxNumTransfers':'0','perToAddressMaxNumTransfers':'0',
   'perFromAddressMaxNumTransfers':'0','amountTrackerId':'mint-tracker',
   'resetTimeIntervals':{'startTime':'0','intervalLength':'0'}},
   'approvalAmounts':{'perInitiatedByAddressApprovalAmount':'3',
   'overallApprovalAmount':'1000','perToAddressApprovalAmount':'0',
   'perFromAddressApprovalAmount':'0','amountTrackerId':'mint-tracker',
   'resetTimeIntervals':{'startTime':'0','intervalLength':'0'}}},'version':'0'},
   {'fromListId':'!Mint','toListId':'All','initiatedByListId':'All',
   'transferTimes':[{'start':'1','end':'18446744073709551615'}],'tokenIds':[{'start':'1',
   'end':'1'}],'ownershipTimes':[{'start':'1','end':'18446744073709551615'}],'uri':'',
   'customData':'','approvalId':'free-transfer','approvalCriteria':{},'version':'0'}],
   'updateStandards':true,'standards':['Fungible Tokens','Liquidity Pools'],
   'updateIsArchived':false,'isArchived':false,'mintEscrowCoinsToTransfer':[],
   'invariants':{'noCustomOwnershipTimes':true,'maxSupplyPerId':'1000',
   'noForcefulPostMintTransfers':true,'disablePoolCreation':false,
   'cosmosCoinBackedPath':null},'aliasPathsToAdd':[{'denom':'mtk','symbol':'mtk',
   'conversion':{'sideA':{'amount':'1'},'sideB':[{'amount':'1','tokenIds':[{'start':'1',
   'end':'1'}],'ownershipTimes':[{'start':'1','end':'18446744073709551615'}]}]},
   'denomUnits':[{'decimals':'9','symbol':'MTK','isDefaultDisplay':true,
   'metadata':{'uri':'ipfs://METADATA_ALIAS_PATH','customData':''}}],
   'metadata':{'uri':'ipfs://METADATA_ALIAS_PATH','customData':''}}],
   'cosmosCoinWrapperPathsToAdd':[]}}]}".

Definition nftCollectionText : string :=
  quoted
  "{'messages':[{'typeUrl':'/tokenization.MsgUniversalUpdateCollection',
   'value':{'creator':'bb1creator','collectionId':'0','updateValidTokenIds':true,
   'validTokenIds':[{'start':'1','end':'100'}],'updateCollectionPermissions':true,
   'collectionPermissions':{'canDeleteCollection':[{'permanentlyPermittedTimes':[],
   'permanentlyForbiddenTimes':[{'start':'1','end':'18446744073709551615'}]}],
   'canArchiveCollection':[{'permanentlyPermittedTimes':[{'start':'1',
   'end':'18446744073709551615'}],'permanentlyForbiddenTimes':[]}],
   'canUpdateStandards':[{'permanentlyPermittedTimes':[],
   'permanentlyForbiddenTimes':[{'start':'1','end':'18446744073709551615'}]}],
   'canUpdateCustomData':[{'permanentlyPermittedTimes':[{'start':'1',
   'end':'18446744073709551615'}],'permanentlyForbiddenTimes':[]}],
   'canUpdateManager':[{'permanentlyPermittedTimes':[],
   'permanentlyForbiddenTimes':[{'start':'1','end':'18446744073709551615'}]}],
   'canUpdateCollectionMetadata':[{'permanentlyPermittedTimes':[{'start':'1',
   'end':'18446744073709551615'}],'permanentlyForbiddenTimes':[]}],
   'canUpdateValidTokenIds':[{'tokenIds':[{'start':'1','end':'100'}],
   'permanentlyPermittedTimes':[],'permanentlyForbiddenTimes':[{'start':'1',
   'end':'18446744073709551615'}]}],'canUpdateTokenMetadata':[{'tokenIds':[{'start':'1',
   'end':'100'}],'permanentlyPermittedTimes':[{'start':'1','end':'18446744073709551615'}],
   'permanentlyForbiddenTimes':[]}],'canUpdateCollectionApprovals':[{'fromListId':'All',
   'toListId':'All','initiatedByListId':'All','transferTimes':[{'start':'1',
   'end':'18446744073709551615'}],'tokenIds':[{'start':'1','end':'100'}],
   'ownershipTimes':[{'start':'1','end':'18446744073709551615'}],'approvalId':'All',
   'permanentlyPermittedTimes':[],'permanentlyForbiddenTimes':[{'start':'1',
   'end':'18446744073709551615'}]}],
   'canAddMoreAliasPaths':[{'permanentlyPermittedTimes':[],
   'permanentlyForbiddenTimes':[{'start':'1','end':'18446744073709551615'}]}],
   'canAddMoreCosmosCoinWrapperPaths':[{'permanentlyPermittedTimes':[],
   'permanentlyForbiddenTimes':[{'start':'1','end':'18446744073709551615'}]}]},
   'updateManager':true,'manager':'bb1creator','updateCollectionMetadata':true,
   'collectionMetadata':{'uri':'ipfs://METADATA_COLLECTION','customData':''},
   'updateTokenMetadata':true,'tokenMetadata':[{'uri':'ipfs://METADATA_TOKEN_{id}',
   'customData':'','tokenIds':[{'start':'1','end':'100'}]}],'updateCustomData':true,
   'customData':'','updateCollectionApprovals':true,
   'collectionApprovals':[{'fromListId':'Mint','toListId':'All','initiatedByListId':'All',
   'transferTimes':[{'start':'1','end':'18446744073709551615'}],'tokenIds':[{'start':'1',
   'end':'100'}],'ownershipTimes':[{'start':'1','end':'18446744073709551615'}],'uri':'',
   'customData':'','approvalId':'public-mint',
   'approvalCriteria':{'overridesFromOutgoingApprovals':true,
   'coinTransfers':[{'to':'bb1creator','coins':[{'denom':'ubadge','amount':'5'}],
   'overrideFromWithApproverAddress':false,'overrideToWithInitiator':false}],
   'predeterminedBalances':{'manualBalances':[],
   'incrementedBalances':{'startBalances':[{'amount':'1','tokenIds':[{'start':'1',
   'end':'1'}],'ownershipTimes':[{'start':'1','end':'18446744073709551615'}]}],
   'incrementTokenIdsBy':'1','incrementOwnershipTimesBy':'0','durationFromTimestamp':'0',
   'allowOverrideTimestamp':false,'recurringOwnershipTimes':{'startTime':'0',
   'intervalLength':'0','chargePeriodLength':'0'},'allowOverrideWithAnyValidToken':false},
   'orderCalculationMethod':{'useOverallNumTransfers':true,
   'usePerToAddressNumTransfers':false,'usePerFromAddressNumTransfers':false,
   'usePerInitiatedByAddressNumTransfers':false,'useMerkleChallengeLeafIndex':false,
   'challengeTrackerId':''}},'maxNumTransfers':{'overallMaxNumTransfers':'100',
   'perToAddressMaxNumTransfers':'0','perFromAddressMaxNumTransfers':'0',
   'perInitiatedByAddressMaxNumTransfers':'0','amountTrackerId':'nft-mint-tracker',
   'resetTimeIntervals':{'startTime':'0','intervalLength':'0'}}},'version':'0'},
   {'fromListId':'!Mint','toListId':'All','initiatedByListId':'All',
   'transferTimes':[{'start':'1','end':'18446744073709551615'}],'tokenIds':[{'start':'1',
   'end':'100'}],'ownershipTimes':[{'start':'1','end':'18446744073709551615'}],'uri':'',
   'customData':'','approvalId':'free-transfer','approvalCriteria':{},'version':'0'}],
   'updateStandards':true,'standards':['NFTs','Tradable','DefaultDisplayCurrency:ubadge'],
   'updateIsArchived':false,'isArchived':false,'mintEscrowCoinsToTransfer':[],
   'invariants':{'noCustomOwnershipTimes':true,'maxSupplyPerId':'1',
   'noForcefulPostMintTransfers':true,'disablePoolCreation':true,
   'cosmosCoinBackedPath':null},'aliasPathsToAdd':[],'cosmosCoinWrapperPathsToAdd':[]}}]}".

Definition smartTokenText : string :=
  quoted
  "{'messages':[{'typeUrl':'/tokenization.MsgUniversalUpdateCollection',
   'value':{'creator':'bb1creator','collectionId':'0','updateValidTokenIds':true,
   'validTokenIds':[{'start':'1','end':'1'}],'updateCollectionPermissions':true,
   'collectionPermissions':{'canDeleteCollection':[{'permanentlyPermittedTimes':[],
   'permanentlyForbiddenTimes':[{'start':'1','end':'18446744073709551615'}]}],
   'canArchiveCollection':[{'permanentlyPermittedTimes':[{'start':'1',
   'end':'18446744073709551615'}],'permanentlyForbiddenTimes':[]}],
   'canUpdateStandards':[{'permanentlyPermittedTimes':[],
   'permanentlyForbiddenTimes':[{'start':'1','end':'18446744073709551615'}]}],
   'canUpdateCustomData':[{'permanentlyPermittedTimes':[{'start':'1',
   'end':'18446744073709551615'}],'permanentlyForbiddenTimes':[]}],
   'canUpdateManager':[{'permanentlyPermittedTimes':[],
   'permanentlyForbiddenTimes':[{'start':'1','end':'18446744073709551615'}]}],
   'canUpdateCollectionMetadata':[{'permanentlyPermittedTimes':[{'start':'1',
   'end':'18446744073709551615'}],'permanentlyForbiddenTimes':[]}],
   'canUpdateValidTokenIds':[{'tokenIds':[{'start':'1','end':'18446744073709551615'}],
   'permanentlyPermittedTimes':[],'permanentlyForbiddenTimes':[{'start':'1',
   'end':'18446744073709551615'}]}],'canUpdateTokenMetadata':[{'tokenIds':[{'start':'1',
   'end':'18446744073709551615'}],'permanentlyPermittedTimes':[{'start':'1',
   'end':'18446744073709551615'}],'permanentlyForbiddenTimes':[]}],
   'canUpdateCollectionApprovals':[{'fromListId':'All','toListId':'All',
   'initiatedByListId':'All','transferTimes':[{'start':'1','end':'18446744073709551615'}],
   'tokenIds':[{'start':'1','end':'18446744073709551615'}],'ownershipTimes':[{'start':'1',
   'end':'18446744073709551615'}],'approvalId':'All','permanentlyPermittedTimes':[],
   'permanentlyForbiddenTimes':[{'start':'1','end':'18446744073709551615'}]}],
   'canAddMoreAliasPaths':[{'permanentlyPermittedTimes':[],
   'permanentlyForbiddenTimes':[{'start':'1','end':'18446744073709551615'}]}],
   'canAddMoreCosmosCoinWrapperPaths':[{'permanentlyPermittedTimes':[],
   'permanentlyForbiddenTimes':[{'start':'1','end':'18446744073709551615'}]}]},
   'updateManager':true,'manager':'bb1creator','updateCollectionMetadata':true,
   'collectionMetadata':{'uri':'ipfs://METADATA_COLLECTION','customData':''},
   'updateTokenMetadata':true,'tokenMetadata':[{'uri':'ipfs://METADATA_TOKEN',
   'customData':'','tokenIds':[{'start':'1','end':'1'}]}],'updateCustomData':true,
   'customData':'','updateCollectionApprovals':true,
   'collectionApprovals':[{'fromListId':'bb1a7m8394e8u98w8uwle49dds8caexmcvqwgcadtp264gvt28uygmsdlgm0a',
   'toListId':'!bb1a7m8394e8u98w8uwle49dds8caexmcvqwgcadtp264gvt28uygmsdlgm0a',
   'initiatedByListId':'All','transferTimes':[{'start':'1','end':'18446744073709551615'}],
   'tokenIds':[{'start':'1','end':'1'}],'ownershipTimes':[{'start':'1',
   'end':'18446744073709551615'}],'uri':'ipfs://METADATA_APPROVAL_backing','customData':'',
   'approvalId':'smart-token-backing','approvalCriteria':{'mustPrioritize':true,
   'allowBackedMinting':true},'version':'0'},
   {'fromListId':'!Mint:bb1a7m8394e8u98w8uwle49dds8caexmcvqwgcadtp264gvt28uygmsdlgm0a',
   'toListId':'bb1a7m8394e8u98w8uwle49dds8caexmcvqwgcadtp264gvt28uygmsdlgm0a',
   'initiatedByListId':'All','transferTimes':[{'start':'1','end':'18446744073709551615'}],
   'tokenIds':[{'start':'1','end':'1'}],'ownershipTimes':[{'start':'1',
   'end':'18446744073709551615'}],'uri':'ipfs://METADATA_APPROVAL_unbacking',
   'customData':'','approvalId':'smart-token-unbacking',
   'approvalCriteria':{'mustPrioritize':true,'allowBackedMinting':true,
   'approvalAmounts':{'overallApprovalAmount':'0','perFromAddressApprovalAmount':'100',
   'perToAddressApprovalAmount':'0','perInitiatedByAddressApprovalAmount':'0',
   'amountTrackerId':'daily-withdraw-limit','resetTimeIntervals':{'startTime':'0',
   'intervalLength':'86400000'}}},'version':'0'}],'updateStandards':true,
   'standards':['Smart Token','Fungible Tokens','Liquidity Pools'],
   'updateIsArchived':false,'isArchived':false,'mintEscrowCoinsToTransfer':[],
   'invariants':{'noCustomOwnershipTimes':false,'maxSupplyPerId':'0',
   'noForcefulPostMintTransfers':true,'disablePoolCreation':false,
   'cosmosCoinBackedPath':{'conversion':{'sideA':{'amount':'1',
   'denom':'ibc/F082B65C88E4B6D5EF1DB243CDA1D331D002759E938A0F5CD3FFDC5D53B3E349'},
   'sideB':[{'amount':'1','tokenIds':[{'start':'1','end':'1'}],
   'ownershipTimes':[{'start':'1','end':'18446744073709551615'}]}]}}},
   'aliasPathsToAdd':[{'denom':'uwusdc','symbol':'uwusdc',
   'conversion':{'sideA':{'amount':'1'},'sideB':[{'amount':'1','tokenIds':[{'start':'1',
   'end':'1'}],'ownershipTimes':[{'start':'1','end':'18446744073709551615'}]}]},
   'denomUnits':[{'decimals':'6','symbol':'wUSDC','isDefaultDisplay':true,
   'metadata':{'uri':'ipfs://METADATA_ALIAS_PATH','customData':''}}],
   'metadata':{'uri':'ipfs://METADATA_ALIAS_PATH','customData':''}}],
   'cosmosCoinWrapperPathsToAdd':[]}}],
   'metadataPlaceholders':{'ipfs://METADATA_COLLECTION':{'name':'Wrapped USDC',
   'description':'Wrapped USDC backed 1:1 by usdc via IBC on BitBadges.',
   'image':'ipfs://QmbC7wwg3s2HkbBRu46AtgqJy7wPBbgkNVB6ssfMQ1WS16'},
   'ipfs://METADATA_TOKEN':{'name':'Wrapped USDC',
   'description':'Wrapped USDC backed 1:1 by usdc via IBC on BitBadges.',
   'image':'ipfs://QmbC7wwg3s2HkbBRu46AtgqJy7wPBbgkNVB6ssfMQ1WS16'},
   'ipfs://METADATA_APPROVAL_backing':{'name':'Backing Approval',
   'description':'Allows backing of wUSDC tokens with usdc via IBC.','image':''},
   'ipfs://METADATA_APPROVAL_unbacking':{'name':'Unbacking Approval',
   'description':'Allows unbacking of wUSDC tokens to receive usdc via IBC.','image':''},
   'ipfs://METADATA_ALIAS_PATH':{'name':'wUSDC',
   'description':'wUSDC alias for liquidity pools and trading.',
   'image':'ipfs://QmbC7wwg3s2HkbBRu46AtgqJy7wPBbgkNVB6ssfMQ1WS16'}}}".

(** [value] is the value of the message at index [i] of [tx], and the
    message has the type [typeUrl]. *)
Definition value_of_message (tx : json) (i : nat) (typeUrl : string) (value : json) : Prop :=
  exists messages msg,
    get tx "messages" = Some (JArray messages)
    /\ nth_error messages i = Some msg
    /\ get msg "typeUrl" = Some (JString typeUrl)
    /\ get msg "value" = Some value.

(** The paths the validator gives the message at index [i], the entry
    at index [j] of its [tokenMetadata] and the entry at index [k] of
    the permission [field]. *)
Definition messagePath (i : nat) : string := ("messages[" ++ string_of_nat i ++ "]")%string.

Definition tokenMetadataPath (i j : nat) : string :=
  ((messagePath i ++ ".value.tokenMetadata") ++ "[" ++ string_of_nat j ++ "]")%string.

Definition permissionPath (i : nat) (field : string) (k : nat) : string :=
  ((messagePath i ++ ".value.collectionPermissions")
     ++ "." ++ field ++ "[" ++ string_of_nat k ++ "]")%string.

(** Documents that break one rule each: an unbacking list identifier,
    a token metadata entry without [tokenIds], a permission without
    [tokenIds], a transfer message without [creator], and a collection
    update without [collectionId]. *)
Definition unbackingListIdText : string :=
  quoted "{'messages':[{'typeUrl':'/tokenization.MsgUniversalUpdateCollection','value':{'creator':'bb1x','collectionId':'0','collectionApprovals':[{'fromListId':'!Mint:bb1x','toListId':'bb1x','initiatedByListId':'All','approvalId':'a'}]}}]}".

Definition tokenMetadataText : string :=
  quoted "{'messages':[{'typeUrl':'/tokenization.MsgUniversalUpdateCollection','value':{'creator':'bb1x','collectionId':'0','tokenMetadata':[{'uri':'ipfs://x','customData':'','tokenIds':[]}]}}]}".

Definition permissionText : string :=
  quoted "{'messages':[{'typeUrl':'/tokenization.MsgUniversalUpdateCollection','value':{'creator':'bb1x','collectionId':'0','collectionPermissions':{'canUpdateValidTokenIds':[{'permanentlyPermittedTimes':[],'permanentlyForbiddenTimes':[{'start':'1','end':'2'}]}]}}}]}".

Definition transferWithoutCreatorText : string :=
  quoted "{'messages':[{'typeUrl':'/tokenization.MsgTransferTokens','value':{'transfers':[{'from':'bb1x'}]}}]}".

Definition updateWithoutCollectionIdText : string :=
  quoted "{'messages':[{'typeUrl':'/tokenization.MsgUniversalUpdateCollection','value':{'creator':'cosmos1x'}}]}".

(** Closes the side conditions of a statement about a concrete
    document: each is an equation between closed terms, or the site of
    an approval. *)
Ltac by_evaluation :=
  lazymatch goal with
  | |- approvals_of_message _ _ _ _ =>
      do 2 eexists; repeat split; vm_compute; reflexivity
  | |- _ => vm_compute; reflexivity
  end.

(* ================================================================== *)
(** * JSON.parse and the walks on nested arrays *)
(* ================================================================== *)

(** A character that is a token of its own, read between tokens. *)
Lemma lex_punctuation (c : ascii) (t : token) (rest : string) :
  lex_step LIdle c = Some ([t], LIdle) ->
  lex (String c rest) LIdle = option_map (cons t) (lex rest LIdle).
Proof.
  intros Hstep. cbn [lex]. rewrite Hstep.
  destruct (lex rest LIdle); reflexivity.
Qed.

(** A run of such characters. *)
Lemma lex_repeated (c : ascii) (t : token) (n : nat) (tail : string) :
  lex_step LIdle c = Some ([t], LIdle) ->
  lex (repeated c n tail) LIdle = option_map (app (repeat t n)) (lex tail LIdle).
Proof.
  intros Hstep. induction n as [|n IH]; cbn [repeated repeat].
  - destruct (lex tail LIdle); reflexivity.
  - rewrite (lex_punctuation c t _ Hstep), IH.
    destruct (lex tail LIdle); reflexivity.
Qed.

(** The tokens of the text. *)
Lemma lex_deepTransactionText (n : nat) :
  lex (deepTransactionText n) LIdle
  = Some (deepTransactionHead
            ++ repeat TLBracket (S n) ++ repeat TRBracket (S n) ++ [TRBrace]).
Proof.
  unfold deepTransactionText.
  assert (Hhead : forall rest,
             lex (quoted "{'messages':[],'a':" ++ rest) LIdle
             = option_map (app deepTransactionHead) (lex rest LIdle)).
  { intros rest. cbn. destruct (lex rest LIdle); reflexivity. }
  rewrite Hhead.
  rewrite (lex_repeated "[" TLBracket) by reflexivity.
  rewrite (lex_repeated "]" TRBracket) by reflexivity.
  reflexivity.
Qed.

(** A list of copies, before one more copy. *)
Lemma repeat_app_cons {A : Type} (a : A) (n : nat) (l : list A) :
  repeat a n ++ a :: l = a :: repeat a n ++ l.
Proof. induction n as [|n IH]; [reflexivity|]. cbn [repeat app]. now rewrite IH. Qed.

(** Opening brackets where a value may start: one frame each. *)
Lemma parse_tokens_opening (n : nat) (rest : list token) (stack : list frame) :
  parse_tokens (repeat TLBracket (S n) ++ rest) SValue stack
  = parse_tokens rest SArrayStart (repeat (FArray []) (S n) ++ stack).
Proof.
  assert (H : forall n stack,
             parse_tokens (repeat TLBracket n ++ rest) SArrayStart stack
             = parse_tokens rest SArrayStart (repeat (FArray []) n ++ stack)).
  { clear. induction n as [|n IH]; intros stack; [reflexivity|].
    cbn [repeat app parse_tokens parse_step start_value]. rewrite IH.
    now rewrite repeat_app_cons. }
  cbn [repeat app parse_tokens parse_step start_value]. rewrite H.
  now rewrite repeat_app_cons.
Qed.

(** Closing brackets: each closes the innermost open array. *)
Lemma parse_tokens_closing (n : nat) (rest : list token) (members : list (string * json))
      (key : string) (below : list frame) :
  parse_tokens (repeat TRBracket (S n) ++ rest) SArrayStart
    (repeat (FArray []) (S n) ++ FObject members (Some key) :: below)
  = parse_tokens rest SObjectNext (FObject ((key, nestedArray n) :: members) None :: below).
Proof.
  assert (H : forall k m,
             parse_tokens (repeat TRBracket k ++ TRBracket :: rest) SArrayNext
               (FArray [nestedArray m] :: repeat (FArray []) k
                  ++ FObject members (Some key) :: below)
             = parse_tokens rest SObjectNext
                 (FObject ((key, nestedArray (S (k + m))) :: members) None :: below)).
  { induction k as [|k IH]; intros m; [reflexivity|].
    cbn [repeat app parse_tokens parse_step close_array push_value rev].
    change (JArray [nestedArray m]) with (nestedArray (S m)).
    rewrite (IH (S m)). now rewrite Nat.add_succ_r. }
  destruct n as [|n]; [reflexivity|].
  replace (repeat TRBracket (S (S n)) ++ rest)
    with (TRBracket :: repeat TRBracket n ++ TRBracket :: rest)
    by (cbn [repeat app]; now rewrite repeat_app_cons).
  cbn [repeat app parse_tokens parse_step close_array push_value rev].
  change (JArray []) with (nestedArray 0).
  rewrite (H n 0). now rewrite Nat.add_0_r.
Qed.

(** The text is valid JSON and denotes [deepTransaction n]. *)
Lemma JSON_parse_deepTransactionText (n : nat) :
  JSON_parse (deepTransactionText n) = Some (deepTransaction n).
Proof.
  unfold JSON_parse. rewrite lex_deepTransactionText.
  unfold deepTransactionHead.
  cbn [app parse_tokens parse_step start_value set_key close_array push_value rev].
  rewrite parse_tokens_opening, parse_tokens_closing.
  reflexivity.
Qed.

(** The walk goes one call deeper for each array. *)
Lemma checkNumbersAreStrings_depth_nestedArray (n : nat) :
  checkNumbersAreStrings_depth (nestedArray n) = S n.
Proof.
  induction n as [|n IH]; [reflexivity|].
  cbn [nestedArray checkNumbersAreStrings_depth map list_max fold_right]. rewrite IH. lia.
Qed.

(** C2.  The validator can throw: the source has only [JSON.parse]
    inside its [try] block, and the recursive walks are called after
    it.  For every [n], the text [{"messages":[],"a":[[...]]}] with
    [n + 1] nested arrays is valid JSON; the value it denotes is an
    object whose [messages] is an array, so that the call passes both
    guards and goes on to the walks; and [checkNumbersAreStrings] nests
    [n + 2] calls of itself on it.  On a host whose call stack is
    bounded, the walk of a text with enough brackets raises a
    [RangeError], which the function does not catch. *)
Theorem deep_transaction_reaches_the_walks (n : nat) :
  JSON_parse (deepTransactionText n) = Some (deepTransaction n)
  /\ is_object (deepTransaction n) = true
  /\ get (deepTransaction n) "messages" = Some (JArray [])
  /\ checkNumbersAreStrings_depth (deepTransaction n) = n + 2.
Proof.
  split; [apply JSON_parse_deepTransactionText|].
  split; [reflexivity|]. split; [reflexivity|].
  unfold deepTransaction.
  cbn [checkNumbersAreStrings_depth map list_max fold_right].
  rewrite checkNumbersAreStrings_depth_nestedArray. cbn. lia.
Qed.

(* ================================================================== *)
(** * Properties of the validator *)
(* ================================================================== *)

Section ValidatorFacts.
Context {E : Engine}.

Lemma get_Some_is_object (v : json) (key : string) (x : json) :
  get v key = Some x -> is_object v = true.
Proof.
  destruct v; simpl; intros H; try discriminate; reflexivity.
Qed.

Lemma get_Some_JObject (v : json) (key : string) (x : json) :
  get v key = Some x -> exists entries, v = JObject entries.
Proof.
  destruct v; simpl; intros H; try discriminate. now exists entries.
Qed.

Lemma filter_is_error_nil (l : list ValidationIssue) :
  (List.length (filter is_error l) =? 0)%nat = true <->
  (forall i, In i l -> severity i <> SevError).
Proof.
  induction l as [|x l IH]; simpl.
  - split; [intros _ i [] | reflexivity].
  - unfold is_error at 1. destruct (severity x) eqn:Hx; simpl.
    + split; [discriminate|]. intros H. exfalso. now apply (H x); [left|].
    + rewrite IH. split.
      * intros H i [<-|Hi]; [congruence | now apply H].
      * intros H i Hi. apply H. now right.
Qed.

(** C9.  Every string that starts with [bb1] or with [!bb1] is accepted
    as a list identifier, whatever follows the prefix. *)
Theorem isValidListId_bb1_prefix (id : string) :
  String_startsWith id "bb1" = true \/ String_startsWith id "!bb1" = true ->
  isValidListId id = true.
Proof.
  intros H. unfold isValidListId.
  destruct (Array_includes RESERVED_LIST_IDS id); [reflexivity|].
  destruct (String_startsWith id "!" && _); [reflexivity|].
  destruct (String_startsWith id "bb1") eqn:Hbb; [reflexivity|].
  destruct H as [H|H]; [discriminate|]. now rewrite H.
Qed.

(** C10.  When the parsed value is not an object, or is an object whose
    [messages] is not an array, the result is invalid and holds exactly
    one issue, an error: no other rule has been applied. *)
Theorem handleValidateTransaction_no_messages_array (transactionJson : string) (tx : json) :
  JSON_parse transactionJson = Some tx ->
  (forall entries, tx <> JObject entries)
  \/ (forall messages, get tx "messages" <> Some (JArray messages)) ->
  exists issue,
    handleValidateTransaction transactionJson = mkResult false [issue]
    /\ severity issue = SevError.
Proof.
  intros Hparse Hshape. unfold handleValidateTransaction. rewrite Hparse.
  destruct (is_object tx); simpl; [|eexists; split; reflexivity].
  assert (Hget : forall messages, get tx "messages" <> Some (JArray messages)).
  { destruct Hshape as [Hno|Hno]; [|exact Hno].
    intros messages Hm. destruct (get_Some_JObject _ _ _ Hm) as [entries ->].
    now apply (Hno entries). }
  destruct (get tx "messages") as [[| | | |messages|]|] eqn:Hm;
    try (eexists; split; reflexivity).
  now destruct (Hget messages).
Qed.

(** [valid] says that no returned issue is an error. *)
Lemma valid_no_error (transactionJson : string) :
  valid (handleValidateTransaction transactionJson) = true <->
  forall i, In i (issues (handleValidateTransaction transactionJson)) ->
            severity i <> SevError.
Proof.
  unfold handleValidateTransaction.
  destruct (JSON_parse transactionJson) as [tx|]; simpl.
  2:{ split; [discriminate|]. intros H. exfalso. eapply H; [left; reflexivity|reflexivity]. }
  destruct (is_object tx); simpl.
  2:{ split; [discriminate|]. intros H. exfalso. eapply H; [left; reflexivity|reflexivity]. }
  destruct (get tx "messages") as [[| | | |messages|]|]; simpl;
    try (split; [discriminate|]; intros H; exfalso;
         eapply H; [left; reflexivity|reflexivity]).
  apply filter_is_error_nil.
Qed.

(** Of the result a call returns: on a text that is not JSON it is
    [valid = false] with exactly one issue, an error; and in every case
    [valid] holds exactly when no returned issue is an error. *)
Lemma handleValidateTransaction_valid_iff_no_error (transactionJson : string) :
  (JSON_parse transactionJson = None ->
   exists issue,
     handleValidateTransaction transactionJson = mkResult false [issue]
     /\ severity issue = SevError)
  /\ (valid (handleValidateTransaction transactionJson) = true <->
      forall i, In i (issues (handleValidateTransaction transactionJson)) ->
                severity i <> SevError).
Proof.
  split.
  - unfold handleValidateTransaction. intros ->. eexists; split; reflexivity.
  - apply valid_no_error.
Qed.

(** C3.  The text [{"messages":[{"typeUrl":"T","value":{"amount":5}}]}]
    is invalid with exactly one issue: an error whose path is
    [.messages[0].value.amount]. *)
Theorem handleValidateTransaction_number_example :
  exists message,
    handleValidateTransaction
      (quoted "{'messages':[{'typeUrl':'T','value':{'amount':5}}]}")
    = mkResult false [mkIssue SevError message (Some ".messages[0].value.amount")].
Proof.
  eexists. vm_compute. reflexivity.
Qed.

Lemma In_forEach_from {A B : Type} (f : A -> nat -> list B) (l : list A) (k i : nat)
      (x : A) (y : B) :
  nth_error l i = Some x -> In y (f x (k + i)) -> In y (forEach_from f l k).
Proof.
  revert k i. induction l as [|a l IH]; intros k i Hnth Hin.
  - destruct i; discriminate.
  - simpl. apply in_or_app. destruct i as [|i]; simpl in Hnth.
    + injection Hnth as ->. left. now rewrite Nat.add_0_r in Hin.
    + right. apply (IH (S k) i Hnth). now rewrite Nat.add_succ_comm.
Qed.

Lemma In_forEach {A B : Type} (f : A -> nat -> list B) (l : list A) (i : nat)
      (x : A) (y : B) :
  nth_error l i = Some x -> In y (f x i) -> In y (forEach f l).
Proof. intros Hnth Hin. now apply (In_forEach_from f l 0 i x). Qed.

(** An issue of a message is an issue of the transaction. *)
Lemma message_issue_reported (transactionJson : string) (tx : json) (messages : list json)
      (i : nat) (msg : json) (x : ValidationIssue) :
  JSON_parse transactionJson = Some tx ->
  get tx "messages" = Some (JArray messages) ->
  nth_error messages i = Some msg ->
  In x (validateMessage msg i) ->
  In x (issues (handleValidateTransaction transactionJson)).
Proof.
  intros Hparse Hm Hnth Hin. unfold handleValidateTransaction.
  rewrite Hparse, (get_Some_is_object _ _ _ Hm), Hm. simpl.
  unfold validateParsed. do 2 (apply in_or_app; right).
  now apply (In_forEach validateMessage messages i msg).
Qed.

(** An issue of a collection approval is an issue of the transaction. *)
Lemma approval_issue_reported (transactionJson : string) (tx : json) (i j : nat)
      (value : json) (approvals : list json) (a : json) (x : ValidationIssue) :
  JSON_parse transactionJson = Some tx ->
  approvals_of_message tx i value approvals ->
  nth_error approvals j = Some a ->
  In x (validateApproval (includes_Subscriptions (standards_of value))
          (("messages[" ++ string_of_nat i ++ "]") ++ ".value.collectionApprovals") a j) ->
  In x (issues (handleValidateTransaction transactionJson)).
Proof.
  intros Hparse (messages & msg & Hm & Hnth & Htype & Hvalue & Happ) Hj Hin.
  apply (message_issue_reported _ _ _ _ _ _ Hparse Hm Hnth).
  unfold validateMessage.
  rewrite (get_Some_is_object _ _ _ Hvalue), Hvalue. simpl negb. cbv iota.
  apply in_or_app. right.
  rewrite (get_Some_is_object _ _ _ Happ). simpl negb. cbv iota.
  rewrite Htype. unfold is_string at 1. rewrite String.eqb_refl.
  apply in_or_app. left.
  unfold validateUniversalUpdateCollection.
  apply in_or_app. right. apply in_or_app. right. apply in_or_app. left.
  rewrite Happ. unfold validateApprovals. fold (standards_of value).
  now apply (In_forEach _ approvals j a).
Qed.

Lemma error_issue_invalid (transactionJson : string) (x : ValidationIssue) :
  In x (issues (handleValidateTransaction transactionJson)) ->
  severity x = SevError ->
  valid (handleValidateTransaction transactionJson) = false.
Proof.
  intros Hin Hsev.
  destruct (valid (handleValidateTransaction transactionJson)) eqn:Hv; [|reflexivity].
  destruct (valid_no_error transactionJson) as [Hno _].
  now destruct (Hno Hv x Hin).
Qed.

Lemma filter_is_error_app (l1 l2 : list ValidationIssue) :
  filter is_error (l1 ++ l2) = filter is_error l1 ++ filter is_error l2.
Proof. apply filter_app. Qed.

(** The override rule where the validator applies it.  An approval of
    a collection-approvals array whose [fromListId] is [Mint] and whose
    [approvalCriteria] is present and truthy (any object is) without
    [overridesFromOutgoingApprovals] set to [true] gets an error issue
    that names the override field, and the transaction is invalid; when
    its three list identifiers, its [approvalId] and the subscription
    rules are in order, this is its only error. *)
Lemma mint_approval_with_criteria_needs_override
        (transactionJson : string) (tx : json) (i j : nat) (value : json)
        (approvals : list json) (a criteria : json) :
  JSON_parse transactionJson = Some tx ->
  approvals_of_message tx i value approvals ->
  nth_error approvals j = Some a ->
  get a "fromListId" = Some (JString "Mint") ->
  get a "approvalCriteria" = Some criteria ->
  truthy criteria = true ->
  is_true (get criteria "overridesFromOutgoingApprovals") = false ->
  In (mintOverrideIssue (approvalPath i j))
     (issues (handleValidateTransaction transactionJson))
  /\ valid (handleValidateTransaction transactionJson) = false
  /\ ((forall field,
         In field ["fromListId"; "toListId"; "initiatedByListId"] ->
         checkListIdField a (approvalPath i j) field = []) ->
      (exists id, get a "approvalId" = Some (JString id) /\ id <> EmptyString) ->
      filter is_error (validateSubscriptionApproval a (approvalPath i j)) = [] ->
      filter is_error
        (validateApproval (includes_Subscriptions (standards_of value))
           (("messages[" ++ string_of_nat i ++ "]") ++ ".value.collectionApprovals") a j)
      = [mintOverrideIssue (approvalPath i j)]).
Proof.
  intros Hparse Hsite Hj Hfrom Hcrit Htruthy Hflag.
  assert (Hin : In (mintOverrideIssue (approvalPath i j))
                   (validateApproval (includes_Subscriptions (standards_of value))
                      (("messages[" ++ string_of_nat i ++ "]") ++ ".value.collectionApprovals")
                      a j)).
  { unfold validateApproval. rewrite (get_Some_is_object _ _ _ Hfrom). simpl negb. cbv iota.
    apply in_or_app. right. apply in_or_app. left.
    rewrite Hfrom. unfold is_string at 1. rewrite String.eqb_refl.
    apply in_or_app. left. rewrite Hcrit, Htruthy, Hflag. left. reflexivity. }
  split; [|split].
  - exact (approval_issue_reported _ _ _ _ _ _ _ _ Hparse Hsite Hj Hin).
  - apply (error_issue_invalid _ (mintOverrideIssue (approvalPath i j))); [|reflexivity].
    exact (approval_issue_reported _ _ _ _ _ _ _ _ Hparse Hsite Hj Hin).
  - intros Hids (id & Hid & Hne) Hsub. unfold validateApproval.
    rewrite (get_Some_is_object _ _ _ Hfrom). simpl negb. cbv iota. cbv zeta.
    fold (approvalPath i j).
    rewrite !filter_is_error_app.
    replace (flat_map (checkListIdField a (approvalPath i j))
                      ["fromListId"; "toListId"; "initiatedByListId"]) with (@nil ValidationIssue)
      by (cbn [flat_map]; rewrite !Hids by (cbn [In]; tauto); reflexivity).
    rewrite Hfrom. unfold is_string at 1. rewrite String.eqb_refl.
    rewrite Hcrit, Htruthy, Hflag. simpl andb. cbv iota.
    rewrite filter_is_error_app. rewrite Hid.
    destruct (String.eqb_spec id EmptyString) as [->|_]; [now destruct Hne|].
    replace (String_startsWith "Mint" "bb1") with false by reflexivity.
    simpl andb. cbv iota.
    destruct (includes_Subscriptions (standards_of value)).
    + rewrite Hsub. reflexivity.
    + reflexivity.
Qed.

(** The issues of the order-calculation selector of a Mint approval of
    a subscription collection are issues of the approval. *)
Lemma orderCalculation_issue_of_approval (path : string) (index : nat)
      (a criteria pb oc : json) (x : ValidationIssue) :
  get a "fromListId" = Some (JString "Mint") ->
  get a "approvalCriteria" = Some criteria ->
  truthy criteria = true ->
  get criteria "predeterminedBalances" = Some pb ->
  truthy pb = true ->
  get pb "orderCalculationMethod" = Some oc ->
  truthy oc = true ->
  In x (validateOrderCalculationMethod oc
          (orderCalculationPath (path ++ "[" ++ string_of_nat index ++ "]"))) ->
  In x (validateApproval true path a index).
Proof.
  intros Hfrom Hcrit Htc Hpb Htp Hoc Hto Hin.
  unfold validateApproval. rewrite (get_Some_is_object _ _ _ Hfrom). simpl negb. cbv iota.
  apply in_or_app. right. apply in_or_app. left.
  rewrite Hfrom. unfold is_string at 1. rewrite String.eqb_refl.
  apply in_or_app. right.
  unfold validateSubscriptionApproval. rewrite Hcrit, Htc. simpl negb. cbv iota.
  apply in_or_app. right. rewrite Hpb, Htp. simpl negb. cbv iota.
  apply in_or_app. right. rewrite Hoc, Hto. exact Hin.
Qed.

(** C5.  In a subscription-tagged collection, the order-calculation
    selector of a Mint approval is checked when the approval criteria,
    the predetermined balances and the selector are present (truthy).
    Then more than one true flag gives an error issue, no true flag
    gives a warning issue and no error, and exactly one true flag gives
    no issue for this rule. *)
Theorem orderCalculationMethod_exactly_one
        (transactionJson : string) (tx : json) (i j : nat) (value : json)
        (approvals : list json) (a criteria pb oc : json) :
  JSON_parse transactionJson = Some tx ->
  approvals_of_message tx i value approvals ->
  includes_Subscriptions (standards_of value) = true ->
  nth_error approvals j = Some a ->
  get a "fromListId" = Some (JString "Mint") ->
  get a "approvalCriteria" = Some criteria ->
  truthy criteria = true ->
  get criteria "predeterminedBalances" = Some pb ->
  truthy pb = true ->
  get pb "orderCalculationMethod" = Some oc ->
  truthy oc = true ->
  let path := orderCalculationPath (approvalPath i j) in
  let result := handleValidateTransaction transactionJson in
  (1 < trueCount oc ->
   exists message,
     validateOrderCalculationMethod oc path = [mkIssue SevError message (Some path)]
     /\ In (mkIssue SevError message (Some path)) (issues result)
     /\ valid result = false)
  /\ (trueCount oc = 0 ->
      exists message,
        validateOrderCalculationMethod oc path = [mkIssue SevWarning message (Some path)]
        /\ In (mkIssue SevWarning message (Some path)) (issues result))
  /\ (trueCount oc = 1 -> validateOrderCalculationMethod oc path = []).
Proof.
  intros Hparse Hsite Hsub Hj Hfrom Hcrit Htc Hpb Htp Hoc Hto path result.
  assert (Hrep : forall x, In x (validateOrderCalculationMethod oc path) ->
                           In x (issues result)).
  { intros x Hx. subst result.
    apply (approval_issue_reported _ _ _ _ _ _ _ _ Hparse Hsite Hj).
    rewrite Hsub.
    now apply (orderCalculation_issue_of_approval _ _ _ criteria pb oc). }
  unfold validateOrderCalculationMethod in *.
  split; [|split].
  - intros Hcount. apply Nat.ltb_lt in Hcount. rewrite Hcount in *.
    eexists. split; [reflexivity|]. split.
    + apply Hrep. left. reflexivity.
    + subst result. eapply error_issue_invalid; [apply Hrep; left; reflexivity|reflexivity].
  - intros Hcount. rewrite Hcount in *. simpl in *.
    eexists. split; [reflexivity|]. apply Hrep. left. reflexivity.
  - intros Hcount. rewrite Hcount. reflexivity.
Qed.

End ValidatorFacts.

(** The input of C3, character by character. *)
Example number_example_text :
  quoted "{'messages':[{'typeUrl':'T','value':{'amount':5}}]}"
  = ("{" ++ dquote ++ "messages" ++ dquote ++ ":[{" ++ dquote ++ "typeUrl" ++ dquote
       ++ ":" ++ dquote ++ "T" ++ dquote ++ "," ++ dquote ++ "value" ++ dquote
       ++ ":{" ++ dquote ++ "amount" ++ dquote ++ ":5}}]}")%string.
Proof. reflexivity. Qed.

Lemma isValidListId_bb1_prefix_witness :
  isValidListId "bb1abc:notanaddress" = true
  /\ forallb (fun part => String_startsWith part "bb1")
             (String_split "bb1abc:notanaddress" ":") = false.
Proof.
  split.
  - apply isValidListId_bb1_prefix. left. reflexivity.
  - reflexivity.
Defined.

Lemma handleValidateTransaction_no_messages_array_witness :
  exists issue,
    handleValidateTransaction
      (quoted "{'messages':{'fromListId':'x','n':5,'r':{'start':1}},'amount':7}")
    = mkResult false [issue]
    /\ severity issue = SevError.
Proof.
  eapply handleValidateTransaction_no_messages_array.
  - vm_compute. reflexivity.
  - right. intros messages. vm_compute. discriminate.
Defined.

(** C4.  The validator misses a Mint approval that has no
    [approvalCriteria]: the collection update whose only approval has
    [fromListId] equal to [Mint] and no criteria, hence no override
    flag, is reported valid with no issue at all, where the rule asks
    for an error that names [overridesFromOutgoingApprovals].  (The
    source tests the flag under the guard [criteria &&].) *)
Theorem mint_approval_without_criteria_no_error :
  exists tx value approvals a,
    JSON_parse mintWithoutCriteria = Some tx
    /\ approvals_of_message tx 0 value approvals
    /\ nth_error approvals 0 = Some a
    /\ get a "fromListId" = Some (JString "Mint")
    /\ get a "approvalCriteria" = None
    /\ handleValidateTransaction mintWithoutCriteria = mkResult true [].
Proof.
  do 4 eexists. split; [by_evaluation|]. split; [by_evaluation|].
  repeat split; by_evaluation.
Qed.

Lemma mint_approval_with_criteria_witness :
  In (mintOverrideIssue (approvalPath 0 0))
     (issues (handleValidateTransaction mintWithEmptyCriteria))
  /\ valid (handleValidateTransaction mintWithEmptyCriteria) = false
  /\ filter is_error (issues (handleValidateTransaction mintWithEmptyCriteria))
     = [mintOverrideIssue (approvalPath 0 0)]
  /\ exists a,
       filter is_error
         (validateApproval (includes_Subscriptions None)
            "messages[0].value.collectionApprovals" a 0)
       = [mintOverrideIssue (approvalPath 0 0)].
Proof.
  unshelve refine (let H := mint_approval_with_criteria_needs_override
                              mintWithEmptyCriteria _ 0 0 _ _ _ (JObject [])
                              _ _ _ _ _ _ _ in _);
    [shelve | shelve | shelve | shelve
    | by_evaluation | by_evaluation | by_evaluation | by_evaluation | by_evaluation
    | by_evaluation | by_evaluation |].
  destruct H as (Hin & Hvalid & Honly).
  split; [exact Hin|]. split; [exact Hvalid|]. split; [vm_compute; reflexivity|].
  eexists. apply Honly.
  - intros field [<-|[<-|[<-|[]]]]; vm_compute; reflexivity.
  - exists "a". split; [reflexivity|discriminate].
  - vm_compute. reflexivity.
Defined.

Lemma orderCalculationMethod_exactly_one_witness :
  (exists message,
      In (mkIssue SevError message (Some (orderCalculationPath (approvalPath 0 0))))
         (issues (handleValidateTransaction subscriptionTwoFlags))
      /\ valid (handleValidateTransaction subscriptionTwoFlags) = false)
  /\ (exists message,
         issues (handleValidateTransaction subscriptionNoFlag)
         = [mkIssue SevWarning message (Some (orderCalculationPath (approvalPath 0 0)))])
  /\ issues (handleValidateTransaction subscriptionOneFlag) = [].
Proof.
  split; [|split].
  - unshelve refine (let H := orderCalculationMethod_exactly_one
                                subscriptionTwoFlags _ 0 0 _ _ _ _ _
                                (JObject [("useOverallNumTransfers", JBool true);
                                          ("useMerkleChallengeLeafIndex", JBool true)])
                                _ _ _ _ _ _ _ _ _ _ _ in _);
      [shelve | shelve | shelve | shelve | shelve | shelve
      | by_evaluation | by_evaluation | by_evaluation | by_evaluation | by_evaluation
      | by_evaluation | by_evaluation | by_evaluation | by_evaluation | by_evaluation
      | by_evaluation |].
    destruct H as (Hmany & _ & _).
    destruct Hmany as (message & _ & Hin & Hvalid); [vm_compute; lia|].
    exists message. split; assumption.
  - eexists. vm_compute. reflexivity.
  - vm_compute. reflexivity.
Defined.

(* ================================================================== *)
(** * Properties of the address conversion *)
(* ================================================================== *)

Lemma startsWith_bb1_not_0x (address : string) :
  String_startsWith address "bb1" = true -> String_startsWith address "0x" = false.
Proof.
  destruct address as [|c rest]; cbn [String_startsWith]; [discriminate|].
  destruct (Ascii.eqb_spec "b" c) as [<-|_]; [reflexivity|discriminate].
Qed.

Lemma Buffer_from_array_length (numbers : list Z) :
  List.length (Buffer_from_array numbers) = List.length numbers.
Proof. apply length_map. Qed.

(** What [cosmosToEth] returns on an address that starts with [bb1]. *)
Lemma cosmosToEth_bb1 (address : string) :
  String_startsWith address "bb1" = true ->
  cosmosToEth address =
  match bech32_decode address with
  | Throw m => Throw m
  | Return (_, words) =>
      match fromWords words with
      | Throw m => Throw m
      | Return numbers =>
          if (List.length numbers =? 20)%nat
          then Return ("0x" ++ Buffer_toString_hex (Buffer_from_array numbers))%string
          else Throw "Address is not a standard 20-byte address (may be a module-derived address)"
      end
  end.
Proof.
  intros Hbb. unfold cosmosToEth.
  change (BITBADGES_PREFIX ++ "1")%string with "bb1". rewrite Hbb. simpl negb. cbv iota.
  destruct (bech32_decode address) as [[prefix words]|m]; [|reflexivity].
  destruct (fromWords words) as [numbers|m]; [|reflexivity].
  rewrite Buffer_from_array_length. now destruct (List.length numbers =? 20)%nat.
Qed.

(** C7.  [toEthAddress] throws when the address starts with neither
    [0x] nor [bb1], and when it starts with [bb1] and decodes to a
    payload that is not 20 bytes long; whatever it returns for a [bb1]
    address is the hex form of the whole decoded payload, 20 bytes. *)
Theorem toEthAddress_reports_failure (address : string) :
  (String_startsWith address "0x" = false ->
   String_startsWith address "bb1" = false ->
   toEthAddress address = Throw "Unknown address format")
  /\ (String_startsWith address "bb1" = true ->
      forall prefix words numbers,
        bech32_decode address = Return (prefix, words) ->
        fromWords words = Return numbers ->
        List.length numbers <> 20 ->
        toEthAddress address
        = Throw "Address is not a standard 20-byte address (may be a module-derived address)")
  /\ (forall result,
         toEthAddress address = Return result ->
         (String_startsWith address "0x" = true /\ result = address)
         \/ exists prefix words numbers,
             bech32_decode address = Return (prefix, words)
             /\ fromWords words = Return numbers
             /\ List.length numbers = 20
             /\ result = ("0x" ++ Buffer_toString_hex (Buffer_from_array numbers))%string).
Proof.
  unfold toEthAddress. change (BITBADGES_PREFIX ++ "1")%string with "bb1".
  split; [|split].
  - intros -> ->. reflexivity.
  - intros Hbb prefix words numbers Hdec Hfrom Hlen.
    rewrite (startsWith_bb1_not_0x _ Hbb), Hbb, (cosmosToEth_bb1 _ Hbb), Hdec, Hfrom.
    apply Nat.eqb_neq in Hlen. now rewrite Hlen.
  - intros result. destruct (String_startsWith address "0x") eqn:H0x.
    + intros [= <-]. left. split; reflexivity.
    + destruct (String_startsWith address "bb1") eqn:Hbb; [|discriminate].
      rewrite (cosmosToEth_bb1 _ Hbb).
      destruct (bech32_decode address) as [[prefix words]|m] eqn:Hdec; [|discriminate].
      destruct (fromWords words) as [numbers|m] eqn:Hfrom; [|discriminate].
      destruct (List.length numbers =? 20)%nat eqn:Hlen; [|discriminate].
      intros [= <-]. right. exists prefix, words, numbers.
      apply Nat.eqb_eq in Hlen. repeat split; assumption.
Qed.

(** The backing address of [ibc/X], a 32-byte module-derived address,
    and a text in neither format. *)
Lemma toEthAddress_reports_failure_witness :
  generateAliasAddressForIBCBackedDenom "ibc/X"
  = Return "bb1tk88ulw2rnj4cgs3snpcaxuj2l7xekgd0srpdnpwef3f8wjgwtws96l0p6"
  /\ toEthAddress "bb1tk88ulw2rnj4cgs3snpcaxuj2l7xekgd0srpdnpwef3f8wjgwtws96l0p6"
     = Throw "Address is not a standard 20-byte address (may be a module-derived address)"
  /\ toEthAddress "cosmos1xyz" = Throw "Unknown address format".
Proof.
  split; [vm_compute; reflexivity|]. split.
  - unshelve refine
      (proj1 (proj2 (toEthAddress_reports_failure
                       "bb1tk88ulw2rnj4cgs3snpcaxuj2l7xekgd0srpdnpwef3f8wjgwtws96l0p6"))
             _ _ _ _ _ _ _);
      [shelve | shelve | shelve
      | vm_compute; reflexivity | vm_compute; reflexivity | vm_compute; reflexivity
      | vm_compute; lia].
  - apply (proj1 (toEthAddress_reports_failure "cosmos1xyz")); reflexivity.
Defined.

Section DigitFacts.
Local Open Scope Z_scope.

(* ================================================================== *)
(** * Properties of the bech32 package *)
(* ================================================================== *)

(** ** 32-bit integers *)

Lemma int32_small (x : Z) : -2147483648 <= x < 2147483648 -> int32 x = x.
Proof. intros H. unfold int32. rewrite Z.mod_small; lia. Qed.

Lemma int32_mod (x : Z) : int32 x mod 2 ^ 32 = x mod 2 ^ 32.
Proof.
  unfold int32. change 4294967296 with (2 ^ 32).
  rewrite (Z.mod_eq (x + 2147483648) (2 ^ 32)) by lia.
  replace (x + 2147483648 - 2 ^ 32 * ((x + 2147483648) / 2 ^ 32) - 2147483648)
    with (x + (- ((x + 2147483648) / 2 ^ 32)) * 2 ^ 32) by lia.
  apply Z.mod_add. lia.
Qed.

Lemma testbit_mod_eq (x y : Z) (n i : Z) :
  x mod 2 ^ n = y mod 2 ^ n -> i < n -> Z.testbit x i = Z.testbit y i.
Proof.
  intros H Hi.
  rewrite <- (Z.mod_pow2_bits_low x n i), <- (Z.mod_pow2_bits_low y n i) by assumption.
  now rewrite H.
Qed.

(** The bits a digit is read from do not depend on what lies above
    bit 32. *)
Lemma low_digit_eq (x y b o : Z) :
  x mod 2 ^ 32 = y mod 2 ^ 32 -> 0 <= b -> 0 <= o -> b + o <= 32 ->
  Z.land (Z.shiftr x b) (Z.ones o) = (y / 2 ^ b) mod 2 ^ o.
Proof.
  intros H Hb Ho Hbo.
  rewrite <- (Z.shiftr_div_pow2 y b), <- (Z.land_ones _ o) by assumption.
  apply Z.bits_inj'. intros i Hi.
  rewrite !Z.land_spec, !Z.shiftr_spec, Z.testbit_ones_nonneg by assumption.
  destruct (Z.ltb_spec i o) as [Hlt|Hge]; [|now rewrite !andb_false_r].
  rewrite !andb_true_r. apply (testbit_mod_eq x y 32); [assumption|lia].
Qed.

Lemma shl_1 (n : Z) : 0 <= n < 31 -> shl 1 n = 2 ^ n.
Proof.
  intros H. unfold shl. rewrite Z.shiftl_mul_pow2, Z.mul_1_l by lia.
  apply int32_small.
  assert (0 < 2 ^ n) by (apply Z.pow_pos_nonneg; lia).
  assert (2 ^ n <= 2 ^ 30) by (apply Z.pow_le_mono_r; lia).
  change (2 ^ 30) with 1073741824 in *. lia.
Qed.

Lemma maxV_ones (n : Z) : 0 <= n < 31 -> shl 1 n - 1 = Z.ones n.
Proof. intros H. rewrite shl_1 by assumption. rewrite Z.ones_equiv. lia. Qed.

(** ** Digits *)

Lemma digits_length (w : Z) (k : nat) (v : Z) : List.length (digits w k v) = k.
Proof.
  revert v. induction k as [|k IH]; intros v; simpl; [reflexivity|].
  rewrite length_app, IH. simpl. lia.
Qed.

Lemma digits_in_range (w : Z) (k : nat) (v : Z) :
  0 <= w -> Forall (in_range w) (digits w k v).
Proof.
  intros Hw. revert v. induction k as [|k IH]; intros v; simpl; [constructor|].
  apply Forall_app. split; [apply IH|]. constructor; [|constructor].
  apply Z.mod_pos_bound. apply Z.pow_pos_nonneg; lia.
Qed.

Lemma number_of_snoc (w : Z) (xs : list Z) (x acc : Z) :
  number_of w (xs ++ [x]) acc = number_of w xs acc * 2 ^ w + x.
Proof. unfold number_of. now rewrite fold_left_app. Qed.

Lemma number_of_nonneg (w : Z) (xs : list Z) (acc : Z) :
  0 <= w -> 0 <= acc -> Forall (in_range w) xs -> 0 <= number_of w xs acc.
Proof.
  intros Hw. revert acc. induction xs as [|x xs IH]; intros acc Hacc Hxs; simpl; [assumption|].
  inversion Hxs as [|? ? [Hx _] Hrest]; subst. apply IH; [|assumption].
  assert (0 < 2 ^ w) by (apply Z.pow_pos_nonneg; lia). nia.
Qed.

(** Reading the digits of [v] back gives [v] modulo [2 ^ (w * k)]. *)
Lemma number_of_digits (w : Z) (k : nat) (v acc : Z) :
  0 < w ->
  number_of w (digits w k v) acc = acc * 2 ^ (w * Z.of_nat k) + v mod 2 ^ (w * Z.of_nat k).
Proof.
  intros Hw. revert v. induction k as [|k IH]; intros v.
  - simpl. rewrite Z.mul_0_r. change (2 ^ 0) with 1. rewrite Z.mod_1_r. lia.
  - cbn [digits]. rewrite number_of_snoc, IH.
    replace (w * Z.of_nat (S k)) with (w + w * Z.of_nat k) by lia.
    rewrite Z.pow_add_r by lia.
    rewrite (Z.rem_mul_r v (2 ^ w) (2 ^ (w * Z.of_nat k))).
    + ring.
    + apply Z.pow_nonzero; lia.
    + apply Z.pow_pos_nonneg; lia.
Qed.

(** The digits of a number read from in-range digits are those digits. *)
Lemma digits_number_of (w : Z) (xs : list Z) (acc : Z) :
  0 < w -> Forall (in_range w) xs ->
  digits w (List.length xs) (number_of w xs acc) = xs.
Proof.
  intros Hw. induction xs as [|x xs IH] using rev_ind; intros Hxs; [reflexivity|].
  apply Forall_app in Hxs. destruct Hxs as [Hxs Hx].
  inversion Hx as [|? ? Hr _]; subst. unfold in_range in Hr.
  rewrite length_app, Nat.add_comm. cbn [List.length Nat.add digits].
  rewrite number_of_snoc.
  assert (0 < 2 ^ w) by (apply Z.pow_pos_nonneg; lia).
  rewrite Z.div_add_l, Z.div_small, Z.add_0_r by lia.
  rewrite Z.add_comm, Z.mod_add, Z.mod_small by lia.
  now rewrite IH.
Qed.

Lemma digits_shift (w : Z) (k : nat) (v : Z) (b : Z) :
  0 <= w -> 0 <= b ->
  digits w (S k) (v / 2 ^ b) = digits w k (v / 2 ^ (b + w)) ++ [(v / 2 ^ b) mod 2 ^ w].
Proof.
  intros Hw Hb. cbn [digits]. rewrite Z.pow_add_r by lia.
  rewrite Z.div_div; [reflexivity| |]; [apply Z.pow_nonzero; lia|apply Z.pow_pos_nonneg; lia].
Qed.

End DigitFacts.

Section ConvertFacts.
Local Open Scope Z_scope.

(** ** [convert] *)

(** The inner loop: with [V] the unbounded accumulator the 32-bit
    [value] is the low part of, each pass moves one more digit of [V]
    into the result. *)
Lemma convert_emit_spec (fuel : nat) (outBits value V bits : Z) (result : list Z) (k : nat) :
  0 < outBits < 31 ->
  value mod 2 ^ 32 = V mod 2 ^ 32 ->
  0 <= bits <= 32 ->
  bits <= Z.of_nat fuel ->
  result = digits outBits k (V / 2 ^ bits) ->
  exists bits' k',
    convert_emit fuel outBits value bits result
    = (bits', digits outBits k' (V / 2 ^ bits'))
    /\ 0 <= bits' < outBits
    /\ outBits * Z.of_nat k' + bits' = outBits * Z.of_nat k + bits.
Proof.
  intros Hout Hval. revert bits result k.
  induction fuel as [|fuel IH]; intros bits result k Hbits Hfuel Hres.
  - exists bits, k. simpl. subst result. repeat split; lia.
  - cbn [convert_emit]. destruct (Z.geb_spec bits outBits) as [Hge|Hlt].
    + destruct (IH (bits - outBits)
                   (result ++ [Z.land (sar value (bits - outBits)) (shl 1 outBits - 1)])
                   (S k)) as (bits' & k' & Heq & Hb & Hk); [lia|lia| |].
      * rewrite digits_shift by lia.
        replace (bits - outBits + outBits) with bits by lia. rewrite <- Hres.
        f_equal. f_equal. unfold sar. rewrite maxV_ones by lia.
        apply low_digit_eq; [assumption|lia..].
      * exists bits', k'. repeat split; [exact Heq|lia..].
    + exists bits, k. subst result. repeat split; lia.
Qed.

Lemma lor_low (x d n : Z) :
  0 <= n -> x mod 2 ^ n = 0 -> 0 <= d < 2 ^ n -> Z.lor x d = x + d.
Proof.
  intros Hn Hx Hd. rewrite <- Z.lxor_lor, <- Z.add_nocarry_lxor; try reflexivity.
  all: apply Z.bits_inj'; intros i Hi; rewrite Z.land_spec, Z.bits_0.
  all: destruct (Z.ltb_spec i n) as [Hlt|Hge].
  all: try (rewrite <- (Z.mod_pow2_bits_low x n i), Hx, Z.bits_0 by assumption; reflexivity).
  all: rewrite <- (Z.mod_small d (2 ^ n)), Z.mod_pow2_bits_high, andb_false_r by lia;
    reflexivity.
Qed.

(** One turn of the outer loop on the accumulators. *)
Lemma convert_accumulate (inBits value V d : Z) :
  0 < inBits <= 32 ->
  value mod 2 ^ 32 = V mod 2 ^ 32 ->
  0 <= d < 2 ^ inBits ->
  Z.lor (shl value inBits) d mod 2 ^ 32 = (V * 2 ^ inBits + d) mod 2 ^ 32.
Proof.
  intros Hin Hval Hd.
  assert (Hpow : 2 ^ 32 = 2 ^ inBits * 2 ^ (32 - inBits))
    by (rewrite <- Z.pow_add_r by lia; f_equal; lia).
  assert (Hp : 0 < 2 ^ inBits) by (apply Z.pow_pos_nonneg; lia).
  assert (Hq : 0 < 2 ^ (32 - inBits)) by (apply Z.pow_pos_nonneg; lia).
  assert (Hshl : shl value inBits mod 2 ^ 32 = (V * 2 ^ inBits) mod 2 ^ 32).
  { unfold shl. rewrite int32_mod, Z.shiftl_mul_pow2 by lia.
    rewrite <- (Z.mul_mod_idemp_l value), Hval, Z.mul_mod_idemp_l; [reflexivity|lia..]. }
  rewrite (lor_low _ _ inBits); [| lia | | assumption].
  - rewrite <- Z.add_mod_idemp_l, Hshl, Z.add_mod_idemp_l; [reflexivity|lia..].
  - assert (Hlow : (shl value inBits mod 2 ^ 32) mod 2 ^ inBits = 0).
    { rewrite Hshl, Hpow, Z.rem_mul_r by lia.
      rewrite Z.mod_mul by lia. rewrite Z.add_0_l, Z.mul_comm, Z.mod_mul; lia. }
    rewrite Hpow, Z.rem_mul_r in Hlow by lia.
    rewrite Z.mul_comm, Z.mod_add, Z.mod_mod in Hlow by lia. exact Hlow.
Qed.

(** The outer loop: the result holds the complete digits of the bits
    read so far, and [bits] of them wait in the accumulator. *)
Lemma convert_loop_spec (data : list Z) (inBits outBits value V bits : Z)
      (result : list Z) (k : nat) :
  0 < inBits -> 0 < outBits < 31 -> inBits + outBits <= 32 ->
  Forall (in_range inBits) data ->
  value mod 2 ^ 32 = V mod 2 ^ 32 ->
  0 <= V ->
  0 <= bits < outBits ->
  result = digits outBits k (V / 2 ^ bits) ->
  exists value' bits' k',
    let V' := number_of inBits data V in
    convert_loop data inBits outBits value bits result
    = (value', bits', digits outBits k' (V' / 2 ^ bits'))
    /\ value' mod 2 ^ 32 = V' mod 2 ^ 32
    /\ 0 <= bits' < outBits
    /\ outBits * Z.of_nat k' + bits'
       = outBits * Z.of_nat k + bits + inBits * Z.of_nat (List.length data).
Proof.
  intros Hin Hout Hsum. revert value V bits result k.
  induction data as [|d data IH]; intros value V bits result k Hdata Hval HV Hbits Hres.
  - exists value, bits, k. simpl. subst result. repeat split; lia.
  - inversion Hdata as [|? ? Hd Hrest]; subst. unfold in_range in Hd.
    cbn [convert_loop number_of fold_left].
    assert (Hp : 0 < 2 ^ inBits) by (apply Z.pow_pos_nonneg; lia).
    destruct (convert_emit_spec (Z.to_nat (bits + inBits)) outBits
                (Z.lor (shl value inBits) d) (V * 2 ^ inBits + d) (bits + inBits)
                (digits outBits k (V / 2 ^ bits)) k)
      as (bits1 & k1 & Hemit & Hb1 & Hk1); [lia| |lia|lia| |].
    + apply convert_accumulate; [lia|assumption|assumption].
    + f_equal. rewrite (Z.add_comm bits inBits), Z.pow_add_r, <- Z.div_div by lia.
      f_equal. rewrite Z.div_add_l, Z.div_small by lia. lia.
    + rewrite Hemit.
      destruct (IH (Z.lor (shl value inBits) d) (V * 2 ^ inBits + d) bits1
                   (digits outBits k1 ((V * 2 ^ inBits + d) / 2 ^ bits1)) k1)
        as (value' & bits' & k' & Heq & Hv' & Hb' & Hk'); [assumption| | |lia|reflexivity|].
      * apply convert_accumulate; [lia|assumption|assumption].
      * nia.
      * exists value', bits', k'. cbn zeta in *. unfold number_of in *.
        repeat split; [exact Heq|exact Hv'|lia|lia|].
        cbn [List.length]. lia.
Qed.

End ConvertFacts.

Section WordFacts.
Local Open Scope Z_scope.

Lemma byte_to_Z_range (b : Byte.byte) : in_range 8 (byte_to_Z b).
Proof.
  unfold in_range, byte_to_Z. pose proof (Byte.to_N_bounded b).
  change (2 ^ 8) with 256. lia.
Qed.

Lemma bytes_in_range (bytes : Buffer) : Forall (in_range 8) (map byte_to_Z bytes).
Proof. apply Forall_map, Forall_forall. intros b _. apply byte_to_Z_range. Qed.

(** The last, padded digit of [convert]. *)
Lemma padded_digit (value V s w : Z) :
  value mod 2 ^ 32 = V mod 2 ^ 32 -> 0 <= s <= 32 -> 0 <= w <= 30 ->
  Z.land (shl value s) (shl 1 w - 1) = (V * 2 ^ s) mod 2 ^ w.
Proof.
  intros Hval Hs Hw.
  destruct (Z.eq_dec w 0) as [->|Hw0].
  - change (shl 1 0 - 1) with 0. rewrite Z.land_0_r. change (2 ^ 0) with 1.
    now rewrite Z.mod_1_r.
  - rewrite maxV_ones by lia.
    rewrite <- (Z.shiftr_0_r (shl value s)).
    rewrite (low_digit_eq _ (V * 2 ^ s) 0 w); [|  |lia..].
    + change (2 ^ 0) with 1. now rewrite Z.div_1_r.
    + unfold shl. rewrite int32_mod, Z.shiftl_mul_pow2 by lia.
      rewrite <- (Z.mul_mod_idemp_l value), Hval, Z.mul_mod_idemp_l; [reflexivity|lia..].
Qed.

(** [toWords]: the five-bit digits of the bytes read as one number,
    padded with zero bits on the right. *)
Lemma toWords_spec (bytes : Buffer) :
  exists (k : nat) (pad : Z),
    toWords bytes = digits 5 k (number_of 8 (map byte_to_Z bytes) 0 * 2 ^ pad)
    /\ 5 * Z.of_nat k = 8 * Z.of_nat (List.length bytes) + pad
    /\ 0 <= pad < 5.
Proof.
  unfold toWords, convert.
  destruct (convert_loop_spec (map byte_to_Z bytes) 8 5 0 0 0 [] 0)
    as (value' & bits' & k' & Hloop & Hval & Hbits & Hk);
    [lia|lia|lia|apply bytes_in_range|reflexivity|lia|lia|reflexivity|].
  cbn zeta in Hloop. rewrite Hloop, length_map in *.
  set (V := number_of 8 (map byte_to_Z bytes) 0) in *.
  destruct (Z.gtb_spec bits' 0) as [Hpos|Hzero].
  - exists (S k'), (5 - bits'). repeat split; [|lia..].
    cbn [digits]. f_equal.
    + f_equal. replace (2 ^ 5) with (2 ^ (5 - bits') * 2 ^ bits')
        by (rewrite <- Z.pow_add_r by lia; f_equal; lia).
      symmetry. rewrite (Z.mul_comm V).
      apply Z.div_mul_cancel_l; apply Z.pow_nonzero; lia.
    + f_equal. apply padded_digit; [assumption|lia|lia].
  - exists k', 0. assert (bits' = 0) as -> by lia.
    change (2 ^ 0) with 1 in *. rewrite Z.div_1_r in *. rewrite Z.mul_1_r.
    repeat split; lia.
Qed.

Lemma toWords_in_range (bytes : Buffer) : Forall (in_range 5) (toWords bytes).
Proof.
  destruct (toWords_spec bytes) as (k & pad & -> & _). apply digits_in_range. lia.
Qed.

Lemma toWords_length (bytes : Buffer) :
  5 * Z.of_nat (List.length (toWords bytes)) < 8 * Z.of_nat (List.length bytes) + 5.
Proof.
  destruct (toWords_spec bytes) as (k & pad & -> & Hk & Hpad).
  rewrite digits_length. lia.
Qed.

(** [fromWords]: the eight-bit digits of the words read as one number;
    it throws on five or more bits of padding, or on padding that is
    not zero. *)
Lemma fromWords_spec (words : list Z) :
  Forall (in_range 5) words ->
  exists (k : nat) (bits : Z),
    8 * Z.of_nat k + bits = 5 * Z.of_nat (List.length words)
    /\ 0 <= bits < 8
    /\ fromWords words =
       if bits >=? 5 then Throw "Excess padding"
       else if negb ((number_of 5 words 0 * 2 ^ (8 - bits)) mod 2 ^ 8 =? 0)
            then Throw "Non-zero padding"
            else Return (digits 8 k (number_of 5 words 0 / 2 ^ bits)).
Proof.
  intros Hwords. unfold fromWords, convert.
  destruct (convert_loop_spec words 5 8 0 0 0 [] 0)
    as (value' & bits' & k' & Hloop & Hval & Hbits & Hk);
    [lia|lia|lia|assumption|reflexivity|lia|lia|reflexivity|].
  cbn zeta in Hloop. rewrite Hloop.
  exists k', bits'. split; [lia|]. split; [lia|].
  rewrite (padded_digit value' (number_of 5 words 0)); [reflexivity|assumption|lia|lia].
Qed.

End WordFacts.

Section ChecksumFacts.
Local Open Scope Z_scope.

(** ** The checksum *)

Lemma bits_above (a k n : Z) : 0 <= a < 2 ^ k -> 0 <= k <= n -> Z.testbit a n = false.
Proof.
  intros Ha Hn. rewrite <- (Z.mod_small a (2 ^ k)) by assumption.
  now apply Z.mod_pow2_bits_high.
Qed.

Lemma lt_pow2_of_bits (a k : Z) :
  0 <= a -> 0 <= k -> (forall n, k <= n -> Z.testbit a n = false) -> a < 2 ^ k.
Proof.
  intros Ha Hk Hbits.
  assert (Hmod : a mod 2 ^ k = a).
  { apply Z.bits_inj'. intros n Hn. destruct (Z.ltb_spec n k) as [Hlt|Hge].
    - now apply Z.mod_pow2_bits_low.
    - rewrite Z.mod_pow2_bits_high by lia. symmetry. now apply Hbits. }
  rewrite <- Hmod. apply Z.mod_pos_bound. apply Z.pow_pos_nonneg; lia.
Qed.

(** [-(x & 1)] is all ones or all zeros, as bit 0 of [x] says. *)
Lemma neg_low_bit_testbit (x n : Z) :
  0 <= n -> Z.testbit (- Z.land x 1) n = Z.testbit x 0.
Proof.
  intros Hn. change 1 with (Z.ones 1) at 1. rewrite Z.land_ones by lia.
  change (2 ^ 1) with 2. rewrite <- Z.bit0_mod.
  destruct (Z.testbit x 0); simpl Z.b2z.
  - now apply Z.bits_m1.
  - apply Z.bits_0.
Qed.

Lemma generator_term_testbit (pre i g n : Z) :
  0 <= i -> 0 <= n ->
  Z.testbit (Z.land (- Z.land (sar (sar pre 25) i) 1) g) n
  = Z.testbit pre (25 + i) && Z.testbit g n.
Proof.
  intros Hi Hn. unfold sar.
  rewrite Z.land_spec, neg_low_bit_testbit, !Z.shiftr_spec by lia.
  do 2 f_equal. lia.
Qed.

Lemma shifted_part_range (pre : Z) :
  0 <= Z.shiftl (Z.land pre 0x1ffffff) 5 < 2 ^ 30.
Proof.
  change 0x1ffffff with (Z.ones 25). rewrite Z.land_ones, Z.shiftl_mul_pow2 by lia.
  pose proof (Z.mod_pos_bound pre (2 ^ 25) eq_refl).
  change (2 ^ 30) with (2 ^ 25 * 2 ^ 5). change (2 ^ 5) with 32 in *. lia.
Qed.

(** The bits of one step of the checksum. *)
Lemma polymodStep_testbit (pre n : Z) :
  0 <= n ->
  Z.testbit (polymodStep pre) n
  = xorb (xorb (xorb (xorb (xorb
      (Z.testbit pre (n - 5) && ((0 <=? n - 5) && (n - 5 <? 25)))
      (Z.testbit pre 25 && Z.testbit 0x3b6a57b2 n))
      (Z.testbit pre 26 && Z.testbit 0x26508e6d n))
      (Z.testbit pre 27 && Z.testbit 0x1ea119fa n))
      (Z.testbit pre 28 && Z.testbit 0x3d4233dd n))
      (Z.testbit pre 29 && Z.testbit 0x2a1462b3 n).
Proof.
  intros Hn. unfold polymodStep. cbv zeta.
  rewrite !Z.lxor_spec, !generator_term_testbit by lia.
  unfold shl. rewrite int32_small
    by (pose proof (shifted_part_range pre); change (2 ^ 30) with 1073741824 in *; lia).
  rewrite Z.shiftl_spec, Z.land_spec by assumption.
  change 0x1ffffff with (Z.ones 25). rewrite Z.testbit_ones by lia.
  reflexivity.
Qed.

Lemma polymodStep_range (pre : Z) : 0 <= polymodStep pre < 2 ^ 30.
Proof.
  assert (Hnonneg : 0 <= polymodStep pre).
  { unfold polymodStep. cbv zeta.
    repeat (apply Z.lxor_nonneg; split; intros _).
    all: try (apply Z.land_nonneg; right; lia).
    all: unfold shl; pose proof (shifted_part_range pre) as H;
      change (2 ^ 30) with 1073741824 in H; rewrite int32_small; lia. }
  split; [exact Hnonneg|].
  apply lt_pow2_of_bits; [exact Hnonneg|lia|].
  intros n Hn. rewrite polymodStep_testbit by lia.
  rewrite !(bits_above _ 30 n) by first [lia | split; [lia|reflexivity]].
  replace (n - 5 <? 25) with false by (symmetry; apply Z.ltb_ge; lia).
  now rewrite !andb_false_r.
Qed.

(** A step is linear over exclusive or. *)
Lemma polymodStep_lxor (a b : Z) :
  polymodStep (Z.lxor a b) = Z.lxor (polymodStep a) (polymodStep b).
Proof.
  apply Z.bits_inj'. intros n Hn.
  rewrite Z.lxor_spec, !polymodStep_testbit, !Z.lxor_spec by assumption.
  btauto.
Qed.

Lemma polymodStep_0 : polymodStep 0 = 0.
Proof. reflexivity. Qed.

(** A step on a state below [2 ^ 25] is a shift. *)
Lemma polymodStep_small (pre : Z) : 0 <= pre < 2 ^ 25 -> polymodStep pre = pre * 32.
Proof.
  intros Hpre. change 32 with (2 ^ 5). rewrite <- Z.shiftl_mul_pow2 by lia.
  apply Z.bits_inj'. intros n Hn.
  rewrite polymodStep_testbit, Z.shiftl_spec by assumption.
  rewrite (bits_above pre 25 25), (bits_above pre 25 26), (bits_above pre 25 27),
    (bits_above pre 25 28), (bits_above pre 25 29) by lia.
  simpl andb. rewrite !xorb_false_r.
  destruct (Z.leb_spec 0 (n - 5)) as [H0|H0]; [|now rewrite Z.testbit_neg_r by lia].
  destruct (Z.ltb_spec (n - 5) 25) as [H1|H1]; [now rewrite andb_true_r|].
  now rewrite (bits_above pre 25) by lia.
Qed.

Lemma lxor_low (x d n : Z) :
  0 <= n -> x mod 2 ^ n = 0 -> 0 <= d < 2 ^ n -> Z.lxor x d = x + d.
Proof.
  intros Hn Hx Hd. rewrite <- (lor_low x d n) by assumption.
  apply Z.lxor_lor. apply Z.bits_inj'. intros i Hi. rewrite Z.land_spec, Z.bits_0.
  destruct (Z.ltb_spec i n) as [Hlt|Hge].
  - rewrite <- (Z.mod_pow2_bits_low x n i), Hx, Z.bits_0 by assumption. reflexivity.
  - rewrite (bits_above d n i), andb_false_r by lia. reflexivity.
Qed.

Lemma lxor_range (a b k : Z) :
  0 <= k -> 0 <= a < 2 ^ k -> 0 <= b < 2 ^ k -> 0 <= Z.lxor a b < 2 ^ k.
Proof.
  intros Hk Ha Hb.
  assert (0 <= Z.lxor a b) by (apply Z.lxor_nonneg; lia).
  split; [assumption|]. apply lt_pow2_of_bits; [assumption|assumption|].
  intros n Hn. now rewrite Z.lxor_spec, (bits_above a k n), (bits_above b k n) by lia.
Qed.

Lemma in_range_5_30 (v : Z) : in_range 5 v -> 0 <= v < 2 ^ 30.
Proof. unfold in_range. change (2 ^ 5) with 32. change (2 ^ 30) with 1073741824. lia. Qed.

Lemma polymod_range (chk : Z) (vs : list Z) :
  0 <= chk < 2 ^ 30 -> Forall (in_range 5) vs -> 0 <= polymod chk vs < 2 ^ 30.
Proof.
  revert chk. induction vs as [|v vs IH]; intros chk Hchk Hvs; [exact Hchk|].
  inversion Hvs as [|? ? Hv Hrest]; subst. apply IH; [|assumption].
  apply lxor_range; [lia|apply polymodStep_range|now apply in_range_5_30].
Qed.

Lemma polymod_app (chk : Z) (vs ws : list Z) :
  polymod chk (vs ++ ws) = polymod (polymod chk vs) ws.
Proof. apply fold_left_app. Qed.

(** The state after some symbols is the exclusive or of what the
    symbols give from state 0 and of the start state stepped as many
    times. *)
Lemma polymod_lxor (a b : Z) (vs : list Z) :
  polymod (Z.lxor a b) vs = Z.lxor (polymod a vs) (polymodSteps (List.length vs) b).
Proof.
  revert a b. induction vs as [|v vs IH]; intros a b; [reflexivity|].
  cbn [polymod fold_left List.length polymodSteps]. fold (polymod (Z.lxor (polymodStep (Z.lxor a b)) v) vs).
  rewrite polymodStep_lxor.
  replace (Z.lxor (Z.lxor (polymodStep a) (polymodStep b)) v)
    with (Z.lxor (Z.lxor (polymodStep a) v) (polymodStep b))
    by (rewrite !Z.lxor_assoc; f_equal; apply Z.lxor_comm).
  apply IH.
Qed.

(** From a state small enough, the symbols are just appended. *)
Lemma polymod_small (vs : list Z) (acc : Z) :
  0 <= acc -> (acc + 1) * 32 ^ Z.of_nat (List.length vs) <= 2 ^ 30 ->
  Forall (in_range 5) vs ->
  polymod acc vs = number_of 5 vs acc.
Proof.
  revert acc. induction vs as [|v vs IH]; intros acc Hacc Hbound Hvs; [reflexivity|].
  inversion Hvs as [|? ? Hv Hrest]; subst. unfold in_range in Hv. change (2 ^ 5) with 32 in *.
  cbn [polymod number_of fold_left].
  fold (polymod (Z.lxor (polymodStep acc) v) vs). fold (number_of 5 vs (acc * 32 + v)).
  cbn [List.length] in Hbound. rewrite Nat2Z.inj_succ, Z.pow_succ_r in Hbound by lia.
  assert (Hpow : 0 < 32 ^ Z.of_nat (List.length vs)) by (apply Z.pow_pos_nonneg; lia).
  assert (Hsmall : acc < 2 ^ 25).
  { change (2 ^ 30) with (2 ^ 25 * 32) in Hbound. nia. }
  rewrite polymodStep_small by lia.
  rewrite (lxor_low _ _ 5); [| lia | | change (2 ^ 5) with 32; lia].
  - apply IH; [lia| |assumption]. nia.
  - change (2 ^ 5) with 32. apply Z.mod_mul. lia.
Qed.

Lemma polymod_0_six (cs : list Z) :
  List.length cs = 6%nat -> Forall (in_range 5) cs -> polymod 0 cs = number_of 5 cs 0.
Proof.
  intros Hlen Hcs. apply polymod_small; [lia| |assumption].
  rewrite Hlen. vm_compute. discriminate.
Qed.

(** The state after six checksum symbols. *)
Lemma polymod_six (chk : Z) (cs : list Z) :
  List.length cs = 6%nat -> Forall (in_range 5) cs ->
  polymod chk cs = Z.lxor (number_of 5 cs 0) (polymodStep6 chk).
Proof.
  intros Hlen Hcs. rewrite <- (Z.lxor_0_l chk) at 1.
  rewrite polymod_lxor, polymod_0_six, Hlen by assumption.
  unfold polymodStep6. cbn [polymodSteps]. reflexivity.
Qed.

Lemma polymodStep6_range (chk : Z) : 0 <= polymodStep6 chk < 2 ^ 30.
Proof. unfold polymodStep6. apply polymodStep_range. Qed.

(** The checksum symbols [encode] appends make the final state 1, and
    they are the only six symbols that do. *)
Lemma checksum_verifies (chk : Z) :
  polymod chk (digits 5 6 (Z.lxor (polymodStep6 chk) ENCODING_CONST)) = ENCODING_CONST.
Proof.
  rewrite polymod_six by (rewrite ?digits_length; try apply digits_in_range; lia).
  rewrite (number_of_digits 5 6) by lia. rewrite Z.mul_0_l, Z.add_0_l.
  rewrite Z.mod_small.
  - rewrite (Z.lxor_comm (polymodStep6 chk) ENCODING_CONST), Z.lxor_assoc,
      Z.lxor_nilpotent. apply Z.lxor_0_r.
  - change (5 * Z.of_nat 6) with 30. apply lxor_range; [lia|apply polymodStep6_range|].
    unfold ENCODING_CONST. change (2 ^ 30) with 1073741824. lia.
Qed.

Lemma checksum_unique (chk : Z) (cs : list Z) :
  List.length cs = 6%nat -> Forall (in_range 5) cs ->
  polymod chk cs = ENCODING_CONST ->
  cs = digits 5 6 (Z.lxor (polymodStep6 chk) ENCODING_CONST).
Proof.
  intros Hlen Hcs Hone. rewrite polymod_six in Hone by assumption.
  assert (Hnum : number_of 5 cs 0 = Z.lxor (polymodStep6 chk) ENCODING_CONST).
  { rewrite <- Hone. rewrite (Z.lxor_comm (number_of 5 cs 0)), <- Z.lxor_assoc,
      Z.lxor_nilpotent. reflexivity. }
  rewrite <- Hnum, <- Hlen. symmetry. apply digits_number_of; [lia|assumption].
Qed.

End ChecksumFacts.

Section EncodeFacts.
Local Open Scope string_scope.
Local Open Scope list_scope.
Local Open Scope Z_scope.

(** ** Strings *)

Lemma append_assoc (a b c : string) : ((a ++ b) ++ c = a ++ (b ++ c))%string.
Proof. induction a as [|x a IH]; simpl; [reflexivity|now rewrite IH]. Qed.

Lemma append_empty_r (a : string) : (a ++ EmptyString)%string = a.
Proof. induction a as [|x a IH]; simpl; [reflexivity|now rewrite IH]. Qed.

Lemma length_append (a b : string) :
  String.length (a ++ b) = (String.length a + String.length b)%nat.
Proof. induction a as [|x a IH]; simpl; [reflexivity|now rewrite IH]. Qed.

Lemma String_map_append (f : ascii -> ascii) (a b : string) :
  String_map f (a ++ b) = (String_map f a ++ String_map f b)%string.
Proof. induction a as [|x a IH]; simpl; [reflexivity|now rewrite IH]. Qed.

Lemma String_slice_append (a b : string) :
  String_slice (String.length a) (a ++ b) = b.
Proof. induction a as [|x a IH]; simpl; [now destruct b|exact IH]. Qed.

Lemma substring_append (a b : string) :
  String.substring 0 (String.length a) (a ++ b) = a.
Proof.
  induction a as [|x a IH]; simpl; [now destruct b|now rewrite IH].
Qed.

(** ** The alphabet *)

(** Case analysis on a five-bit symbol. *)
Lemma in_range_5_cases (v : Z) (P : Z -> Prop) :
  in_range 5 v ->
  Forall P (map Z.of_nat (seq 0 32)) -> P v.
Proof.
  intros [Hlo Hhi] Hall. rewrite Forall_forall in Hall. apply Hall.
  apply in_map_iff. exists (Z.to_nat v). split; [lia|].
  apply in_seq. change (2 ^ 5) with 32 in Hhi. lia.
Qed.

(** The character of a symbol is one lower-case character other than
    the separator, and the alphabet map takes it back to the symbol. *)
Lemma ALPHABET_charAt_spec (v : Z) :
  in_range 5 v ->
  exists c,
    ALPHABET_charAt v = String c EmptyString
    /\ ALPHABET_MAP c = Some v
    /\ lower_char c = c
    /\ Ascii.eqb c "1" = false.
Proof.
  intros Hv. pattern v. apply (in_range_5_cases v); [exact Hv|].
  repeat (constructor; [eexists; repeat split; reflexivity|]). constructor.
Qed.

Lemma index_of_spec (c : ascii) (s : string) (i v : Z) :
  index_of c s i = Some v ->
  exists n, v = i + Z.of_nat n /\ String.get n s = Some c.
Proof.
  revert i. induction s as [|d s IH]; intros i; simpl; [discriminate|].
  destruct (Ascii.eqb_spec c d) as [->|_].
  - intros [= <-]. exists 0%nat. split; [lia|reflexivity].
  - intros H. destruct (IH _ H) as (n & -> & Hget). exists (S n). split; [lia|exact Hget].
Qed.

Lemma get_Some_lt (n : nat) (s : string) (c : ascii) :
  String.get n s = Some c -> (n < String.length s)%nat.
Proof.
  revert n. induction s as [|d s IH]; intros n; simpl; [discriminate|].
  destruct n as [|n]; [lia|]. intros H. apply IH in H. lia.
Qed.

Lemma ALPHABET_MAP_spec (c : ascii) (v : Z) :
  ALPHABET_MAP c = Some v ->
  in_range 5 v /\ ALPHABET_charAt v = String c EmptyString.
Proof.
  intros H. destruct (index_of_spec _ _ _ _ H) as (n & -> & Hget).
  pose proof (get_Some_lt _ _ _ Hget) as Hlt. change (String.length ALPHABET) with 32%nat in Hlt.
  split; [unfold in_range; change (2 ^ 5) with 32; lia|].
  unfold ALPHABET_charAt. rewrite Z.add_0_l, Nat2Z.id, Hget. reflexivity.
Qed.

(** ** Characters of symbols *)

Lemma charsOf_app (vs ws : list Z) :
  charsOf (vs ++ ws) = (charsOf vs ++ charsOf ws)%string.
Proof.
  induction vs as [|v vs IH]; simpl; [reflexivity|]. now rewrite IH, append_assoc.
Qed.

Lemma charsOf_cons (v : Z) (vs : list Z) :
  in_range 5 v ->
  exists c, charsOf (v :: vs) = String c (charsOf vs)
            /\ ALPHABET_MAP c = Some v /\ lower_char c = c /\ Ascii.eqb c "1" = false.
Proof.
  intros Hv. destruct (ALPHABET_charAt_spec v Hv) as (c & Hc & Hmap & Hlow & Hsep).
  exists c. simpl. rewrite Hc. repeat split; assumption.
Qed.

Lemma charsOf_length (vs : list Z) :
  Forall (in_range 5) vs -> String.length (charsOf vs) = List.length vs.
Proof.
  induction 1 as [|v vs Hv _ IH]; [reflexivity|].
  destruct (charsOf_cons v vs Hv) as (c & -> & _). simpl. now rewrite IH.
Qed.

Lemma charsOf_lower (vs : list Z) :
  Forall (in_range 5) vs -> String_toLowerCase (charsOf vs) = charsOf vs.
Proof.
  induction 1 as [|v vs Hv _ IH]; [reflexivity|].
  destruct (charsOf_cons v vs Hv) as (c & -> & _ & Hlow & _).
  unfold String_toLowerCase in *. simpl. now rewrite Hlow, IH.
Qed.

Lemma charsOf_no_separator (vs : list Z) (i : nat) :
  Forall (in_range 5) vs -> String_lastIndexOf (charsOf vs) "1" i = None.
Proof.
  intros Hvs. revert i. induction Hvs as [|v vs Hv _ IH]; intros i; [reflexivity|].
  destruct (charsOf_cons v vs Hv) as (c & -> & _ & _ & Hsep).
  simpl. now rewrite IH, Hsep.
Qed.

(** ** [encode] *)

Lemma encode_words_spec (words : list Z) (chk : Z) (result : string) :
  Forall (in_range 5) words ->
  encode_words words chk result
  = Return (polymod chk words, (result ++ charsOf words)%string).
Proof.
  intros Hwords. revert chk result.
  induction Hwords as [|x words Hx _ IH]; intros chk result.
  - simpl. now rewrite append_empty_r.
  - cbn [encode_words]. unfold sar.
    replace (Z.shiftr x 5) with 0.
    + simpl negb. cbv iota. rewrite IH. cbn [polymod fold_left charsOf].
      now rewrite append_assoc.
    + unfold in_range in Hx. rewrite Z.shiftr_div_pow2 by lia. symmetry.
      now apply Z.div_small.
Qed.

Lemma encode_checksum_spec (chk : Z) :
  encode_checksum chk = charsOf (digits 5 6 chk).
Proof.
  unfold encode_checksum. cbn [fold_left digits app charsOf]. unfold sar.
  change 0x1f with (Z.ones 5). rewrite !Z.land_ones, !Z.shiftr_div_pow2 by lia.
  rewrite !Z.div_div by lia.
  change (2 ^ 5 * (2 ^ 5 * (2 ^ 5 * (2 ^ 5 * 2 ^ 5)))) with (2 ^ ((5 - 0) * 5)).
  change (2 ^ 5 * (2 ^ 5 * (2 ^ 5 * 2 ^ 5))) with (2 ^ ((5 - 1) * 5)).
  change (2 ^ 5 * (2 ^ 5 * 2 ^ 5)) with (2 ^ ((5 - 2) * 5)).
  change (2 ^ 5 * 2 ^ 5) with (2 ^ ((5 - 3) * 5)).
  change (2 ^ ((5 - 4) * 5)) with (2 ^ 5).
  change (2 ^ ((5 - 5) * 5)) with 1. rewrite Z.div_1_r.
  cbn [String.append]. rewrite !append_assoc, append_empty_r.
  reflexivity.
Qed.

Lemma prefixChk_bb : prefixChk "bb" = Return bbChk.
Proof. vm_compute. reflexivity. Qed.

(** [encode] on the prefix [bb] succeeds on at most 81 five-bit words:
    the prefix, the separator, the words and their checksum. *)
Lemma bech32_encode_bb (words : list Z) :
  Forall (in_range 5) words ->
  (List.length words <= 81)%nat ->
  bech32_encode "bb" words
  = Return ("bb1" ++ charsOf words ++ charsOf (bbChecksum words))%string.
Proof.
  intros Hwords Hlen. unfold bech32_encode.
  replace (strlen "bb" + 7 + Z.of_nat (List.length words) >? 90) with false
    by (symmetry; rewrite Z.gtb_ltb; apply Z.ltb_ge; change (strlen "bb") with 2; lia).
  change (String_toLowerCase "bb") with "bb". rewrite prefixChk_bb.
  rewrite encode_words_spec by assumption.
  rewrite encode_checksum_spec. unfold bbChecksum.
  now rewrite append_assoc.
Qed.

End EncodeFacts.

Section DecodeFacts.
Local Open Scope string_scope.
Local Open Scope list_scope.
Local Open Scope Z_scope.

(** ** [decode] *)

Lemma firstn_all_but_six (v : Z) (vs : list Z) :
  firstn (List.length (v :: vs) - 6) (v :: vs)
  = if (6 <=? List.length vs)%nat then v :: firstn (List.length vs - 6) vs else [].
Proof.
  cbn [List.length]. destruct (Nat.leb_spec 6 (List.length vs)) as [Hge|Hlt].
  - replace (S (List.length vs) - 6)%nat with (S (List.length vs - 6)) by lia. reflexivity.
  - replace (S (List.length vs) - 6)%nat with 0%nat by lia. reflexivity.
Qed.

(** The character loop reads back the symbols of in-range characters:
    all of them go into the checksum, all but the last six into the
    words. *)
Lemma decode_words_spec (vs : list Z) (chk : Z) (acc : list Z) :
  Forall (in_range 5) vs ->
  decode_words (charsOf vs) chk acc
  = Return (polymod chk vs, acc ++ firstn (List.length vs - 6) vs).
Proof.
  intros Hvs. revert chk acc. induction Hvs as [|v vs Hv Hvs IH]; intros chk acc.
  - simpl. now rewrite app_nil_r.
  - destruct (charsOf_cons v vs Hv) as (c & -> & Hmap & _).
    cbn [decode_words]. rewrite Hmap, (charsOf_length vs Hvs), firstn_all_but_six.
    destruct (Nat.leb_spec 6 (List.length vs)) as [Hge|Hlt];
      rewrite IH; unfold polymod; cbn [fold_left].
    + now rewrite <- app_assoc.
    + replace (List.length vs - 6)%nat with 0%nat by lia. reflexivity.
Qed.

Lemma decode_words_inv (wordChars : string) (chk : Z) (acc : list Z) (chk' : Z)
      (words : list Z) :
  decode_words wordChars chk acc = Return (chk', words) ->
  exists vs,
    wordChars = charsOf vs /\ Forall (in_range 5) vs
    /\ chk' = polymod chk vs
    /\ words = acc ++ firstn (List.length vs - 6) vs.
Proof.
  revert chk acc. induction wordChars as [|c rest IH]; intros chk acc.
  - simpl. intros [= <- <-]. exists []. repeat split; [constructor|now rewrite app_nil_r].
  - cbn [decode_words]. destruct (ALPHABET_MAP c) as [v|] eqn:Hmap; [|discriminate].
    destruct (ALPHABET_MAP_spec c v Hmap) as (Hv & Hchar).
    intros H.
    assert (Hex : exists acc', decode_words rest (Z.lxor (polymodStep chk) v) acc'
                               = Return (chk', words)
                               /\ acc' = if (6 <=? String.length rest)%nat
                                         then acc ++ [v] else acc).
    { destruct (6 <=? String.length rest)%nat; eexists; split; try exact H; reflexivity. }
    destruct Hex as (acc' & Hdec & Hacc').
    destruct (IH _ _ Hdec) as (vs & -> & Hvs & -> & ->).
    exists (v :: vs). rewrite (charsOf_length vs Hvs) in Hacc'.
    repeat split.
    + cbn [charsOf]. now rewrite Hchar.
    + now constructor.
    + rewrite firstn_all_but_six, Hacc'.
      destruct (Nat.leb_spec 6 (List.length vs)) as [Hge|Hlt]; [now rewrite <- app_assoc|].
      replace (List.length vs - 6)%nat with 0%nat by lia. reflexivity.
Qed.

Lemma lastIndexOf_spec (s : string) (c : ascii) (i j : nat) :
  String_lastIndexOf s c i = Some j ->
  exists n, j = (i + n)%nat
            /\ s = (String.substring 0 n s ++ String c (String_slice (S n) s))%string.
Proof.
  revert i. induction s as [|d rest IH]; intros i; cbn [String_lastIndexOf]; [discriminate|].
  destruct (String_lastIndexOf rest c (S i)) as [j'|] eqn:Hrest.
  - intros [= <-]. destruct (IH _ Hrest) as (n & -> & Heq).
    exists (S n). split; [lia|].
    change (String d rest
            = String d (String.substring 0 n rest ++ String c (String_slice (S n) rest))%string).
    f_equal. exact Heq.
  - destruct (Ascii.eqb_spec d c) as [->|_]; [|discriminate].
    intros [= <-]. exists 0%nat. split; [lia|]. now destruct rest.
Qed.

Lemma lastIndexOf_bb1 (tail : string) :
  String_lastIndexOf tail "1" 3 = None ->
  String_lastIndexOf ("bb1" ++ tail) "1" 0 = Some 2%nat.
Proof. intros H. cbn. now rewrite H. Qed.

(** Decoding what [encode] gives on the prefix [bb]. *)
Lemma bech32_decode_bb (words cs : list Z) :
  Forall (in_range 5) words -> Forall (in_range 5) cs ->
  (List.length words <= 81)%nat -> List.length cs = 6%nat ->
  polymod bbChk (words ++ cs) = ENCODING_CONST ->
  bech32_decode ("bb1" ++ charsOf words ++ charsOf cs) = Return ("bb", words).
Proof.
  intros Hwords Hcs Hlen Hsix Hone.
  assert (Hall : Forall (in_range 5) (words ++ cs)) by (apply Forall_app; now split).
  rewrite <- charsOf_app. set (tail := charsOf (words ++ cs)).
  assert (Htail : String.length tail = (List.length words + 6)%nat)
    by (unfold tail; rewrite charsOf_length, length_app, Hsix by assumption; reflexivity).
  unfold bech32_decode.
  assert (Hstrlen : strlen ("bb1" ++ tail) = Z.of_nat (List.length words) + 9).
  { unfold strlen. rewrite length_append, Htail. cbn [String.length]. lia. }
  rewrite Hstrlen.
  replace (Z.of_nat (List.length words) + 9 <? 8) with false by (symmetry; apply Z.ltb_ge; lia).
  replace (Z.of_nat (List.length words) + 9 >? 90) with false
    by (symmetry; rewrite Z.gtb_ltb; apply Z.ltb_ge; lia).
  assert (Hlower : String_toLowerCase ("bb1" ++ tail) = ("bb1" ++ tail)%string).
  { unfold String_toLowerCase. rewrite String_map_append.
    fold (String_toLowerCase tail). unfold tail. now rewrite charsOf_lower. }
  rewrite Hlower, String.eqb_refl. cbn [negb andb].
  rewrite lastIndexOf_bb1 by (apply charsOf_no_separator; assumption).
  change (String.substring 0 2 ("bb1" ++ tail)) with "bb".
  change (String_slice 3 ("bb1" ++ tail)) with tail.
  replace (String.length tail <? 6)%nat with false by (symmetry; apply Nat.ltb_ge; lia).
  rewrite prefixChk_bb. unfold tail. rewrite decode_words_spec by assumption.
  rewrite Hone, Z.eqb_refl. cbn [negb app].
  rewrite length_app, Hsix, Nat.add_sub, firstn_app, Nat.sub_diag, firstn_all. cbn [firstn].
  now rewrite app_nil_r.
Qed.

Lemma upper_differs (s : string) :
  String_startsWith s "bb1" = true -> String.eqb s (String_toUpperCase s) = false.
Proof.
  destruct s as [|c rest]; cbn [String_startsWith]; [discriminate|].
  destruct (Ascii.eqb_spec "b" c) as [<-|_]; [|discriminate]. intros _.
  reflexivity.
Qed.

Lemma startsWith_spec (s p : string) :
  String_startsWith s p = true -> exists tail, s = (p ++ tail)%string.
Proof.
  revert s. induction p as [|a p IH]; intros s; [now exists s|].
  destruct s as [|b s]; cbn [String_startsWith]; [discriminate|].
  destruct (Ascii.eqb_spec a b) as [<-|_]; [|discriminate].
  intros H. destruct (IH _ H) as (tail & ->). now exists tail.
Qed.

(** What a successful decoding with prefix [bb] says of the text. *)
Lemma bech32_decode_bb_inv (s : string) (words : list Z) :
  String_startsWith s "bb1" = true ->
  bech32_decode s = Return ("bb", words) ->
  exists cs,
    s = ("bb1" ++ charsOf words ++ charsOf cs)%string
    /\ Forall (in_range 5) words /\ Forall (in_range 5) cs
    /\ List.length cs = 6%nat /\ (List.length words <= 81)%nat
    /\ polymod bbChk (words ++ cs) = ENCODING_CONST.
Proof.
  intros Hbb. unfold bech32_decode.
  destruct (strlen s <? 8); [discriminate|].
  destruct (Z.gtb_spec (strlen s) 90) as [|Hmax]; [discriminate|].
  rewrite (upper_differs s Hbb). cbn [negb]. rewrite andb_true_r.
  destruct (String.eqb_spec s (String_toLowerCase s)) as [Hlow|]; [|discriminate].
  cbn [negb]. rewrite <- Hlow.
  destruct (String_lastIndexOf s "1" 0) as [[|split]|] eqn:Hsplit; try discriminate.
  destruct (lastIndexOf_spec _ _ _ _ Hsplit) as (n & Hn & Hs). cbn [Nat.add] in Hn. subst n.
  set (prefix := String.substring 0 (S split) s) in *.
  set (wordChars := String_slice (S (S split)) s) in *.
  destruct (Nat.ltb_spec (String.length wordChars) 6) as [|Hsix]; [discriminate|].
  destruct (prefixChk prefix) as [chk|] eqn:Hchk; [|discriminate].
  destruct (decode_words wordChars chk []) as [[chk' words']|] eqn:Hdec; [|discriminate].
  destruct (Z.eqb_spec chk' ENCODING_CONST) as [->|]; [|discriminate].
  cbn [negb]. intros [= Hprefix <-].
  rewrite Hprefix, prefixChk_bb in Hchk. injection Hchk as <-.
  destruct (decode_words_inv _ _ _ _ _ Hdec) as (vs & Hwc & Hvs & Hone & Hwords).
  cbn [app] in Hwords.
  assert (Hlen : String.length wordChars = List.length vs)
    by (rewrite Hwc; now apply charsOf_length).
  exists (skipn (List.length vs - 6) vs).
  assert (Hsplitvs : vs = words' ++ skipn (List.length vs - 6) vs)
    by (rewrite Hwords; symmetry; apply firstn_skipn).
  assert (Hall : Forall (in_range 5) (words' ++ skipn (List.length vs - 6) vs))
    by now rewrite <- Hsplitvs.
  apply Forall_app in Hall. destruct Hall as [Hw Hc].
  repeat split; try assumption.
  - rewrite Hs, Hprefix, <- charsOf_app, <- Hsplitvs, <- Hwc. reflexivity.
  - rewrite length_skipn. lia.
  - assert (Hlens : strlen s = Z.of_nat (List.length vs) + 3).
    { unfold strlen. rewrite Hs at 1. rewrite length_append, Hprefix. cbn [String.length].
      fold wordChars. lia. }
    rewrite Hwords, length_firstn. lia.
  - now rewrite <- Hsplitvs.
Qed.

End DecodeFacts.

Section BufferFacts.
Local Open Scope string_scope.
Local Open Scope list_scope.

(* ================================================================== *)
(** * Properties of buffers, hex coding and SHA-256 *)
(* ================================================================== *)

Lemma byte_of_N_to_N (b : Byte.byte) : byte_of_N (Byte.to_N b) = b.
Proof.
  unfold byte_of_N. pose proof (Byte.to_N_bounded b).
  rewrite N.mod_small by lia. now rewrite Byte.of_to_N.
Qed.

Lemma to_N_byte_of_N (n : N) : (n < 256)%N -> Byte.to_N (byte_of_N n) = n.
Proof.
  intros Hn. unfold byte_of_N. rewrite N.mod_small by assumption.
  destruct (Byte.of_N n) as [b|] eqn:Hb.
  - now apply Byte.to_of_N.
  - apply Byte.of_N_None_iff in Hb. lia.
Qed.

(** One byte written in hex and read back. *)
Lemma hex_byte_roundtrip (b : Byte.byte) (rest : string) :
  Buffer_from_hex
    (String (hex_char (Byte.to_N b / 16)) (String (hex_char (Byte.to_N b mod 16)) rest))
  = b :: Buffer_from_hex rest.
Proof. destruct b; reflexivity. Qed.

Lemma Buffer_from_hex_toString (buf : Buffer) :
  Buffer_from_hex (Buffer_toString_hex buf) = buf.
Proof.
  induction buf as [|b buf IH]; [reflexivity|].
  cbn [Buffer_toString_hex]. now rewrite hex_byte_roundtrip, IH.
Qed.

Lemma hex_byte_is_hex (b : Byte.byte) :
  is_hex_char (hex_char (Byte.to_N b / 16)) = true
  /\ is_hex_char (hex_char (Byte.to_N b mod 16)) = true.
Proof. destruct b; split; reflexivity. Qed.

Lemma Buffer_toString_hex_all_hex (buf : Buffer) :
  all_hex (Buffer_toString_hex buf) = true.
Proof.
  induction buf as [|b buf IH]; [reflexivity|].
  cbn [Buffer_toString_hex all_hex]. destruct (hex_byte_is_hex b) as [-> ->]. exact IH.
Qed.

Lemma Buffer_toString_hex_length (buf : Buffer) :
  String.length (Buffer_toString_hex buf) = 2 * List.length buf.
Proof.
  induction buf as [|b buf IH]; [reflexivity|].
  cbn [Buffer_toString_hex String.length List.length]. rewrite IH. lia.
Qed.

(** A hex digit, its value, and the digit written back in lower case. *)
Lemma hex_digit_spec (c : ascii) :
  is_hex_char c = true ->
  exists x, hex_digit_value c = Some x /\ (x < 16)%N /\ hex_char x = lower_char c.
Proof.
  destruct c as [[] [] [] [] [] [] [] []]; intros H; try discriminate H;
    eexists; repeat split; reflexivity.
Qed.

(** Reading valid hex of even length and writing it back lower-cases
    it; there is one byte per two digits. *)
Lemma Buffer_toString_from_hex (n : nat) (hex : string) :
  String.length hex = 2 * n -> all_hex hex = true ->
  Buffer_toString_hex (Buffer_from_hex hex) = String_toLowerCase hex
  /\ List.length (Buffer_from_hex hex) = n.
Proof.
  revert hex. induction n as [|n IH]; intros hex Hlen Hhex.
  - destruct hex; [split; reflexivity|discriminate].
  - destruct hex as [|a [|b rest]]; try (cbn in Hlen; lia).
    cbn [all_hex] in Hhex. apply andb_prop in Hhex. destruct Hhex as [Ha Hhex].
    apply andb_prop in Hhex. destruct Hhex as [Hb Hrest].
    destruct (hex_digit_spec a Ha) as (x & Hx & Hx16 & Hxc).
    destruct (hex_digit_spec b Hb) as (y & Hy & Hy16 & Hyc).
    destruct (IH rest) as [IHs IHl]; [cbn in Hlen; lia|assumption|].
    cbn [Buffer_from_hex]. rewrite Hx, Hy.
    cbn [Buffer_toString_hex List.length]. rewrite to_N_byte_of_N by lia.
    rewrite <- (N.div_unique (16 * x + y) 16 x y), <- (N.mod_unique (16 * x + y) 16 x y)
      by (assumption || reflexivity).
    rewrite Hxc, Hyc, IHs, IHl. split; reflexivity.
Qed.

Lemma Buffer_from_array_bytes (bytes : Buffer) :
  Buffer_from_array (map byte_to_Z bytes) = bytes.
Proof.
  unfold Buffer_from_array. rewrite map_map. rewrite <- (map_id bytes) at 2.
  apply map_ext. intros b. unfold byte_to_Z.
  pose proof (Byte.to_N_bounded b).
  rewrite Z.mod_small, N2Z.id by lia. apply byte_of_N_to_N.
Qed.

Lemma bytes_of_Buffer_from_array (numbers : list Z) :
  Forall (in_range 8) numbers -> map byte_to_Z (Buffer_from_array numbers) = numbers.
Proof.
  intros H. unfold Buffer_from_array. rewrite map_map. rewrite <- (map_id numbers) at 2.
  apply map_ext_Forall. eapply Forall_impl; [|exact H].
  intros x [Hlo Hhi]. change (2 ^ 8)%Z with 256%Z in Hhi. unfold byte_to_Z.
  rewrite Z.mod_small by lia. rewrite to_N_byte_of_N by lia. lia.
Qed.

Lemma be_bytes_length (n : nat) (x : N) : List.length (be_bytes n x) = n.
Proof.
  revert x. induction n as [|n IH]; intros x; [reflexivity|].
  cbn [be_bytes]. rewrite length_app, IH. cbn. lia.
Qed.

(** A digest is 32 bytes long. *)
Lemma SHA256_length (msg : list Byte.byte) : List.length (SHA256 msg) = 32.
Proof.
  unfold SHA256, sha_digest_bytes. now rewrite !length_app, !be_bytes_length.
Qed.

End BufferFacts.

Section RoundTripFacts.
Local Open Scope string_scope.
Local Open Scope list_scope.
Local Open Scope Z_scope.

(** ** Words and bytes of a 20-byte payload *)

(** A number read from in-range digits is below the power of its
    length. *)
Lemma number_of_mod (w : Z) (xs : list Z) :
  0 < w -> Forall (in_range w) xs ->
  number_of w xs 0 mod 2 ^ (w * Z.of_nat (List.length xs)) = number_of w xs 0.
Proof.
  intros Hw Hxs.
  rewrite <- (digits_number_of w xs 0 Hw Hxs) at 3.
  rewrite number_of_digits by assumption. lia.
Qed.

Lemma toWords_20 (bytes : Buffer) :
  List.length bytes = 20%nat ->
  toWords bytes = digits 5 32 (number_of 8 (map byte_to_Z bytes) 0).
Proof.
  intros Hlen. destruct (toWords_spec bytes) as (k & pad & -> & Hk & Hpad).
  rewrite Hlen in Hk. assert (pad = 0) as -> by lia. assert (k = 32%nat) as -> by lia.
  now rewrite Z.mul_1_r.
Qed.

Lemma fromWords_toWords_20 (bytes : Buffer) :
  List.length bytes = 20%nat ->
  fromWords (toWords bytes) = Return (map byte_to_Z bytes).
Proof.
  intros Hlen. pose proof (bytes_in_range bytes) as Hrange.
  pose proof (number_of_mod 8 _ ltac:(lia) Hrange) as Hmod.
  rewrite length_map, Hlen in Hmod.
  rewrite (toWords_20 bytes Hlen).
  destruct (fromWords_spec (digits 5 32 (number_of 8 (map byte_to_Z bytes) 0)))
    as (k & bits & Hk & Hbits & ->); [apply digits_in_range; lia|].
  rewrite digits_length in Hk.
  assert (bits = 0) as -> by lia. assert (k = 20%nat) as -> by lia.
  rewrite number_of_digits by lia. rewrite Z.mul_0_l, Z.add_0_l.
  change (5 * Z.of_nat 32) with (8 * Z.of_nat 20). rewrite Hmod.
  change (0 >=? 5) with false. cbv iota.
  change (8 - 0) with 8. rewrite Z.mod_mul by lia. change (0 =? 0) with true.
  cbn [negb]. change (2 ^ 0) with 1. rewrite Z.div_1_r.
  f_equal. rewrite <- Hlen, <- (length_map byte_to_Z bytes).
  apply digits_number_of; [lia|assumption].
Qed.

Lemma toWords_fromWords_20 (words numbers : list Z) :
  Forall (in_range 5) words ->
  fromWords words = Return numbers ->
  List.length numbers = 20%nat ->
  toWords (Buffer_from_array numbers) = words.
Proof.
  intros Hwords Hfrom Hlen.
  destruct (fromWords_spec words Hwords) as (k & bits & Hk & Hbits & Heq).
  rewrite Hfrom in Heq.
  destruct (Z.geb_spec bits 5) as [|Hlt]; [discriminate|].
  destruct (negb _); [discriminate|]. injection Heq as ->.
  rewrite digits_length in Hlen. subst k.
  assert (bits = 0) as -> by lia.
  assert (Hn : List.length words = 32%nat) by lia.
  change (2 ^ 0) with 1. rewrite Z.div_1_r.
  pose proof (number_of_mod 5 words ltac:(lia) Hwords) as Hmod. rewrite Hn in Hmod.
  rewrite toWords_20 by (now rewrite Buffer_from_array_length, digits_length).
  rewrite bytes_of_Buffer_from_array by (apply digits_in_range; lia).
  rewrite number_of_digits by lia. rewrite Z.mul_0_l, Z.add_0_l.
  change (8 * Z.of_nat 20) with (5 * Z.of_nat 32). rewrite Hmod.
  rewrite <- Hn. apply digits_number_of; [lia|assumption].
Qed.

(** ** The text [encode] gives, and its decoding *)

Lemma bbChecksum_spec (words : list Z) :
  Forall (in_range 5) (bbChecksum words)
  /\ List.length (bbChecksum words) = 6%nat
  /\ polymod bbChk (words ++ bbChecksum words) = ENCODING_CONST.
Proof.
  unfold bbChecksum. split; [apply digits_in_range; lia|]. split; [apply digits_length|].
  rewrite polymod_app. apply checksum_verifies.
Qed.

Lemma startsWith_append (p tail : string) : String_startsWith (p ++ tail) p = true.
Proof.
  induction p as [|a p IH]; [reflexivity|].
  cbn [String.append String_startsWith]. now rewrite Ascii.eqb_refl.
Qed.

Lemma Return_inj {A : Type} (a b : A) : Return a = Return b -> a = b.
Proof. now intros [= ->]. Qed.

Lemma bech32_decode_encode_bb (words : list Z) (text : string) :
  Forall (in_range 5) words ->
  (List.length words <= 81)%nat ->
  bech32_encode "bb" words = Return text ->
  String_startsWith text "bb1" = true /\ bech32_decode text = Return ("bb", words).
Proof.
  intros Hwords Hlen. rewrite bech32_encode_bb by assumption.
  intros H. apply Return_inj in H. subst text.
  destruct (bbChecksum_spec words) as (Hcs & Hsix & Hone).
  split; [exact (startsWith_append "bb1" _)|].
  exact (bech32_decode_bb words (bbChecksum words) Hwords Hcs Hlen Hsix Hone).
Qed.

Lemma bech32_encode_decode_bb (text : string) (words : list Z) :
  String_startsWith text "bb1" = true ->
  bech32_decode text = Return ("bb", words) ->
  bech32_encode "bb" words = Return text.
Proof.
  intros Hbb Hdec.
  destruct (bech32_decode_bb_inv text words Hbb Hdec)
    as (cs & -> & Hwords & Hcs & Hsix & Hlen & Hone).
  rewrite bech32_encode_bb by assumption.
  rewrite polymod_app in Hone.
  rewrite (checksum_unique _ cs Hsix Hcs Hone). reflexivity.
Qed.

End RoundTripFacts.

Section ConversionFacts.
Local Open Scope string_scope.
Local Open Scope list_scope.

Lemma String_slice_prefix (p tail : string) :
  String_slice (String.length p) (p ++ tail) = tail.
Proof. apply String_slice_append. Qed.

Lemma toWords_20_length (bytes : Buffer) :
  List.length bytes = 20 -> List.length (toWords bytes) = 32.
Proof. intros H. rewrite toWords_20 by assumption. apply digits_length. Qed.

(** [ethToCosmos] on well-formed input: the encoding of the 20 bytes. *)
Lemma ethToCosmos_spec (hex : string) :
  String.length hex = 40 -> isHex hex = true ->
  ethToCosmos ("0x" ++ hex) = bech32_encode "bb" (toWords (Buffer_from_hex hex)).
Proof.
  intros Hlen Hhex. unfold ethToCosmos.
  rewrite (startsWith_append "0x" hex). cbn [negb].
  change (String_slice 2 ("0x" ++ hex)) with hex.
  now rewrite Hlen, Hhex.
Qed.

Lemma isHex_all_hex (hex : string) : isHex hex = true -> all_hex hex = true.
Proof. destruct hex; [discriminate|trivial]. Qed.

(** C6 (amended).  A 0x text with 40 hex digits converts to a [bb1]
    text that converts back to the same text in lower case.  A text
    that starts with lower-case [bb1], decodes with the prefix [bb] and
    has a 20-byte payload converts to a 0x text that converts back to
    exactly the same text. *)
Theorem address_conversion_round_trip :
  (forall ethAddress : string,
      String_startsWith ethAddress "0x" = true ->
      String.length (String_slice 2 ethAddress) = 40 ->
      isHex (String_slice 2 ethAddress) = true ->
      exists cosmosAddress,
        ethToCosmos ethAddress = Return cosmosAddress
        /\ cosmosToEth cosmosAddress = Return (String_toLowerCase ethAddress))
  /\ (forall (cosmosAddress : string) (words numbers : list Z),
         String_startsWith cosmosAddress "bb1" = true ->
         bech32_decode cosmosAddress = Return ("bb", words) ->
         fromWords words = Return numbers ->
         List.length numbers = 20 ->
         exists ethAddress,
           cosmosToEth cosmosAddress = Return ethAddress
           /\ ethToCosmos ethAddress = Return cosmosAddress).
Proof.
  split.
  - intros ethAddress H0x Hlen Hhex.
    destruct (startsWith_spec _ _ H0x) as (hex & ->).
    change (String_slice 2 ("0x" ++ hex)) with hex in *.
    destruct (Buffer_toString_from_hex 20 hex Hlen (isHex_all_hex _ Hhex)) as [Hback Hbytes].
    set (bytes := Buffer_from_hex hex) in *.
    pose proof (toWords_in_range bytes) as Hrange.
    pose proof (toWords_20_length bytes Hbytes) as Hwords.
    rewrite (ethToCosmos_spec hex Hlen Hhex). fold bytes.
    rewrite bech32_encode_bb by (try assumption; lia).
    eexists. split; [reflexivity|].
    destruct (bech32_decode_encode_bb (toWords bytes) _ Hrange ltac:(lia)
                (bech32_encode_bb _ Hrange ltac:(lia))) as [Hbb Hdec].
    rewrite (cosmosToEth_bb1 _ Hbb), Hdec, (fromWords_toWords_20 bytes Hbytes).
    rewrite length_map, Hbytes, Nat.eqb_refl, Buffer_from_array_bytes, Hback.
    reflexivity.
  - intros cosmosAddress words numbers Hbb Hdec Hfrom Hlen.
    rewrite (cosmosToEth_bb1 _ Hbb), Hdec, Hfrom, Hlen, Nat.eqb_refl.
    eexists. split; [reflexivity|].
    destruct (bech32_decode_bb_inv _ _ Hbb Hdec) as (cs & _ & Hwords & _).
    rewrite ethToCosmos_spec.
    + rewrite Buffer_from_hex_toString, (toWords_fromWords_20 words numbers Hwords Hfrom Hlen).
      now apply bech32_encode_decode_bb.
    + now rewrite Buffer_toString_hex_length, Buffer_from_array_length, Hlen.
    + pose proof (Buffer_toString_hex_all_hex (Buffer_from_array numbers)) as Hall.
      pose proof (Buffer_toString_hex_length (Buffer_from_array numbers)) as Hl.
      rewrite Buffer_from_array_length, Hlen in Hl.
      destruct (Buffer_toString_hex (Buffer_from_array numbers)); [discriminate Hl|exact Hall].
Qed.

End ConversionFacts.

Section RegistryFacts.
Local Open Scope string_scope.
Local Open Scope list_scope.

(* ================================================================== *)
(** * Properties of the address derivation *)
(* ================================================================== *)

(** [Module] on two keys: a seed digest and one [Derive] step. *)
Lemma Module_two_keys (moduleName : string) (key0 key1 : Buffer) :
  Module_ moduleName [key0; key1]
  = Return (Buffer_toString_hex
              (SHA256 (SHA256 (SHA256 (SHA256 (Buffer_from_utf8 "module")
                                         ++ Buffer_from_utf8 moduleName ++ [Byte.x00] ++ key0))
                         ++ key1))).
Proof.
  unfold Module_. cbn [fold_left]. unfold Derive, Hash.
  rewrite Buffer_from_hex_toString, <- app_assoc. reflexivity.
Qed.

(** Encoding a digest never fails: 32 bytes are 52 words. *)
Lemma bech32_encode_digest (msg : list Byte.byte) :
  exists text, bech32_encode "bb" (toWords (SHA256 msg)) = Return text.
Proof.
  eexists. apply bech32_encode_bb; [apply toWords_in_range|].
  pose proof (toWords_length (SHA256 msg)) as H. rewrite SHA256_length in H. lia.
Qed.

(** C1 (amended).  The derivation of the alias of an IBC denomination
    uses two derivation keys, the tag byte [0x12] alone and the UTF-8
    bytes of the denomination: the seed digest is taken over the module
    name, a zero byte and the tag, and one [Derive] step hashes the seed
    digest with the denomination.  The result has 32 bytes and is what
    the address encodes. *)
Theorem ibc_alias_derivation (ibcDenom : string) :
  getAliasDerivationKeysForIBCBackedDenom ibcDenom
  = [[Byte.x12]; Buffer_from_utf8 ibcDenom]
  /\ Module_ "tokenization" (getAliasDerivationKeysForIBCBackedDenom ibcDenom)
     = Return (Buffer_toString_hex (ibcDenomDigest ibcDenom))
  /\ List.length (ibcDenomDigest ibcDenom) = 32
  /\ generateAliasAddressForIBCBackedDenom ibcDenom
     = bech32_encode "bb" (toWords (ibcDenomDigest ibcDenom)).
Proof.
  assert (Hkeys : getAliasDerivationKeysForIBCBackedDenom ibcDenom
                  = [[Byte.x12]; Buffer_from_utf8 ibcDenom]) by reflexivity.
  assert (Hmodule : Module_ "tokenization" (getAliasDerivationKeysForIBCBackedDenom ibcDenom)
                    = Return (Buffer_toString_hex (ibcDenomDigest ibcDenom))).
  { rewrite Hkeys, Module_two_keys. reflexivity. }
  split; [exact Hkeys|]. split; [exact Hmodule|]. split; [apply SHA256_length|].
  unfold generateAliasAddressForIBCBackedDenom, generateAlias.
  rewrite Hmodule, Buffer_from_hex_toString. reflexivity.
Qed.

(** The derivation returns an address for every denomination. *)
Lemma generateAliasAddressForIBCBackedDenom_returns (ibcDenom : string) :
  exists backingAddress,
    generateAliasAddressForIBCBackedDenom ibcDenom = Return backingAddress.
Proof.
  unfold generateAliasAddressForIBCBackedDenom, generateAlias.
  replace (getAliasDerivationKeysForIBCBackedDenom ibcDenom)
    with [[Byte.x12]; Buffer_from_utf8 ibcDenom] by reflexivity.
  rewrite Module_two_keys, Buffer_from_hex_toString.
  apply bech32_encode_digest.
Qed.

(* ================================================================== *)
(** * Properties of the coin registry *)
(* ================================================================== *)

(** The table the first call builds: the three IBC coins of the
    registry, with their backing addresses. *)
Lemma seededTokenMap_value :
  seededTokenMap =
  [ ("USDC",
     mkToken "USDC" "ibc/F082B65C88E4B6D5EF1DB243CDA1D331D002759E938A0F5CD3FFDC5D53B3E349"
       "6" "bb1a7m8394e8u98w8uwle49dds8caexmcvqwgcadtp264gvt28uygmsdlgm0a" "USDC");
    ("ATOM",
     mkToken "ATOM" "ibc/A4DB47A9D3CF9A068D454513891B526702455D3EF08FB9EB558C561F9DC2B701"
       "6" "bb146hj5s6rf3f8e09cvdxs8uqz3auvlmeghwf8phtmj3pjtj49ndcs3rfdup" "ATOM");
    ("OSMO",
     mkToken "OSMO" "ibc/ED07A3391A112B175915CD8FAF43A2DA8E4790EDE12566649D0C2F97716B8518"
       "6" "bb1vj2xkrnghkc6t9ac6gcardw60zdedctcpjepwh3m5rl9htk2kh6q7xkf3z" "OSMO") ].
Proof. vm_compute. reflexivity. Qed.

Lemma buildSymbolToTokenInfoMap_reachable (cache : Cache) :
  cache_reachable cache ->
  buildSymbolToTokenInfoMap cache = (seededTokenMap, Some seededTokenMap).
Proof.
  intros [-> | ->];
    cbv beta iota zeta delta [buildSymbolToTokenInfoMap seededTokenMap]; reflexivity.
Qed.

(** Every lookup leaves the cache holding the seeded table. *)
Lemma lookupTokenInfo_cache (query : string) (cache : Cache) :
  cache_reachable cache -> snd (lookupTokenInfo query cache) = Some seededTokenMap.
Proof.
  intros Hcache. unfold lookupTokenInfo.
  rewrite (buildSymbolToTokenInfoMap_reachable cache Hcache).
  destruct (Map_has _ _); [reflexivity|].
  destruct (find _ _); [reflexivity|].
  destruct (String_startsWith query "ibc/"); [|reflexivity].
  destruct (generateAliasAddressForIBCBackedDenom query); reflexivity.
Qed.

Lemma find_none_of_forall {A : Type} (f : A -> bool) (l : list A) :
  (forall x, In x l -> f x = false) -> find f l = None.
Proof.
  induction l as [|a l IH]; intros H; [reflexivity|].
  cbn [find]. rewrite (H a) by now left. apply IH. intros x Hx. apply H. now right.
Qed.

(** C8.  A query that matches no seeded symbol and no seeded
    denomination but starts with [ibc/] gets a synthetic descriptor:
    symbol [UNKNOWN], six decimals, the label [Unknown IBC Token] and
    the backing address the deriver computes for it.  The cache then
    holds the seeded table and nothing else, as after every lookup. *)
Theorem lookupTokenInfo_unknown_ibc (query : string) (cache : Cache) :
  cache_reachable cache ->
  Map_has seededTokenMap (String_toUpperCase query) = false ->
  (forall tokenInfo,
      In tokenInfo (Map_values seededTokenMap) ->
      String.eqb (String_toLowerCase (ibcDenom tokenInfo)) (String_toLowerCase query) = false) ->
  String_startsWith query "ibc/" = true ->
  exists backingAddress,
    generateAliasAddressForIBCBackedDenom query = Return backingAddress
    /\ lookupTokenInfo query cache
       = (Some (mkToken "UNKNOWN" query "6" backingAddress "Unknown IBC Token"),
          Some seededTokenMap)
    /\ (forall m, cache = Some m -> snd (lookupTokenInfo query cache) = cache)
    /\ (forall other, snd (lookupTokenInfo other cache) = Some seededTokenMap)
    /\ map fst seededTokenMap = ["USDC"; "ATOM"; "OSMO"].
Proof.
  intros Hcache Hsym Hdenom Hibc.
  destruct (generateAliasAddressForIBCBackedDenom_returns query) as (backingAddress & Hgen).
  exists backingAddress. split; [exact Hgen|].
  assert (Hlookup : lookupTokenInfo query cache
                    = (Some (mkToken "UNKNOWN" query "6" backingAddress "Unknown IBC Token"),
                       Some seededTokenMap)).
  { unfold lookupTokenInfo. rewrite (buildSymbolToTokenInfoMap_reachable cache Hcache).
    rewrite Hsym, (find_none_of_forall _ _ Hdenom), Hibc, Hgen. reflexivity. }
  split; [exact Hlookup|]. split; [|split].
  - intros m ->. rewrite Hlookup. destruct Hcache as [Hc|Hc]; [discriminate Hc|].
    rewrite Hc. reflexivity.
  - intros other. apply lookupTokenInfo_cache. exact Hcache.
  - rewrite seededTokenMap_value. reflexivity.
Qed.

End RegistryFacts.

(* ================================================================== *)
(** * More properties of the word conversion *)
(* ================================================================== *)

Section WordRoundTrip.
Local Open Scope Z_scope.

(** Bytes to words and back, for a buffer of any length. *)
Lemma fromWords_toWords (bytes : Buffer) :
  fromWords (toWords bytes) = Return (map byte_to_Z bytes).
Proof.
  pose proof (bytes_in_range bytes) as Hrange.
  pose proof (number_of_mod 8 _ ltac:(lia) Hrange) as Hmod.
  pose proof (number_of_nonneg 8 (map byte_to_Z bytes) 0 ltac:(lia) ltac:(lia) Hrange) as Hpos.
  rewrite length_map in Hmod.
  set (V := number_of 8 (map byte_to_Z bytes) 0) in *.
  set (n := List.length bytes) in *.
  assert (HV : V < 2 ^ (8 * Z.of_nat n)).
  { rewrite <- Hmod. apply Z.mod_pos_bound. apply Z.pow_pos_nonneg; lia. }
  destruct (toWords_spec bytes) as (k & pad & Hto & Hk & Hpad).
  fold V in Hto. fold n in Hk. rewrite Hto.
  destruct (fromWords_spec (digits 5 k (V * 2 ^ pad)))
    as (k' & bits & Hk' & Hbits & ->); [apply digits_in_range; lia|].
  rewrite digits_length in Hk'.
  assert (bits = pad) as -> by lia. assert (k' = n) as -> by lia.
  rewrite number_of_digits by lia. rewrite Z.mul_0_l, Z.add_0_l.
  assert (Hsmall : (V * 2 ^ pad) mod 2 ^ (5 * Z.of_nat k) = V * 2 ^ pad).
  { apply Z.mod_small. split; [apply Z.mul_nonneg_nonneg; [lia|apply Z.pow_nonneg; lia]|].
    rewrite Hk, Z.pow_add_r by lia.
    apply Z.mul_lt_mono_pos_r; [apply Z.pow_pos_nonneg; lia|assumption]. }
  rewrite Hsmall.
  destruct (Z.geb_spec pad 5) as [|_]; [lia|].
  rewrite <- Z.mul_assoc, <- Z.pow_add_r by lia.
  replace (pad + (8 - pad)) with 8 by lia.
  rewrite Z.mod_mul by lia. change (0 =? 0) with true. cbn [negb].
  rewrite Z.div_mul by (apply Z.pow_nonzero; lia).
  f_equal. unfold n. rewrite <- (length_map byte_to_Z bytes).
  apply digits_number_of; [lia|assumption].
Qed.

Lemma toWords_32_length (bytes : Buffer) :
  List.length bytes = 32%nat -> List.length (toWords bytes) = 52%nat.
Proof.
  intros Hlen. destruct (toWords_spec bytes) as (k & pad & -> & Hk & Hpad).
  rewrite digits_length. lia.
Qed.

End WordRoundTrip.

(* ================================================================== *)
(** * Properties of the string helpers *)
(* ================================================================== *)

Lemma is_hex_char_code_units (c : ascii) : is_hex_char c = true -> code_units c = 1.
Proof.
  destruct c as [[] [] [] [] [] [] [] []]; try discriminate; reflexivity.
Qed.

(** On hex digits, which are ASCII, [length] counts the bytes. *)
Lemma all_hex_String_length (s : string) :
  all_hex s = true -> String_length s = String.length s.
Proof.
  induction s as [|c s IH]; [reflexivity|].
  cbn [all_hex String_length String.length]. intros [Hc Hs]%andb_prop.
  now rewrite (is_hex_char_code_units c Hc), IH.
Qed.

Lemma hex_digit_value_lower (c : ascii) :
  hex_digit_value (lower_char c) = hex_digit_value c.
Proof. destruct c as [[] [] [] [] [] [] [] []]; reflexivity. Qed.

(** Hex decoding does not look at letter case. *)
Lemma Buffer_from_hex_lower (s : string) :
  Buffer_from_hex (String_toLowerCase s) = Buffer_from_hex s.
Proof.
  assert (H : forall n s, String.length s <= n ->
                          Buffer_from_hex (String_toLowerCase s) = Buffer_from_hex s).
  { clear s. induction n as [|n IH]; intros s Hlen.
    - destruct s; [reflexivity|cbn in Hlen; lia].
    - destruct s as [|a [|b rest]]; [reflexivity|reflexivity|].
      cbn [String_toLowerCase String_map Buffer_from_hex].
      rewrite !hex_digit_value_lower.
      destruct (hex_digit_value a), (hex_digit_value b); try reflexivity.
      f_equal. apply IH. cbn in Hlen. lia. }
  apply (H (String.length s)). lia.
Qed.

(** Hex decoding gives at most one byte per two code units. *)
Lemma Buffer_from_hex_length (s : string) :
  2 * List.length (Buffer_from_hex s) <= String_length s.
Proof.
  assert (H : forall n s, String.length s <= n ->
                          2 * List.length (Buffer_from_hex s) <= String_length s).
  { clear s. induction n as [|n IH]; intros s Hlen.
    - destruct s; [cbn; lia|cbn in Hlen; lia].
    - destruct s as [|a [|b rest]]; [cbn; lia|cbn; lia|].
      cbn [Buffer_from_hex].
      destruct (hex_digit_value a) eqn:Ha; [|cbn [List.length]; lia].
      destruct (hex_digit_value b) eqn:Hb; [|cbn [List.length]; lia].
      cbn [List.length String_length].
      rewrite (is_hex_char_code_units a) by (unfold is_hex_char; now rewrite Ha).
      rewrite (is_hex_char_code_units b) by (unfold is_hex_char; now rewrite Hb).
      specialize (IH rest). cbn in Hlen. lia. }
  apply (H (String.length s)). lia.
Qed.

(** A text that starts with one of the letters of an address prefix is
    not blank. *)
Lemma trim_not_empty (c : ascii) (rest : string) :
  is_space_char c = false -> (N_of_ascii c < 128)%N ->
  String.eqb (String_trim (String c rest)) EmptyString = false.
Proof.
  intros Hspace Hascii.
  assert (Hstart : String_trimStart (String c rest) = String c rest).
  { cbn [String_trimStart]. rewrite Hspace.
    destruct rest as [|c2 [|c3 rest3]]; [reflexivity| |].
    - destruct (N.eqb_spec (N_of_ascii c) 194); [lia|reflexivity].
    - destruct (N.eqb_spec (N_of_ascii c) 194); [lia|]. cbn [andb].
      destruct (N.eqb_spec (N_of_ascii c) 225); [lia|].
      destruct (N.eqb_spec (N_of_ascii c) 226); [lia|].
      destruct (N.eqb_spec (N_of_ascii c) 227); [lia|].
      destruct (N.eqb_spec (N_of_ascii c) 239); [lia|]. reflexivity. }
  unfold String_trim. rewrite Hstart. cbn [String_trimEnd]. rewrite Hstart. reflexivity.
Qed.

Lemma startsWith_trim_not_empty (s p : string) (c : ascii) (p' : string) :
  p = String c p' -> is_space_char c = false -> (N_of_ascii c < 128)%N ->
  String_startsWith s p = true ->
  String.eqb s EmptyString = false /\ String.eqb (String_trim s) EmptyString = false.
Proof.
  intros -> Hspace Hascii Hstarts.
  destruct s as [|d rest]; [discriminate|].
  cbn [String_startsWith] in Hstarts. apply andb_prop in Hstarts as [Hc _].
  apply Ascii.eqb_eq in Hc. subst d. split; [reflexivity|now apply trim_not_empty].
Qed.

Lemma upper_lower (s : string) :
  String_toUpperCase (String_toLowerCase s) = String_toUpperCase s.
Proof.
  induction s as [|c s IH]; [reflexivity|].
  cbn [String_toUpperCase String_toLowerCase String_map] in *. f_equal; [|exact IH].
  destruct c as [[] [] [] [] [] [] [] []]; reflexivity.
Qed.

Lemma lower_upper (s : string) :
  String_toLowerCase (String_toUpperCase s) = String_toLowerCase s.
Proof.
  induction s as [|c s IH]; [reflexivity|].
  cbn [String_toUpperCase String_toLowerCase String_map] in *. f_equal; [|exact IH].
  destruct c as [[] [] [] [] [] [] [] []]; reflexivity.
Qed.

Lemma lower_lower (s : string) :
  String_toLowerCase (String_toLowerCase s) = String_toLowerCase s.
Proof.
  induction s as [|c s IH]; [reflexivity|].
  cbn [String_toLowerCase String_map] in *. f_equal; [|exact IH].
  destruct c as [[] [] [] [] [] [] [] []]; reflexivity.
Qed.

(* ================================================================== *)
(** * The address of a payload *)
(* ================================================================== *)


Lemma payload_words (bytes : Buffer) :
  List.length bytes <= 50 -> List.length (toWords bytes) <= 81.
Proof. intros Hlen. pose proof (toWords_length bytes). lia. Qed.

Lemma lower_append (a b : string) :
  String_toLowerCase (a ++ b) = (String_toLowerCase a ++ String_toLowerCase b)%string.
Proof. exact (String_map_append lower_char a b). Qed.

Lemma payloadAddress_lower (bytes : Buffer) :
  String_toLowerCase (payloadAddress bytes) = payloadAddress bytes.
Proof.
  destruct (bbChecksum_spec (toWords bytes)) as (Hcs & _).
  unfold payloadAddress. rewrite !lower_append.
  rewrite (charsOf_lower (toWords bytes) (toWords_in_range bytes)).
  rewrite (charsOf_lower _ Hcs).
  change (String_toLowerCase "bb1") with "bb1". reflexivity.
Qed.

Lemma payloadAddress_encode (bytes : Buffer) :
  List.length bytes <= 50 ->
  bech32_encode "bb" (toWords bytes) = Return (payloadAddress bytes).
Proof.
  intros Hlen. apply bech32_encode_bb; [apply toWords_in_range|now apply payload_words].
Qed.

Lemma payloadAddress_facts (bytes : Buffer) :
  List.length bytes <= 50 ->
  String_startsWith (payloadAddress bytes) "bb1" = true
  /\ String.length (payloadAddress bytes) = 9 + List.length (toWords bytes)
  /\ bech32_decode (payloadAddress bytes) = Return ("bb", toWords bytes)
  /\ fromWords (toWords bytes) = Return (map byte_to_Z bytes).
Proof.
  intros Hlen. pose proof (toWords_in_range bytes) as Hrange.
  pose proof (payload_words bytes Hlen) as Hwords.
  destruct (bbChecksum_spec (toWords bytes)) as (Hcs & Hcslen & Hpoly).
  split; [exact (startsWith_append "bb1" _)|]. split.
  - unfold payloadAddress. rewrite !length_append, !charsOf_length by assumption.
    rewrite Hcslen. cbn [String.length]. lia.
  - split; [|apply fromWords_toWords].
    apply bech32_decode_bb; assumption.
Qed.

Lemma digestAddress_facts (digest : Buffer) :
  List.length digest = 32 ->
  String_startsWith (payloadAddress digest) "bb1" = true
  /\ String.length (payloadAddress digest) = 61
  /\ bech32_decode (payloadAddress digest) = Return ("bb", toWords digest)
  /\ fromWords (toWords digest) = Return (map byte_to_Z digest).
Proof.
  intros Hlen.
  destruct (payloadAddress_facts digest) as (H1 & H2 & H3 & H4); [lia|].
  rewrite (toWords_32_length digest Hlen) in H2. repeat split; assumption.
Qed.

(** [Derive] keeps the shape of the address: the hex form of a digest. *)
Lemma fold_Derive (others : list Buffer) (digest : Buffer) :
  List.length digest = 32 ->
  exists digest',
    List.length digest' = 32
    /\ fold_left Derive others (Buffer_toString_hex digest) = Buffer_toString_hex digest'.
Proof.
  revert digest. induction others as [|key others IH]; intros digest Hlen.
  - exists digest. now split.
  - cbn [fold_left]. unfold Derive at 2, Hash. rewrite Buffer_from_hex_toString.
    apply IH. apply SHA256_length.
Qed.

Lemma Module_digest (moduleName : string) (key0 : Buffer) (others : list Buffer) :
  exists digest,
    List.length digest = 32
    /\ Module_ moduleName (key0 :: others) = Return (Buffer_toString_hex digest).
Proof.
  unfold Module_, Hash.
  destruct (fold_Derive others
              (SHA256 (SHA256 (Buffer_from_utf8 "module")
                         ++ (Buffer_from_utf8 moduleName ++ [Byte.x00]) ++ key0)))
    as (digest & Hlen & Heq); [apply SHA256_length|].
  exists digest. split; [exact Hlen|]. now rewrite Heq.
Qed.

Lemma generateAlias_digest (moduleName : string) (key0 : Buffer) (others : list Buffer) :
  exists digest,
    List.length digest = 32
    /\ Module_ moduleName (key0 :: others) = Return (Buffer_toString_hex digest)
    /\ generateAlias moduleName (key0 :: others) = Return (payloadAddress digest).
Proof.
  destruct (Module_digest moduleName key0 others) as (digest & Hlen & Hmodule).
  exists digest. split; [exact Hlen|]. split; [exact Hmodule|].
  unfold generateAlias. rewrite Hmodule, Buffer_from_hex_toString.
  apply payloadAddress_encode. lia.
Qed.

(* ================================================================== *)
(** * Properties of module addresses *)
(* ================================================================== *)

Lemma generateAlias_inv (moduleName : string) (key0 : Buffer) (others : list Buffer)
      (address : string) :
  generateAlias moduleName (key0 :: others) = Return address ->
  exists digest,
    List.length digest = 32
    /\ Module_ moduleName (key0 :: others) = Return (Buffer_toString_hex digest)
    /\ address = payloadAddress digest.
Proof.
  intros Hgen.
  destruct (generateAlias_digest moduleName key0 others) as (digest & Hlen & Hmodule & Heq).
  rewrite Heq in Hgen. apply Return_inj in Hgen.
  exists digest. split; [exact Hlen|]. split; [exact Hmodule|]. symmetry. exact Hgen.
Qed.

(** X1.  Without a derivation key [generateAlias] throws.  With one or
    more it returns an address of 61 characters that starts with [bb1];
    decoding the address gives back the prefix [bb] and the 32 bytes of
    the digest whose hex form [Module] returns. *)
Theorem generateAlias_address (moduleName : string) :
  generateAlias moduleName [] = Throw "derivationKeys must not be empty"
  /\ forall (key0 : Buffer) (others : list Buffer),
      exists digest address,
        List.length digest = 32
        /\ Module_ moduleName (key0 :: others) = Return (Buffer_toString_hex digest)
        /\ generateAlias moduleName (key0 :: others) = Return address
        /\ String_startsWith address "bb1" = true
        /\ String.length address = 61
        /\ bech32_decode address = Return ("bb", toWords digest)
        /\ fromWords (toWords digest) = Return (map byte_to_Z digest).
Proof.
  split; [reflexivity|]. intros key0 others.
  destruct (generateAlias_digest moduleName key0 others) as (digest & Hlen & Hmodule & Hgen).
  destruct (digestAddress_facts digest Hlen) as (Hbb & Hlength & Hdecode & Hfrom).
  exists digest, (payloadAddress digest).
  split; [exact Hlen|]. split; [exact Hmodule|]. split; [exact Hgen|].
  split; [exact Hbb|]. split; [exact Hlength|]. split; [exact Hdecode|exact Hfrom].
Qed.

(** X2.  A module address has no 0x form: [cosmosToEth] and
    [toEthAddress] throw the 20-byte error on every address
    [generateAlias] returns, and [validateAddress] reports it as a valid,
    module-derived address that is its own normal form. *)
Theorem module_address_has_no_eth_form
        (moduleName : string) (key0 : Buffer) (others : list Buffer) (address : string) :
  generateAlias moduleName (key0 :: others) = Return address ->
  cosmosToEth address
  = Throw "Address is not a standard 20-byte address (may be a module-derived address)"
  /\ toEthAddress address
     = Throw "Address is not a standard 20-byte address (may be a module-derived address)"
  /\ validateAddress address = mkAddressValidation true ChainCosmos address true None.
Proof.
  intros Hgen.
  destruct (generateAlias_inv _ _ _ _ Hgen) as (digest & Hlen & _ & ->).
  destruct (digestAddress_facts digest Hlen) as (Hbb & _ & Hdecode & Hfrom).
  assert (Hcosmos : cosmosToEth (payloadAddress digest)
                    = Throw "Address is not a standard 20-byte address (may be a module-derived address)").
  { rewrite (cosmosToEth_bb1 _ Hbb), Hdecode, Hfrom, length_map, Hlen. reflexivity. }
  split; [exact Hcosmos|]. split.
  - unfold toEthAddress. change (BITBADGES_PREFIX ++ "1")%string with "bb1".
    rewrite (startsWith_bb1_not_0x _ Hbb), Hbb. exact Hcosmos.
  - unfold validateAddress. change (BITBADGES_PREFIX ++ "1")%string with "bb1".
    rewrite (startsWith_bb1_not_0x _ Hbb), Hbb, Hdecode, Hfrom.
    rewrite Buffer_from_array_length, length_map, Hlen, payloadAddress_lower. reflexivity.
Qed.

(** X3.  The alias of a wrapper denomination is derived like the alias
    of an IBC denomination, with the tag byte [0x0c]: two keys, a seed
    digest over the module name, a zero byte and the tag, one [Derive]
    step over the denomination, and the address of that digest. *)
Theorem denom_alias_derivation (denom : string) :
  let seed := SHA256 (SHA256 (Buffer_from_utf8 "module")
                        ++ Buffer_from_utf8 "tokenization" ++ [Byte.x00] ++ [Byte.x0c]) in
  let digest := SHA256 (SHA256 seed ++ Buffer_from_utf8 denom) in
  getAliasDerivationKeysForDenom denom = [[Byte.x0c]; Buffer_from_utf8 denom]
  /\ Module_ "tokenization" (getAliasDerivationKeysForDenom denom)
     = Return (Buffer_toString_hex digest)
  /\ exists address,
      generateAliasAddressForDenom denom = Return address
      /\ bech32_decode address = Return ("bb", toWords digest)
      /\ fromWords (toWords digest) = Return (map byte_to_Z digest).
Proof.
  intros seed digest.
  assert (Hkeys : getAliasDerivationKeysForDenom denom
                  = [[Byte.x0c]; Buffer_from_utf8 denom]) by reflexivity.
  assert (Hmodule : Module_ "tokenization" (getAliasDerivationKeysForDenom denom)
                    = Return (Buffer_toString_hex digest)).
  { rewrite Hkeys, Module_two_keys. reflexivity. }
  assert (Hlen : List.length digest = 32) by apply SHA256_length.
  destruct (digestAddress_facts digest Hlen) as (_ & _ & Hdecode & Hfrom).
  split; [exact Hkeys|]. split; [exact Hmodule|].
  exists (payloadAddress digest). split; [|split; [exact Hdecode|exact Hfrom]].
  unfold generateAliasAddressForDenom, generateAlias.
  rewrite Hmodule, Buffer_from_hex_toString. apply payloadAddress_encode. lia.
Qed.

(* ================================================================== *)
(** * Properties of the address utilities *)
(* ================================================================== *)

Lemma slice_0x (tail : string) : String_slice 2 ("0x" ++ tail) = tail.
Proof. reflexivity. Qed.

(** What [ethToCosmos] returns on 40 hex digits. *)
Lemma ethToCosmos_returns (hex : string) :
  String.length hex = 40 -> isHex hex = true ->
  List.length (Buffer_from_hex hex) = 20
  /\ Buffer_toString_hex (Buffer_from_hex hex) = String_toLowerCase hex
  /\ ethToCosmos ("0x" ++ hex) = Return (payloadAddress (Buffer_from_hex hex)).
Proof.
  intros Hlen Hhex.
  destruct (Buffer_toString_from_hex 20 hex Hlen (isHex_all_hex hex Hhex)) as (Hstr & Hbytes).
  split; [exact Hbytes|]. split; [exact Hstr|].
  rewrite (ethToCosmos_spec hex Hlen Hhex). apply payloadAddress_encode. lia.
Qed.

(** When [ethToCosmos] returns, its argument is [0x] and 40 hex
    digits. *)
Lemma ethToCosmos_inv (ethAddress result : string) :
  ethToCosmos ethAddress = Return result ->
  exists hex,
    ethAddress = ("0x" ++ hex)%string
    /\ String.length hex = 40 /\ isHex hex = true
    /\ result = payloadAddress (Buffer_from_hex hex).
Proof.
  intros Heq. pose proof Heq as Heq'. unfold ethToCosmos in Heq'.
  destruct (String_startsWith ethAddress "0x") eqn:H0x; [|discriminate].
  destruct (startsWith_spec _ _ H0x) as (hex & ->).
  cbn [negb] in Heq'. rewrite slice_0x in Heq'.
  destruct (Nat.eqb_spec (String.length hex) 40) as [Hlen|]; [|discriminate].
  destruct (isHex hex) eqn:Hhex; [|discriminate]. clear Heq'.
  exists hex. split; [reflexivity|]. split; [exact Hlen|]. split; [exact Hhex|].
  destruct (ethToCosmos_returns hex Hlen Hhex) as (_ & _ & Hret).
  rewrite Hret in Heq. apply Return_inj in Heq. symmetry. exact Heq.
Qed.

(** When [cosmosToEth] returns, its argument starts with [bb1] and
    decodes to 20 bytes, whose hex form is the result. *)
Lemma cosmosToEth_inv (cosmosAddress result : string) :
  cosmosToEth cosmosAddress = Return result ->
  String_startsWith cosmosAddress "bb1" = true
  /\ exists prefix words numbers,
      bech32_decode cosmosAddress = Return (prefix, words)
      /\ fromWords words = Return numbers
      /\ List.length numbers = 20
      /\ result = ("0x" ++ Buffer_toString_hex (Buffer_from_array numbers))%string.
Proof.
  intros Heq.
  destruct (String_startsWith cosmosAddress "bb1") eqn:Hbb.
  - split; [reflexivity|]. rewrite (cosmosToEth_bb1 _ Hbb) in Heq.
    destruct (bech32_decode cosmosAddress) as [[prefix words]|m] eqn:Hdec; [|discriminate].
    destruct (fromWords words) as [numbers|m] eqn:Hfrom; [|discriminate].
    destruct (Nat.eqb_spec (List.length numbers) 20) as [Hlen|]; [|discriminate].
    exists prefix, words, numbers.
    split; [reflexivity|]. split; [exact Hfrom|]. split; [exact Hlen|].
    apply Return_inj in Heq. symmetry. exact Heq.
  - unfold cosmosToEth in Heq. change (BITBADGES_PREFIX ++ "1")%string with "bb1" in Heq.
    rewrite Hbb in Heq. discriminate.
Qed.

Lemma validateAddress_payload (bytes : Buffer) :
  List.length bytes <= 50 ->
  validateAddress (payloadAddress bytes)
  = mkAddressValidation true ChainCosmos (payloadAddress bytes)
      (List.length bytes =? 32)%nat None.
Proof.
  intros Hlen. destruct (payloadAddress_facts bytes Hlen) as (Hbb & _ & Hdecode & Hfrom).
  unfold validateAddress. change (BITBADGES_PREFIX ++ "1")%string with "bb1".
  rewrite (startsWith_bb1_not_0x _ Hbb), Hbb, Hdecode, Hfrom.
  rewrite Buffer_from_array_length, length_map, payloadAddress_lower. reflexivity.
Qed.

Lemma validateAddress_eth (hex : string) :
  String.length hex = 40 -> isHex hex = true ->
  validateAddress ("0x" ++ hex)
  = mkAddressValidation true ChainEth (String_toLowerCase ("0x" ++ hex)) false None.
Proof.
  intros Hlen Hhex. unfold validateAddress.
  rewrite (startsWith_append "0x" hex), slice_0x.
  rewrite (all_hex_String_length hex (isHex_all_hex hex Hhex)), Hlen, Hhex. reflexivity.
Qed.

(** X4.  Whatever [ethToCosmos] returns is a standard address: 41
    characters that start with [bb1], which [validateAddress] accepts as
    a cosmos address that is not module-derived and is its own normal
    form; the argument is accepted as an ETH address. *)
Theorem ethToCosmos_gives_standard_address (ethAddress cosmosAddress : string) :
  ethToCosmos ethAddress = Return cosmosAddress ->
  String_startsWith cosmosAddress "bb1" = true
  /\ String.length cosmosAddress = 41
  /\ validateAddress cosmosAddress
     = mkAddressValidation true ChainCosmos cosmosAddress false None
  /\ validateAddress ethAddress
     = mkAddressValidation true ChainEth (String_toLowerCase ethAddress) false None.
Proof.
  intros Heq. destruct (ethToCosmos_inv _ _ Heq) as (hex & -> & Hlen & Hhex & ->).
  destruct (ethToCosmos_returns hex Hlen Hhex) as (Hbytes & _ & _).
  destruct (payloadAddress_facts (Buffer_from_hex hex)) as (Hbb & Hlength & _); [lia|].
  split; [exact Hbb|]. split.
  - rewrite Hlength, (toWords_20_length _ Hbytes). reflexivity.
  - split; [|now apply validateAddress_eth].
    rewrite validateAddress_payload by lia. rewrite Hbytes. reflexivity.
Qed.

(** X5.  [validateAddress] and the converters agree.  An address is a
    valid ETH address exactly when [ethToCosmos] returns on it.  When
    [cosmosToEth] returns on an address, the address is a valid cosmos
    address that is not module-derived.  On a valid cosmos address
    [cosmosToEth] returns or throws the 20-byte error, nothing else.  An
    invalid address is reported with chain [unknown], unchanged, with an
    error text. *)
Theorem validateAddress_agrees_with_converters (address : string) :
  (validateAddress address
   = mkAddressValidation true ChainEth (String_toLowerCase address) false None
   <-> exists result, ethToCosmos address = Return result)
  /\ (forall result,
         cosmosToEth address = Return result ->
         validateAddress address
         = mkAddressValidation true ChainCosmos (String_toLowerCase address) false None)
  /\ (chain (validateAddress address) = ChainCosmos ->
      (exists result, cosmosToEth address = Return result)
      \/ cosmosToEth address
         = Throw "Address is not a standard 20-byte address (may be a module-derived address)")
  /\ (address_valid (validateAddress address) = false ->
      exists text,
        validateAddress address
        = mkAddressValidation false ChainUnknown address false (Some text)).
Proof.
  split; [|split; [|split]].
  - split.
    + intros Hvalid. unfold validateAddress in Hvalid.
      change (BITBADGES_PREFIX ++ "1")%string with "bb1" in Hvalid.
      destruct (String_startsWith address "0x") eqn:H0x.
      * destruct (startsWith_spec _ _ H0x) as (hex & ->). rewrite slice_0x in Hvalid.
        destruct (Nat.eqb_spec (String_length hex) 40) as [Hlen|]; [|discriminate].
        destruct (isHex hex) eqn:Hhex; [|discriminate].
        rewrite (all_hex_String_length hex (isHex_all_hex hex Hhex)) in Hlen.
        destruct (ethToCosmos_returns hex Hlen Hhex) as (_ & _ & Hret).
        eexists. exact Hret.
      * destruct (String_startsWith address "bb1"); [|discriminate].
        destruct (bech32_decode address) as [[prefix words]|m]; [|discriminate].
        destruct (fromWords words); discriminate.
    + intros (result & Heq).
      destruct (ethToCosmos_inv _ _ Heq) as (hex & -> & Hlen & Hhex & _).
      now apply validateAddress_eth.
  - intros result Heq.
    destruct (cosmosToEth_inv _ _ Heq) as (Hbb & prefix & words & numbers & Hdec & Hfrom & Hlen & _).
    unfold validateAddress. change (BITBADGES_PREFIX ++ "1")%string with "bb1".
    rewrite (startsWith_bb1_not_0x _ Hbb), Hbb, Hdec, Hfrom.
    rewrite Buffer_from_array_length, Hlen. reflexivity.
  - intros Hchain. unfold validateAddress in Hchain.
    change (BITBADGES_PREFIX ++ "1")%string with "bb1" in Hchain.
    destruct (String_startsWith address "0x") eqn:H0x.
    + destruct (_ && _); discriminate.
    + destruct (String_startsWith address "bb1") eqn:Hbb; [|discriminate].
      rewrite (cosmosToEth_bb1 _ Hbb).
      destruct (bech32_decode address) as [[prefix words]|m]; [|discriminate].
      destruct (fromWords words) as [numbers|m]; [|discriminate].
      destruct (List.length numbers =? 20)%nat; [left; eexists; reflexivity|right; reflexivity].
  - intros Hinvalid. unfold validateAddress in *.
    change (BITBADGES_PREFIX ++ "1")%string with "bb1" in *.
    destruct (String_startsWith address "0x").
    + destruct (_ && _); [discriminate|eexists; reflexivity].
    + destruct (String_startsWith address "bb1"); [|eexists; reflexivity].
      destruct (bech32_decode address) as [[prefix words]|m]; [|eexists; reflexivity].
      destruct (fromWords words); [discriminate|eexists; reflexivity].
Qed.

(** X6.  The two normalisers are idempotent: what [toBitBadgesAddress]
    returns starts with [bb1] and is returned unchanged by a second
    call, and likewise [toEthAddress] with [0x]. *)
Theorem address_normalisers_idempotent (address result : string) :
  (toBitBadgesAddress address = Return result ->
   String_startsWith result "bb1" = true /\ toBitBadgesAddress result = Return result)
  /\ (toEthAddress address = Return result ->
      String_startsWith result "0x" = true /\ toEthAddress result = Return result).
Proof.
  unfold toBitBadgesAddress, toEthAddress.
  change (BITBADGES_PREFIX ++ "1")%string with "bb1". split.
  - intros Heq.
    assert (Hbb : String_startsWith result "bb1" = true).
    { destruct (String_startsWith address "bb1") eqn:Hbb.
      - apply Return_inj in Heq. now subst.
      - destruct (String_startsWith address "0x"); [|discriminate].
        destruct (ethToCosmos_inv _ _ Heq) as (hex & _ & _ & _ & ->).
        exact (startsWith_append "bb1" _). }
    now rewrite Hbb.
  - intros Heq.
    assert (H0x : String_startsWith result "0x" = true).
    { destruct (String_startsWith address "0x") eqn:H0x.
      - apply Return_inj in Heq. now subst.
      - destruct (String_startsWith address "bb1"); [|discriminate].
        destruct (cosmosToEth_inv _ _ Heq) as (_ & prefix & words & numbers & _ & _ & _ & ->).
        exact (startsWith_append "0x" _). }
    now rewrite H0x.
Qed.

(* ================================================================== *)
(** * Properties of the convert_address tool *)
(* ================================================================== *)

Lemma detectFormat_eth (address : string) :
  String_startsWith address "0x" = true -> String_length address = 42 ->
  ConvertAddress.detectFormat address = "eth".
Proof. intros H0x Hlen. unfold ConvertAddress.detectFormat. now rewrite H0x, Hlen. Qed.

Lemma detectFormat_cosmos (address : string) :
  String_startsWith address "bb1" = true ->
  ConvertAddress.detectFormat address = "cosmos".
Proof.
  intros Hbb. unfold ConvertAddress.detectFormat.
  now rewrite (startsWith_bb1_not_0x _ Hbb), Hbb.
Qed.

Lemma handleConvertAddress_eth (address : string) :
  ConvertAddress.detectFormat address = "eth" ->
  ConvertAddress.handleConvertAddress address "bitbadges"
  = match ConvertAddress.ethToCosmos address with
    | Throw m => ConvertAddress.failure ("Failed to convert address: " ++ m)
    | Return convertedAddress =>
        ConvertAddress.mkResult true (Some address) (Some convertedAddress)
          (Some "eth") (Some "bitbadges") None
    end.
Proof. intros H. unfold ConvertAddress.handleConvertAddress. rewrite H. reflexivity. Qed.

Lemma handleConvertAddress_cosmos (address : string) :
  ConvertAddress.detectFormat address = "cosmos" ->
  ConvertAddress.handleConvertAddress address "eth"
  = match ConvertAddress.cosmosToEth address with
    | Throw m => ConvertAddress.failure ("Failed to convert address: " ++ m)
    | Return convertedAddress =>
        ConvertAddress.mkResult true (Some address) (Some convertedAddress)
          (Some "bitbadges") (Some "eth") None
    end.
Proof. intros H. unfold ConvertAddress.handleConvertAddress. rewrite H. reflexivity. Qed.

(** The tool's [ethToCosmos] on a text that starts with [0x]: the hex
    decoding of what follows, whatever it is. *)
Lemma tool_ethToCosmos_0x (tail : string) :
  ConvertAddress.ethToCosmos ("0x" ++ tail)
  = bech32_encode "bb" (toWords (Buffer_from_hex tail)).
Proof.
  unfold ConvertAddress.ethToCosmos. rewrite lower_append.
  change (String_toLowerCase "0x") with "0x".
  change (String_replace ("0x" ++ String_toLowerCase tail) "0x" EmptyString)
    with (String_toLowerCase tail).
  now rewrite Buffer_from_hex_lower.
Qed.

Lemma tool_cosmosToEth_payload (bytes : Buffer) :
  List.length bytes <= 50 ->
  ConvertAddress.cosmosToEth (payloadAddress bytes)
  = Return ("0x" ++ Buffer_toString_hex bytes)%string.
Proof.
  intros Hlen. destruct (payloadAddress_facts bytes Hlen) as (_ & _ & Hdecode & Hfrom).
  unfold ConvertAddress.cosmosToEth. now rewrite Hdecode, Hfrom, Buffer_from_array_bytes.
Qed.

Lemma String_length_0x (tail : string) :
  String_length ("0x" ++ tail) = 2 + String_length tail.
Proof. reflexivity. Qed.

(** X7.  On the inputs the address utilities convert, the tool gives
    the same address: both directions agree with [ethToCosmos] and
    [cosmosToEth], and converting an ETH address forth and back gives it
    in lower case. *)
Theorem handleConvertAddress_agrees_with_sdk (address result : string) :
  (ethToCosmos address = Return result ->
   ConvertAddress.handleConvertAddress address "bitbadges"
   = ConvertAddress.mkResult true (Some address) (Some result)
       (Some "eth") (Some "bitbadges") None
   /\ ConvertAddress.handleConvertAddress result "eth"
      = ConvertAddress.mkResult true (Some result) (Some (String_toLowerCase address))
          (Some "bitbadges") (Some "eth") None)
  /\ (cosmosToEth address = Return result ->
      ConvertAddress.handleConvertAddress address "eth"
      = ConvertAddress.mkResult true (Some address) (Some result)
          (Some "bitbadges") (Some "eth") None).
Proof.
  split.
  - intros Heq. destruct (ethToCosmos_inv _ _ Heq) as (hex & -> & Hlen & Hhex & ->).
    destruct (ethToCosmos_returns hex Hlen Hhex) as (Hbytes & Hstr & _).
    split.
    + rewrite handleConvertAddress_eth.
      * rewrite tool_ethToCosmos_0x, payloadAddress_encode by lia. reflexivity.
      * apply detectFormat_eth; [exact (startsWith_append "0x" hex)|].
        rewrite String_length_0x, (all_hex_String_length hex (isHex_all_hex hex Hhex)), Hlen.
        reflexivity.
    + rewrite handleConvertAddress_cosmos
        by (apply detectFormat_cosmos; exact (startsWith_append "bb1" _)).
      rewrite tool_cosmosToEth_payload by lia. rewrite Hstr, lower_append. reflexivity.
  - intros Heq.
    destruct (cosmosToEth_inv _ _ Heq)
      as (Hbb & prefix & words & numbers & Hdec & Hfrom & _ & ->).
    rewrite handleConvertAddress_cosmos by now apply detectFormat_cosmos.
    unfold ConvertAddress.cosmosToEth. now rewrite Hdec, Hfrom.
Qed.

(** X8.  The tool does not check the hex digits: every ASCII text of 42
    characters that starts with [0x] is converted.  The address it
    returns encodes the bytes of the leading pairs of hex digits only,
    at most 20 and possibly none. *)
Theorem handleConvertAddress_does_not_check_hex (address : string) :
  ascii_text address = true ->
  String_startsWith address "0x" = true ->
  String_length address = 42 ->
  let bytes := Buffer_from_hex (String_slice 2 address) in
  exists convertedAddress,
    ConvertAddress.handleConvertAddress address "bitbadges"
    = ConvertAddress.mkResult true (Some address) (Some convertedAddress)
        (Some "eth") (Some "bitbadges") None
    /\ List.length bytes <= 20
    /\ bech32_decode convertedAddress = Return ("bb", toWords bytes)
    /\ fromWords (toWords bytes) = Return (map byte_to_Z bytes).
Proof.
  intros _ H0x Hlen.
  destruct (startsWith_spec _ _ H0x) as (tail & ->).
  change (String_slice 2 ("0x" ++ tail)) with tail.
  set (bytes := Buffer_from_hex tail). rewrite String_length_0x in Hlen.
  assert (Hbytes : List.length bytes <= 20).
  { pose proof (Buffer_from_hex_length tail). unfold bytes. lia. }
  destruct (payloadAddress_facts bytes) as (_ & _ & Hdecode & Hfrom); [lia|].
  exists (payloadAddress bytes). split.
  - rewrite handleConvertAddress_eth
      by (apply detectFormat_eth; [exact H0x|rewrite String_length_0x; lia]).
    rewrite tool_ethToCosmos_0x. fold bytes. rewrite payloadAddress_encode by lia.
    reflexivity.
  - split; [exact Hbytes|]. split; [exact Hdecode|exact Hfrom].
Qed.

(** X9.  The tool has no 20-byte check: on a module address it returns
    [0x] followed by the 64 hex digits that [Module] computed. *)
Theorem handleConvertAddress_module_address
        (moduleName : string) (key0 : Buffer) (others : list Buffer) (address hex : string) :
  generateAlias moduleName (key0 :: others) = Return address ->
  Module_ moduleName (key0 :: others) = Return hex ->
  String.length hex = 64
  /\ ConvertAddress.handleConvertAddress address "eth"
     = ConvertAddress.mkResult true (Some address) (Some ("0x" ++ hex)%string)
         (Some "bitbadges") (Some "eth") None.
Proof.
  intros Hgen Hmodule.
  destruct (generateAlias_inv _ _ _ _ Hgen) as (digest & Hlen & Hmod & ->).
  rewrite Hmod in Hmodule. apply Return_inj in Hmodule. subst hex. split.
  - rewrite Buffer_toString_hex_length, Hlen. reflexivity.
  - rewrite handleConvertAddress_cosmos
      by (apply detectFormat_cosmos; exact (startsWith_append "bb1" _)).
    rewrite tool_cosmosToEth_payload by lia. reflexivity.
Qed.

(* ================================================================== *)
(** * Properties of the validate_address tool *)
(* ================================================================== *)

Lemma prefix_char_not_space (c : ascii) :
  ((charCode (lower_char c) <? 33)%Z || (charCode (lower_char c) >? 126)%Z) = false ->
  is_space_char c = false /\ (N_of_ascii c < 128)%N.
Proof.
  destruct c as [[] [] [] [] [] [] [] []]; cbv; intros H;
    first [discriminate H | split; [reflexivity|reflexivity]].
Qed.

(** A text that [decode] accepts is not blank: its first character
    belongs to the prefix. *)
Lemma bech32_decode_not_blank (address prefix : string) (words : list Z) :
  bech32_decode address = Return (prefix, words) ->
  String.eqb address EmptyString = false
  /\ String.eqb (String_trim address) EmptyString = false.
Proof.
  intros Hdec. destruct address as [|c rest]; [discriminate|].
  split; [reflexivity|].
  cut (is_space_char c = false /\ (N_of_ascii c < 128)%N).
  { intros [Hspace Hascii]. now apply trim_not_empty. }
  apply prefix_char_not_space.
  unfold bech32_decode in Hdec.
  destruct (strlen (String c rest) <? 8)%Z; [discriminate|].
  destruct (strlen (String c rest) >? 90)%Z; [discriminate|].
  destruct (negb _ && negb _); [discriminate|].
  cbn [String_toLowerCase String_map] in Hdec.
  fold (String_toLowerCase rest) in Hdec.
  destruct (String_lastIndexOf _ "1" 0) as [[|split]|]; try discriminate.
  cbn [String.substring] in Hdec.
  destruct (_ <? 6)%nat; [discriminate|].
  unfold prefixChk in Hdec. cbn [prefixChk_high] in Hdec.
  destruct ((charCode (lower_char c) <? 33)%Z || (charCode (lower_char c) >? 126)%Z);
    [discriminate|reflexivity].
Qed.

Lemma isValidEthAddress_spec (hex : string) :
  ValidateAddress.isValidEthAddress ("0x" ++ hex)
  = (String_length hex =? 40)%nat && isHex hex.
Proof.
  unfold ValidateAddress.isValidEthAddress.
  rewrite (startsWith_append "0x" hex), String_length_0x, slice_0x. cbn [negb].
  change (2 + String_length hex =? 42)%nat with (String_length hex =? 40)%nat.
  now destruct (String_length hex =? 40)%nat.
Qed.

Lemma handleValidateAddress_0x (hex : string) :
  ValidateAddress.handleValidateAddress ("0x" ++ hex)
  = let isValid := ValidateAddress.isValidEthAddress ("0x" ++ hex) in
    ValidateAddress.mkResult true isValid (Some "eth")
      (if isValid then Some (String_toLowerCase ("0x" ++ hex)) else None)
      (Some (ValidateAddress.mkDetails (Some "0x") (String_length ("0x" ++ hex)) "ethereum"))
      None.
Proof.
  unfold ValidateAddress.handleValidateAddress.
  destruct (startsWith_trim_not_empty ("0x" ++ hex) "0x" "0" "x" eq_refl eq_refl
              ltac:(reflexivity) (startsWith_append "0x" hex)) as (H1 & H2).
  rewrite H1, H2, (startsWith_append "0x" hex). reflexivity.
Qed.

(** X10.  The tool accepts what [validateAddress] accepts, with the
    same normal form and the same chain; on a text that starts with
    [0x] the two verdicts are the same. *)
Theorem handleValidateAddress_accepts_sdk_addresses (address : string) :
  (address_valid (validateAddress address) = true ->
   exists details,
     ValidateAddress.handleValidateAddress address
     = ValidateAddress.mkResult true true
         (Some (match chain (validateAddress address) with
                | ChainEth => "eth"
                | _ => "cosmos"
                end))
         (Some (normalized (validateAddress address))) (Some details) None)
  /\ (String_startsWith address "0x" = true ->
      ValidateAddress.valid (ValidateAddress.handleValidateAddress address)
      = address_valid (validateAddress address)).
Proof.
  split.
  - intros Hvalid. unfold validateAddress in *.
    change (BITBADGES_PREFIX ++ "1")%string with "bb1" in *.
    destruct (String_startsWith address "0x") eqn:H0x.
    + destruct (startsWith_spec _ _ H0x) as (hex & ->). rewrite slice_0x in *.
      rewrite handleValidateAddress_0x, isValidEthAddress_spec.
      destruct ((String_length hex =? 40)%nat && isHex hex); [|discriminate].
      eexists. reflexivity.
    + destruct (String_startsWith address "bb1") eqn:Hbb; [|discriminate].
      destruct (bech32_decode address) as [[prefix words]|m] eqn:Hdec; [|discriminate].
      destruct (fromWords words) as [numbers|m]; [|discriminate].
      destruct (bech32_decode_not_blank _ _ _ Hdec) as (H1 & H2).
      unfold ValidateAddress.handleValidateAddress, ValidateAddress.isValidCosmosAddress.
      rewrite H1, H2, H0x, Hbb, Hdec. eexists. reflexivity.
  - intros H0x. destruct (startsWith_spec _ _ H0x) as (hex & ->).
    rewrite handleValidateAddress_0x, isValidEthAddress_spec.
    unfold validateAddress. rewrite H0x, slice_0x.
    now destruct ((String_length hex =? 40)%nat && isHex hex).
Qed.

(** X11.  The tool accepts every ASCII text that [decode] accepts and
    that does not start with [0x], whatever its prefix: it is reported
    as a valid cosmos address, with the decoded prefix in the details. *)
Theorem handleValidateAddress_accepts_any_bech32
        (address prefix : string) (words : list Z) :
  ascii_text address = true ->
  String_startsWith address "0x" = false ->
  bech32_decode address = Return (prefix, words) ->
  ValidateAddress.handleValidateAddress address
  = ValidateAddress.mkResult true true (Some "cosmos") (Some (String_toLowerCase address))
      (Some (ValidateAddress.mkDetails (Some prefix) (String_length address) "bech32"))
      None.
Proof.
  intros _ H0x Hdec. destruct (bech32_decode_not_blank _ _ _ Hdec) as (H1 & H2).
  unfold ValidateAddress.handleValidateAddress, ValidateAddress.isValidCosmosAddress.
  rewrite H1, H2, H0x, Hdec. cbn [orb fst snd].
  now destruct (String_startsWith address "bb1" || String_startsWith address "cosmos1").
Qed.

(* ================================================================== *)
(** * More properties of the coin registry *)
(* ================================================================== *)

Lemma lookupTokenInfo_unfold (query : string) (cache : Cache) :
  cache_reachable cache ->
  lookupTokenInfo query cache
  = (if Map_has seededTokenMap (String_toUpperCase query)
     then Map_get seededTokenMap (String_toUpperCase query)
     else
       match find (fun tokenInfo =>
                     String.eqb (String_toLowerCase (ibcDenom tokenInfo))
                                (String_toLowerCase query))
                  (Map_values seededTokenMap) with
       | Some tokenInfo => Some tokenInfo
       | None =>
           if String_startsWith query "ibc/" then
             match generateAliasAddressForIBCBackedDenom query with
             | Return backingAddress =>
                 Some (mkToken "UNKNOWN" query "6" backingAddress "Unknown IBC Token")
             | Throw _ => None
             end
           else None
       end,
     Some seededTokenMap).
Proof.
  intros Hcache. unfold lookupTokenInfo.
  rewrite (buildSymbolToTokenInfoMap_reachable cache Hcache).
  destruct (Map_has _ _); [reflexivity|].
  destruct (find _ _); [reflexivity|].
  destruct (String_startsWith query "ibc/"); [|reflexivity].
  destruct (generateAliasAddressForIBCBackedDenom query); reflexivity.
Qed.

Lemma Map_get_In (m : TokenMap) (key : string) (tokenInfo : TokenInfo) :
  Map_get m key = Some tokenInfo -> In tokenInfo (Map_values m).
Proof.
  induction m as [|[k v] m IH]; [discriminate|]. cbn [Map_get Map_values map].
  destruct (String.eqb k key); [intros [= ->]; now left|].
  intros H. right. now apply IH.
Qed.


Lemma seeded_tokens_consistent :
  forall tokenInfo, In tokenInfo (Map_values seededTokenMap) -> token_consistent tokenInfo.
Proof.
  intros tokenInfo Hin. rewrite seededTokenMap_value in Hin.
  destruct Hin as [<- | [<- | [<- | []]]];
    (split; [reflexivity|split; [vm_compute; reflexivity|reflexivity]]).
Qed.

(** A lookup returns a seeded token or the synthetic descriptor. *)
Lemma lookupTokenInfo_cases (query : string) (cache : Cache) (tokenInfo : TokenInfo) :
  cache_reachable cache ->
  fst (lookupTokenInfo query cache) = Some tokenInfo ->
  In tokenInfo (Map_values seededTokenMap)
  \/ (String_startsWith query "ibc/" = true
      /\ exists backingAddress,
          generateAliasAddressForIBCBackedDenom query = Return backingAddress
          /\ tokenInfo = mkToken "UNKNOWN" query "6" backingAddress "Unknown IBC Token").
Proof.
  intros Hcache. rewrite (lookupTokenInfo_unfold query cache Hcache). cbn [fst].
  destruct (Map_has _ _).
  - intros H. left. exact (Map_get_In _ _ _ H).
  - destruct (find _ _) as [t|] eqn:Hfind.
    + intros [= <-]. left. exact (proj1 (find_some _ _ Hfind)).
    + destruct (String_startsWith query "ibc/"); [|discriminate].
      destruct (generateAliasAddressForIBCBackedDenom query) as [a|m] eqn:Hgen;
        [|discriminate].
      intros [= <-]. right. split; [reflexivity|]. exists a. now split.
Qed.

Lemma seeded_or_synthetic_consistent
      (query : string) (cache : Cache) (tokenInfo : TokenInfo) :
  cache_reachable cache ->
  fst (lookupTokenInfo query cache) = Some tokenInfo ->
  token_consistent tokenInfo.
Proof.
  intros Hcache Hlookup.
  destruct (lookupTokenInfo_cases _ _ _ Hcache Hlookup) as [Hin|(Hibc & a & Hgen & ->)].
  - exact (seeded_tokens_consistent tokenInfo Hin).
  - split; [exact Hibc|]. split; [exact Hgen|reflexivity].
Qed.

(** X12.  Whatever a lookup returns is consistent: the denomination of
    the descriptor starts with [ibc/], its backing address is the one
    the deriver computes for that denomination, and its decimals are
    [6]. *)
Theorem lookupTokenInfo_backing_address
        (query : string) (cache : Cache) (tokenInfo : TokenInfo) :
  cache_reachable cache ->
  fst (lookupTokenInfo query cache) = Some tokenInfo ->
  String_startsWith (ibcDenom tokenInfo) "ibc/" = true
  /\ generateAliasAddressForIBCBackedDenom (ibcDenom tokenInfo)
     = Return (backingAddress tokenInfo)
  /\ decimals tokenInfo = "6".
Proof.
  intros Hcache Hlookup.
  exact (seeded_or_synthetic_consistent query cache tokenInfo Hcache Hlookup).
Qed.

(** X13.  A seeded token is found by its symbol and by its
    denomination, in any letter case. *)
Theorem lookupTokenInfo_ignores_case
        (query : string) (cache : Cache) (tokenInfo : TokenInfo) :
  cache_reachable cache ->
  In tokenInfo (Map_values seededTokenMap) ->
  String_toUpperCase query = symbol tokenInfo
  \/ String_toLowerCase query = String_toLowerCase (ibcDenom tokenInfo) ->
  fst (lookupTokenInfo query cache) = Some tokenInfo.
Proof.
  intros Hcache Hin Hquery.
  rewrite (lookupTokenInfo_unfold query cache Hcache). cbn [fst].
  rewrite seededTokenMap_value in *.
  destruct Hquery as [Hsym|Hdenom].
  - rewrite Hsym. destruct Hin as [<- | [<- | [<- | []]]]; reflexivity.
  - rewrite <- (upper_lower query), Hdenom.
    destruct Hin as [<- | [<- | [<- | []]]]; reflexivity.
Qed.

Lemma Map_has_In (m : TokenMap) (key : string) :
  Map_has m key = true <-> In key (map fst m).
Proof.
  unfold Map_has. induction m as [|[k v] m IH]; cbn [Map_get map fst In].
  - split; [discriminate|tauto].
  - destruct (String.eqb_spec k key) as [->|Hne].
    + split; [now left|reflexivity].
    + rewrite IH. split; [now right|]. intros [H|H]; [contradiction|exact H].
Qed.

Lemma find_eqb_None {A : Type} (f : A -> string) (l : list A) (x : string) :
  find (fun a => String.eqb (f a) x) l = None <-> ~ In x (map f l).
Proof.
  induction l as [|a l IH]; cbn [find map In]; [tauto|].
  destruct (String.eqb_spec (f a) x) as [->|Hne].
  - split; [discriminate|tauto].
  - rewrite IH. tauto.
Qed.

Lemma seeded_keys : map fst seededTokenMap = map symbol (Map_values seededTokenMap).
Proof. rewrite seededTokenMap_value. reflexivity. Qed.

(** When a lookup returns nothing. *)
Lemma lookupTokenInfo_None_iff (query : string) (cache : Cache) :
  cache_reachable cache ->
  (fst (lookupTokenInfo query cache) = None
   <-> ~ In (String_toUpperCase query) (map symbol (Map_values seededTokenMap))
       /\ ~ In (String_toLowerCase query)
              (map (fun tokenInfo => String_toLowerCase (ibcDenom tokenInfo))
                   (Map_values seededTokenMap))
       /\ String_startsWith query "ibc/" = false).
Proof.
  intros Hcache. rewrite (lookupTokenInfo_unfold query cache Hcache). cbn [fst].
  rewrite <- seeded_keys. generalize seededTokenMap. intros m.
  pose proof (Map_has_In m (String_toUpperCase query)) as Hhas.
  pose proof (find_eqb_None (fun tokenInfo => String_toLowerCase (ibcDenom tokenInfo))
                (Map_values m) (String_toLowerCase query)) as Hfind.
  unfold Map_has in *.
  destruct (Map_get m (String_toUpperCase query)) as [t|].
  - split; [discriminate|]. intros (H & _). exfalso. exact (H (proj1 Hhas eq_refl)).
  - assert (Hkeys : ~ In (String_toUpperCase query) (map fst m)).
    { intros H. apply Hhas in H. discriminate H. }
    destruct (find _ _) as [t|].
    + split; [discriminate|]. intros (_ & H & _). apply Hfind in H. discriminate H.
    + assert (Hdenoms := proj1 Hfind eq_refl).
      destruct (String_startsWith query "ibc/").
      * destruct (generateAliasAddressForIBCBackedDenom_returns query) as (a & ->).
        split; [discriminate|intros (_ & _ & H); discriminate H].
      * split; [|reflexivity]. intros _. repeat split; assumption.
Qed.

(** X14.  For an ASCII query, a lookup returns nothing exactly when the
    query is no seeded symbol and no seeded denomination, letter case
    apart, and does not start with [ibc/]. *)
Theorem lookupTokenInfo_null (query : string) (cache : Cache) :
  ascii_text query = true ->
  cache_reachable cache ->
  (fst (lookupTokenInfo query cache) = None
   <-> ~ In (String_toUpperCase query) (map symbol (Map_values seededTokenMap))
       /\ ~ In (String_toLowerCase query)
              (map (fun tokenInfo => String_toLowerCase (ibcDenom tokenInfo))
                   (Map_values seededTokenMap))
       /\ String_startsWith query "ibc/" = false).
Proof. intros _. exact (lookupTokenInfo_None_iff query cache). Qed.

(* ================================================================== *)
(** * More properties of the list identifiers *)
(* ================================================================== *)

Lemma startsWith_app_l (s tail p : string) :
  String_startsWith s p = true -> String_startsWith (s ++ tail) p = true.
Proof.
  revert s. induction p as [|a p IH]; intros s; [reflexivity|].
  destruct s as [|b s]; [discriminate|].
  cbn [String.append String_startsWith]. intros [Hab Hs]%andb_prop.
  rewrite Hab. cbn [andb]. now apply IH.
Qed.

(** The first part of a split is a prefix of the text. *)
Lemma split_first_prefix (sep : ascii) (s cur : string) :
  exists first rest tail,
    String_split_from sep s cur = first :: rest
    /\ (cur ++ s)%string = (first ++ tail)%string.
Proof.
  revert cur. induction s as [|c s IH]; intros cur.
  - exists cur, [], EmptyString. split; reflexivity.
  - cbn [String_split_from]. destruct (Ascii.eqb c sep).
    + exists cur, (String_split_from sep s EmptyString), (String c s). split; reflexivity.
    + destruct (IH (cur ++ String c EmptyString)%string) as (first & rest & tail & -> & Heq).
      exists first, rest, tail. split; [reflexivity|].
      rewrite <- Heq, append_assoc. reflexivity.
Qed.

(** If every part of a split starts with a prefix, so does the text. *)
Lemma split_all_startsWith (s p : string) (sep : ascii) :
  forallb (fun part => String_startsWith part p) (String_split s sep) = true ->
  String_startsWith s p = true.
Proof.
  unfold String_split.
  destruct (split_first_prefix sep s EmptyString) as (first & rest & tail & -> & Heq).
  cbn [forallb String.append] in *. intros [Hfirst _]%andb_prop.
  rewrite Heq. now apply startsWith_app_l.
Qed.

Lemma startsWith_bang (s p : string) :
  String_startsWith s ("!" ++ p) = String_startsWith s "!" && String_startsWith (String_slice 1 s) p.
Proof.
  destruct s as [|c s]; [reflexivity|].
  cbn [String.append String_startsWith String_slice].
  destruct p; now rewrite ?andb_true_r.
Qed.

(** X19.  The identifiers [isValidListId] accepts are the reserved ones,
    a reserved one after [!], and the texts that start with [bb1] or
    [!bb1]: the branches for colon-separated lists and for [!Mint:bb1]
    accept nothing else.  In particular no text that starts with
    [!Mint:] is accepted. *)
Theorem isValidListId_accepts_exactly (id : string) :
  isValidListId id
  = Array_includes RESERVED_LIST_IDS id
    || (String_startsWith id "!" && Array_includes RESERVED_LIST_IDS (String_slice 1 id))
    || String_startsWith id "bb1"
    || String_startsWith id "!bb1"
  /\ forall address, isValidListId ("!Mint:" ++ address) = false.
Proof.
  split.
  - unfold isValidListId.
    destruct (Array_includes RESERVED_LIST_IDS id); [reflexivity|].
    destruct (String_startsWith id "!" && Array_includes RESERVED_LIST_IDS (String_slice 1 id));
      [reflexivity|].
    destruct (String_startsWith id "bb1") eqn:Hbb; [reflexivity|].
    destruct (String_startsWith id "!bb1") eqn:Hnbb; [reflexivity|].
    cbn [orb].
    destruct (String_includes id ":" && negb (String_startsWith id "!")).
    { destruct (forallb _ (String_split id ":")) eqn:Hall; [|reflexivity].
      apply split_all_startsWith in Hall. congruence. }
    destruct (String_startsWith id "!" && String_includes id ":") eqn:Hneg.
    { destruct (forallb _ (String_split (String_slice 1 id) ":")) eqn:Hall; [|reflexivity].
      apply split_all_startsWith in Hall. apply andb_prop in Hneg as [Hbang _].
      change "!bb1" with ("!" ++ "bb1")%string in Hnbb.
      rewrite startsWith_bang, Hbang, Hall in Hnbb. discriminate. }
    destruct (String_startsWith id "!Mint:bb1") eqn:HMint; [|reflexivity].
    apply andb_false_iff in Hneg as [Hbang|Hcolon].
    + change "!Mint:bb1" with ("!" ++ "Mint:bb1")%string in HMint.
      rewrite startsWith_bang, Hbang in HMint. discriminate.
    + destruct (startsWith_spec _ _ HMint) as (tail & ->). discriminate Hcolon.
  - intros address. reflexivity.
Qed.

Lemma isValidListId_of_bb1 (id : string) :
  String_startsWith id "bb1" = true -> isValidListId id = true.
Proof.
  intros Hbb. unfold isValidListId.
  destruct (Array_includes RESERVED_LIST_IDS id); [reflexivity|].
  destruct (_ && _); [reflexivity|]. now rewrite Hbb.
Qed.

Lemma isValidListId_of_not_bb1 (address : string) :
  String_startsWith address "bb1" = true -> isValidListId ("!" ++ address) = true.
Proof.
  intros Hbb. unfold isValidListId.
  destruct (Array_includes RESERVED_LIST_IDS _); [reflexivity|].
  destruct (_ && _); [reflexivity|].
  destruct (String_startsWith ("!" ++ address) "bb1"); [reflexivity|].
  change "!bb1" with ("!" ++ "bb1")%string. rewrite startsWith_bang.
  change (String_slice 1 ("!" ++ address)) with address. now rewrite Hbb.
Qed.

Lemma isValidListId_Mint_colon (address : string) :
  isValidListId ("!Mint:" ++ address) = false.
Proof. reflexivity. Qed.

Lemma lookupTokenInfo_pair (query : string) (cache : Cache) :
  cache_reachable cache ->
  lookupTokenInfo query cache = (fst (lookupTokenInfo query cache), Some seededTokenMap).
Proof.
  intros Hcache. rewrite <- (lookupTokenInfo_cache query cache Hcache).
  now destruct (lookupTokenInfo query cache).
Qed.

Lemma reachable_seeded : cache_reachable (Some seededTokenMap).
Proof. right. reflexivity. Qed.

(** The result of a lookup does not depend on whether the table was
    built before. *)
Lemma lookupTokenInfo_any_cache (query : string) (cache cache' : Cache) :
  cache_reachable cache -> cache_reachable cache' ->
  lookupTokenInfo query cache = lookupTokenInfo query cache'.
Proof.
  intros Hcache Hcache'. unfold lookupTokenInfo.
  rewrite (buildSymbolToTokenInfoMap_reachable cache Hcache).
  rewrite (buildSymbolToTokenInfoMap_reachable cache' Hcache'). reflexivity.
Qed.

(** X15.  [resolveIbcDenom] returns a text that starts with [ibc/] or
    nothing.  A text that starts with [ibc/] is returned as it is,
    without looking at the registry; any other text is resolved through
    the lookup, and nothing is returned exactly when the lookup finds
    nothing. *)
Theorem resolveIbcDenom_result (input : string) (cache : Cache) :
  cache_reachable cache ->
  (String_startsWith input "ibc/" = true -> resolveIbcDenom input cache = (Some input, cache))
  /\ (forall denom,
         fst (resolveIbcDenom input cache) = Some denom ->
         String_startsWith denom "ibc/" = true)
  /\ (fst (resolveIbcDenom input cache) = None
      <-> String_startsWith input "ibc/" = false
          /\ fst (lookupTokenInfo input cache) = None).
Proof.
  intros Hcache. unfold resolveIbcDenom.
  destruct (String_startsWith input "ibc/") eqn:Hibc.
  - split; [reflexivity|]. split.
    + intros denom [= <-]. exact Hibc.
    + split; [discriminate|intros [H _]; discriminate H].
  - split; [discriminate|].
    rewrite (lookupTokenInfo_pair input cache Hcache).
    destruct (fst (lookupTokenInfo input cache)) as [tokenInfo|] eqn:Hlookup.
    + split.
      * intros denom [= <-].
        exact (proj1 (seeded_or_synthetic_consistent _ _ _ Hcache Hlookup)).
      * split; [discriminate|intros [_ H]; discriminate H].
    + split; [discriminate|]. split; [intros _; now split|reflexivity].
Qed.

Lemma Array_includes_In (arr : list string) (x : string) :
  Array_includes arr x = true <-> In x arr.
Proof.
  unfold Array_includes. rewrite existsb_exists. split.
  - intros (y & Hin & Heq). apply String.eqb_eq in Heq. now subst.
  - intros Hin. exists x. split; [exact Hin|apply String.eqb_refl].
Qed.

Lemma registry_entry_In (denom : string) (entries : list (string * CoinDetails))
      (coinDetails : CoinDetails) :
  registry_entry denom entries = Some coinDetails -> In (denom, coinDetails) entries.
Proof.
  induction entries as [|[key c] entries IH]; [discriminate|]. cbn [registry_entry].
  destruct (String.eqb_spec key denom) as [->|_].
  - intros [= ->]. now left.
  - intros H. right. now apply IH.
Qed.

(** X16.  [getDecimals] gives 6 for every denomination that starts with
    [ibc/], in the registry or not.  It gives [NaN] exactly for the
    names an object inherits from [Object.prototype], and 6 or 9 for
    every other text. *)
Theorem getDecimals_values (denom : string) (cache : Cache) :
  cache_reachable cache ->
  (String_startsWith denom "ibc/" = true -> fst (getDecimals denom cache) = Some 6%Z)
  /\ (fst (getDecimals denom cache) = None <-> In denom Object_prototype_names)
  /\ (fst (getDecimals denom cache) = None
      \/ fst (getDecimals denom cache) = Some 6%Z
      \/ fst (getDecimals denom cache) = Some 9%Z).
Proof.
  intros Hcache. unfold getDecimals, getCoinDetails.
  destruct (registry_entry denom MAINNET_COINS_REGISTRY) as [coinDetails|] eqn:Hentry.
  { apply registry_entry_In in Hentry. cbv [MAINNET_COINS_REGISTRY In] in Hentry.
    repeat destruct Hentry as [Hentry|Hentry]; try contradiction;
      injection Hentry as <- <-;
      (split; [intros H; first [discriminate H|reflexivity]
              |split; [split; [discriminate
                              |intros Hin; exfalso; cbv [Object_prototype_names In] in Hin;
                               repeat destruct Hin as [Hin|Hin];
                               first [discriminate Hin|exact Hin]]
                      |first [right; left; reflexivity|right; right; reflexivity]]]). }
  pose proof (Array_includes_In Object_prototype_names denom) as Hnames.
  destruct (Array_includes Object_prototype_names denom) eqn:Hinc.
  - assert (Hin : In denom Object_prototype_names) by now apply Hnames.
    split; [|split; [split; [intros _; exact Hin|reflexivity]|left; reflexivity]].
    intros Hibc. exfalso. clear - Hin Hibc.
    cbv [Object_prototype_names In] in Hin.
    repeat destruct Hin as [<-|Hin]; try discriminate Hibc. exact Hin.
  - assert (Hnot : ~ In denom Object_prototype_names).
    { intros Hin. apply Hnames in Hin. discriminate Hin. }
    rewrite (lookupTokenInfo_pair denom cache Hcache).
    destruct (fst (lookupTokenInfo denom cache)) as [tokenInfo|] eqn:Hlookup.
    + destruct (seeded_or_synthetic_consistent _ _ _ Hcache Hlookup) as (_ & _ & Hdec).
      cbn [fst]. rewrite Hdec. change (parseInt "6") with (Some 6%Z).
      split; [reflexivity|]. split; [split; [discriminate|contradiction]|].
      right. left. reflexivity.
    + destruct (String_startsWith denom "ibc/"); cbn [fst].
      * split; [reflexivity|]. split; [split; [discriminate|contradiction]|].
        right. left. reflexivity.
      * split; [discriminate|]. split; [split; [discriminate|contradiction]|].
        right. right. reflexivity.
Qed.

Lemma getAllTokens_reachable (cache : Cache) :
  cache_reachable cache ->
  getAllTokens cache = (Map_values seededTokenMap, Some seededTokenMap).
Proof.
  intros Hcache. unfold getAllTokens.
  now rewrite (buildSymbolToTokenInfoMap_reachable cache Hcache).
Qed.

Lemma seeded_symbols : map symbol (Map_values seededTokenMap) = ["USDC"; "ATOM"; "OSMO"].
Proof. rewrite seededTokenMap_value. reflexivity. Qed.

(** X17.  The lookup tool lists every token for the empty query and for
    [all] in any letter case.  For another query it fails exactly when
    the lookup finds nothing, and then names the three seeded symbols;
    a query that starts with [ibc/] never fails.  The cache holds the
    seeded table afterwards. *)
Theorem handleLookupTokenInfo_result (query : string) (cache : Cache) :
  cache_reachable cache ->
  snd (LookupTokenInfo.handleLookupTokenInfo query cache) = Some seededTokenMap
  /\ (query = EmptyString \/ String_toLowerCase query = "all" ->
      fst (LookupTokenInfo.handleLookupTokenInfo query cache)
      = LookupTokenInfo.mkResult true None (Some (Map_values seededTokenMap)) None)
  /\ (query <> EmptyString -> String_toLowerCase query <> "all" ->
      fst (LookupTokenInfo.handleLookupTokenInfo query cache)
      = match fst (lookupTokenInfo query cache) with
        | Some tokenInfo => LookupTokenInfo.mkResult true (Some tokenInfo) None None
        | None =>
            LookupTokenInfo.mkResult false None None
              (Some ("Token not found: " ++ dquote ++ query ++ dquote
                       ++ ". Available symbols: USDC, ATOM, OSMO")%string)
        end)
  /\ (String_startsWith query "ibc/" = true ->
      LookupTokenInfo.success (fst (LookupTokenInfo.handleLookupTokenInfo query cache))
      = true).
Proof.
  intros Hcache. unfold LookupTokenInfo.handleLookupTokenInfo.
  rewrite (getAllTokens_reachable cache Hcache).
  rewrite (lookupTokenInfo_pair query cache Hcache).
  rewrite (getAllTokens_reachable _ reachable_seeded), seeded_symbols.
  change (Array_join ["USDC"; "ATOM"; "OSMO"] ", ") with "USDC, ATOM, OSMO".
  destruct (String.eqb_spec query EmptyString) as [->|Hquery].
  - split; [reflexivity|]. split; [reflexivity|]. split; [contradiction|discriminate].
  - destruct (String.eqb_spec (String_toLowerCase query) "all") as [Hall|Hall]; cbn [orb].
    + split; [reflexivity|]. split; [reflexivity|]. split; [contradiction|].
      intros Hibc. destruct (startsWith_spec _ _ Hibc) as (tail & ->). discriminate Hall.
    + split; [now destruct (fst (lookupTokenInfo query cache))|].
      split; [intros [H|H]; contradiction|].
      split; [intros _ _; now destruct (fst (lookupTokenInfo query cache))|].
      intros Hibc. destruct (fst (lookupTokenInfo query cache)) eqn:Hlookup; [reflexivity|].
      apply (lookupTokenInfo_None_iff query cache Hcache) in Hlookup.
      destruct Hlookup as (_ & _ & H). congruence.
Qed.

(* ================================================================== *)
(** * Properties of the generate_backing_address tool *)
(* ================================================================== *)

Lemma finish_returns (ibcDenom symbol decimals : string) :
  exists address,
    generateAliasAddressForIBCBackedDenom ibcDenom = Return address
    /\ String_startsWith address "bb1" = true
    /\ GenerateBackingAddress.finish ibcDenom symbol decimals
       = GenerateBackingAddress.mkResult true (Some address) (Some ibcDenom) (Some symbol)
           (Some decimals)
           (Some (GenerateBackingAddress.mkListIds address ("!" ++ address)
                    ("!Mint:" ++ address) address))
           None.
Proof.
  destruct (generateAlias_digest "tokenization" [Byte.x12] [Buffer_from_utf8 ibcDenom])
    as (digest & Hlen & _ & Hgen).
  exists (payloadAddress digest).
  assert (Hgen' : generateAliasAddressForIBCBackedDenom ibcDenom
                  = Return (payloadAddress digest)) by exact Hgen.
  split; [exact Hgen'|]. split; [exact (startsWith_append "bb1" _)|].
  unfold GenerateBackingAddress.finish. rewrite Hgen'. reflexivity.
Qed.

(** X18.  The tool fails exactly when the input does not start with
    [ibc/] and the lookup finds nothing.  Otherwise the address it
    returns is the one derived from the denomination it returns, which
    starts with [ibc/].  Of the four list identifiers it returns, the
    validator's [isValidListId] accepts the address and its negation and
    rejects [unbackingFromListId], the address after [!Mint:]. *)
Theorem handleGenerateBackingAddress_result (input : string) (cache : Cache) :
  cache_reachable cache ->
  let result := fst (GenerateBackingAddress.handleGenerateBackingAddress input cache) in
  (GenerateBackingAddress.success result = false
   <-> String_startsWith input "ibc/" = false /\ fst (lookupTokenInfo input cache) = None)
  /\ (GenerateBackingAddress.success result = true ->
      exists address ibcDenom symbol decimals,
        result
        = GenerateBackingAddress.mkResult true (Some address) (Some ibcDenom) (Some symbol)
            (Some decimals)
            (Some (GenerateBackingAddress.mkListIds address ("!" ++ address)
                     ("!Mint:" ++ address) address))
            None
        /\ String_startsWith ibcDenom "ibc/" = true
        /\ generateAliasAddressForIBCBackedDenom ibcDenom = Return address
        /\ isValidListId address = true
        /\ isValidListId ("!" ++ address) = true
        /\ isValidListId ("!Mint:" ++ address) = false).
Proof.
  intros Hcache result. subst result.
  unfold GenerateBackingAddress.handleGenerateBackingAddress.
  assert (Hfinish : forall ibcDenom symbol decimals,
             String_startsWith ibcDenom "ibc/" = true ->
             GenerateBackingAddress.success
               (GenerateBackingAddress.finish ibcDenom symbol decimals) = true
             /\ exists address ibcDenom' symbol' decimals',
                 GenerateBackingAddress.finish ibcDenom symbol decimals
                 = GenerateBackingAddress.mkResult true (Some address) (Some ibcDenom')
                     (Some symbol') (Some decimals')
                     (Some (GenerateBackingAddress.mkListIds address ("!" ++ address)
                              ("!Mint:" ++ address) address))
                     None
                 /\ String_startsWith ibcDenom' "ibc/" = true
                 /\ generateAliasAddressForIBCBackedDenom ibcDenom' = Return address
                 /\ isValidListId address = true
                 /\ isValidListId ("!" ++ address) = true
                 /\ isValidListId ("!Mint:" ++ address) = false).
  { intros ibcDenom symbol decimals Hibc.
    destruct (finish_returns ibcDenom symbol decimals) as (address & Hgen & Hbb & ->).
    split; [reflexivity|]. exists address, ibcDenom, symbol, decimals.
    split; [reflexivity|]. split; [exact Hibc|]. split; [exact Hgen|].
    split; [now apply isValidListId_of_bb1|].
    split; [now apply isValidListId_of_not_bb1|apply isValidListId_Mint_colon]. }
  destruct (String_startsWith input "ibc/") eqn:Hibc; cbn [negb].
  - rewrite (lookupTokenInfo_pair input cache Hcache).
    destruct (fst (lookupTokenInfo input cache)) as [[sym denom dec b d]|];
      cbn [fst];
      match goal with
      | |- context [GenerateBackingAddress.finish ?a ?b ?c] =>
          destruct (Hfinish a b c Hibc) as (Hsuccess & Hshape)
      end;
      (split; [rewrite Hsuccess; split; [discriminate|intros [H _]; discriminate H]
              |intros _; exact Hshape]).
  - rewrite (lookupTokenInfo_pair input cache Hcache).
    destruct (fst (lookupTokenInfo input cache))
      as [[sym denom dec b d]|] eqn:Hlookup.
    + destruct (seeded_or_synthetic_consistent _ _ _ Hcache Hlookup) as (Hdenom & _).
      cbn [ibcDenom] in Hdenom. cbn [fst].
      destruct (Hfinish denom sym dec Hdenom) as (Hsuccess & Hshape).
      split; [rewrite Hsuccess; split; [discriminate|intros [_ H]; discriminate H]
             |intros _; exact Hshape].
    + unfold resolveIbcDenom. rewrite Hibc.
      rewrite (lookupTokenInfo_pair input _ reachable_seeded).
      assert (Hagain : fst (lookupTokenInfo input (Some seededTokenMap)) = None).
      { rewrite <- (lookupTokenInfo_any_cache input cache _ Hcache reachable_seeded).
        exact Hlookup. }
      rewrite Hagain. cbn [fst GenerateBackingAddress.success GenerateBackingAddress.failure].
      split; [split; [intros _; now split|reflexivity]|discriminate].
Qed.

(* ================================================================== *)
(** * The rules that apply to the whole transaction *)
(* ================================================================== *)

(** Induction on a JSON value, with the hypothesis for every element of
    an array and every property of an object. *)
Lemma json_induction (P : json -> Prop) :
  P JNull ->
  (forall b, P (JBool b)) ->
  (forall literal, P (JNumber literal)) ->
  (forall s, P (JString s)) ->
  (forall items, Forall P items -> P (JArray items)) ->
  (forall entries, Forall (fun entry : string * json => P (snd entry)) entries ->
                   P (JObject entries)) ->
  forall v, P v.
Proof.
  intros Hnull Hbool Hnumber Hstring Harray Hobject.
  fix IH 1. intros [ | b | literal | s | items | entries ].
  - exact Hnull.
  - apply Hbool.
  - apply Hnumber.
  - apply Hstring.
  - apply Harray. induction items as [|item items IHitems]; constructor; [apply IH|exact IHitems].
  - apply Hobject.
    induction entries as [|[key value] entries IHentries]; constructor;
      [apply IH|exact IHentries].
Qed.

Section TransactionRules.
Context {E : Engine}.

Lemma length_forEach_from {A B : Type} (f : A -> nat -> list B) (g : A -> nat)
      (l : list A) (k : nat) :
  Forall (fun a => forall i, List.length (f a i) = g a) l ->
  List.length (forEach_from f l k) = list_sum (map g l).
Proof.
  intros H. revert k. induction H as [|a l Ha _ IH]; intros k; [reflexivity|].
  cbn [forEach_from map list_sum]. now rewrite length_app, Ha, IH.
Qed.

Lemma Forall_forEach_from {A B : Type} (f : A -> nat -> list B) (Q : B -> Prop)
      (l : list A) (k : nat) :
  Forall (fun a => forall i, Forall Q (f a i)) l -> Forall Q (forEach_from f l k).
Proof.
  intros H. revert k. induction H as [|a l Ha _ IH]; intros k; [constructor|].
  cbn [forEach_from]. apply Forall_app. split; [apply Ha|apply IH].
Qed.

(** One error for each number. *)
Lemma checkNumbersAreStrings_count (v : json) :
  forall path,
    List.length (checkNumbersAreStrings v path) = count_numbers v
    /\ Forall (fun issue => severity issue = SevError) (checkNumbersAreStrings v path).
Proof.
  induction v as [ | b | literal | s | items IH | entries IH ] using json_induction;
    intros path; cbn [checkNumbersAreStrings count_numbers].
  - split; [reflexivity|constructor].
  - split; [reflexivity|constructor].
  - split; [reflexivity|]. constructor; [reflexivity|constructor].
  - split; [reflexivity|constructor].
  - split.
    + apply length_forEach_from. eapply Forall_impl; [|exact IH].
      intros item Hitem i. apply Hitem.
    + apply Forall_forEach_from. eapply Forall_impl; [|exact IH].
      intros item Hitem i. apply Hitem.
  - induction IH as [|[key value] entries Hvalue _ IHentries]; [split; [reflexivity|constructor]|].
    cbn [map list_sum snd] in *. destruct IHentries as (Hlen & Hall).
    destruct (Hvalue (path ++ "." ++ key)%string) as (Hlen' & Hall').
    split; [now rewrite length_app, Hlen', Hlen|]. apply Forall_app. now split.
Qed.

(** X20.  Every number literal of the transaction, at any depth, gives
    one error: the number check returns as many issues as the
    transaction has numbers, all of them errors and all of them
    reported, so a transaction with a number is invalid. *)
Theorem number_makes_invalid (transactionJson : string) (tx : json) (messages : list json) :
  JSON_parse transactionJson = Some tx ->
  get tx "messages" = Some (JArray messages) ->
  List.length (checkNumbersAreStrings tx EmptyString) = count_numbers tx
  /\ Forall (fun issue => severity issue = SevError) (checkNumbersAreStrings tx EmptyString)
  /\ (forall issue,
         In issue (checkNumbersAreStrings tx EmptyString) ->
         In issue (issues (handleValidateTransaction transactionJson)))
  /\ (0 < count_numbers tx -> valid (handleValidateTransaction transactionJson) = false).
Proof.
  intros Hparse Hmessages.
  destruct (checkNumbersAreStrings_count tx EmptyString) as (Hlen & Hall).
  assert (Hreported : forall issue,
             In issue (checkNumbersAreStrings tx EmptyString) ->
             In issue (issues (handleValidateTransaction transactionJson))).
  { intros issue Hin. unfold handleValidateTransaction.
    rewrite Hparse, (get_Some_is_object _ _ _ Hmessages), Hmessages. cbn [negb issues].
    unfold validateParsed. apply in_or_app. now left. }
  split; [exact Hlen|]. split; [exact Hall|]. split; [exact Hreported|].
  intros Hpos. rewrite <- Hlen in Hpos.
  destruct (checkNumbersAreStrings tx EmptyString) as [|issue rest] eqn:Hissues;
    [cbn in Hpos; lia|].
  apply (error_issue_invalid transactionJson issue).
  - apply Hreported. now left.
  - now inversion Hall.
Qed.

Lemma checkUintRangeFormat_errors (obj : json) (path : string) :
  Forall (fun issue => severity issue = SevError) (checkUintRangeFormat obj path).
Proof.
  unfold checkUintRangeFormat. destruct (negb (is_object obj)); [constructor|].
  destruct (has obj "start" || has obj "end"); [|constructor].
  apply Forall_app. split.
  - destruct (get obj "start") as [[]|]; repeat constructor.
  - destruct (get obj "end") as [[]|]; repeat constructor.
Qed.

Lemma checkUintRangeFormat_nil (entries : list (string * json)) (path : string) :
  checkUintRangeFormat (JObject entries) path = []
  <-> malformed_range (JObject entries) = false.
Proof.
  unfold checkUintRangeFormat, malformed_range, has.
  change (negb (is_object (JObject entries))) with false. cbv iota.
  destruct (get (JObject entries) "start") as [[]|], (get (JObject entries) "end") as [[]|];
    cbn; split; intros H; first [reflexivity|discriminate H].
Qed.

Lemma existsb_forEach_from {A B : Type} (f : A -> nat -> list B) (p : A -> bool)
      (l : list A) (k : nat) :
  Forall (fun a => forall i, f a i = [] <-> p a = false) l ->
  forEach_from f l k = [] <-> existsb p l = false.
Proof.
  intros H. revert k. induction H as [|a l Ha _ IH]; intros k; [split; reflexivity|].
  cbn [forEach_from existsb]. rewrite orb_false_iff, <- (Ha k), <- (IH (S k)).
  split.
  - intros Happ. now apply app_eq_nil in Happ.
  - intros [-> ->]. reflexivity.
Qed.

(** The range check finds nothing exactly when no object is a
    malformed range. *)
Lemma findAndValidateUintRanges_nil (v : json) :
  forall path,
    (findAndValidateUintRanges v path = [] <-> contains_malformed_range v = false)
    /\ Forall (fun issue => severity issue = SevError) (findAndValidateUintRanges v path).
Proof.
  induction v as [ | b | literal | s | items IH | entries IH ] using json_induction;
    intros path; cbn [findAndValidateUintRanges contains_malformed_range];
    try (split; [split; reflexivity|constructor]).
  - split.
    + apply existsb_forEach_from. eapply Forall_impl; [|exact IH].
      intros item Hitem i. apply Hitem.
    + apply Forall_forEach_from. eapply Forall_impl; [|exact IH].
      intros item Hitem i. apply Hitem.
  - pose proof (checkUintRangeFormat_nil entries path) as Hcheck.
    pose proof (checkUintRangeFormat_errors (JObject entries) path) as Herrors.
    revert Hcheck Herrors.
    generalize (checkUintRangeFormat (JObject entries) path) as here.
    generalize (malformed_range (JObject entries)) as bad.
    intros bad here Hcheck Herrors.
    assert (Hrest :
             ((fix each (l : list (string * json)) : list ValidationIssue :=
                 match l with
                 | [] => []
                 | (key, value) :: rest =>
                     findAndValidateUintRanges value (path ++ "." ++ key) ++ each rest
                 end) entries = []
              <-> existsb (fun entry : string * json =>
                             let '(_, value) := entry in contains_malformed_range value)
                          entries = false)
             /\ Forall (fun issue => severity issue = SevError)
                  ((fix each (l : list (string * json)) : list ValidationIssue :=
                      match l with
                      | [] => []
                      | (key, value) :: rest =>
                          findAndValidateUintRanges value (path ++ "." ++ key) ++ each rest
                      end) entries)).
    { induction IH as [|[key value] entries Hvalue _ IHentries];
        [split; [split; reflexivity|constructor]|].
      cbn [existsb snd] in *. destruct IHentries as (Hnil & Hall).
      destruct (Hvalue (path ++ "." ++ key)%string) as (Hnil' & Hall').
      split; [|apply Forall_app; now split].
      rewrite orb_false_iff, <- Hnil, <- Hnil'. split.
      - intros Happ. now apply app_eq_nil in Happ.
      - intros [-> ->]. reflexivity. }
    destruct Hrest as (Hnil & Hall). split; [|apply Forall_app; now split].
    rewrite orb_false_iff, <- Hnil, <- Hcheck. split.
    + intros Happ. now apply app_eq_nil in Happ.
    + intros [-> ->]. reflexivity.
Qed.

(** X21.  Every object of the transaction, at any depth, that has a
    [start] or an [end] property must have both, as strings: the range
    check returns no issue exactly when there is no other such object,
    its issues are errors and are reported, so a transaction with one is
    invalid. *)
Theorem malformed_range_makes_invalid
        (transactionJson : string) (tx : json) (messages : list json) :
  JSON_parse transactionJson = Some tx ->
  get tx "messages" = Some (JArray messages) ->
  (findAndValidateUintRanges tx EmptyString = [] <-> contains_malformed_range tx = false)
  /\ Forall (fun issue => severity issue = SevError)
       (findAndValidateUintRanges tx EmptyString)
  /\ (forall issue,
         In issue (findAndValidateUintRanges tx EmptyString) ->
         In issue (issues (handleValidateTransaction transactionJson)))
  /\ (contains_malformed_range tx = true ->
      valid (handleValidateTransaction transactionJson) = false).
Proof.
  intros Hparse Hmessages.
  destruct (findAndValidateUintRanges_nil tx EmptyString) as (Hnil & Hall).
  assert (Hreported : forall issue,
             In issue (findAndValidateUintRanges tx EmptyString) ->
             In issue (issues (handleValidateTransaction transactionJson))).
  { intros issue Hin. unfold handleValidateTransaction.
    rewrite Hparse, (get_Some_is_object _ _ _ Hmessages), Hmessages. cbn [negb issues].
    unfold validateParsed. apply in_or_app. right. apply in_or_app. now left. }
  split; [exact Hnil|]. split; [exact Hall|]. split; [exact Hreported|].
  intros Hbad.
  destruct (findAndValidateUintRanges tx EmptyString) as [|issue rest] eqn:Hissues.
  - rewrite (proj1 Hnil eq_refl) in Hbad. discriminate Hbad.
  - apply (error_issue_invalid transactionJson issue).
    + apply Hreported. now left.
    + now inversion Hall.
Qed.

End TransactionRules.

(* ================================================================== *)
(** * The rules of a collection update and of a transfer *)
(* ================================================================== *)

Section MessageRules.
Context {E : Engine}.

(** An issue of the value of a collection update is an issue of the
    transaction. *)
Lemma update_issue_reported (transactionJson : string) (tx : json) (i : nat) (value : json)
      (x : ValidationIssue) :
  JSON_parse transactionJson = Some tx ->
  value_of_message tx i MsgUniversalUpdateCollection value ->
  is_object value = true ->
  In x (validateUniversalUpdateCollection value (messagePath i)) ->
  In x (issues (handleValidateTransaction transactionJson)).
Proof.
  intros Hparse (messages & msg & Hm & Hnth & Htype & Hvalue) Hobject Hin.
  apply (message_issue_reported _ _ _ _ _ _ Hparse Hm Hnth).
  unfold validateMessage.
  rewrite (get_Some_is_object _ _ _ Hvalue), Hvalue, Hobject. simpl negb. cbv iota.
  apply in_or_app. right.
  rewrite Htype. unfold is_string at 1. rewrite String.eqb_refl.
  apply in_or_app. left. exact Hin.
Qed.

(** X26.  In an approval of a collection update, a list identifier that
    [isValidListId] rejects gives an error at that field, and an
    [approvalId] that is not a string with at least one character gives
    an error at the approval; either makes the transaction invalid. *)
Theorem approval_needs_list_ids_and_id
        (transactionJson : string) (tx : json) (i j : nat) (value : json)
        (approvals : list json) (a : json) :
  JSON_parse transactionJson = Some tx ->
  approvals_of_message tx i value approvals ->
  nth_error approvals j = Some a ->
  is_object a = true ->
  let result := handleValidateTransaction transactionJson in
  (forall field id,
      In field ["fromListId"; "toListId"; "initiatedByListId"] ->
      get a field = Some (JString id) ->
      isValidListId id = false ->
      In (mkIssue SevError
            ("Invalid list ID: " ++ dquote ++ id ++ dquote
               ++ ". Use only reserved IDs (All, Mint, !Mint, Total) or bb1... addresses")
            (Some (approvalPath i j ++ "." ++ field)%string))
         (issues result)
      /\ valid result = false)
  /\ ((forall id, get a "approvalId" = Some (JString id) -> id = EmptyString) ->
      In (mkIssue SevError
            ("Approval missing required " ++ dquote ++ "approvalId" ++ dquote ++ " field")
            (Some (approvalPath i j)))
         (issues result)
      /\ valid result = false).
Proof.
  intros Hparse Hsite Hj Hobject result.
  assert (Hrep : forall x,
             In x (validateApproval (includes_Subscriptions (standards_of value))
                     (("messages[" ++ string_of_nat i ++ "]") ++ ".value.collectionApprovals")
                     a j) ->
             severity x = SevError ->
             In x (issues result) /\ valid result = false).
  { intros x Hx Hsev.
    pose proof (approval_issue_reported _ _ _ _ _ _ _ _ Hparse Hsite Hj Hx) as Hin.
    split; [exact Hin|]. exact (error_issue_invalid _ _ Hin Hsev). }
  split.
  - intros field id Hfield Hget Hid. apply Hrep; [|reflexivity].
    unfold validateApproval. rewrite Hobject. cbn [negb].
    apply in_or_app. left. apply in_flat_map. exists field. split; [exact Hfield|].
    unfold checkListIdField. rewrite Hget, Hid. left. reflexivity.
  - intros Hid. apply Hrep; [|reflexivity].
    unfold validateApproval. rewrite Hobject. cbn [negb].
    apply in_or_app. right. apply in_or_app. right. apply in_or_app. right.
    destruct (get a "approvalId") as [[| | |id| |]|] eqn:Hget; try (left; reflexivity).
    rewrite (Hid id eq_refl). left. reflexivity.
Qed.

(** X27.  An entry of [tokenMetadata] must have a [tokenIds] array that
    is not empty: an object entry without one gives an error at the
    entry and the transaction is invalid, and the rule reports nothing
    when every object entry has one. *)
Theorem tokenMetadata_needs_tokenIds
        (transactionJson : string) (tx : json) (i j : nat) (value : json)
        (metadata : list json) (entry : json) :
  JSON_parse transactionJson = Some tx ->
  value_of_message tx i MsgUniversalUpdateCollection value ->
  get value "tokenMetadata" = Some (JArray metadata) ->
  nth_error metadata j = Some entry ->
  is_object entry = true ->
  nonempty_array (get entry "tokenIds") = false ->
  let result := handleValidateTransaction transactionJson in
  In (mkIssue SevError "tokenMetadata entry MUST include tokenIds field with UintRange array"
        (Some (tokenMetadataPath i j)))
     (issues result)
  /\ valid result = false
  /\ forall (others : list json) (path : string),
      Forall (fun other => is_object other = true ->
                           nonempty_array (get other "tokenIds") = true) others ->
      validateTokenMetadata others path = [].
Proof.
  intros Hparse Hsite Hmeta Hj Hobject Hids result.
  assert (Hin : In (mkIssue SevError
                      "tokenMetadata entry MUST include tokenIds field with UintRange array"
                      (Some (tokenMetadataPath i j)))
                   (issues result)).
  { apply (update_issue_reported _ _ i value _ Hparse Hsite);
      [exact (get_Some_is_object _ _ _ Hmeta)|].
    unfold validateUniversalUpdateCollection.
    do 4 (apply in_or_app; right). apply in_or_app. left.
    rewrite Hmeta. unfold validateTokenMetadata.
    apply (In_forEach _ metadata j entry _ Hj).
    rewrite Hobject, Hids. cbn [negb]. rewrite orb_true_r. left. reflexivity. }
  split; [exact Hin|]. split; [exact (error_issue_invalid _ _ Hin eq_refl)|].
  intros others path Hall. unfold validateTokenMetadata, forEach.
  generalize 0. induction Hall as [|other others Hother _ IH]; intros k; [reflexivity|].
  cbn [forEach_from]. rewrite IH, app_nil_r.
  destruct (is_object other); [|reflexivity]. cbn [negb].
  pose proof (Hother eq_refl) as Hnonempty. rewrite Hnonempty. cbn [negb].
  assert (Hhas : has other "tokenIds" = true).
  { unfold has. destruct (get other "tokenIds"); [reflexivity|discriminate Hnonempty]. }
  rewrite Hhas. reflexivity.
Qed.

(** X28.  A permission of [canUpdateValidTokenIds] or
    [canUpdateTokenMetadata] that sets a time array and has no
    [tokenIds] gives an error at the permission and the transaction is
    invalid.  The permission rules give no other error: every other
    issue of [validatePermissions] is a warning. *)
Theorem permission_needs_tokenIds
        (transactionJson : string) (tx : json) (i k : nat) (value permissions : json)
        (field : string) (perms : list json) (perm : json) :
  JSON_parse transactionJson = Some tx ->
  value_of_message tx i MsgUniversalUpdateCollection value ->
  get value "collectionPermissions" = Some permissions ->
  In field ["canUpdateValidTokenIds"; "canUpdateTokenMetadata"] ->
  get permissions field = Some (JArray perms) ->
  nth_error perms k = Some perm ->
  is_object perm = true ->
  nonempty_array (get perm "permanentlyPermittedTimes")
  || nonempty_array (get perm "permanentlyForbiddenTimes") = true ->
  has perm "tokenIds" = false ->
  let result := handleValidateTransaction transactionJson in
  In (mkIssue SevError (field ++ " permission MUST include tokenIds field")
        (Some (permissionPath i field k)))
     (issues result)
  /\ valid result = false
  /\ forall (other : json) (path : string) (x : ValidationIssue),
      In x (validatePermissions other path) ->
      severity x = SevError ->
      exists field', message x = (field' ++ " permission MUST include tokenIds field")%string.
Proof.
  intros Hparse Hsite Hpermissions Hfield Hperms Hk Hobject Htimes Hids result.
  pose proof (get_Some_is_object _ _ _ Hperms) as Hp.
  assert (Hin : In (mkIssue SevError (field ++ " permission MUST include tokenIds field")
                      (Some (permissionPath i field k)))
                   (issues result)).
  { apply (update_issue_reported _ _ i value _ Hparse Hsite);
      [exact (get_Some_is_object _ _ _ Hpermissions)|].
    unfold validateUniversalUpdateCollection.
    do 5 (apply in_or_app; right).
    rewrite Hpermissions.
    assert (Htruthy : truthy permissions = true).
    { unfold is_object in Hp. now apply andb_prop in Hp. }
    rewrite Htruthy. unfold validatePermissions. rewrite Hp. cbn [negb].
    apply in_or_app. left. apply in_flat_map. exists field. split; [exact Hfield|].
    rewrite Hperms. apply (In_forEach _ perms k perm _ Hk).
    rewrite Hobject, Htimes, Hids. left. reflexivity. }
  split; [exact Hin|]. split; [exact (error_issue_invalid _ _ Hin eq_refl)|].
  intros other path x Hx Hsev. unfold validatePermissions in Hx.
  destruct (is_object other); cbn [negb] in Hx; [|contradiction].
  apply in_app_or in Hx. destruct Hx as [Hx|Hx].
  - apply in_flat_map in Hx. destruct Hx as (field' & _ & Hx). exists field'.
    destruct (get other field') as [[| | | |perms'|]|]; try contradiction.
    unfold forEach in Hx. revert Hx. generalize 0.
    induction perms' as [|perm' perms' IH]; intros n Hx; [contradiction|].
    cbn [forEach_from] in Hx. apply in_app_or in Hx. destruct Hx as [Hx|Hx].
    + destruct (negb (is_object perm')); [contradiction|].
      destruct (_ && _); [|contradiction].
      destruct Hx as [<-|[]]. reflexivity.
    + exact (IH _ Hx).
  - exfalso. apply in_flat_map in Hx. destruct Hx as ([field' v] & _ & Hx).
    destruct v as [| | | |[|perm' [|]]|]; try contradiction.
    destruct (_ && _); [|contradiction].
    destruct Hx as [<-|[]]. discriminate Hsev.
Qed.

(** X29.  In a [MsgTransferTokens] message a [creator] that is not a
    string with at least one character gives an error, and so does a
    [transfers] that is not an array; either makes the transaction
    invalid.  When both are present the rules of the message give
    warnings only: a transfer without [prioritizedApprovals] does not
    make the transaction invalid by itself. *)
Theorem transfer_tokens_rules
        (transactionJson : string) (tx : json) (i : nat) (value : json) :
  JSON_parse transactionJson = Some tx ->
  value_of_message tx i MsgTransferTokens value ->
  is_object value = true ->
  let result := handleValidateTransaction transactionJson in
  ((forall creator, get value "creator" = Some (JString creator) -> creator = EmptyString) ->
   In (mkIssue SevError
         ("MsgTransferTokens missing " ++ dquote ++ "creator" ++ dquote ++ " field")
         (Some (messagePath i ++ ".value.creator")%string))
      (issues result)
   /\ valid result = false)
  /\ ((forall transfers, get value "transfers" <> Some (JArray transfers)) ->
      In (mkIssue SevError
            ("MsgTransferTokens missing " ++ dquote ++ "transfers" ++ dquote ++ " array")
            (Some (messagePath i ++ ".value.transfers")%string))
         (issues result)
      /\ valid result = false)
  /\ (forall creator transfers,
         get value "creator" = Some (JString creator) ->
         creator <> EmptyString ->
         get value "transfers" = Some (JArray transfers) ->
         Forall (fun x => severity x = SevWarning)
                (validateTransferTokens value (messagePath i))).
Proof.
  intros Hparse (messages & msg & Hm & Hnth & Htype & Hvalue) Hobject result.
  assert (Hrep : forall x,
             In x (validateTransferTokens value (messagePath i)) ->
             severity x = SevError ->
             In x (issues result) /\ valid result = false).
  { intros x Hx Hsev.
    assert (Hin : In x (issues result)).
    { apply (message_issue_reported _ _ _ _ _ _ Hparse Hm Hnth).
      unfold validateMessage.
      rewrite (get_Some_is_object _ _ _ Hvalue), Hvalue, Hobject. simpl negb. cbv iota.
      apply in_or_app. right. rewrite Htype.
      apply in_or_app. right.
      unfold is_string. rewrite String.eqb_refl. exact Hx. }
    split; [exact Hin|exact (error_issue_invalid _ _ Hin Hsev)]. }
  split; [|split].
  - intros Hcreator. apply Hrep; [|reflexivity].
    unfold validateTransferTokens. apply in_or_app. left.
    destruct (get value "creator") as [[| | |creator| |]|]; try (left; reflexivity).
    rewrite (Hcreator creator eq_refl). left. reflexivity.
  - intros Htransfers. apply Hrep; [|reflexivity].
    unfold validateTransferTokens. apply in_or_app. right.
    destruct (get value "transfers") as [[| | | |transfers|]|]; try (left; reflexivity).
    now destruct (Htransfers transfers).
  - intros creator transfers Hcreator Hne Htransfers.
    unfold validateTransferTokens. rewrite Hcreator, Htransfers.
    destruct (String.eqb_spec creator EmptyString) as [->|_]; [contradiction|].
    cbn [app]. clear Htransfers. unfold forEach. generalize 0.
    induction transfers as [|transfer transfers IH]; intros n; [constructor|].
    cbn [forEach_from]. apply Forall_app. split; [|apply IH].
    destruct (negb (is_object transfer)); [constructor|].
    destruct (negb (has transfer "prioritizedApprovals")); constructor;
      [reflexivity|constructor].
Qed.

(** X30.  In a collection update a [creator] that is not a string with
    at least one character gives an error, and so does a missing
    [collectionId]; either makes the transaction invalid.  A creator
    that does not start with [bb1] gives a warning, not an error. *)
Theorem update_collection_needs_creator_and_id
        (transactionJson : string) (tx : json) (i : nat) (value : json) :
  JSON_parse transactionJson = Some tx ->
  value_of_message tx i MsgUniversalUpdateCollection value ->
  is_object value = true ->
  let result := handleValidateTransaction transactionJson in
  ((forall creator, get value "creator" = Some (JString creator) -> creator = EmptyString) ->
   In (mkIssue SevError
         ("MsgUniversalUpdateCollection missing " ++ dquote ++ "creator" ++ dquote ++ " field")
         (Some (messagePath i ++ ".value.creator")%string))
      (issues result)
   /\ valid result = false)
  /\ (has value "collectionId" = false ->
      In (mkIssue SevError
            ("MsgUniversalUpdateCollection missing " ++ dquote ++ "collectionId" ++ dquote
               ++ " field")
            (Some (messagePath i ++ ".value.collectionId")%string))
         (issues result)
      /\ valid result = false)
  /\ (forall creator,
         get value "creator" = Some (JString creator) ->
         creator <> EmptyString ->
         String_startsWith creator "bb1" = false ->
         In (mkIssue SevWarning
               ("Creator address should start with " ++ dquote ++ "bb1" ++ dquote)
               (Some (messagePath i ++ ".value.creator")%string))
            (issues result)).
Proof.
  intros Hparse Hsite Hobject result.
  assert (Hrep : forall x,
             In x (validateUniversalUpdateCollection value (messagePath i)) ->
             In x (issues result)).
  { intros x Hx. exact (update_issue_reported _ _ i value x Hparse Hsite Hobject Hx). }
  split; [|split].
  - intros Hcreator.
    assert (Hin : In (mkIssue SevError
                        ("MsgUniversalUpdateCollection missing " ++ dquote ++ "creator"
                           ++ dquote ++ " field")
                        (Some (messagePath i ++ ".value.creator")%string))
                     (issues result)).
    { apply Hrep. unfold validateUniversalUpdateCollection. apply in_or_app. left.
      destruct (get value "creator") as [[| | |creator| |]|]; try (left; reflexivity).
      rewrite (Hcreator creator eq_refl). left. reflexivity. }
    split; [exact Hin|exact (error_issue_invalid _ _ Hin eq_refl)].
  - intros Hid.
    assert (Hin : In (mkIssue SevError
                        ("MsgUniversalUpdateCollection missing " ++ dquote ++ "collectionId"
                           ++ dquote ++ " field")
                        (Some (messagePath i ++ ".value.collectionId")%string))
                     (issues result)).
    { apply Hrep. unfold validateUniversalUpdateCollection.
      apply in_or_app. right. apply in_or_app. left.
      rewrite Hid. left. reflexivity. }
    split; [exact Hin|exact (error_issue_invalid _ _ Hin eq_refl)].
  - intros creator Hcreator Hne Hbb.
    apply Hrep. unfold validateUniversalUpdateCollection. apply in_or_app. left.
    rewrite Hcreator, Hbb.
    destruct (String.eqb_spec creator EmptyString) as [->|_]; [contradiction|].
    left. reflexivity.
Qed.

End MessageRules.

(* ================================================================== *)
(** * Properties of the builder tools *)
(* ================================================================== *)

Lemma when_given_Some {A : Type} (s : string) (f : string -> A) (otherwise : A) :
  s <> EmptyString -> when_given (Some s) f otherwise = f s.
Proof.
  intros Hs. unfold when_given. destruct (String.eqb_spec s EmptyString); [contradiction|reflexivity].
Qed.

(** The cases of an optional string: absent or empty, or a text that is
    not empty. *)
Lemma when_given_cases (x : option string) :
  (forall (A : Type) (f : string -> A) (otherwise : A), when_given x f otherwise = otherwise)
  \/ (exists s, forall (A : Type) (f : string -> A) (otherwise : A),
         when_given x f otherwise = f s).
Proof.
  destruct x as [s|]; [|left; reflexivity].
  destruct (String.eqb_spec s EmptyString) as [->|Hs]; [left; reflexivity|].
  right. exists s. intros A f otherwise. now apply when_given_Some.
Qed.

Section BuilderFacts.
Context {E : Engine}.

Ltac given_cases x :=
  let s := fresh "s" in
  let H := fresh "H" in
  destruct (when_given_cases x) as [H|[s H]].

Lemma handleBuildFungibleToken_issues (input : BuildFungibleToken.BuildFungibleTokenInput)
      (tx : json) :
  BuildFungibleToken.transaction (BuildFungibleToken.handleBuildFungibleToken input) = Some tx ->
  exists message,
    tx = JObject [("messages", JArray [message])]
    /\ validateParsed tx [message] = [].
Proof.
  unfold BuildFungibleToken.handleBuildFungibleToken.
  destruct (String_startsWith (BuildFungibleToken.creatorAddress input) "bb1") eqn:Hbb;
    [|discriminate].
  destruct (startsWith_spec _ _ Hbb) as [tail Hcreator].
  destruct input as [creator name symbol description totalSupply mintPrice mintPriceDenom
                       maxPerUser transferable swappable decimals].
  cbn [BuildFungibleToken.creatorAddress] in Hcreator. subst creator.
  cbv beta iota zeta delta
    [negb BuildFungibleToken.transaction BuildFungibleToken.creatorAddress
       BuildFungibleToken.totalSupply BuildFungibleToken.mintPrice
       BuildFungibleToken.mintPriceDenom BuildFungibleToken.maxPerUser
       BuildFungibleToken.transferable BuildFungibleToken.swappable
       BuildFungibleToken.decimals BuildFungibleToken.symbol].
  remember (BuildFungibleToken.buildMintApproval ("bb1" ++ tail) mintPrice mintPriceDenom
              maxPerUser totalSupply) as mint eqn:Hmint.
  intros [= <-]. eexists. split; [reflexivity|].
  unfold BuildFungibleToken.buildMintApproval, or_else in Hmint.
  given_cases mintPrice; given_cases mintPriceDenom; given_cases maxPerUser;
    given_cases totalSupply;
    repeat match goal with
      | Hw : forall A f otherwise, when_given _ f otherwise = _ |- _ =>
          rewrite !Hw in Hmint; cbv beta in Hmint
      end;
    try match type of Hmint with
      | context [String.eqb ?s "0"] => destruct (String.eqb s "0")
      end;
    destruct transferable as [[|]|]; destruct (flag swappable);
    subst mint; vm_compute; reflexivity.
Qed.

(** What the validator answers for a text that parses to an object with
    a [messages] array. *)
Lemma handleValidateTransaction_parsed (text : string) (entries : list (string * json))
      (messages : list json) :
  JSON_parse text = Some (JObject entries) ->
  get (JObject entries) "messages" = Some (JArray messages) ->
  handleValidateTransaction text
  = mkResult (List.length (filter is_error (validateParsed (JObject entries) messages)) =? 0)%nat
      (validateParsed (JObject entries) messages).
Proof.
  intros Hparse Hmessages. unfold handleValidateTransaction.
  rewrite Hparse.
  change (negb (is_object (JObject entries))) with false. cbv iota.
  rewrite Hmessages. reflexivity.
Qed.

Lemma handleBuildNFTCollection_issues (input : BuildNFTCollection.BuildNFTCollectionInput)
      (tx : json) :
  BuildNFTCollection.transaction (BuildNFTCollection.handleBuildNFTCollection input) = Some tx ->
  String_startsWith (BuildNFTCollection.creatorAddress input) "bb1" = true
  /\ (exists n, parseInt (BuildNFTCollection.totalSupply input) = Some n /\ (0 < n)%Z)
  /\ exists message,
      tx = JObject [("messages", JArray [message])]
      /\ validateParsed tx [message] = [].
Proof.
  unfold BuildNFTCollection.handleBuildNFTCollection.
  destruct (String_startsWith (BuildNFTCollection.creatorAddress input) "bb1") eqn:Hbb;
    [|discriminate].
  destruct (startsWith_spec _ _ Hbb) as [tail Hcreator].
  destruct input as [creator name description totalSupply mintPrice mintPriceDenom
                       maxPerUser tradable tradingCurrency].
  cbn [BuildNFTCollection.creatorAddress BuildNFTCollection.totalSupply] in *.
  subst creator. cbv beta iota zeta delta [negb].
  destruct (parseInt totalSupply) as [n|]; [|discriminate].
  destruct (Z.leb_spec n 0) as [|Hpos]; [discriminate|].
  cbv beta iota zeta delta
    [BuildNFTCollection.transaction BuildNFTCollection.creatorAddress
       BuildNFTCollection.totalSupply BuildNFTCollection.mintPrice
       BuildNFTCollection.mintPriceDenom BuildNFTCollection.maxPerUser
       BuildNFTCollection.tradable BuildNFTCollection.tradingCurrency].
  remember (BuildNFTCollection.buildMintApproval ("bb1" ++ tail) totalSupply mintPrice
              mintPriceDenom maxPerUser) as mint eqn:Hmint.
  intros [= <-]. split; [reflexivity|]. split; [exists n; now split|].
  eexists. split; [reflexivity|].
  unfold BuildNFTCollection.buildMintApproval in Hmint.
  given_cases mintPrice; given_cases mintPriceDenom;
    repeat match goal with
      | Hw : forall A f otherwise, when_given _ f otherwise = _ |- _ =>
          rewrite !Hw in Hmint; cbv beta in Hmint
      end;
    destruct (flag tradable); subst mint; vm_compute; reflexivity.
Qed.

Lemma getDecimals_ibc (denom : string) (cache : Cache) :
  cache_reachable cache ->
  String_startsWith denom "ibc/" = true ->
  fst (getDecimals denom cache) = Some 6%Z.
Proof.
  intros Hcache Hibc. unfold getDecimals, getCoinDetails.
  destruct (registry_entry denom MAINNET_COINS_REGISTRY) as [coinDetails|] eqn:Hentry.
  { apply registry_entry_In in Hentry. cbv [MAINNET_COINS_REGISTRY In] in Hentry.
    repeat destruct Hentry as [Hentry|Hentry]; try contradiction;
      injection Hentry as <- <-; first [discriminate Hibc|reflexivity]. }
  pose proof (Array_includes_In Object_prototype_names denom) as Hnames.
  destruct (Array_includes Object_prototype_names denom) eqn:Hinc.
  - assert (Hin : In denom Object_prototype_names) by now apply Hnames.
    exfalso. clear - Hin Hibc. cbv [Object_prototype_names In] in Hin.
    repeat destruct Hin as [<-|Hin]; try discriminate Hibc. exact Hin.
  - rewrite (lookupTokenInfo_pair denom cache Hcache).
    destruct (fst (lookupTokenInfo denom cache)) as [tokenInfo|] eqn:Hlookup.
    + destruct (seeded_or_synthetic_consistent _ _ _ Hcache Hlookup) as (_ & _ & Hdec).
      cbn [fst]. rewrite Hdec. reflexivity.
    + rewrite Hibc. reflexivity.
Qed.

(** The first step of the smart-token builder gives a denomination that
    starts with [ibc/], or nothing when the lookup finds nothing. *)
Lemma resolve_result (input : BuildSmartToken.BuildSmartTokenInput) (cache : Cache) :
  cache_reachable cache ->
  match fst (BuildSmartToken.resolve input cache) with
  | Some (ibcDenom, tokenSymbol) =>
      String_startsWith ibcDenom "ibc/" = true
      /\ (String_startsWith (BuildSmartToken.input_ibcDenom input) "ibc/" = true
          \/ fst (lookupTokenInfo (BuildSmartToken.input_ibcDenom input) cache) <> None)
  | None =>
      String_startsWith (BuildSmartToken.input_ibcDenom input) "ibc/" = false
      /\ fst (lookupTokenInfo (BuildSmartToken.input_ibcDenom input) cache) = None
  end
  /\ cache_reachable (snd (BuildSmartToken.resolve input cache)).
Proof.
  intros Hcache. unfold BuildSmartToken.resolve.
  set (query := BuildSmartToken.input_ibcDenom input).
  destruct (String_startsWith query "ibc/") eqn:Hibc; cbn [negb].
  { split; [split; [exact Hibc|left; reflexivity]|exact Hcache]. }
  unfold resolveIbcDenom. rewrite Hibc.
  assert (Hagain : lookupTokenInfo query (Some seededTokenMap)
                   = (fst (lookupTokenInfo query cache), Some seededTokenMap)).
  { rewrite (lookupTokenInfo_pair query (Some seededTokenMap) reachable_seeded).
    rewrite <- (lookupTokenInfo_any_cache query cache _ Hcache reachable_seeded).
    reflexivity. }
  rewrite (lookupTokenInfo_pair query cache Hcache).
  destruct (fst (lookupTokenInfo query cache)) as [[sym denom dec b d]|] eqn:Hlookup;
    cbv beta iota; rewrite Hagain.
  - destruct (seeded_or_synthetic_consistent _ _ _ Hcache Hlookup) as (Hdenom & _).
    cbn [ibcDenom] in *. unfold when_given.
    destruct (String.eqb denom EmptyString);
      (split; [split; [exact Hdenom|right; discriminate]|exact reachable_seeded]).
  - split; [now split|exact reachable_seeded].
Qed.



Lemma build_issues (input : BuildSmartToken.BuildSmartTokenInput)
      (ibcDenom tokenSymbol rest : string) (decimals : number) (tail : string) (tx : json) :
  BuildSmartToken.creatorAddress input = ("bb1" ++ tail)%string ->
  BuildSmartToken.transaction
    (BuildSmartToken.build input ibcDenom tokenSymbol ("bb1" ++ rest)%string decimals) = Some tx ->
  exists message placeholders,
    tx = JObject [("messages", JArray [message]); ("metadataPlaceholders", placeholders)]
    /\ validateParsed tx [message] = [unbackingIssue ("bb1" ++ rest)%string].
Proof.
  intros Hcreator.
  destruct input as [denom creator name symbol description imageUrl dailyWithdrawLimit
                       totalWithdrawLimit requires2FA twoFACollectionId swappable immutable].
  cbn [BuildSmartToken.creatorAddress] in Hcreator. subst creator.
  cbv beta iota zeta delta
    [BuildSmartToken.build BuildSmartToken.transaction BuildSmartToken.creatorAddress
       BuildSmartToken.name BuildSmartToken.input_symbol BuildSmartToken.description
       BuildSmartToken.imageUrl BuildSmartToken.dailyWithdrawLimit
       BuildSmartToken.totalWithdrawLimit BuildSmartToken.requires2FA
       BuildSmartToken.twoFACollectionId BuildSmartToken.swappable
       BuildSmartToken.immutable].
  remember (BuildSmartToken.buildUnbackingApproval ("bb1" ++ rest)%string dailyWithdrawLimit
              totalWithdrawLimit requires2FA twoFACollectionId) as unbacking eqn:Hunbacking.
  intros [= <-]. eexists. eexists. split; [reflexivity|].
  cbv beta iota zeta delta [BuildSmartToken.buildUnbackingApproval or_else] in Hunbacking.
  given_cases dailyWithdrawLimit; given_cases totalWithdrawLimit;
    given_cases twoFACollectionId;
    repeat match goal with
      | Hw : forall A f otherwise, when_given _ f otherwise = _ |- _ =>
          rewrite !Hw in Hunbacking; cbv beta in Hunbacking
      end;
    destruct (flag requires2FA); destruct (flag swappable); destruct (flag immutable);
    subst unbacking; vm_compute;
    repeat match goal with
      | |- context [match ?c with true => _ | false => _ end] => destruct c
      end;
    reflexivity.
Qed.



(** X22.  Every transaction the build_fungible_token tool returns passes
    the validator: for a JSON text of the transaction the validator
    answers valid, with no issue at all. *)
Theorem fungible_token_passes_validation
        (input : BuildFungibleToken.BuildFungibleTokenInput) (tx : json) (text : string) :
  BuildFungibleToken.transaction (BuildFungibleToken.handleBuildFungibleToken input) = Some tx ->
  JSON_parse text = Some tx ->
  handleValidateTransaction text = mkResult true [].
Proof.
  intros Htx Hparse.
  destruct (handleBuildFungibleToken_issues input tx Htx) as (message & -> & Hissues).
  rewrite (handleValidateTransaction_parsed text _ [message] Hparse eq_refl).
  rewrite Hissues. reflexivity.
Qed.

(** X23.  The build_nft_collection tool returns a transaction only when
    the creator starts with [bb1] and the total supply text begins,
    after white space, with a positive integer; the text itself may go
    on after the digits.  Every transaction it returns passes the
    validator with no issue at all. *)
Theorem nft_collection_passes_validation
        (input : BuildNFTCollection.BuildNFTCollectionInput) (tx : json) (text : string) :
  BuildNFTCollection.transaction (BuildNFTCollection.handleBuildNFTCollection input) = Some tx ->
  JSON_parse text = Some tx ->
  String_startsWith (BuildNFTCollection.creatorAddress input) "bb1" = true
  /\ (exists n, parseInt (BuildNFTCollection.totalSupply input) = Some n /\ (0 < n)%Z)
  /\ handleValidateTransaction text = mkResult true [].
Proof.
  intros Htx Hparse.
  destruct (handleBuildNFTCollection_issues input tx Htx)
    as (Hcreator & Hsupply & message & -> & Hissues).
  split; [exact Hcreator|]. split; [exact Hsupply|].
  rewrite (handleValidateTransaction_parsed text _ [message] Hparse eq_refl).
  rewrite Hissues. reflexivity.
Qed.

(** What [handleBuildSmartToken] returns, step by step. *)
Lemma handleBuildSmartToken_cases (input : BuildSmartToken.BuildSmartTokenInput)
      (cache : Cache) :
  cache_reachable cache ->
  let result := fst (BuildSmartToken.handleBuildSmartToken input cache) in
  (String_startsWith (BuildSmartToken.input_ibcDenom input) "ibc/" = false
   /\ fst (lookupTokenInfo (BuildSmartToken.input_ibcDenom input) cache) = None
   /\ result
      = BuildSmartToken.failure
          ("Could not resolve " ++ dquote ++ BuildSmartToken.input_ibcDenom input ++ dquote
             ++ " to IBC denom. Use known symbol (USDC, ATOM, OSMO) or full IBC denom."))
  \/ (exists ibcDenom tokenSymbol rest,
         (String_startsWith (BuildSmartToken.input_ibcDenom input) "ibc/" = true
          \/ fst (lookupTokenInfo (BuildSmartToken.input_ibcDenom input) cache) <> None)
         /\ String_startsWith ibcDenom "ibc/" = true
         /\ generateAliasAddressForIBCBackedDenom ibcDenom = Return ("bb1" ++ rest)%string
         /\ result
            = if negb (String_startsWith (BuildSmartToken.creatorAddress input) "bb1") then
                BuildSmartToken.failure
                  ("Creator address must start with " ++ dquote ++ "bb1" ++ dquote)
              else if flag (BuildSmartToken.requires2FA input)
                      && negb (when_given (BuildSmartToken.twoFACollectionId input)
                                 (fun _ => true) false) then
                BuildSmartToken.failure "twoFACollectionId is required when requires2FA is true"
              else BuildSmartToken.build input ibcDenom tokenSymbol ("bb1" ++ rest)%string
                     (Some 6%Z)).
Proof.
  intros Hcache result. subst result. unfold BuildSmartToken.handleBuildSmartToken.
  destruct (resolve_result input cache Hcache) as (Hresolve & Hcache').
  destruct (BuildSmartToken.resolve input cache) as [[[ibcDenom tokenSymbol]|] cache'];
    cbn [fst snd] in *.
  - right.
    destruct (generateAlias_digest "tokenization" [Byte.x12] [Buffer_from_utf8 ibcDenom])
      as (digest & _ & _ & Hgen).
    assert (Hgen' : generateAliasAddressForIBCBackedDenom ibcDenom
                    = Return (payloadAddress digest)) by exact Hgen.
    rewrite Hgen'. unfold payloadAddress.
    set (rest := (charsOf (toWords digest) ++ charsOf (bbChecksum (toWords digest)))%string).
    exists ibcDenom, tokenSymbol, rest.
    destruct Hresolve as (Hresolve & Hfound).
    split; [exact Hfound|]. split; [exact Hresolve|]. split; [exact Hgen'|].
    pose proof (getDecimals_ibc ibcDenom cache' Hcache' Hresolve) as Hdecimals.
    destruct (getDecimals ibcDenom cache') as [decimals cache''].
    cbn [fst] in Hdecimals. subst decimals.
    destruct (negb (String_startsWith (BuildSmartToken.creatorAddress input) "bb1"));
      [reflexivity|].
    destruct (flag (BuildSmartToken.requires2FA input)
              && negb (when_given (BuildSmartToken.twoFACollectionId input)
                         (fun _ => true) false)); reflexivity.
  - left. destruct Hresolve as (Hibc & Hlookup). now repeat split.
Qed.

(** X24.  Every transaction the build_smart_token tool returns is
    rejected by the validator.  The denomination in the summary starts
    with [ibc/], the backing address is the one derived from it, and the
    decimals are 6; the validator reports exactly one issue, the error
    that the [fromListId] of the unbacking approval, [!Mint:] followed
    by the backing address, is not a valid list identifier. *)
Theorem smart_token_fails_validation
        (input : BuildSmartToken.BuildSmartTokenInput) (cache : Cache)
        (tx : json) (text : string) :
  cache_reachable cache ->
  BuildSmartToken.transaction (fst (BuildSmartToken.handleBuildSmartToken input cache))
  = Some tx ->
  JSON_parse text = Some tx ->
  exists summary,
    BuildSmartToken.summary (fst (BuildSmartToken.handleBuildSmartToken input cache))
    = Some summary
    /\ String_startsWith (BuildSmartToken.summary_ibcDenom summary) "ibc/" = true
    /\ generateAliasAddressForIBCBackedDenom (BuildSmartToken.summary_ibcDenom summary)
       = Return (BuildSmartToken.summary_backingAddress summary)
    /\ BuildSmartToken.summary_decimals summary = Some 6%Z
    /\ handleValidateTransaction text
       = mkResult false [unbackingIssue (BuildSmartToken.summary_backingAddress summary)].
Proof.
  intros Hcache Htx Hparse.
  destruct (handleBuildSmartToken_cases input cache Hcache)
    as [(_ & _ & Hresult)|(ibcDenom & tokenSymbol & rest & _ & Hibc & Hgen & Hresult)];
    rewrite Hresult in *; [discriminate Htx|].
  destruct (String_startsWith (BuildSmartToken.creatorAddress input) "bb1") eqn:Hbb;
    cbn [negb] in *; [|discriminate Htx].
  destruct (flag (BuildSmartToken.requires2FA input)
            && negb (when_given (BuildSmartToken.twoFACollectionId input)
                       (fun _ => true) false)); [discriminate Htx|].
  destruct (startsWith_spec _ _ Hbb) as [tail Hcreator].
  destruct (build_issues input ibcDenom tokenSymbol rest (Some 6%Z) tail tx Hcreator Htx)
    as (message & placeholders & -> & Hissues).
  eexists. split; [reflexivity|]. cbn [BuildSmartToken.summary_ibcDenom
    BuildSmartToken.summary_backingAddress BuildSmartToken.summary_decimals].
  split; [exact Hibc|]. split; [exact Hgen|]. split; [reflexivity|].
  rewrite (handleValidateTransaction_parsed text _ [message] Hparse eq_refl).
  rewrite Hissues. reflexivity.
Qed.

(** X25.  The build_smart_token tool succeeds exactly when the
    denomination starts with [ibc/] or the lookup finds it, the creator
    starts with [bb1], and a collection is given when 2FA is required.
    Its error is then one of three messages: the derivation of the
    backing address never fails. *)
Theorem handleBuildSmartToken_accepts
        (input : BuildSmartToken.BuildSmartTokenInput) (cache : Cache) :
  cache_reachable cache ->
  let result := fst (BuildSmartToken.handleBuildSmartToken input cache) in
  (BuildSmartToken.success result = true
   <-> (String_startsWith (BuildSmartToken.input_ibcDenom input) "ibc/" = true
        \/ fst (lookupTokenInfo (BuildSmartToken.input_ibcDenom input) cache) <> None)
       /\ String_startsWith (BuildSmartToken.creatorAddress input) "bb1" = true
       /\ (flag (BuildSmartToken.requires2FA input) = true ->
           exists collectionId,
             BuildSmartToken.twoFACollectionId input = Some collectionId
             /\ collectionId <> EmptyString))
  /\ (BuildSmartToken.success result = false ->
      In (BuildSmartToken.error result)
         [Some ("Could not resolve " ++ dquote ++ BuildSmartToken.input_ibcDenom input
                  ++ dquote
                  ++ " to IBC denom. Use known symbol (USDC, ATOM, OSMO) or full IBC denom.")%string;
          Some ("Creator address must start with " ++ dquote ++ "bb1" ++ dquote)%string;
          Some "twoFACollectionId is required when requires2FA is true"]).
Proof.
  intros Hcache result. subst result.
  assert (Hgiven : forall x : option string,
             when_given x (fun _ => true) false = true
             <-> exists s, x = Some s /\ s <> EmptyString).
  { intros [s|]; unfold when_given.
    - destruct (String.eqb_spec s EmptyString) as [->|Hs].
      + split; [discriminate|]. intros (s & [= <-] & Hs). now contradiction Hs.
      + split; [|reflexivity]. intros _. exists s. now split.
    - split; [discriminate|]. intros (s & Hs & _). discriminate Hs. }
  destruct (handleBuildSmartToken_cases input cache Hcache)
    as [(Hibc & Hlookup & ->)|(ibcDenom & tokenSymbol & rest & Hfound & _ & _ & ->)].
  - split; [|intros _; left; reflexivity].
    split; [discriminate|]. intros ([H|H] & _); [congruence|contradiction].
  - destruct (String_startsWith (BuildSmartToken.creatorAddress input) "bb1") eqn:Hbb;
      cbn [negb].
    + pose proof (Hgiven (BuildSmartToken.twoFACollectionId input)) as Hid.
      destruct (flag (BuildSmartToken.requires2FA input)) eqn:H2fa; cbn [andb].
      * destruct (when_given (BuildSmartToken.twoFACollectionId input) (fun _ => true) false);
          cbn [negb].
        -- split; [|discriminate]. split; [|reflexivity]. intros _.
           split; [exact Hfound|]. split; [reflexivity|]. intros _. now apply Hid.
        -- split; [|intros _; right; right; left; reflexivity].
           split; [discriminate|]. intros (_ & _ & H).
           apply Hid in H; [discriminate H|reflexivity].
      * split; [|discriminate]. split; [|reflexivity]. intros _.
        split; [exact Hfound|]. split; [reflexivity|]. discriminate.
    + split; [|intros _; right; left; reflexivity].
      split; [discriminate|]. intros (_ & H & _). discriminate H.
Qed.

End BuilderFacts.

(* ================================================================== *)
(** * The statements on concrete inputs *)
(* ================================================================== *)

Lemma address_conversion_round_trip_witness :
  exists cosmosAddress,
    ethToCosmos "0x0123456789abcdefABCDEF0123456789abcdef01" = Return cosmosAddress
    /\ cosmosToEth cosmosAddress = Return "0x0123456789abcdefabcdef0123456789abcdef01".
Proof.
  apply (proj1 address_conversion_round_trip "0x0123456789abcdefABCDEF0123456789abcdef01");
    vm_compute; reflexivity.
Defined.

(** The claim C6 as stated fails in its second half.  The upper-case
    form of an address is a Bech32 text with a payload of 20 bytes, and
    [cosmosToEth] rejects it.  A text with the prefix [bb1] instead of
    [bb] is accepted, and the way back gives a text that differs from it
    by more than letter case. *)
Lemma address_round_trip_not_for_every_bech32 :
  (bech32_decode upperCaseAddress = Return ("bb", repeat 0%Z 32)
   /\ fromWords (repeat 0%Z 32) = Return (repeat 0%Z 20)
   /\ cosmosToEth upperCaseAddress
      = Throw "Invalid BitBadges address: must start with bb1")
  /\ (bech32_decode longPrefixAddress = Return ("bb1", repeat 0%Z 32)
      /\ cosmosToEth longPrefixAddress
         = Return "0x0000000000000000000000000000000000000000"
      /\ ethToCosmos "0x0000000000000000000000000000000000000000"
         = Return "bb1qqqqqqqqqqqqqqqqqqqqqqqqqqqqqqqqs7gvmv"
      /\ String_toLowerCase "bb1qqqqqqqqqqqqqqqqqqqqqqqqqqqqqqqqs7gvmv"
         <> String_toLowerCase longPrefixAddress).
Proof.
  split; [repeat split; vm_compute; reflexivity|].
  split; [vm_compute; reflexivity|]. split; [vm_compute; reflexivity|].
  split; [vm_compute; reflexivity|].
  intros H. vm_compute in H. discriminate H.
Qed.

(** The claim C1 as stated fails: for the denomination [ibc/X] there
    are two derivation keys, and the derived digest is not the digest
    over the single key made of the tag byte and the denomination. *)
Lemma ibc_alias_not_single_key :
  List.length (getAliasDerivationKeysForIBCBackedDenom "ibc/X") = 2
  /\ Module_ "tokenization" (getAliasDerivationKeysForIBCBackedDenom "ibc/X")
     = Return "5d8e7e7dca1ce55c221184c38e9b9257fc6cd90d7c0616cc2eca6293ba4872dd"
  /\ Buffer_toString_hex (singleKeyDigest "ibc/X")
     = "2ebb87adb545b84f095bf4d5d382140edc6870131440988a48520277a6b2cf78"
  /\ Module_ "tokenization" (getAliasDerivationKeysForIBCBackedDenom "ibc/X")
     <> Return (Buffer_toString_hex (singleKeyDigest "ibc/X")).
Proof.
  split; [reflexivity|]. split; [vm_compute; reflexivity|].
  split; [vm_compute; reflexivity|].
  intros H. vm_compute in H. discriminate H.
Qed.

Lemma lookupTokenInfo_unknown_ibc_witness :
  lookupTokenInfo "ibc/X" None
  = (Some (mkToken "UNKNOWN" "ibc/X" "6"
             "bb1tk88ulw2rnj4cgs3snpcaxuj2l7xekgd0srpdnpwef3f8wjgwtws96l0p6"
             "Unknown IBC Token"),
     Some seededTokenMap)
  /\ lookupTokenInfo "ibc/X" (Some seededTokenMap) = lookupTokenInfo "ibc/X" None.
Proof.
  assert (Hdenom : forall cache : Cache,
             cache_reachable cache ->
             lookupTokenInfo "ibc/X" cache
             = (Some (mkToken "UNKNOWN" "ibc/X" "6"
                        "bb1tk88ulw2rnj4cgs3snpcaxuj2l7xekgd0srpdnpwef3f8wjgwtws96l0p6"
                        "Unknown IBC Token"),
                Some seededTokenMap)).
  { intros cache Hcache.
    destruct (lookupTokenInfo_unknown_ibc "ibc/X" cache Hcache)
      as (backingAddress & Hgen & Hlookup & _).
    - vm_compute. reflexivity.
    - intros tokenInfo Hin. rewrite seededTokenMap_value in Hin.
      destruct Hin as [<- | [<- | [<- | []]]]; vm_compute; reflexivity.
    - reflexivity.
    - rewrite Hlookup. vm_compute in Hgen.
      injection Hgen as <-. reflexivity. }
  split.
  - apply Hdenom. left. reflexivity.
  - rewrite (Hdenom None) by (left; reflexivity).
    apply Hdenom. right. reflexivity.
Defined.

Lemma module_address_has_no_eth_form_witness :
  generateAlias "tokenization" [[Byte.x12]; Buffer_from_utf8 "ibc/X"]
  = Return "bb1tk88ulw2rnj4cgs3snpcaxuj2l7xekgd0srpdnpwef3f8wjgwtws96l0p6"
  /\ toEthAddress "bb1tk88ulw2rnj4cgs3snpcaxuj2l7xekgd0srpdnpwef3f8wjgwtws96l0p6"
     = Throw "Address is not a standard 20-byte address (may be a module-derived address)".
Proof.
  assert (H : generateAlias "tokenization" [[Byte.x12]; Buffer_from_utf8 "ibc/X"]
              = Return "bb1tk88ulw2rnj4cgs3snpcaxuj2l7xekgd0srpdnpwef3f8wjgwtws96l0p6")
    by (vm_compute; reflexivity).
  split; [exact H|].
  exact (proj1 (proj2 (module_address_has_no_eth_form _ _ _ _ H))).
Defined.

Lemma ethToCosmos_gives_standard_address_witness :
  ethToCosmos "0x0123456789abcdefABCDEF0123456789abcdef01"
  = Return "bb1qy352euf40x7l27dauqjx3t83x4ummcp55e783"
  /\ validateAddress "bb1qy352euf40x7l27dauqjx3t83x4ummcp55e783"
     = mkAddressValidation true ChainCosmos "bb1qy352euf40x7l27dauqjx3t83x4ummcp55e783"
         false None.
Proof.
  assert (H : ethToCosmos "0x0123456789abcdefABCDEF0123456789abcdef01"
              = Return "bb1qy352euf40x7l27dauqjx3t83x4ummcp55e783")
    by (vm_compute; reflexivity).
  split; [exact H|].
  exact (proj1 (proj2 (proj2 (ethToCosmos_gives_standard_address _ _ H)))).
Defined.

Lemma handleConvertAddress_does_not_check_hex_witness :
  exists convertedAddress,
    ConvertAddress.handleConvertAddress "0xgggggggggggggggggggggggggggggggggggggggg" "bitbadges"
    = ConvertAddress.mkResult true (Some "0xgggggggggggggggggggggggggggggggggggggggg")
        (Some convertedAddress) (Some "eth") (Some "bitbadges") None
    /\ bech32_decode convertedAddress = Return ("bb", []).
Proof.
  destruct (handleConvertAddress_does_not_check_hex
              "0xgggggggggggggggggggggggggggggggggggggggg" eq_refl eq_refl eq_refl)
    as (convertedAddress & Hresult & _ & Hdecode & _).
  exists convertedAddress. split; [exact Hresult|exact Hdecode].
Defined.

Lemma handleConvertAddress_module_address_witness :
  ConvertAddress.handleConvertAddress
    "bb1tk88ulw2rnj4cgs3snpcaxuj2l7xekgd0srpdnpwef3f8wjgwtws96l0p6" "eth"
  = ConvertAddress.mkResult true
      (Some "bb1tk88ulw2rnj4cgs3snpcaxuj2l7xekgd0srpdnpwef3f8wjgwtws96l0p6")
      (Some "0x5d8e7e7dca1ce55c221184c38e9b9257fc6cd90d7c0616cc2eca6293ba4872dd")
      (Some "bitbadges") (Some "eth") None.
Proof.
  apply (handleConvertAddress_module_address "tokenization" [Byte.x12]
           [Buffer_from_utf8 "ibc/X"]);
    vm_compute; reflexivity.
Defined.

Lemma handleValidateAddress_accepts_any_bech32_witness :
  ValidateAddress.handleValidateAddress longPrefixAddress
  = ValidateAddress.mkResult true true (Some "cosmos") (Some longPrefixAddress)
      (Some (ValidateAddress.mkDetails (Some "bb1") 42 "bech32")) None.
Proof.
  apply (handleValidateAddress_accepts_any_bech32 longPrefixAddress "bb1" (repeat 0%Z 32));
    vm_compute; reflexivity.
Defined.

Lemma lookupTokenInfo_backing_address_witness :
  generateAliasAddressForIBCBackedDenom
    "ibc/F082B65C88E4B6D5EF1DB243CDA1D331D002759E938A0F5CD3FFDC5D53B3E349"
  = Return "bb1a7m8394e8u98w8uwle49dds8caexmcvqwgcadtp264gvt28uygmsdlgm0a".
Proof.
  apply (lookupTokenInfo_backing_address "usdc" None
           (mkToken "USDC"
              "ibc/F082B65C88E4B6D5EF1DB243CDA1D331D002759E938A0F5CD3FFDC5D53B3E349" "6"
              "bb1a7m8394e8u98w8uwle49dds8caexmcvqwgcadtp264gvt28uygmsdlgm0a" "USDC")).
  - left. reflexivity.
  - vm_compute. reflexivity.
Defined.

Lemma lookupTokenInfo_ignores_case_witness :
  fst (lookupTokenInfo "Usdc" None)
  = Some (mkToken "USDC"
            "ibc/F082B65C88E4B6D5EF1DB243CDA1D331D002759E938A0F5CD3FFDC5D53B3E349" "6"
            "bb1a7m8394e8u98w8uwle49dds8caexmcvqwgcadtp264gvt28uygmsdlgm0a" "USDC").
Proof.
  apply (lookupTokenInfo_ignores_case "Usdc" None).
  - left. reflexivity.
  - rewrite seededTokenMap_value. left. vm_compute. reflexivity.
  - left. reflexivity.
Defined.

Lemma lookupTokenInfo_null_witness : fst (lookupTokenInfo "foo" None) = None.
Proof.
  apply (lookupTokenInfo_null "foo" None); [reflexivity|left; reflexivity|].
  rewrite seededTokenMap_value.
  split; [|split; [|reflexivity]]; intros H; vm_compute in H;
    repeat destruct H as [H|H]; first [discriminate H|exact H].
Defined.

Lemma resolveIbcDenom_result_witness :
  resolveIbcDenom "ibc/X" None = (Some "ibc/X", None)
  /\ (fst (resolveIbcDenom "foo" None) = None
      <-> String_startsWith "foo" "ibc/" = false /\ fst (lookupTokenInfo "foo" None) = None).
Proof.
  split.
  - apply (resolveIbcDenom_result "ibc/X" None); [left; reflexivity|reflexivity].
  - apply (resolveIbcDenom_result "foo" None). left. reflexivity.
Defined.

Lemma getDecimals_values_witness :
  fst (getDecimals "ibc/X" None) = Some 6%Z
  /\ fst (getDecimals "toString" None) = None.
Proof.
  split.
  - apply (getDecimals_values "ibc/X" None); [left; reflexivity|reflexivity].
  - apply (getDecimals_values "toString" None); [left; reflexivity|].
    vm_compute. tauto.
Defined.

Lemma handleLookupTokenInfo_result_witness :
  snd (LookupTokenInfo.handleLookupTokenInfo "foo" None) = Some seededTokenMap
  /\ LookupTokenInfo.success (fst (LookupTokenInfo.handleLookupTokenInfo "ibc/X" None)) = true.
Proof.
  split.
  - apply (handleLookupTokenInfo_result "foo" None). left. reflexivity.
  - apply (handleLookupTokenInfo_result "ibc/X" None); [left; reflexivity|reflexivity].
Defined.

Lemma handleGenerateBackingAddress_result_witness :
  GenerateBackingAddress.success
    (fst (GenerateBackingAddress.handleGenerateBackingAddress "foo" None)) = false
  <-> String_startsWith "foo" "ibc/" = false /\ fst (lookupTokenInfo "foo" None) = None.
Proof.
  apply (handleGenerateBackingAddress_result "foo" None). left. reflexivity.
Defined.

Lemma number_makes_invalid_witness :
  valid (handleValidateTransaction (quoted "{'messages':[],'fee':[1,{'gas':2.5}]}")) = false.
Proof.
  eapply (number_makes_invalid (quoted "{'messages':[],'fee':[1,{'gas':2.5}]}")).
  - vm_compute. reflexivity.
  - reflexivity.
  - vm_compute. lia.
Defined.

Lemma malformed_range_makes_invalid_witness :
  valid (handleValidateTransaction (quoted "{'messages':[],'fee':{'start':'1'}}")) = false.
Proof.
  eapply (malformed_range_makes_invalid (quoted "{'messages':[],'fee':{'start':'1'}}")).
  - vm_compute. reflexivity.
  - reflexivity.
  - reflexivity.
Defined.

Lemma fungible_token_passes_validation_witness :
  exists tx,
    BuildFungibleToken.transaction (BuildFungibleToken.handleBuildFungibleToken
                                      fungibleTokenInput) = Some tx
    /\ JSON_parse fungibleTokenText = Some tx
    /\ handleValidateTransaction fungibleTokenText = mkResult true [].
Proof.
  eexists. split; [vm_compute; reflexivity|].
  assert (Hparse : JSON_parse fungibleTokenText
                   = BuildFungibleToken.transaction
                       (BuildFungibleToken.handleBuildFungibleToken fungibleTokenInput))
    by (vm_compute; reflexivity).
  split; [exact Hparse|].
  exact (fungible_token_passes_validation fungibleTokenInput _ fungibleTokenText
           eq_refl Hparse).
Defined.

Lemma nft_collection_passes_validation_witness :
  exists tx,
    BuildNFTCollection.transaction (BuildNFTCollection.handleBuildNFTCollection
                                      nftCollectionInput) = Some tx
    /\ JSON_parse nftCollectionText = Some tx
    /\ handleValidateTransaction nftCollectionText = mkResult true [].
Proof.
  eexists. split; [vm_compute; reflexivity|].
  assert (Hparse : JSON_parse nftCollectionText
                   = BuildNFTCollection.transaction
                       (BuildNFTCollection.handleBuildNFTCollection nftCollectionInput))
    by (vm_compute; reflexivity).
  split; [exact Hparse|].
  exact (proj2 (proj2 (nft_collection_passes_validation nftCollectionInput _
                         nftCollectionText eq_refl Hparse))).
Defined.

Lemma smart_token_fails_validation_witness :
  exists tx,
    BuildSmartToken.transaction (fst (BuildSmartToken.handleBuildSmartToken
                                        smartTokenInput None)) = Some tx
    /\ JSON_parse smartTokenText = Some tx
    /\ handleValidateTransaction smartTokenText
       = mkResult false
           [unbackingIssue "bb1a7m8394e8u98w8uwle49dds8caexmcvqwgcadtp264gvt28uygmsdlgm0a"].
Proof.
  assert (Hparse : exists tx, JSON_parse smartTokenText = Some tx)
    by (eexists; vm_compute; reflexivity).
  destruct Hparse as [tx Hparse].
  assert (Htx : BuildSmartToken.transaction
                  (fst (BuildSmartToken.handleBuildSmartToken smartTokenInput None))
                = Some tx)
    by (rewrite <- Hparse; vm_compute; reflexivity).
  assert (Hsummary : exists ibcDenom symbol decimals features,
             BuildSmartToken.summary
               (fst (BuildSmartToken.handleBuildSmartToken smartTokenInput None))
             = Some (BuildSmartToken.mkSummary ibcDenom
                       "bb1a7m8394e8u98w8uwle49dds8caexmcvqwgcadtp264gvt28uygmsdlgm0a"
                       symbol decimals features))
    by (do 4 eexists; vm_compute; reflexivity).
  destruct Hsummary as (ibcDenom & symbol & decimals & features & Hsummary).
  exists tx. split; [exact Htx|]. split; [exact Hparse|].
  destruct (smart_token_fails_validation smartTokenInput None tx smartTokenText
              (or_introl eq_refl) Htx Hparse)
    as (summary & Hsummary' & _ & _ & _ & Hresult).
  rewrite Hsummary in Hsummary'. injection Hsummary' as <-. exact Hresult.
Defined.

Lemma handleBuildSmartToken_accepts_witness :
  BuildSmartToken.success (fst (BuildSmartToken.handleBuildSmartToken smartTokenInput None))
  = true.
Proof.
  apply (handleBuildSmartToken_accepts smartTokenInput None); [left; reflexivity|].
  split; [right; vm_compute; discriminate|]. split; [reflexivity|]. discriminate.
Defined.

Lemma address_normalisers_idempotent_witness :
  toBitBadgesAddress "0x0123456789abcdefABCDEF0123456789abcdef01"
  = Return "bb1qy352euf40x7l27dauqjx3t83x4ummcp55e783"
  /\ toBitBadgesAddress "bb1qy352euf40x7l27dauqjx3t83x4ummcp55e783"
     = Return "bb1qy352euf40x7l27dauqjx3t83x4ummcp55e783".
Proof.
  assert (H : toBitBadgesAddress "0x0123456789abcdefABCDEF0123456789abcdef01"
              = Return "bb1qy352euf40x7l27dauqjx3t83x4ummcp55e783")
    by (vm_compute; reflexivity).
  split; [exact H|].
  exact (proj2 (proj1 (address_normalisers_idempotent _ _) H)).
Defined.

Lemma handleConvertAddress_agrees_with_sdk_witness :
  ConvertAddress.handleConvertAddress "bb1qy352euf40x7l27dauqjx3t83x4ummcp55e783" "eth"
  = ConvertAddress.mkResult true (Some "bb1qy352euf40x7l27dauqjx3t83x4ummcp55e783")
      (Some "0x0123456789abcdefabcdef0123456789abcdef01") (Some "bitbadges") (Some "eth") None.
Proof.
  assert (H : ethToCosmos "0x0123456789abcdefABCDEF0123456789abcdef01"
              = Return "bb1qy352euf40x7l27dauqjx3t83x4ummcp55e783")
    by (vm_compute; reflexivity).
  exact (proj2 (proj1 (handleConvertAddress_agrees_with_sdk _ _) H)).
Defined.

Lemma approval_needs_list_ids_and_id_witness :
  isValidListId "!Mint:bb1x" = false
  /\ valid (handleValidateTransaction unbackingListIdText) = false.
Proof.
  split; [reflexivity|].
  unshelve refine (let H := approval_needs_list_ids_and_id
                              unbackingListIdText _ 0 0 _ _ _ _ _ _ _ in _);
    [shelve | shelve | shelve | shelve
    | by_evaluation | by_evaluation | by_evaluation | by_evaluation |].
  destruct H as (Hids & _).
  destruct (Hids "fromListId" "!Mint:bb1x") as (_ & Hvalid);
    [left; reflexivity|reflexivity|reflexivity|exact Hvalid].
Defined.

Lemma tokenMetadata_needs_tokenIds_witness :
  In (mkIssue SevError "tokenMetadata entry MUST include tokenIds field with UintRange array"
        (Some (tokenMetadataPath 0 0)))
     (issues (handleValidateTransaction tokenMetadataText))
  /\ valid (handleValidateTransaction tokenMetadataText) = false.
Proof.
  unshelve refine (let H := tokenMetadata_needs_tokenIds
                              tokenMetadataText _ 0 0 _ _ _ _ _ _ _ _ _ in _);
    [shelve | shelve | shelve | shelve
    | by_evaluation
    | do 2 eexists; repeat split; vm_compute; reflexivity
    | by_evaluation | by_evaluation | by_evaluation | by_evaluation |].
  destruct H as (Hin & Hvalid & _). split; [exact Hin|exact Hvalid].
Defined.

Lemma permission_needs_tokenIds_witness :
  In (mkIssue SevError "canUpdateValidTokenIds permission MUST include tokenIds field"
        (Some (permissionPath 0 "canUpdateValidTokenIds" 0)))
     (issues (handleValidateTransaction permissionText))
  /\ valid (handleValidateTransaction permissionText) = false.
Proof.
  unshelve refine (let H := permission_needs_tokenIds
                              permissionText _ 0 0 _ _ "canUpdateValidTokenIds" _ _
                              _ _ _ _ _ _ _ _ _ in _);
    [shelve | shelve | shelve | shelve | shelve
    | by_evaluation
    | do 2 eexists; repeat split; vm_compute; reflexivity
    | by_evaluation | left; reflexivity | by_evaluation | by_evaluation | by_evaluation
    | by_evaluation | by_evaluation |].
  destruct H as (Hin & Hvalid & _). split; [exact Hin|exact Hvalid].
Defined.

Lemma transfer_tokens_rules_witness :
  valid (handleValidateTransaction transferWithoutCreatorText) = false.
Proof.
  unshelve refine (let H := transfer_tokens_rules
                              transferWithoutCreatorText _ 0 _ _ _ _ in _);
    [shelve | shelve
    | by_evaluation
    | do 2 eexists; repeat split; vm_compute; reflexivity
    | by_evaluation |].
  destruct H as (Hcreator & _).
  destruct Hcreator as (_ & Hvalid); [|exact Hvalid].
  intros creator Hget. vm_compute in Hget. discriminate Hget.
Defined.

Lemma update_collection_needs_creator_and_id_witness :
  valid (handleValidateTransaction updateWithoutCollectionIdText) = false
  /\ In (mkIssue SevWarning
           ("Creator address should start with " ++ dquote ++ "bb1" ++ dquote)
           (Some (messagePath 0 ++ ".value.creator")%string))
        (issues (handleValidateTransaction updateWithoutCollectionIdText)).
Proof.
  unshelve refine (let H := update_collection_needs_creator_and_id
                              updateWithoutCollectionIdText _ 0 _ _ _ _ in _);
    [shelve | shelve
    | by_evaluation
    | do 2 eexists; repeat split; vm_compute; reflexivity
    | by_evaluation |].
  destruct H as (_ & Hid & Hwarning). split.
  - destruct Hid as (_ & Hvalid); [reflexivity|exact Hvalid].
  - apply (Hwarning "cosmos1x"); [reflexivity|discriminate|reflexivity].
Defined.
